(* ===== verification/_CoqProject ===== *)
-Q . S2P
Prelude.v
Types.v
Bytes.v
Hash.v
GlobalIndex.v
ClaimTypes.v
MerkleSpec.v
Schema.v
MerkleStore.v
Storage.v
PgMerkleStore.v
MerkleTree.v
MerkleTreeFacts.v
RollupTreeFacts.v
Toy.v
TreeTheorems.v
BridgeCtrl.v
Synchronizer.v
Invariants.v
StorageFacts.v
SyncFacts.v
ReorgFacts.v
SyncTheorems.v
Etherman.v
EthermanTheorems.v
SyncDeposits.v
SyncLET.v
SyncClaims.v
Service.v
ServiceTheorems.v
BackwardLET.v
ServicePages.v
NonceCache.v
MonitorTxs.v
MonitorFacts.v
MonitorTheorems.v
CompressedTxs.v
CompressedTheorems.v
CompressedStore.v
ClaimTxManager.v
ClaimStatus.v
ClaimTxFacts.v
ClaimTxTheorems.v
ClaimTxLoop.v
ClaimTxLoopTheorems.v
ClaimWitnesses.v
SyncRefinement.v
Hex.v
Json.v
JsonFacts.v
GoTime.v
Gateway.v
RpcClient.v
RpcTheorems.v
AutoClaim.v
AutoClaimTheorems.v
AutoClaimServed.v
AutoClaimWitnesses.v
SchemaInv.v
TreeKeeps.v
SchemaTheorems.v
SyncRange.v
SyncServed.v
SyncServedWitness.v
TxHistory.v
Startup.v
RpcWitness.v
Metrics.v
SyncMetrics.v
EthMetrics.v
ApiMetrics.v
MetricsFacts.v
MetricsUse.v
MetricsTheorems.v
MetricsService.v
MetricsWitness.v
Log.v
