(* ===== verification/Prelude.v ===== *)
(** * Verification of the zkEVM bridge service

    The bridge service follows the bridge contracts of one mainnet (network 0) and of
    its rollups, stores their events in PostgreSQL, rebuilds the exit trees of the
    contracts from the deposits, and serves the Merkle proofs with which a user claims
    a deposit on another network.

    ** The parts of the program and their models

    - etherman/etherman.go reads the logs of a block range and sorts the events into
      blocks with an order per block.  [Types]: the data of etherman/types.go, one
      record per struct; [GlobalIndex]: [DecodeGlobalIndex], [GenerateGlobalIndex];
      [Etherman]: [GetRollupInfoByBlockRange], [readEvents], the switch of
      [processEvent] with all its signatures, and every handler.
    - bridgectrl/ keeps the exit trees.  [Hash]: hash.go; [MerkleTree]: merkletree.go,
      the incremental tree with its in-memory frontier and the rollup exit tree that is
      rebuilt from all its leaves; [BridgeCtrl]: bridgectrl.go, the trees of all
      networks.  [MerkleStore] is the interface [merkleTreeStore] with the laws that
      the theorems of the trees are proved against.
    - db/pgstorage/ is the storage.  [Schema]: the tables, sequences, keys, foreign
      keys and cascades after the last migration, transactions, and a schedule of
      connection failures; [Storage]: one definition per method; [PgMerkleStore]: the
      storage implements [merkleTreeStore] and satisfies its laws.
    - synchronizer/synchronizer.go drives the rest.  [Synchronizer]: [Sync] and its
      pass, [syncBlocks], [processBlockRange], the handler of each event, [checkReorg],
      [resetState], the trusted global exit roots and the progress.
    - server/service.go answers requests.  [Service]: every method, on the database and
      an LRU cache of nodes.
    - claimtxman/ sends the claims to the rollup.  [ClaimTypes]: the records of
      types/monitoredtx.go; [NonceCache]: nonce_cache.go, the node, and the calls of
      utils/client.go in front of it; [MonitorTxs]: monitortxs.go, the monitor of single
      claim transactions; [CompressedTxs]: the monitor of grouped claims
      (monitor_compressed_txs.go, pending_txs.go, groups_trigger.go, store_changes.go,
      compose_compress_claim.go); [ClaimTxManager]: claimtxman.go, which makes deposits
      ready and creates their claim transactions, with [BuildSendClaim] of
      utils/client.go; [ClaimTxLoop]: the loop of [Start] with its goroutines as labelled
      steps, and monitorChannel of cmd/run.go, which takes its place when the manager is
      disabled.
    - autoclaimservice/ is a client of the service that claims on its own.  [AutoClaim]:
      a tick of autoclaim.go, one by one or in groups, and the calls of
      blockchainmanager/manager.go.  [Hex]: hex/hex.go and jsonrpcclient/types/types.go,
      with what they use of strconv, encoding/hex and math/big.
    - jsonrpcclient/ asks the trusted sequencer for its exit roots.  [RpcClient]:
      client.go, zkevm.go and the requests, responses and errors of types/, with the
      rules by which encoding/json stores a value in a variable, as an instance of the
      interface of the synchronizer; [Json]: the texts that encoding/json writes and
      accepts, with escapes, UTF-8 and the bound on nesting; [GoTime]: RFC 3339 times;
      [TxHistory]: the JSON column of a group and the remaining methods of
      claimtxman/types/monitoredtx.go.
    - server/server.go and cmd/run.go put the parts together.  [Gateway]: the handler in
      front of the REST server; [Startup]: the checks of config/config.go, the networks
      of config/network.go, the constructors of etherman.go, and the goroutines that
      start wires together.
    - metrics/ and log/ are used by all parts.  [Metrics]: metrics/prometheus.go, the maps
      of collectors beside the registry of Prometheus, with the floating-point numbers of
      the language; [SyncMetrics], [EthMetrics], [ApiMetrics]: the tables of metrics and the
      calls of the synchronizers, the event readers and the API; [Log]: log/log.go, the
      root logger and the functions and methods in front of zap.

    [Prelude] has the outcomes of a Go call (value, error, panic), the state monad in
    which the state survives an error, Go's indexing and integer conversions, and the
    automation; [Bytes] has big-endian strings; [Invariants] has invariants of monadic
    computations with the hint database [bridge].

    ** What the theorems show

    - [MerkleSpec] defines the tree of a list of leaves by recursion on the height.
      [MerkleTreeFacts], [RollupTreeFacts] and [TreeTheorems] relate the code to it:
      appending a leaf stores the reference root and the nodes of its path and keeps the
      frontier, also when the store fails half way; loading, rolling back and
      reorganising give the frontier of the stored leaves; the rollup exit root and its
      proofs are those of the reference tree; a path that verifies binds its leaf.
    - [SyncTheorems] ([StorageFacts], [SyncFacts], [ReorgFacts]): a block is stored with
      all its events or not at all, whatever fails; after an error of a block as the
      reader returns it, on a database that answers, the in-memory tree is the stored one
      again; a reset leaves exactly the tree of the deposits that
      stay; [checkReorg] finds the newest block that is still on the chain.
    - [SyncDeposits], [SyncLET], [SyncClaims]: the success paths of the handlers of
      deposits, of the forward and backward updates of a local exit tree, and of set
      and unset claims; the progress that is stored in each case, where it is a
      percentage and where it is not.
    - [EthermanTheorems]: the blocks and orders of the reader replay the events of the
      logs, in their order, with every position in range, which is what the theorem
      about failed blocks asks for; a claim is read with the position of its deposit.
    - [ServiceTheorems], [ServicePages]: the proofs served for a deposit, from the cache
      or from the storage, are sibling paths that verify in one level (mainnet) or two
      (rollups); a list request returns its page.  [BackwardLET]: the data of a backward
      update are a leaf with its path and the frontier of the shorter tree.
    - [MonitorFacts], [MonitorTheorems]: whatever the node and the database do, a pass of
      the monitor only edits the rows of open claim transactions, one edit per
      transaction; when a claim is confirmed, failed, or left alone; nonces are not
      given twice.  [CompressedTheorems]: a group has one transaction pending at most, and
      which candidates are grouped; [CompressedStore]: a pass stores exactly what it left
      in memory, or nothing.
    - [ClaimStatus], [ClaimTxFacts], [ClaimTxTheorems]: an exit root makes ready exactly
      the deposits that its trees contain, or nothing; only claims of claimable deposits
      are created, whatever fails, and each pending deposit gets one that verifies when
      nothing fails.  [ClaimTxLoopTheorems], by rule induction over the executions of
      [Start]: nothing is claimed before both networks are synced, and which exit roots
      are processed.  [ClaimWitnesses] has the concrete runs.
    - [AutoClaimTheorems], [AutoClaimServed], [AutoClaimWitnesses]: a tick ends, groups
      hold only claims that the contract accepts, and the messages of [Service] become
      the claims of their deposits.
    - [SyncRefinement]: the handlers of deposits and of updates of the local exit tree
      refine a list of leaves that is appended to and cut.  [SyncRange], [SyncServed],
      [SyncServedWitness]: a range of blocks, read through the reader, refines a ledger
      of leaves, claims and exit roots, and the service proves every leaf of it.
    - [JsonFacts]: the parser reads what the printer writes and ends on every text.
      [RpcTheorems], [RpcWitness]: what a node says over JSON-RPC is what the pass over
      the trusted state stores, announces or returns as an error; [TxHistory]: a stored
      history is read back, to the nanosecond.
    - [Gateway]: the requests that reach the API are those of the paths of the protocol
      file; [Startup]: an accepted configuration starts without a panic, one synchronizer
      and one receiver per rollup, on the same channels.
    - [MetricsFacts], [MetricsTheorems]: by rule induction over the calls of the package,
      its maps and the registry of Prometheus agree; [MetricsUse], [MetricsService]: the
      names of all metrics are valid and different, no sequence of registrations and
      updates panics, and a synchronizer updates the metrics of its network;
      [MetricsWitness] has a registry and a run with two networks.  [Log]: an entry names
      the code that logged it.
    - [SchemaInv], [TreeKeeps], [SchemaTheorems]: what PostgreSQL promises of the tables,
      serial columns, keys and references, is kept by every statement, so it holds through
      the runs of the synchronizer and of the manager: lemmas that justify the uniqueness
      of keys that theorems about the tables start from.

    Where the code fails its purpose a theorem says what it does: the last deposit
    count read through a broken connection, a rollup that returns to an earlier root,
    the progress of a pass that had nothing to do or of a chain that has grown, the last retry of a group, an exit
    root that replaces the one a goroutine was started for, transactions that stay open,
    a group of which no claim is accepted, a path with a quote in the body of a 404, two
    durations in one histogram, events that are counted for the wrong network, metrics of
    the API that are never registered.

    ** Parameters, bounds and fuel

    Keccak-256 ([Keccak256]; nothing is assumed, statements about binding exhibit a
    collision otherwise), ABI decoding ([AbiToken], [Bindings]), the node
    ([ethClienter], [ethermanInterface]), the trusted sequencer
    ([zkEVMClientInterface]), the LRU caches ([LruCache], [NonceLru] with their
    documented laws), the node and the contract of the claims ([L2Node],
    [L1Node], [ClaimCompressor], [BridgeAbi], [BridgeBinding]), the client and messages
    of the auto claim service ([HttpClient], [Protojson], [AutoContracts]), the HTTP
    client of the RPC client ([HttpPost]), the text and JSON of addresses and hashes
    ([CommonHex], [CommonFromHex], [HashJSON]), the zone of the machine ([TimeZone]), the
    multiplexer of grpc-gateway, dialling ([EthNodes]), Prometheus ([Prometheus] with the
    documented laws of its registry) and zap and tracerr ([LogLibs]) are code outside of the
    repository and are arguments of the definitions that use them.  [Toy] and the
    witnesses instantiate them.  Numbers keep the width of the source: conversions and counters wrap, and the
    theorems name the bounds they need (fewer than 2^32 deposits, a height of at most
    64, the length of the table of zero hashes).  Loops that the source does not bound,
    the retry of a rollback, the walk back over reorganised blocks, the passes of
    [syncBlocks], take a number of rounds; the theorems state how many are enough (one
    for a rollback without connection failures, one more than the stored blocks for
    [checkReorg], the number of bridges for [arraySplitter], twice the length of a text
    and two for the parser of JSON), and [OutOfFuel] is
    an outcome of its own that no theorem confuses with a result.  The order in which Go
    ranges over a map is the parameter [MapRange], a function of the keys: loops over the
    same keys have the same order.

    ** What is not modelled

    Pointers in the data of events are values: no event is shared and mutated after it
    is read.  A step of the loop of the manager is a case of its select or a call of a
    goroutine as a whole: the database calls of two steps are not interleaved.  A
    query fails as a whole or returns all its rows: that the code does not ask whether the
    reading of the rows ended early is a finding, not a behaviour of the model.  Times in the
    tables have the precision of the program, not the microseconds of the columns; the
    parameters of a statement are checked for the range of their type in [AddRemoveL2GER]
    only, and a subquery with several rows is an error whether its value is needed or not.
    The text of an error is modelled where the code compares it.  A raw JSON message is the value
    of its text, and the JSON string of a time has no escapes.  The calls of metrics and of
    the logger are not part of the models of their callers: they return nothing, and
    [MetricsService] shows that those of the metrics never panic.  Options of metrics have
    the fields that all kinds share.  Contexts and timeouts, opening connections and
    migrating the database, reading keystores and configuration files, listening, the
    health checks of gRPC and shutting down are calls of libraries and are left out, as are
    the generated bindings and messages and the functions of utils/client.go that only the
    tests call: what is left of them is the contracts and nodes that they call.

    ** Plan

    The parts that are left are calls of libraries, as listed above.  Worth stating on top:
    the completeness of the claims between rollups, as for those from mainnet; the messages
    of the REST server as JSON, so that the auto claim service is proved against their
    text. *)
From stdpp Require Export base list gmap strings numbers sorting pretty.
From Stdlib Require Export ZArith Lia.

#[global] Open Scope Z_scope.

(** ** Machine integers

    Go's unsigned integers wrap around; [u8], [u32] and [u64] are the conversions
    the source writes [uint8(x)], [uint32(x)], [uint64(x)]. *)
Definition u8 (z : Z) : Z := z mod 2 ^ 8.
Definition u32 (z : Z) : Z := z mod 2 ^ 32.
Definition u64 (z : Z) : Z := z mod 2 ^ 64.

Definition MaxUint32 : Z := 2 ^ 32 - 1.
Definition MaxUint64 : Z := 2 ^ 64 - 1.
Definition MaxInt32 : Z := 2 ^ 31 - 1.
Definition MaxInt64 : Z := 2 ^ 63 - 1.

(** ** Errors

    The sentinel errors of utils/gerror, [ethereum.NotFound], [ErrAlreadyExists] of
    claimtxman/types, the errors of the SQL driver, of a node ([ErrRPC]) and of a JSON-RPC
    endpoint ([ErrRPCError]), and the
    errors made by [fmt.Errorf] without ([Errorf]) and with ([Wrapf], the verb
    "%w") a wrapped cause. *)
Inductive sqlerr :=
| ErrUnique (constraint_name : string)
| ErrForeignKey (constraint_name : string)
| ErrCardinality
| ErrBind
| ErrTxAborted
| ErrTxClosed
| ErrTxCommitRollback
| ErrConn.

Inductive error :=
| ErrStorageNotFound
| ErrStorageNotRegister
| ErrNilDBTransaction
| ErrRestServerHealth
| ErrDepositNotSynced
| ErrNetworkNotRegister
| ErrL1GERNotFound
| ErrNoRows
| ErrEthereumNotFound
| ErrAlreadyExists
| ErrSQL (e : sqlerr)
| ErrRPC (msg : string)
| ErrRPCError (err : string) (code : Z) (data : option (list Z))
| Errorf (msg : string)
| Wrapf (msg : string) (cause : error).

#[global] Instance sqlerr_eq_dec : EqDecision sqlerr.
Proof. solve_decision. Defined.
#[global] Instance error_eq_dec : EqDecision error.
Proof. solve_decision. Defined.

(** [errors.Is]: the error itself or one of the errors it wraps. *)
Fixpoint errors_Is (e target : error) : bool :=
  bool_decide (e = target) ||
  match e with Wrapf _ c => errors_Is c target | _ => false end.

(** ** Outcomes and the state monad

    A Go call returns a value, returns an error, or panics.  [OutOfFuel] is the
    outcome of a bounded unrolling of a loop the source does not bound. *)
Inductive result (A : Type) :=
| Ok (a : A)
| Err (e : error)
| Panic
| OutOfFuel.
Arguments Ok {_} _.
Arguments Err {_} _.
Arguments Panic {_}.
Arguments OutOfFuel {_}.

#[global] Instance result_ret : MRet result := λ _ a, Ok a.
#[global] Instance result_bind : MBind result := λ _ _ f m,
  match m with Ok a => f a | Err e => Err e | Panic => Panic | OutOfFuel => OutOfFuel end.

(** Stateful code: the state survives an error, as the fields of a Go object do. *)
Definition M (S A : Type) : Type := S → result A * S.

#[global] Instance M_ret {S} : MRet (M S) := λ _ a s, (Ok a, s).
#[global] Instance M_bind {S} : MBind (M S) := λ _ _ f m s,
  match m s with
  | (Ok a, s') => f a s'
  | (Err e, s') => (Err e, s')
  | (Panic, s') => (Panic, s')
  | (OutOfFuel, s') => (OutOfFuel, s')
  end.

Definition throw {S A} (e : error) : M S A := λ s, (Err e, s).
Definition gopanic {S A} : M S A := λ s, (Panic, s).
Definition get {S} : M S S := λ s, (Ok s, s).
Definition put {S} (s' : S) : M S unit := λ _, (Ok tt, s').
Definition gets {S A} (f : S → A) : M S A := λ s, (Ok (f s), s).
Definition modify {S} (f : S → S) : M S unit := λ s, (Ok tt, f s).

(** [x, err := c]: the code goes on with the error in its hands. *)
Definition attempt {S A} (c : M S A) : M S (error + A) := λ s,
  match c s with
  | (Ok a, s') => (Ok (inr a), s')
  | (Err e, s') => (Ok (inl e), s')
  | (Panic, s') => (Panic, s')
  | (OutOfFuel, s') => (OutOfFuel, s')
  end.

(** A pure computation that may fail, run in any state. *)
Definition lift {S A} (r : result A) : M S A := λ s, (r, s).

(** Run a computation on a part of the state. *)
Definition zoom {W S A} (g : W → S) (p : S → W → W) (c : M S A) : M W A := λ w,
  let '(r, s) := c (g w) in (r, p s w).

(** Go's index expression [l[i]]: out of range panics. *)
Definition at_index {A} (l : list A) (i : Z) : result A :=
  if decide (0 ≤ i) then
    match l !! Z.to_nat i with Some x => Ok x | None => Panic end
  else Panic.

(** [l[i] = x]: out of range panics. *)
Definition set_index {A} (l : list A) (i : Z) (x : A) : result (list A) :=
  if decide (0 ≤ i < Z.of_nat (length l)) then Ok (<[Z.to_nat i := x]> l) else Panic.

(** A query for one row: no row is [ErrStorageNotFound]. *)
Definition or_not_found {A} (o : option A) : result A :=
  match o with Some a => Ok a | None => Err ErrStorageNotFound end.

(** A loop over a list that carries a value and may fail. *)
Fixpoint fold_result {A B} (f : B → A → result B) (b : B) (l : list A) : result B :=
  match l with
  | [] => Ok b
  | x :: l' => b' ← f b x; fold_result f b' l'
  end.

(** [for _, x := range l]: run the body on every element, stop at an error. *)
Fixpoint forM_ {S A} (l : list A) (body : A → M S unit) : M S unit :=
  match l with
  | [] => mret tt
  | x :: l' => body x ;; forM_ l' body
  end.

(** [ORDER BY key ASC]: a stable insertion sort. *)
Fixpoint insert_by {A} (key : A → Z) (x : A) (l : list A) : list A :=
  match l with
  | [] => [x]
  | y :: l' => if decide (key x ≤ key y) then x :: y :: l' else y :: insert_by key x l'
  end.
Definition sort_by {A} (key : A → Z) (l : list A) : list A := foldr (insert_by key) [] l.

(** [ORDER BY key DESC]. *)
Definition sort_desc {A} (key : A → Z) (l : list A) : list A := sort_by (λ x, - key x) l.

(** [LIMIT n OFFSET k]. *)
Definition limit_offset {A} (n k : Z) (l : list A) : list A := take (Z.to_nat n) (drop (Z.to_nat k) l).

(** [coalesce(MAX(x), -1)] of non-negative values. *)
Definition max_or_neg1 (l : list Z) : Z := foldr Z.max (-1) l.

(** ** Proof automation *)
Create HintDb bridge.

(** Decompose a hypothesis [c s = (r, s')] about a monadic computation: one step of
    a bind, with one case per outcome of its first computation. *)
Ltac mstep H :=
  unfold mbind at 1 in H; unfold M_bind at 1 in H; cbn beta in H;
  lazymatch type of H with
  | (match ?c with _ => _ end) = _ =>
      let r := fresh "r" in let s' := fresh "s" in let E := fresh "E" in
      destruct c as [r s'] eqn:E; cbn beta iota in H;
      destruct r
  end; cbn beta iota in H; simplify_eq.

(** Split every conditional and match of the goal and the hypotheses. *)
Ltac case_all :=
  repeat (case_match || case_decide); simplify_eq/=.

(** ** Generic lemmas *)

(** One step of a computation whose outcome is known. *)
Lemma M_bind_Ok {S A B} (m : M S A) (f : A → M S B) s a s' :
  m s = (Ok a, s') → (m ≫= f) s = f a s'.
Proof. intros E. unfold mbind, M_bind. by rewrite E. Qed.

Lemma M_bind_Err {S A B} (m : M S A) (f : A → M S B) s e s' :
  m s = (Err e, s') → (m ≫= f) s = (Err e, s').
Proof. intros E. unfold mbind, M_bind. by rewrite E. Qed.

Lemma M_bind_assoc {S A B D} (m : M S A) (f : A → M S B) (g : B → M S D) s :
  ((m ≫= f) ≫= g) s = (m ≫= λ a, f a ≫= g) s.
Proof. unfold mbind, M_bind. by destruct (m s) as [[] ?]. Qed.

Lemma attempt_Ok {S A} (m : M S A) s a s' : m s = (Ok a, s') → attempt m s = (Ok (inr a), s').
Proof. intros E. unfold attempt. by rewrite E. Qed.

Lemma attempt_Err {S A} (m : M S A) s e s' : m s = (Err e, s') → attempt m s = (Ok (inl e), s').
Proof. intros E. unfold attempt. by rewrite E. Qed.

Lemma u32_id z : 0 ≤ z < 2 ^ 32 → u32 z = z.
Proof. apply Z.mod_small. Qed.
Lemma u32_range z : 0 ≤ u32 z < 2 ^ 32.
Proof. apply Z.mod_pos_bound. lia. Qed.
Lemma u8_id z : 0 ≤ z < 2 ^ 8 → u8 z = z.
Proof. apply Z.mod_small. Qed.
Lemma u64_id z : 0 ≤ z < 2 ^ 64 → u64 z = z.
Proof. apply Z.mod_small. Qed.

Lemma at_index_nat {A} (l : list A) (i : nat) x :
  l !! i = Some x → at_index l (Z.of_nat i) = Ok x.
Proof.
  intros H. unfold at_index. rewrite decide_True by lia.
  by rewrite Nat2Z.id, H.
Qed.

Lemma at_index_Ok {A} (l : list A) i x :
  at_index l i = Ok x ↔ 0 ≤ i ∧ l !! Z.to_nat i = Some x.
Proof.
  unfold at_index. case_decide; [|split; [done|lia]].
  case_match; split; (intros [= ->] || intros [_ [= ->]]); done.
Qed.

Lemma set_index_Ok {A} (l : list A) (i : nat) x :
  (i < length l)%nat → set_index l (Z.of_nat i) x = Ok (<[i := x]> l).
Proof. intros. unfold set_index. rewrite decide_True by lia. by rewrite Nat2Z.id. Qed.

Lemma fold_result_app {A B} (f : B → A → result B) b l1 l2 :
  fold_result f b (l1 ++ l2) = (b' ← fold_result f b l1; fold_result f b' l2).
Proof.
  revert b. induction l1 as [|x l1 IH]; intros b; [done|]. cbn [app fold_result].
  destruct (f b x); [|done..]. apply IH.
Qed.

Lemma Ok_inj {A} (a b : A) : Ok a = Ok b → a = b.
Proof. congruence. Qed.

Lemma insert_by_perm {A} (key : A → Z) x l : insert_by key x l ≡ₚ x :: l.
Proof.
  induction l as [|y l IH]; simpl; [done|]. case_decide; [done|].
  rewrite IH. by rewrite Permutation_swap.
Qed.

Lemma sort_by_perm {A} (key : A → Z) l : sort_by key l ≡ₚ l.
Proof. induction l as [|x l IH]; simpl; [done|]. by rewrite insert_by_perm, IH. Qed.

Lemma sort_by_elem {A} (key : A → Z) l x : x ∈ sort_by key l ↔ x ∈ l.
Proof. by rewrite sort_by_perm. Qed.

Lemma sort_desc_elem {A} (key : A → Z) l x : x ∈ sort_desc key l ↔ x ∈ l.
Proof. apply sort_by_elem. Qed.

Lemma insert_by_sorted {A} (key : A → Z) x l :
  StronglySorted (λ a b, key a ≤ key b) l → StronglySorted (λ a b, key a ≤ key b) (insert_by key x l).
Proof.
  induction 1 as [|y l Hl IH Hy]; simpl; [repeat constructor|].
  case_decide as Hxy.
  - constructor; [by constructor|]. constructor; [done|].
    eapply Forall_impl; [done|]. simpl. lia.
  - constructor; [done|]. rewrite Forall_forall. intros z Hz.
    rewrite insert_by_perm in Hz. rewrite Forall_forall in Hy.
    apply elem_of_cons in Hz as [->|?]; [lia|auto].
Qed.

Lemma sort_by_sorted {A} (key : A → Z) l : StronglySorted (λ a b, key a ≤ key b) (sort_by key l).
Proof. induction l; simpl; [constructor|]. by apply insert_by_sorted. Qed.

Lemma StronglySorted_sublist {A} (R : A → A → Prop) (l l' : list A) :
  l `sublist_of` l' → StronglySorted R l' → StronglySorted R l.
Proof.
  induction 1 as [|x l l' Hs IH|x l l' Hs IH]; intros Hl; [constructor|..]; apply StronglySorted_inv in Hl as [Hl Hx]; [|by apply IH].
  constructor; [by apply IH|]. rewrite Forall_forall in *. intros y Hy. apply Hx. by eapply elem_of_sublist.
Qed.

(** The first row of [ORDER BY key DESC]: a row with the greatest key. *)
Lemma sort_desc_head {A} (key : A → Z) l x l' :
  sort_desc key l = x :: l' → x ∈ l ∧ ∀ y, y ∈ l → key y ≤ key x.
Proof.
  intros E. assert (x ∈ sort_desc key l) as Hx by (rewrite E; left).
  split; [by apply sort_desc_elem in Hx|]. intros y Hy.
  apply (sort_desc_elem key) in Hy. rewrite E in Hy.
  pose proof (sort_by_sorted (λ x, - key x) l) as Hs. unfold sort_desc in E. rewrite E in Hs.
  apply elem_of_cons in Hy as [->|Hy]; [lia|].
  apply StronglySorted_inv in Hs as [_ Hs]. rewrite Forall_forall in Hs. specialize (Hs y Hy). simpl in Hs. lia.
Qed.

(** Sorting a sorted list changes nothing. *)
Lemma sort_by_id {A} (key : A → Z) l :
  StronglySorted (λ a b, key a ≤ key b) l → sort_by key l = l.
Proof.
  induction 1 as [|x l Hl IH Hx]; [done|]. cbn. fold (sort_by key l). rewrite IH.
  destruct l as [|y l]; [done|]. simpl. rewrite decide_True; [done|]. by inversion Hx.
Qed.

Lemma filter_none {A} (P : A → Prop) `{∀ x, Decision (P x)} (l : list A) :
  (∀ x, x ∈ l → ¬ P x) → filter P l = [].
Proof.
  induction l as [|x l IH]; intros Hl; [done|]. rewrite filter_cons, decide_False by (apply Hl; left).
  apply IH. intros y Hy. apply Hl. by right.
Qed.

Lemma filter_all {A} (P : A → Prop) `{∀ x, Decision (P x)} (l : list A) :
  (∀ x, x ∈ l → P x) → filter P l = l.
Proof.
  induction l as [|x l IH]; intros Hl; [done|]. rewrite filter_cons, decide_True by (apply Hl; left).
  f_equal. apply IH. intros y Hy. apply Hl. by right.
Qed.

Lemma StronglySorted_lookup {A} (R : A → A → Prop) (l : list A) :
  (∀ i j x y, l !! i = Some x → l !! j = Some y → (i < j)%nat → R x y) → StronglySorted R l.
Proof.
  induction l as [|x l IH]; intros Hl; constructor.
  - apply IH. intros i j a b Hi Hj Hij. apply (Hl (S i) (S j)); [done..|lia].
  - apply Forall_forall. intros y [j Hj]%list_elem_of_lookup. apply (Hl 0%nat (S j)); [done..|lia].
Qed.
