(* ===== verification/Types.v ===== *)
(** * Data model (etherman/types.go, the event order of etherman/etherman.go)

    One record per Go struct, with the fields in the order of the source and a
    short prefix per struct.  A [common.Hash], a [\[32\]byte] and a
    [common.Address] are the number their big-endian bytes write; a [[]byte] is the
    list of its bytes; a [*big.Int] is a [Z]; a uint is the [Z] in its range. *)
From S2P Require Import Prelude.

Abbreviation Hash := Z (only parsing).
Abbreviation Address := Z (only parsing).
Abbreviation bytes := (list Z) (only parsing).

Record GlobalExitRoot := mkGlobalExitRoot {
  g_BlockID : Z;
  g_BlockNumber : Z;
  g_ExitRoots : list Hash;
  g_GlobalExitRoot : Hash;
  g_NetworkID : Z;
  g_ID : Z
}.

Record Deposit := mkDeposit {
  d_Id : Z;
  d_LeafType : Z;
  d_OriginalNetwork : Z;
  d_OriginalAddress : Address;
  d_Amount : Z;
  d_DestinationNetwork : Z;
  d_DestinationAddress : Address;
  d_DepositCount : Z;
  d_BlockID : Z;
  d_BlockNumber : Z;
  d_NetworkID : Z;
  d_TxHash : Hash;
  d_Metadata : bytes;
  d_ReadyForClaim : bool
}.

Record Claim := mkClaim {
  c_MainnetFlag : bool;
  c_RollupIndex : Z;
  c_Index : Z;
  c_OriginalNetwork : Z;
  c_OriginalAddress : Address;
  c_Amount : Z;
  c_DestinationAddress : Address;
  c_BlockID : Z;
  c_BlockNumber : Z;
  c_NetworkID : Z;
  c_TxHash : Hash;
  c_GlobalIndex : string
}.

Record TokenMetadata := mkTokenMetadata {
  tm_Name : string;
  tm_Symbol : string;
  tm_Decimals : Z
}.

Record TokenWrapped := mkTokenWrapped {
  t_TokenMetadata : TokenMetadata;
  t_OriginalNetwork : Z;
  t_OriginalTokenAddress : Address;
  t_WrappedTokenAddress : Address;
  t_BlockID : Z;
  t_BlockNumber : Z;
  t_NetworkID : Z
}.

Record VerifiedBatch := mkVerifiedBatch {
  v_BlockNumber : Z;
  v_BatchNumber : Z;
  v_RollupID : Z;
  v_LocalExitRoot : Hash;
  v_TxHash : Hash;
  v_StateRoot : Hash;
  v_Aggregator : Address
}.

Record RollupExitLeaf := mkRollupExitLeaf {
  r_ID : Z;
  r_BlockID : Z;
  r_Leaf : Hash;
  r_RollupId : Z;
  r_Root : Hash
}.

Record SyncStatus := mkSyncStatus {
  s_NetworkID : Z;
  s_Percentage : Z;
  s_RemainingBlocks : Z;
  s_Synced : bool
}.

Record UnsetClaim := mkUnsetClaim {
  uc_BlockID : Z;
  uc_MainnetFlag : bool;
  uc_RollupIndex : Z;
  uc_Index : Z;
  uc_GlobalIndex : Z
}.

Record SetClaim := mkSetClaim {
  sc_BlockID : Z;
  sc_MainnetFlag : bool;
  sc_RollupIndex : Z;
  sc_Index : Z;
  sc_GlobalIndex : Z;
  sc_TxHash : Hash
}.

Record BackwardLET := mkBackwardLET {
  bl_BlockID : Z;
  bl_PreviousDepositCount : Z;
  bl_PreviousRoot : Hash;
  bl_NewDepositCount : Z;
  bl_NewRoot : Hash
}.

Record LeafData := mkLeafData {
  l_LeafType : Z;
  l_OriginNetwork : Z;
  l_OriginAddress : Address;
  l_DestinationNetwork : Z;
  l_DestinationAddress : Address;
  l_Amount : Z;
  l_Metadata : bytes
}.

Record ForwardLET := mkForwardLET {
  fl_BlockID : Z;
  fl_PreviousDepositCount : Z;
  fl_PreviousRoot : Hash;
  fl_NewDepositCount : Z;
  fl_NewRoot : Hash;
  fl_NewRawLeaves : bytes;
  fl_NewLeaves : list LeafData;
  fl_TxHash : Hash
}.

Record Block := mkBlock {
  b_ID : Z;
  b_BlockNumber : Z;
  b_BlockHash : Hash;
  b_NetworkID : Z;
  b_GlobalExitRoots : list GlobalExitRoot;
  b_RemoveL2GER : list GlobalExitRoot;
  b_Deposits : list Deposit;
  b_Claims : list Claim;
  b_Tokens : list TokenWrapped;
  b_VerifiedBatches : list VerifiedBatch;
  b_UnsetClaims : list UnsetClaim;
  b_SetClaims : list SetClaim;
  b_BackwardLETs : list BackwardLET;
  b_ForwardLETs : list ForwardLET
}.

(** [Block{BlockNumber: n, BlockHash: h}]: the other fields at their zero value. *)
Definition emptyBlock (n : Z) (h : Hash) : Block :=
  mkBlock 0 n h 0 [] [] [] [] [] [] [] [] [] [].

(** The names of the events, which tell the synchronizer what to store next. *)
Inductive EventOrder :=
| GlobalExitRootsOrder
| RemoveL2GEROrder
| DepositsOrder
| ClaimsOrder
| TokensOrder
| VerifyBatchOrder
| UnsetClaimOrder
| BackwardLETOrder
| ForwardLETOrder
| SetClaimOrder.

Record Order := mkOrder { o_Name : EventOrder; o_Pos : Z }.

#[global] Instance EventOrder_eq_dec : EqDecision EventOrder.
Proof. solve_decision. Defined.
#[global] Instance Order_eq_dec : EqDecision Order.
Proof. solve_decision. Defined.
#[global] Instance LeafData_eq_dec : EqDecision LeafData.
Proof. solve_decision. Defined.
#[global] Instance GlobalExitRoot_eq_dec : EqDecision GlobalExitRoot.
Proof. solve_decision. Defined.
#[global] Instance Deposit_eq_dec : EqDecision Deposit.
Proof. solve_decision. Defined.
#[global] Instance RollupExitLeaf_eq_dec : EqDecision RollupExitLeaf.
Proof. solve_decision. Defined.
