(* ===== verification/Bytes.v ===== *)
(** * Big-endian byte strings

    What the source uses of encoding/binary and math/big: [BigEndian.PutUint32],
    [Int.FillBytes] and [Int.SetBytes]. *)
From S2P Require Import Prelude Types.

(** The [n] low bytes of [z], most significant first. *)
Fixpoint be_bytes (n : nat) (z : Z) : bytes :=
  match n with
  | O => []
  | S n' => be_bytes n' (z / 256) ++ [z mod 256]
  end.

(** [new(big.Int).SetBytes(bs)]. *)
Definition SetBytes (bs : bytes) : Z := foldl (λ acc b, acc * 256 + b) 0 bs.

(** [x.FillBytes(buf)] with [len(buf) = n]: the absolute value of [x]; panics when
    it does not fit. *)
Definition FillBytes (n : nat) (x : Z) : result bytes :=
  if decide (Z.abs x < 256 ^ Z.of_nat n) then Ok (be_bytes n (Z.abs x)) else Panic.

Definition is_byte (b : Z) : Prop := 0 ≤ b < 256.

Lemma pow256_S n : 256 ^ Z.of_nat (S n) = 256 * 256 ^ Z.of_nat n.
Proof. rewrite Nat2Z.inj_succ, Z.pow_succ_r by lia. done. Qed.

Lemma be_bytes_length n z : length (be_bytes n z) = n.
Proof. revert z; induction n as [|n IH]; intros z; simpl; [done|]. rewrite length_app, IH. simpl. lia. Qed.

Lemma be_bytes_byte n z : Forall is_byte (be_bytes n z).
Proof.
  revert z; induction n as [|n IH]; intros z; simpl; [constructor|].
  apply Forall_app; split; [apply IH|]. repeat constructor; unfold is_byte;
  pose proof (Z.mod_pos_bound z 256); lia.
Qed.

Lemma SetBytes_app l1 l2 : SetBytes (l1 ++ l2) = SetBytes l1 * 256 ^ Z.of_nat (length l2) + SetBytes l2.
Proof.
  unfold SetBytes. rewrite foldl_app. generalize (foldl (λ acc b, acc * 256 + b) 0 l1) as a.
  induction l2 as [|b l2 IH] using rev_ind; intros a; simpl; [lia|].
  rewrite !foldl_app, length_app, Nat.add_1_r, pow256_S; simpl. rewrite IH. lia.
Qed.

Lemma SetBytes_be_bytes n z : SetBytes (be_bytes n z) = z mod 256 ^ Z.of_nat n.
Proof.
  revert z; induction n as [|n IH]; intros z; simpl be_bytes.
  - by rewrite Z.mod_1_r.
  - rewrite SetBytes_app, IH, pow256_S.
    change (SetBytes [z mod 256]) with (z mod 256).
    change (256 ^ Z.of_nat (length [z mod 256])) with 256.
    rewrite (Z.rem_mul_r z 256) by lia. lia.
Qed.

Lemma be_bytes_inj n z1 z2 :
  0 ≤ z1 < 256 ^ Z.of_nat n → 0 ≤ z2 < 256 ^ Z.of_nat n →
  be_bytes n z1 = be_bytes n z2 → z1 = z2.
Proof.
  intros H1 H2 Heq. apply (f_equal SetBytes) in Heq.
  by rewrite !SetBytes_be_bytes, !Z.mod_small in Heq.
Qed.

Lemma be_bytes_app n m z :
  be_bytes (n + m) z = be_bytes n (z / 256 ^ Z.of_nat m) ++ be_bytes m z.
Proof.
  revert z; induction m as [|m IH]; intros z.
  - rewrite Nat.add_0_r, app_nil_r. by rewrite Z.div_1_r.
  - rewrite Nat.add_succ_r. simpl be_bytes. rewrite IH, app_assoc, pow256_S.
    rewrite Z.div_div by lia. done.
Qed.

Lemma FillBytes_Ok n x : 0 ≤ x < 256 ^ Z.of_nat n → FillBytes n x = Ok (be_bytes n x).
Proof. intros H. unfold FillBytes. rewrite Z.abs_eq, decide_True by lia. done. Qed.
