(* ===== verification/Hash.v ===== *)
(** * Hashes (bridgectrl/hash.go)

    Keccak-256 is code of golang.org/x/crypto and go-iden3-crypto: the parameter
    [keccak256] of the model.  Nothing is assumed of it; where a statement relies on
    collision resistance it says so, by exhibiting the collision otherwise. *)
From S2P Require Import Prelude Types Bytes.

Class Keccak256 := keccak256 : bytes → Hash.

Section Hash.
Context `{K : Keccak256}.

(** [Hash(data ...[KeyLen]byte)]. *)
Definition HashN (data : list Hash) : Hash := keccak256 (concat (be_bytes 32 <$> data)).

Definition HashZero : Hash := 0.

Definition generateZeroHashes (height : Z) : list Hash :=
  foldl (λ zh i, zh ++ [HashN [zh !!! (i - 1)%nat; zh !!! (i - 1)%nat]])
        [HashZero] (seq 1 (Z.to_nat height)).

(** The package variable, set by [init]. *)
Definition zeroHashes : list Hash := generateZeroHashes 64.

(** The bytes hashed for a deposit leaf. *)
Definition depositPreimage (deposit : Deposit) : result bytes :=
  amount ← FillBytes 32 (d_Amount deposit);
  let metaHash := keccak256 (d_Metadata deposit) in
  Ok ([d_LeafType deposit]
      ++ be_bytes 4 (d_OriginalNetwork deposit)
      ++ be_bytes 20 (d_OriginalAddress deposit)
      ++ be_bytes 4 (d_DestinationNetwork deposit)
      ++ be_bytes 20 (d_DestinationAddress deposit)
      ++ amount
      ++ be_bytes 32 metaHash).

Definition HashDeposit (deposit : Deposit) : result Hash :=
  pre ← depositPreimage deposit; Ok (keccak256 pre).

(** The zero hash of a level: the root of an empty tree of that height. *)
Fixpoint zero_hash (h : nat) : Hash :=
  match h with O => HashZero | S h' => HashN [zero_hash h'; zero_hash h'] end.

(** Two different byte strings with the same hash. *)
Definition collide (b1 b2 : bytes) : Prop := b1 ≠ b2 ∧ keccak256 b1 = keccak256 b2.

(** The fields of a deposit the contract's leaf commits to, in their Go ranges. *)
Definition deposit_wf (d : Deposit) : Prop :=
  0 ≤ d_LeafType d < 2 ^ 8 ∧ 0 ≤ d_OriginalNetwork d < 2 ^ 32 ∧
  0 ≤ d_OriginalAddress d < 2 ^ 160 ∧ 0 ≤ d_DestinationNetwork d < 2 ^ 32 ∧
  0 ≤ d_DestinationAddress d < 2 ^ 160 ∧ 0 ≤ d_Amount d < 2 ^ 256 ∧
  0 ≤ keccak256 (d_Metadata d) < 2 ^ 256.

Definition leaf_fields (d : Deposit) : LeafData :=
  mkLeafData (d_LeafType d) (d_OriginalNetwork d) (d_OriginalAddress d)
    (d_DestinationNetwork d) (d_DestinationAddress d) (d_Amount d) (d_Metadata d).

Lemma zeroHashes_spec n i :
  (i ≤ n)%nat → generateZeroHashes (Z.of_nat n) !! i = Some (zero_hash i).
Proof.
  unfold generateZeroHashes. rewrite Nat2Z.id.
  assert (∀ m, let zh := foldl (λ zh i, zh ++ [HashN [zh !!! (i - 1)%nat; zh !!! (i - 1)%nat]])
                               [HashZero] (seq 1 m) in
               length zh = S m ∧ ∀ j, (j ≤ m)%nat → zh !! j = Some (zero_hash j)) as Hgen.
  { induction m as [|m [IHl IH]]; simpl.
    - split; [done|]. intros j ?. by replace j with 0%nat by lia.
    - change (foldl _ _ _) with (foldl (λ zh i, zh ++ [HashN [zh !!! (i - 1)%nat; zh !!! (i - 1)%nat]])
                                       [HashZero] (seq 1 (S m))).
      rewrite seq_S, foldl_app. simpl.
      set (zh := foldl _ [HashZero] (seq 1 m)) in *. simpl in IHl, IH.
      split; [rewrite length_app, IHl; simpl; lia|]. intros j Hj.
      destruct (decide (j ≤ m)%nat) as [Hle|Hgt].
      + rewrite lookup_app_l by lia. by apply IH.
      + replace j with (S m) by lia. rewrite lookup_app_r by lia.
        rewrite IHl, Nat.sub_diag. simpl. rewrite Nat.sub_0_r.
        rewrite (list_lookup_total_correct _ _ _ (IH m (le_n m))). done. }
  intros Hi. by apply Hgen.
Qed.

Lemma zeroHashes_lookup i : (i ≤ 64)%nat → zeroHashes !! i = Some (zero_hash i).
Proof. apply (zeroHashes_spec 64). Qed.

Lemma zeroHashes_length : length zeroHashes = 65%nat.
Proof. reflexivity. Qed.

Lemma depositPreimage_Ok d :
  deposit_wf d → ∃ pre, depositPreimage d = Ok pre ∧ length pre = 113%nat.
Proof.
  intros (?&?&?&?&?&?&?). unfold depositPreimage. rewrite FillBytes_Ok by (simpl; lia).
  eexists. split; [reflexivity|]. rewrite !length_app, !be_bytes_length. done.
Qed.

Lemma app_inv_length {A} (l1 l2 k1 k2 : list A) :
  length l1 = length l2 → l1 ++ k1 = l2 ++ k2 → l1 = l2 ∧ k1 = k2.
Proof. intros. by apply app_inj_1. Qed.

Lemma depositPreimage_inj d1 d2 pre :
  deposit_wf d1 → deposit_wf d2 →
  depositPreimage d1 = Ok pre → depositPreimage d2 = Ok pre →
  keccak256 (d_Metadata d1) = keccak256 (d_Metadata d2) ∧
  d_LeafType d1 = d_LeafType d2 ∧ d_OriginalNetwork d1 = d_OriginalNetwork d2 ∧
  d_OriginalAddress d1 = d_OriginalAddress d2 ∧
  d_DestinationNetwork d1 = d_DestinationNetwork d2 ∧
  d_DestinationAddress d1 = d_DestinationAddress d2 ∧ d_Amount d1 = d_Amount d2.
Proof.
  intros (?&?&?&?&?&?&?) (?&?&?&?&?&?&?). unfold depositPreimage.
  rewrite !FillBytes_Ok by (simpl; lia). cbn [mbind result_bind].
  intros HP1 HP2. rewrite <- HP2 in HP1. apply Ok_inj in HP1 as Heq. clear HP1 HP2.
  apply app_inv_length in Heq as [Hl Heq]; [|done]. assert (d_LeafType d1 = d_LeafType d2) by congruence.
  repeat match type of Heq with
  | _ ++ _ = _ ++ _ =>
      let E := fresh "E" in
      apply app_inv_length in Heq as [E Heq];
      [apply be_bytes_inj in E; [|simpl; lia..] | by rewrite !be_bytes_length]
  end.
  apply be_bytes_inj in Heq; [|simpl; lia..]. by repeat split.
Qed.

End Hash.

(** C39: two well-formed deposits with the same leaf hash have the same leaf fields,
    unless the two 113-byte strings that [HashDeposit] lays out, or the metadata of
    the two deposits, collide: the layout separates the fields of a deposit. *)
Theorem HashDeposit_binding `{K : Keccak256} (d1 d2 : Deposit) :
  deposit_wf d1 → deposit_wf d2 → HashDeposit d1 = HashDeposit d2 →
  leaf_fields d1 = leaf_fields d2 ∨
  collide (d_Metadata d1) (d_Metadata d2) ∨
  ∃ p1 p2, depositPreimage d1 = Ok p1 ∧ depositPreimage d2 = Ok p2 ∧ length p1 = 113%nat ∧
           length p2 = 113%nat ∧ collide p1 p2.
Proof.
  intros W1 W2 Heq. unfold HashDeposit in Heq.
  destruct (depositPreimage_Ok d1 W1) as (p1&E1&L1), (depositPreimage_Ok d2 W2) as (p2&E2&L2).
  rewrite E1, E2 in Heq. apply Ok_inj in Heq.
  destruct (decide (p1 = p2)) as [->|Hne]; [|right; right; by exists p1, p2].
  destruct (depositPreimage_inj d1 d2 p2 W1 W2 E1 E2) as (Hm&?&?&?&?&?&?).
  destruct (decide (d_Metadata d1 = d_Metadata d2)); [|by right; left].
  left. unfold leaf_fields. congruence.
Qed.

(** A small executable hash function, in the place of Keccak-256 in the witnesses. *)
Definition toy_keccak : Keccak256 := foldl (λ acc b, (acc * 257 + b + 1) mod (2 ^ 61 - 1)) 7.

Lemma HashDeposit_binding_witness :
  let d1 := mkDeposit 1 0 0 100 5 1 200 0 1 10 0 77 [1; 2; 3] false in
  let d2 := mkDeposit 9 0 0 100 5 1 200 4 2 11 0 78 [1; 2; 3] true in
  leaf_fields d1 = leaf_fields d2 ∨
  collide (K := toy_keccak) (d_Metadata d1) (d_Metadata d2) ∨
  ∃ p1 p2, depositPreimage (K := toy_keccak) d1 = Ok p1 ∧ depositPreimage (K := toy_keccak) d2 = Ok p2 ∧
           length p1 = 113%nat ∧ length p2 = 113%nat ∧ collide (K := toy_keccak) p1 p2.
Proof.
  apply (HashDeposit_binding (K := toy_keccak)
           (mkDeposit 1 0 0 100 5 1 200 0 1 10 0 77 [1; 2; 3] false)
           (mkDeposit 9 0 0 100 5 1 200 4 2 11 0 78 [1; 2; 3] true));
    [repeat split; by vm_compute..|by vm_compute].
Defined.
