(* ===== verification/GlobalIndex.v ===== *)
(** * Global indices (etherman/etherman.go: DecodeGlobalIndex, GenerateGlobalIndex)

    A claim is identified by a 256-bit global index: a mainnet flag, the index of
    the rollup and the index of the leaf in its local exit tree. *)
From S2P Require Import Prelude Types Bytes.

Definition DecodeGlobalIndex (globalIndex : Z) : result (bool * Z * Z) :=
  gIBytes ← FillBytes 32 globalIndex;
  if decide (length gIBytes ≠ 32%nat) then Err (Errorf "invalid globaIndex length") else
  b23 ← at_index gIBytes 23;
  let mainnetFlag := bool_decide (SetBytes [b23] = 1) in
  let rollupIndex := SetBytes (take 4 (drop 24 gIBytes)) in
  let localRootIndex := SetBytes (take 4 (drop 28 gIBytes)) in
  if decide (u64 rollupIndex > MaxUint32) then Err (Errorf "invalid rollupIndex length") else
  if decide (u64 localRootIndex > MaxUint32) then Err (Errorf "invalid localRootIndex length") else
  Ok (mainnetFlag, u32 (u64 rollupIndex), u32 (u64 localRootIndex)).

Definition GenerateGlobalIndex (mainnetFlag : bool) (rollupIndex localExitRootIndex : Z) : result Z :=
  globalIndexBytes ←
    (if mainnetFlag then
       ri ← FillBytes 4 0; Ok ([1] ++ ri)
     else
       ri ← FillBytes 4 rollupIndex; Ok ri);
  leri ← FillBytes 4 localExitRootIndex;
  Ok (SetBytes (globalIndexBytes ++ leri)).

(** The number the fields of a global index stand for. *)
Definition globalIndexValue (mainnetFlag : bool) (rollupIndex localExitRootIndex : Z) : Z :=
  if mainnetFlag then 2 ^ 64 + localExitRootIndex else rollupIndex * 2 ^ 32 + localExitRootIndex.

Lemma GenerateGlobalIndex_value m r l :
  0 ≤ r < 2 ^ 32 → 0 ≤ l < 2 ^ 32 → GenerateGlobalIndex m r l = Ok (globalIndexValue m r l).
Proof.
  intros Hr Hl. unfold GenerateGlobalIndex, globalIndexValue.
  destruct m; rewrite !FillBytes_Ok by (simpl; lia); cbn [mbind result_bind]; f_equal;
    rewrite !SetBytes_app, !be_bytes_length, !SetBytes_be_bytes.
  - change (SetBytes [1]) with 1. rewrite Z.mod_0_l, (Z.mod_small l) by (simpl; lia). simpl; lia.
  - rewrite !Z.mod_small by (simpl; lia). simpl; lia.
Qed.

Lemma take_drop_be_bytes (n i : nat) z :
  (i + 4 ≤ n)%nat →
  take 4 (drop i (be_bytes n z)) = be_bytes 4 (z / 256 ^ Z.of_nat (n - i - 4)).
Proof.
  intros Hle. replace n with (i + (4 + (n - i - 4)))%nat at 1 by lia.
  rewrite be_bytes_app, (be_bytes_app 4).
  rewrite drop_app_length' by (by rewrite be_bytes_length).
  rewrite take_app_length' by (by rewrite be_bytes_length). done.
Qed.

(** What the code reads from a 256-bit number. *)
Lemma DecodeGlobalIndex_value g :
  0 ≤ g < 2 ^ 256 →
  DecodeGlobalIndex g =
    Ok (bool_decide ((g / 2 ^ 64) mod 2 ^ 8 = 1), (g / 2 ^ 32) mod 2 ^ 32, g mod 2 ^ 32).
Proof.
  intros Hg. unfold DecodeGlobalIndex. rewrite FillBytes_Ok by (simpl; lia).
  cbn [mbind result_bind]. rewrite be_bytes_length. rewrite decide_False by auto.
  assert (be_bytes 32 g !! 23%nat = Some ((g / 2 ^ 64) mod 256)) as H23.
  { change 32%nat with (24 + 8)%nat. rewrite be_bytes_app, lookup_app_l by (rewrite be_bytes_length; lia).
    change 24%nat with (23 + 1)%nat. rewrite be_bytes_app, lookup_app_r by (rewrite be_bytes_length; lia).
    rewrite be_bytes_length. done. }
  apply (at_index_nat _ 23) in H23. change (Z.of_nat 23) with 23 in H23. rewrite H23.
  cbn [mbind result_bind].
  rewrite !take_drop_be_bytes by lia. rewrite !SetBytes_be_bytes.
  change (256 ^ Z.of_nat (32 - 24 - 4)) with (2 ^ 32). change (256 ^ Z.of_nat (32 - 28 - 4)) with 1.
  change (256 ^ Z.of_nat 4) with (2 ^ 32). rewrite Z.div_1_r.
  pose proof (Z.mod_pos_bound (g / 2 ^ 32) (2 ^ 32) ltac:(lia)).
  pose proof (Z.mod_pos_bound g (2 ^ 32) ltac:(lia)).
  rewrite !u64_id, !u32_id by lia. rewrite !decide_False by (unfold MaxUint32; lia).
  done.
Qed.

Lemma DecodeGlobalIndex_generated (m : bool) (r l : Z) :
  0 ≤ r < 2 ^ 32 → 0 ≤ l < 2 ^ 32 →
  (g ← GenerateGlobalIndex m r l; DecodeGlobalIndex g) = Ok (m, if m then 0 else r, l).
Proof.
  intros Hr Hl. rewrite GenerateGlobalIndex_value by lia. cbn [mbind result_bind].
  unfold globalIndexValue. destruct m; rewrite DecodeGlobalIndex_value by lia; repeat f_equal.
  - replace ((2 ^ 64 + l) / 2 ^ 64) with 1; [done|].
    apply Z.div_unique with l; lia.
  - replace ((2 ^ 64 + l) / 2 ^ 32) with (2 ^ 32); [done|]. apply Z.div_unique with l; lia.
  - symmetry. apply Z.mod_unique with (2 ^ 32); lia.
  - replace ((r * 2 ^ 32 + l) / 2 ^ 64) with 0; [done|]. symmetry. apply Z.div_small. lia.
  - replace ((r * 2 ^ 32 + l) / 2 ^ 32) with r by (apply Z.div_unique with l; lia).
    by apply Z.mod_small.
  - symmetry. apply Z.mod_unique with r; lia.
Qed.

(** Decoding a generated global index gives back the flag, the rollup index (0 for
    a mainnet index, which carries none) and the leaf index. *)
Theorem globalIndex_roundtrip (m : bool) (r l : Z) :
  0 ≤ r < 2 ^ 32 → 0 ≤ l < 2 ^ 32 →
  (g ← GenerateGlobalIndex m r l; DecodeGlobalIndex g) = Ok (m, if m then 0 else r, l).
Proof. apply DecodeGlobalIndex_generated. Qed.

(** A 256-bit global index read from an event is the one the service would generate
    from its decoded fields exactly when it is canonical: below [2^64], or
    [2^64 + leaf] with an empty rollup index.  Every other index decodes too (to the
    fields of a different index): decoding ignores the upper 23 bytes. *)
Theorem globalIndex_canonical (g : Z) :
  0 ≤ g < 2 ^ 256 →
  ∃ m r l, DecodeGlobalIndex g = Ok (m, r, l) ∧
    (GenerateGlobalIndex m r l = Ok g ↔ (g < 2 ^ 64 ∨ 2 ^ 64 ≤ g < 2 ^ 64 + 2 ^ 32)).
Proof.
  intros Hg. eexists _, _, _. split; [by apply DecodeGlobalIndex_value|].
  pose proof (Z.mod_pos_bound (g / 2 ^ 32) (2 ^ 32) ltac:(lia)).
  pose proof (Z.mod_pos_bound g (2 ^ 32) ltac:(lia)).
  rewrite GenerateGlobalIndex_value by lia. unfold globalIndexValue.
  assert (g / 2 ^ 64 = g / 2 ^ 32 / 2 ^ 32) as Hdd by (rewrite Z.div_div by lia; done).
  pose proof (Z.div_mod g (2 ^ 32) ltac:(lia)) as Hdm.
  pose proof (Z.div_mod (g / 2 ^ 32) (2 ^ 32) ltac:(lia)) as Hdm2. rewrite <- Hdd in Hdm2.
  pose proof (Z.div_pos g (2 ^ 64) ltac:(lia) ltac:(lia)).
  case_bool_decide as Hb.
  - split; [intros ?%Ok_inj; lia|]. intros Hr. f_equal.
    assert (g / 2 ^ 64 = 1) as Hone.
    { destruct (decide (g / 2 ^ 64 = 0)) as [E0|]; [rewrite E0 in Hb; done|].
      assert (g / 2 ^ 64 < 2); [|lia]. apply Z.div_lt_upper_bound; lia. }
    lia.
  - split.
    + intros ?%Ok_inj. lia.
    + intros Hr. f_equal. assert (g / 2 ^ 64 = 0); [|lia].
      destruct Hr as [Hr|Hr]; [apply Z.div_small; lia|].
      exfalso. apply Hb. replace (g / 2 ^ 64) with 1; [done|].
      apply Z.div_unique with (g - 2 ^ 64); lia.
Qed.

Lemma globalIndex_roundtrip_witness :
  (g ← GenerateGlobalIndex false 4 17; DecodeGlobalIndex g) = Ok (false, 4, 17).
Proof. apply (globalIndex_roundtrip false 4 17); lia. Defined.

Lemma globalIndex_canonical_witness :
  ∃ m r l, DecodeGlobalIndex (2 ^ 72 + 5) = Ok (m, r, l) ∧
    (GenerateGlobalIndex m r l = Ok (2 ^ 72 + 5) ↔
     (2 ^ 72 + 5 < 2 ^ 64 ∨ 2 ^ 64 ≤ 2 ^ 72 + 5 < 2 ^ 64 + 2 ^ 32)).
Proof. apply (globalIndex_canonical (2 ^ 72 + 5)); lia. Defined.
