(* ===== verification/ClaimTypes.v ===== *)
(** * Monitored claim transactions (claimtxman/types/monitoredtx.go)

    The records the claim transaction manager keeps per claim and per group of
    claims.  [time.Time] and [time.Duration] are numbers of
    nanoseconds; a [map\[common.Hash\]bool] whose values are all true is the set of
    its keys; a pointer that may be nil is an option. *)
From S2P Require Import Prelude Types.

Inductive MonitoredTxStatus :=
| MonitoredTxStatusCreated
| MonitoredTxStatusFailed
| MonitoredTxStatusConfirmed
| MonitoredTxStatusCompressing
| MonitoredTxStatusClaiming.

Inductive MonitoredTxGroupStatus :=
| MonitoredTxGroupStatusCreated
| MonitoredTxGroupStatusClaiming
| MonitoredTxGroupStatussFailed
| MonitoredTxGroupStatusConfirmed.

#[global] Instance MonitoredTxStatus_eq_dec : EqDecision MonitoredTxStatus.
Proof. solve_decision. Defined.
#[global] Instance MonitoredTxGroupStatus_eq_dec : EqDecision MonitoredTxGroupStatus.
Proof. solve_decision. Defined.

Record MonitoredTx := mkMonitoredTx {
  m_DepositID : Z;
  m_From : Address;
  m_To : option Address;
  m_Nonce : Z;
  m_Value : option Z;
  m_Data : bytes;
  m_Gas : Z;
  m_GasPrice : option Z;
  m_Status : MonitoredTxStatus;
  m_History : gset Hash;
  m_CreatedAt : Z;
  m_UpdatedAt : Z;
  m_GroupID : option Z;
  m_GlobalExitRoot : Hash
}.

(** [ReceiptStatus] of a history entry: nil, failed, successful or outdated. *)
Definition ReceiptStatusFailed : Z := 0.
Definition ReceiptStatusSuccessful : Z := 1.
Definition ReceiptStatusOutdated : Z := 2.

Record TxHashHistoryEntry := mkTxHashHistoryEntry {
  th_TxHash : Hash;
  th_ReceiptStatus : option Z;
  th_CreatedAt : Z
}.

Record TxHistoryV2 := mkTxHistoryV2 {
  tv_Version : Z;
  tv_TxHashes : list TxHashHistoryEntry
}.

Record MonitoredTxGroupDBEntry := mkMonitoredTxGroupDBEntry {
  ge_GroupID : Z;
  ge_Status : MonitoredTxGroupStatus;
  ge_DepositIDs : list Z;
  ge_CompressedTxData : option bytes;
  ge_ClaimTxHistory : option TxHistoryV2;
  ge_CreatedAt : Z;
  ge_UpdatedAt : Z;
  ge_NumRetries : Z;
  ge_LastLog : string
}.

Record MonitoredTxGroup := mkMonitoredTxGroup {
  gr_DbEntry : MonitoredTxGroupDBEntry;
  gr_Txs : list MonitoredTx
}.

#[global] Instance MonitoredTx_eq_dec : EqDecision MonitoredTx.
Proof. solve_decision. Defined.
#[global] Instance TxHashHistoryEntry_eq_dec : EqDecision TxHashHistoryEntry.
Proof. solve_decision. Defined.
#[global] Instance TxHistoryV2_eq_dec : EqDecision TxHistoryV2.
Proof. solve_decision. Defined.
#[global] Instance MonitoredTxGroupDBEntry_eq_dec : EqDecision MonitoredTxGroupDBEntry.
Proof. solve_decision. Defined.

(** Field updates of a monitored transaction. *)
Definition set_m_Status (v : MonitoredTxStatus) (m : MonitoredTx) : MonitoredTx :=
  mkMonitoredTx (m_DepositID m) (m_From m) (m_To m) (m_Nonce m) (m_Value m) (m_Data m) (m_Gas m)
    (m_GasPrice m) v (m_History m) (m_CreatedAt m) (m_UpdatedAt m) (m_GroupID m) (m_GlobalExitRoot m).
Definition set_m_GroupID (v : option Z) (m : MonitoredTx) : MonitoredTx :=
  mkMonitoredTx (m_DepositID m) (m_From m) (m_To m) (m_Nonce m) (m_Value m) (m_Data m) (m_Gas m)
    (m_GasPrice m) (m_Status m) (m_History m) (m_CreatedAt m) (m_UpdatedAt m) v (m_GlobalExitRoot m).
Definition set_m_History (v : gset Hash) (m : MonitoredTx) : MonitoredTx :=
  mkMonitoredTx (m_DepositID m) (m_From m) (m_To m) (m_Nonce m) (m_Value m) (m_Data m) (m_Gas m)
    (m_GasPrice m) (m_Status m) v (m_CreatedAt m) (m_UpdatedAt m) (m_GroupID m) (m_GlobalExitRoot m).
Definition set_m_GasPrice (v : option Z) (m : MonitoredTx) : MonitoredTx :=
  mkMonitoredTx (m_DepositID m) (m_From m) (m_To m) (m_Nonce m) (m_Value m) (m_Data m) (m_Gas m)
    v (m_Status m) (m_History m) (m_CreatedAt m) (m_UpdatedAt m) (m_GroupID m) (m_GlobalExitRoot m).
Definition set_m_Gas (v : Z) (m : MonitoredTx) : MonitoredTx :=
  mkMonitoredTx (m_DepositID m) (m_From m) (m_To m) (m_Nonce m) (m_Value m) (m_Data m) v
    (m_GasPrice m) (m_Status m) (m_History m) (m_CreatedAt m) (m_UpdatedAt m) (m_GroupID m) (m_GlobalExitRoot m).
Definition set_m_Nonce (v : Z) (m : MonitoredTx) : MonitoredTx :=
  mkMonitoredTx (m_DepositID m) (m_From m) (m_To m) v (m_Value m) (m_Data m) (m_Gas m)
    (m_GasPrice m) (m_Status m) (m_History m) (m_CreatedAt m) (m_UpdatedAt m) (m_GroupID m) (m_GlobalExitRoot m).

(** Field updates of a group entry. *)
Definition set_ge_Status (v : MonitoredTxGroupStatus) (g : MonitoredTxGroupDBEntry) : MonitoredTxGroupDBEntry :=
  mkMonitoredTxGroupDBEntry (ge_GroupID g) v (ge_DepositIDs g) (ge_CompressedTxData g)
    (ge_ClaimTxHistory g) (ge_CreatedAt g) (ge_UpdatedAt g) (ge_NumRetries g) (ge_LastLog g).
Definition set_ge_DepositIDs (v : list Z) (g : MonitoredTxGroupDBEntry) : MonitoredTxGroupDBEntry :=
  mkMonitoredTxGroupDBEntry (ge_GroupID g) (ge_Status g) v (ge_CompressedTxData g)
    (ge_ClaimTxHistory g) (ge_CreatedAt g) (ge_UpdatedAt g) (ge_NumRetries g) (ge_LastLog g).
Definition set_ge_CompressedTxData (v : option bytes) (g : MonitoredTxGroupDBEntry) : MonitoredTxGroupDBEntry :=
  mkMonitoredTxGroupDBEntry (ge_GroupID g) (ge_Status g) (ge_DepositIDs g) v
    (ge_ClaimTxHistory g) (ge_CreatedAt g) (ge_UpdatedAt g) (ge_NumRetries g) (ge_LastLog g).
Definition set_ge_ClaimTxHistory (v : option TxHistoryV2) (g : MonitoredTxGroupDBEntry) : MonitoredTxGroupDBEntry :=
  mkMonitoredTxGroupDBEntry (ge_GroupID g) (ge_Status g) (ge_DepositIDs g) (ge_CompressedTxData g)
    v (ge_CreatedAt g) (ge_UpdatedAt g) (ge_NumRetries g) (ge_LastLog g).
Definition set_ge_UpdatedAt (v : Z) (g : MonitoredTxGroupDBEntry) : MonitoredTxGroupDBEntry :=
  mkMonitoredTxGroupDBEntry (ge_GroupID g) (ge_Status g) (ge_DepositIDs g) (ge_CompressedTxData g)
    (ge_ClaimTxHistory g) (ge_CreatedAt g) v (ge_NumRetries g) (ge_LastLog g).
Definition set_ge_NumRetries (v : Z) (g : MonitoredTxGroupDBEntry) : MonitoredTxGroupDBEntry :=
  mkMonitoredTxGroupDBEntry (ge_GroupID g) (ge_Status g) (ge_DepositIDs g) (ge_CompressedTxData g)
    (ge_ClaimTxHistory g) (ge_CreatedAt g) (ge_UpdatedAt g) v (ge_LastLog g).
Definition set_ge_LastLog (v : string) (g : MonitoredTxGroupDBEntry) : MonitoredTxGroupDBEntry :=
  mkMonitoredTxGroupDBEntry (ge_GroupID g) (ge_Status g) (ge_DepositIDs g) (ge_CompressedTxData g)
    (ge_ClaimTxHistory g) (ge_CreatedAt g) (ge_UpdatedAt g) (ge_NumRetries g) v.
Definition set_gr_DbEntry (v : MonitoredTxGroupDBEntry) (g : MonitoredTxGroup) : MonitoredTxGroup :=
  mkMonitoredTxGroup v (gr_Txs g).
