(* ===== verification/MerkleSpec.v ===== *)
(** * Reference Merkle tree

    What the incremental code of bridgectrl/merkletree.go has to compute: the binary
    tree of a given height over a list of leaves, padded with the zero hash, defined
    by recursion on the height without any of the code's shortcuts. *)
From S2P Require Import Prelude Types Bytes Hash.

(** ** Arithmetic of positions *)

Lemma pow2_pos h : (0 < 2 ^ h)%nat.
Proof. apply Nat.neq_0_lt_0, Nat.pow_nonzero. lia. Qed.

Lemma div_pow2_S n h : (n / 2 ^ S h = n / 2 ^ h / 2)%nat.
Proof. rewrite Nat.Div0.div_div. f_equal. simpl. lia. Qed.

Lemma testbit_odd n h : Nat.testbit n h = Nat.odd (n / 2 ^ h).
Proof. rewrite Nat.testbit_odd, Nat.shiftr_div_pow2. done. Qed.

Lemma odd_decomp m : m = (2 * (m / 2) + Nat.b2n (Nat.odd m))%nat.
Proof. rewrite <- Nat.div2_div. apply Nat.div2_odd. Qed.

Lemma div_decomp n h :
  (n / 2 ^ h = 2 * (n / 2 ^ S h) + Nat.b2n (Nat.testbit n h))%nat.
Proof. rewrite div_pow2_S, testbit_odd. apply odd_decomp. Qed.

Lemma div_pow2_bounds n h : (n / 2 ^ h * 2 ^ h ≤ n < (n / 2 ^ h + 1) * 2 ^ h)%nat.
Proof.
  pose proof (pow2_pos h). pose proof (Nat.div_mod_eq n (2 ^ h)).
  pose proof (Nat.mod_upper_bound n (2 ^ h)). nia.
Qed.

Lemma div_pow2_unique n h q : (q * 2 ^ h ≤ n < (q + 1) * 2 ^ h)%nat → (n / 2 ^ h = q)%nat.
Proof. intros. pose proof (div_pow2_bounds n h). pose proof (pow2_pos h). nia. Qed.

Lemma testbit_false_ge n h : (n < 2 ^ h)%nat → Nat.testbit n h = false.
Proof. intros. rewrite testbit_odd, Nat.div_small by done. done. Qed.

(** Adding one: the bits below the first zero bit are cleared, the bit itself is set,
    the bits above it are kept. *)
Lemma succ_div n h :
  (∀ k, (k < h)%nat → Nat.testbit n k = true) → (n mod 2 ^ h = 2 ^ h - 1)%nat.
Proof.
  induction h as [|h IH]; intros Hk; [apply Nat.mod_1_r|].
  assert (Nat.testbit n h = true) as Hb by (apply Hk; lia).
  specialize (IH (λ k Hlt, Hk k (Nat.lt_lt_succ_r _ _ Hlt))).
  pose proof (Nat.div_mod_eq n (2 ^ h)) as E1. pose proof (Nat.div_mod_eq n (2 ^ S h)) as E2.
  pose proof (div_decomp n h) as E3. rewrite Hb in E3. simpl Nat.b2n in E3.
  pose proof (pow2_pos h). change (2 ^ S h)%nat with (2 * 2 ^ h)%nat in *. nia.
Qed.

Lemma succ_div_above n h :
  (∃ k, (k < h)%nat ∧ Nat.testbit n k = false) → ((n + 1) / 2 ^ h = n / 2 ^ h)%nat.
Proof.
  intros (k & Hk & Hb). apply div_pow2_unique. pose proof (div_pow2_bounds n h). split; [lia|].
  destruct (decide (n + 1 < (n / 2 ^ h + 1) * 2 ^ h)%nat) as [|Hge]; [done|exfalso].
  assert (n mod 2 ^ h = 2 ^ h - 1)%nat as Hm.
  { pose proof (Nat.div_mod_eq n (2 ^ h)). pose proof (pow2_pos h). nia. }
  assert (Nat.testbit (n mod 2 ^ h) k = true) as Ht.
  { rewrite Hm. replace (2 ^ h - 1)%nat with (Nat.ones h) by (rewrite Nat.ones_equiv; lia).
    by apply Nat.ones_spec_low. }
  rewrite Nat.mod_pow2_bits_low in Ht by done. congruence.
Qed.

Lemma succ_div_below n h :
  (∀ k, (k < h)%nat → Nat.testbit n k = true) → ((n + 1) / 2 ^ h = n / 2 ^ h + 1)%nat.
Proof.
  intros Hk. apply succ_div in Hk. apply div_pow2_unique.
  pose proof (Nat.div_mod_eq n (2 ^ h)). pose proof (pow2_pos h). nia.
Qed.

Lemma zero_bit_below n h :
  (∃ k, (k < h)%nat ∧ Nat.testbit n k = false) ∨ (∀ k, (k < h)%nat → Nat.testbit n k = true).
Proof.
  induction h as [|h [(k & ? & ?)|IH]]; [right; lia|left; exists k; split; [lia|done]|].
  destruct (Nat.testbit n h) eqn:E; [right|left; exists h; split; [lia|done]].
  intros k ?. destruct (decide (k = h)) as [->|]; [done|apply IH; lia].
Qed.

Lemma testbit_of_nat n h : Z.testbit (Z.of_nat n) (Z.of_nat h) = Nat.testbit n h.
Proof.
  apply eq_bool_prop_intro. rewrite !Is_true_true, Nat.testbit_true, Z.testbit_true by lia.
  change 2 with (Z.of_nat 2). rewrite <- Nat2Z.inj_pow, <- Nat2Z.inj_div, <- Nat2Z.inj_mod. lia.
Qed.

(** A bit test on a 32-bit index, as the Go code writes it, [index&(1<<h) > 0]. *)
Definition bit32 (index h : Z) : bool := bool_decide (0 < Z.land index (u32 (Z.shiftl 1 h))).

Lemma bit32_testbit n h :
  Z.of_nat n < 2 ^ 32 → bit32 (Z.of_nat n) (Z.of_nat h) = Nat.testbit n h.
Proof.
  intros Hn. unfold bit32. rewrite Z.shiftl_1_l. unfold u32.
  destruct (decide (h < 32)%nat) as [Hh|Hh].
  - rewrite Z.mod_small by (split; [lia|apply Z.pow_lt_mono_r; lia]).
    assert (Z.land (Z.of_nat n) (2 ^ Z.of_nat h) = if Nat.testbit n h then 2 ^ Z.of_nat h else 0) as ->.
    { apply Z.bits_inj'. intros k Hk. rewrite Z.land_spec, Z.pow2_bits_eqb by lia.
      destruct (Z.eqb_spec (Z.of_nat h) k) as [<-|Hne].
      - rewrite testbit_of_nat. destruct (Nat.testbit n h); simpl; [|by rewrite Z.bits_0].
        by rewrite Z.pow2_bits_true by lia.
      - rewrite andb_false_r. destruct (Nat.testbit n h); [|by rewrite Z.bits_0].
        rewrite Z.pow2_bits_false; [done|lia]. }
    destruct (Nat.testbit n h); [apply bool_decide_eq_true_2|apply bool_decide_eq_false_2; lia].
    apply Z.pow_pos_nonneg; lia.
  - replace (Z.of_nat h) with (32 + Z.of_nat (h - 32)) by lia. rewrite Z.pow_add_r by lia.
    rewrite Z.mul_comm, Z.mod_mul, Z.land_0_r by lia.
    rewrite testbit_false_ge; [done|].
    apply Nat2Z.inj_lt. rewrite Nat2Z.inj_pow. eapply Z.lt_le_trans; [exact Hn|].
    apply Z.pow_le_mono_r; lia.
Qed.

(** ** The tree *)

Section MerkleSpec.
Context `{K : Keccak256}.

Definition leaf_at (ls : list Hash) (i : nat) : Hash := default HashZero (ls !! i).

(** The node at level [h] (leaves are level 0) and position [i] of its level. *)
Fixpoint node (h i : nat) (ls : list Hash) : Hash :=
  match h with
  | O => leaf_at ls i
  | S h' => HashN [node h' (2 * i) ls; node h' (2 * i + 1) ls]
  end.

Definition mroot (H : nat) (ls : list Hash) : Hash := node H 0 ls.

(** The sibling path of a leaf, from the leaves to the top. *)
Definition path_of (H i : nat) (ls : list Hash) : list Hash :=
  (λ h, let j := (i / 2 ^ h)%nat in node h (if Nat.odd j then j - 1 else j + 1)%nat ls) <$> seq 0 H.

(** The root a verifier computes from a leaf, its position and a sibling path. *)
Fixpoint fold_path (i : nat) (cur : Hash) (path : list Hash) : Hash :=
  match path with
  | [] => cur
  | s :: path' => fold_path (i / 2)%nat (if Nat.odd i then HashN [s; cur] else HashN [cur; s]) path'
  end.

(** The left siblings an append-only tree of [length ls] leaves has to remember. *)
Definition frontier (H : nat) (ls siblings : list Hash) : Prop :=
  length siblings = H ∧
  ∀ h, (h < H)%nat → Nat.testbit (length ls) h = true →
       siblings !! h = Some (node h (length ls / 2 ^ h - 1) ls).

(** The three hashes of the parent of position [i] at level [h]: parent, left, right. *)
Definition node_triple (h i : nat) (ls : list Hash) : Hash * Hash * Hash :=
  let j := (i / 2 ^ S h)%nat in (node (S h) j ls, node h (2 * j) ls, node h (2 * j + 1) ls).

(** ** Structure of the reference tree *)

Lemma node_ext h i ls ls' :
  (∀ j, (i * 2 ^ h ≤ j < (i + 1) * 2 ^ h)%nat → leaf_at ls j = leaf_at ls' j) →
  node h i ls = node h i ls'.
Proof.
  revert i. induction h as [|h IH]; intros i Hj; cbn [node].
  - apply Hj. simpl. lia.
  - rewrite (IH (2 * i)%nat), (IH (2 * i + 1)%nat); [done|..];
      intros j ?; apply Hj; simpl; lia.
Qed.

Lemma node_zero h i ls : (length ls ≤ i * 2 ^ h)%nat → node h i ls = zero_hash h.
Proof.
  revert i. induction h as [|h IH]; intros i Hi; cbn [node zero_hash].
  - unfold leaf_at. rewrite lookup_ge_None_2; [done|simpl in Hi; lia].
  - rewrite !IH; [done|simpl in Hi; lia..].
Qed.

Lemma leaf_at_app_l ls k j : (j < length ls)%nat → leaf_at (ls ++ k) j = leaf_at ls j.
Proof. intros. unfold leaf_at. by rewrite lookup_app_l. Qed.

Lemma node_app_l h i ls k : ((i + 1) * 2 ^ h ≤ length ls)%nat → node h i (ls ++ k) = node h i ls.
Proof. intros. apply node_ext. intros j ?. apply leaf_at_app_l. lia. Qed.

(** The node depends only on the leaves already there at the end of its range. *)
Lemma node_take h i ls n :
  ((i + 1) * 2 ^ h ≤ n)%nat → node h i (take n ls) = node h i ls.
Proof.
  intros. apply node_ext. intros j ?. unfold leaf_at. by rewrite lookup_take_lt by lia.
Qed.

Lemma node_take_take h i ls n m :
  (n ≤ m)%nat → ((i + 1) * 2 ^ h ≤ n)%nat ∨ (n = m)%nat →
  node h i (take n ls) = node h i (take m ls).
Proof. intros Hle [?| ->]; [|done]. rewrite !node_take by lia. done. Qed.

Lemma fold_path_app i cur p1 p2 :
  fold_path i cur (p1 ++ p2) = fold_path (i / 2 ^ length p1)%nat (fold_path i cur p1) p2.
Proof.
  revert i cur. induction p1 as [|s p1 IH]; intros i cur; cbn [app fold_path length].
  - by rewrite Nat.div_1_r.
  - rewrite IH. f_equal. rewrite Nat.Div0.div_div. done.
Qed.

(** Folding the sibling path of a leaf gives the root. *)
Lemma fold_path_of h i ls :
  fold_path i (leaf_at ls i) (path_of h i ls) = node h (i / 2 ^ h)%nat ls.
Proof.
  induction h as [|h IH].
  - change (leaf_at ls i = leaf_at ls (i / 1)%nat). by rewrite Nat.div_1_r.
  - unfold path_of in *. rewrite seq_S, fmap_app, fold_path_app, length_fmap, length_seq, IH.
    cbn [fold_path fmap list_fmap]. simpl plus. cbn [node].
    rewrite (div_pow2_S i h).
    pose proof (odd_decomp (i / 2 ^ h)) as E.
    destruct (Nat.odd (i / 2 ^ h)); simpl Nat.b2n in E.
    + replace (i / 2 ^ h - 1)%nat with (2 * (i / 2 ^ h / 2))%nat by lia.
      by replace (2 * (i / 2 ^ h / 2) + 1)%nat with (i / 2 ^ h)%nat by lia.
    + replace (i / 2 ^ h + 1)%nat with (2 * (i / 2 ^ h / 2) + 1)%nat by lia.
      by replace (2 * (i / 2 ^ h / 2))%nat with (i / 2 ^ h)%nat by lia.
Qed.

Lemma path_of_verifies H i ls :
  (i < 2 ^ H)%nat → fold_path i (leaf_at ls i) (path_of H i ls) = mroot H ls.
Proof. intros Hi. rewrite fold_path_of, Nat.div_small by done. done. Qed.

Lemma path_of_length H i ls : length (path_of H i ls) = H.
Proof. unfold path_of. by rewrite length_fmap, length_seq. Qed.

Lemma path_of_lookup H i ls h :
  (h < H)%nat →
  path_of H i ls !! h = Some (let j := (i / 2 ^ h)%nat in node h (if Nat.odd j then j - 1 else j + 1)%nat ls).
Proof. intros. unfold path_of. rewrite list_lookup_fmap, lookup_seq_lt by done. done. Qed.

Lemma mroot_nil H : mroot H [] = zero_hash H.
Proof. apply node_zero. simpl. lia. Qed.

Lemma frontier_nil H siblings : length siblings = H → frontier H [] siblings.
Proof. intros. split; [done|]. intros h _. simpl length. by rewrite Nat.bits_0. Qed.

End MerkleSpec.
