(* ===== verification/Schema.v ===== *)
(** * The relational schema (db/pgstorage/migrations)

    The tables of the schemas [sync] and [mt] after the last migration, each the
    list of its rows in insertion order, the serial sequences, and the transactions
    of the driver.

    The row of [sync.block] with id 0 that the first migration inserts, and whose
    block number and network are NULL, is not in [t_block]: no WHERE clause of the
    service selects it, and a foreign key to it holds ([block_exists]). *)
From S2P Require Import Prelude Types ClaimTypes.

Record block_row := mk_block_row {
  br_id : Z; br_block_num : Z; br_block_hash : Hash; br_network_id : Z }.

Record exit_root_row := mk_exit_root_row {
  er_id : Z; er_block_id : Z; er_global_exit_root : Hash; er_exit_roots : list Hash;
  er_network_id : Z; er_allowed : bool }.

Record deposit_row := mk_deposit_row {
  dr_id : Z; dr_leaf_type : Z; dr_network_id : Z; dr_orig_net : Z; dr_orig_addr : Address;
  dr_amount : Z; dr_dest_net : Z; dr_dest_addr : Address; dr_block_id : Z;
  dr_deposit_cnt : Z; dr_tx_hash : Hash; dr_metadata : bytes;
  dr_ready_for_claim : bool; dr_ignore : bool }.

Record claim_row := mk_claim_row {
  cr_network_id : Z; cr_index : Z; cr_orig_net : Z; cr_orig_addr : Address; cr_amount : Z;
  cr_dest_addr : Address; cr_block_id : Z; cr_tx_hash : Hash; cr_rollup_index : Z;
  cr_mainnet_flag : bool; cr_global_index : string }.

Record token_wrapped_row := mk_token_wrapped_row {
  tw_network_id : Z; tw_orig_net : Z; tw_orig_token_addr : Address;
  tw_wrapped_token_addr : Address; tw_block_id : Z; tw_name : string; tw_symbol : string;
  tw_decimals : Z }.

Record rht_row := mk_rht_row { rh_key : Hash; rh_value : list Hash; rh_deposit_id : Z }.

Record root_row := mk_root_row { rr_root : Hash; rr_deposit_id : Z; rr_network : Z }.

Record rollup_exit_row := mk_rollup_exit_row {
  re_id : Z; re_leaf : Hash; re_rollup_id : Z; re_root : Hash; re_block_id : Z }.

Record remove_exit_root_row := mk_remove_exit_root_row {
  rm_id : Z; rm_block_id : Z; rm_global_exit_root : Hash; rm_network_id : Z }.

Record backward_let_row := mk_backward_let_row {
  bw_id : Z; bw_block_id : Z; bw_previous_deposit_cnt : Z; bw_previous_root : Hash;
  bw_new_deposit_cnt : Z; bw_new_root : Hash }.

Record forward_let_row := mk_forward_let_row {
  fw_id : Z; fw_block_id : Z; fw_previous_deposit_cnt : Z; fw_previous_root : Hash;
  fw_new_deposit_cnt : Z; fw_new_root : Hash; fw_new_raw_leaves : bytes }.

Record set_unset_claim_row := mk_set_unset_claim_row {
  su_id : Z; su_block_id : Z; su_mainnet_flag : bool; su_rollup_index : Z; su_index : Z;
  su_global_index : string; su_type : string }.

Record Tables := mkTables {
  t_block : list block_row;
  t_exit_root : list exit_root_row;
  t_deposit : list deposit_row;
  t_claim : list claim_row;
  t_token_wrapped : list token_wrapped_row;
  t_rht : list rht_row;
  t_root : list root_row;
  t_rollup_exit : list rollup_exit_row;
  t_monitored_txs : list MonitoredTx;
  t_monitored_txs_group : list MonitoredTxGroupDBEntry;
  t_remove_exit_root : list remove_exit_root_row;
  t_status : list SyncStatus;
  t_backward_let : list backward_let_row;
  t_forward_let : list forward_let_row;
  t_set_unset_claim : list set_unset_claim_row
}.

Definition on_block (f : list block_row → list block_row) (t : Tables) : Tables :=
  mkTables (f (t_block t)) (t_exit_root t) (t_deposit t) (t_claim t) (t_token_wrapped t) (t_rht t) (t_root t) (t_rollup_exit t) (t_monitored_txs t) (t_monitored_txs_group t) (t_remove_exit_root t) (t_status t) (t_backward_let t) (t_forward_let t) (t_set_unset_claim t).
Definition on_exit_root (f : list exit_root_row → list exit_root_row) (t : Tables) : Tables :=
  mkTables (t_block t) (f (t_exit_root t)) (t_deposit t) (t_claim t) (t_token_wrapped t) (t_rht t) (t_root t) (t_rollup_exit t) (t_monitored_txs t) (t_monitored_txs_group t) (t_remove_exit_root t) (t_status t) (t_backward_let t) (t_forward_let t) (t_set_unset_claim t).
Definition on_deposit (f : list deposit_row → list deposit_row) (t : Tables) : Tables :=
  mkTables (t_block t) (t_exit_root t) (f (t_deposit t)) (t_claim t) (t_token_wrapped t) (t_rht t) (t_root t) (t_rollup_exit t) (t_monitored_txs t) (t_monitored_txs_group t) (t_remove_exit_root t) (t_status t) (t_backward_let t) (t_forward_let t) (t_set_unset_claim t).
Definition on_claim (f : list claim_row → list claim_row) (t : Tables) : Tables :=
  mkTables (t_block t) (t_exit_root t) (t_deposit t) (f (t_claim t)) (t_token_wrapped t) (t_rht t) (t_root t) (t_rollup_exit t) (t_monitored_txs t) (t_monitored_txs_group t) (t_remove_exit_root t) (t_status t) (t_backward_let t) (t_forward_let t) (t_set_unset_claim t).
Definition on_token_wrapped (f : list token_wrapped_row → list token_wrapped_row) (t : Tables) : Tables :=
  mkTables (t_block t) (t_exit_root t) (t_deposit t) (t_claim t) (f (t_token_wrapped t)) (t_rht t) (t_root t) (t_rollup_exit t) (t_monitored_txs t) (t_monitored_txs_group t) (t_remove_exit_root t) (t_status t) (t_backward_let t) (t_forward_let t) (t_set_unset_claim t).
Definition on_rht (f : list rht_row → list rht_row) (t : Tables) : Tables :=
  mkTables (t_block t) (t_exit_root t) (t_deposit t) (t_claim t) (t_token_wrapped t) (f (t_rht t)) (t_root t) (t_rollup_exit t) (t_monitored_txs t) (t_monitored_txs_group t) (t_remove_exit_root t) (t_status t) (t_backward_let t) (t_forward_let t) (t_set_unset_claim t).
Definition on_root (f : list root_row → list root_row) (t : Tables) : Tables :=
  mkTables (t_block t) (t_exit_root t) (t_deposit t) (t_claim t) (t_token_wrapped t) (t_rht t) (f (t_root t)) (t_rollup_exit t) (t_monitored_txs t) (t_monitored_txs_group t) (t_remove_exit_root t) (t_status t) (t_backward_let t) (t_forward_let t) (t_set_unset_claim t).
Definition on_rollup_exit (f : list rollup_exit_row → list rollup_exit_row) (t : Tables) : Tables :=
  mkTables (t_block t) (t_exit_root t) (t_deposit t) (t_claim t) (t_token_wrapped t) (t_rht t) (t_root t) (f (t_rollup_exit t)) (t_monitored_txs t) (t_monitored_txs_group t) (t_remove_exit_root t) (t_status t) (t_backward_let t) (t_forward_let t) (t_set_unset_claim t).
Definition on_monitored_txs (f : list MonitoredTx → list MonitoredTx) (t : Tables) : Tables :=
  mkTables (t_block t) (t_exit_root t) (t_deposit t) (t_claim t) (t_token_wrapped t) (t_rht t) (t_root t) (t_rollup_exit t) (f (t_monitored_txs t)) (t_monitored_txs_group t) (t_remove_exit_root t) (t_status t) (t_backward_let t) (t_forward_let t) (t_set_unset_claim t).
Definition on_monitored_txs_group (f : list MonitoredTxGroupDBEntry → list MonitoredTxGroupDBEntry) (t : Tables) : Tables :=
  mkTables (t_block t) (t_exit_root t) (t_deposit t) (t_claim t) (t_token_wrapped t) (t_rht t) (t_root t) (t_rollup_exit t) (t_monitored_txs t) (f (t_monitored_txs_group t)) (t_remove_exit_root t) (t_status t) (t_backward_let t) (t_forward_let t) (t_set_unset_claim t).
Definition on_remove_exit_root (f : list remove_exit_root_row → list remove_exit_root_row) (t : Tables) : Tables :=
  mkTables (t_block t) (t_exit_root t) (t_deposit t) (t_claim t) (t_token_wrapped t) (t_rht t) (t_root t) (t_rollup_exit t) (t_monitored_txs t) (t_monitored_txs_group t) (f (t_remove_exit_root t)) (t_status t) (t_backward_let t) (t_forward_let t) (t_set_unset_claim t).
Definition on_status (f : list SyncStatus → list SyncStatus) (t : Tables) : Tables :=
  mkTables (t_block t) (t_exit_root t) (t_deposit t) (t_claim t) (t_token_wrapped t) (t_rht t) (t_root t) (t_rollup_exit t) (t_monitored_txs t) (t_monitored_txs_group t) (t_remove_exit_root t) (f (t_status t)) (t_backward_let t) (t_forward_let t) (t_set_unset_claim t).
Definition on_backward_let (f : list backward_let_row → list backward_let_row) (t : Tables) : Tables :=
  mkTables (t_block t) (t_exit_root t) (t_deposit t) (t_claim t) (t_token_wrapped t) (t_rht t) (t_root t) (t_rollup_exit t) (t_monitored_txs t) (t_monitored_txs_group t) (t_remove_exit_root t) (t_status t) (f (t_backward_let t)) (t_forward_let t) (t_set_unset_claim t).
Definition on_forward_let (f : list forward_let_row → list forward_let_row) (t : Tables) : Tables :=
  mkTables (t_block t) (t_exit_root t) (t_deposit t) (t_claim t) (t_token_wrapped t) (t_rht t) (t_root t) (t_rollup_exit t) (t_monitored_txs t) (t_monitored_txs_group t) (t_remove_exit_root t) (t_status t) (t_backward_let t) (f (t_forward_let t)) (t_set_unset_claim t).
Definition on_set_unset_claim (f : list set_unset_claim_row → list set_unset_claim_row) (t : Tables) : Tables :=
  mkTables (t_block t) (t_exit_root t) (t_deposit t) (t_claim t) (t_token_wrapped t) (t_rht t) (t_root t) (t_rollup_exit t) (t_monitored_txs t) (t_monitored_txs_group t) (t_remove_exit_root t) (t_status t) (t_backward_let t) (t_forward_let t) (f (t_set_unset_claim t)).

Definition emptyTables : Tables := mkTables [] [] [] [] [] [] [] [] [] [] [] [] [] [] [].

(** The sequences behind the SERIAL columns: the next value of each. *)
Record Seqs := mkSeqs {
  sq_block : Z;
  sq_exit_root : Z;
  sq_deposit : Z;
  sq_rollup_exit : Z;
  sq_remove_exit_root : Z;
  sq_backward_let : Z;
  sq_forward_let : Z;
  sq_set_unset_claim : Z
}.
Definition bump_block (s : Seqs) : Seqs :=
  mkSeqs (sq_block s + 1) (sq_exit_root s) (sq_deposit s) (sq_rollup_exit s) (sq_remove_exit_root s) (sq_backward_let s) (sq_forward_let s) (sq_set_unset_claim s).
Definition bump_exit_root (s : Seqs) : Seqs :=
  mkSeqs (sq_block s) (sq_exit_root s + 1) (sq_deposit s) (sq_rollup_exit s) (sq_remove_exit_root s) (sq_backward_let s) (sq_forward_let s) (sq_set_unset_claim s).
Definition bump_deposit (s : Seqs) : Seqs :=
  mkSeqs (sq_block s) (sq_exit_root s) (sq_deposit s + 1) (sq_rollup_exit s) (sq_remove_exit_root s) (sq_backward_let s) (sq_forward_let s) (sq_set_unset_claim s).
Definition bump_rollup_exit (s : Seqs) : Seqs :=
  mkSeqs (sq_block s) (sq_exit_root s) (sq_deposit s) (sq_rollup_exit s + 1) (sq_remove_exit_root s) (sq_backward_let s) (sq_forward_let s) (sq_set_unset_claim s).
Definition bump_remove_exit_root (s : Seqs) : Seqs :=
  mkSeqs (sq_block s) (sq_exit_root s) (sq_deposit s) (sq_rollup_exit s) (sq_remove_exit_root s + 1) (sq_backward_let s) (sq_forward_let s) (sq_set_unset_claim s).
Definition bump_backward_let (s : Seqs) : Seqs :=
  mkSeqs (sq_block s) (sq_exit_root s) (sq_deposit s) (sq_rollup_exit s) (sq_remove_exit_root s) (sq_backward_let s + 1) (sq_forward_let s) (sq_set_unset_claim s).
Definition bump_forward_let (s : Seqs) : Seqs :=
  mkSeqs (sq_block s) (sq_exit_root s) (sq_deposit s) (sq_rollup_exit s) (sq_remove_exit_root s) (sq_backward_let s) (sq_forward_let s + 1) (sq_set_unset_claim s).
Definition bump_set_unset_claim (s : Seqs) : Seqs :=
  mkSeqs (sq_block s) (sq_exit_root s) (sq_deposit s) (sq_rollup_exit s) (sq_remove_exit_root s) (sq_backward_let s) (sq_forward_let s) (sq_set_unset_claim s + 1).

(** A foreign key to [sync.block]. *)
Definition block_exists (t : Tables) (id : Z) : Prop := id = 0 ∨ id ∈ (br_id <$> t_block t).
#[global] Instance block_exists_dec t id : Decision (block_exists t id).
Proof. unfold block_exists. apply _. Defined.

(** A foreign key to [sync.deposit]. *)
Definition deposit_exists (t : Tables) (id : Z) : Prop := id ∈ (dr_id <$> t_deposit t).
#[global] Instance deposit_exists_dec t id : Decision (deposit_exists t id).
Proof. unfold deposit_exists. apply _. Defined.

(** DELETE FROM sync.deposit: the rows of mt.root and mt.rht go with them (ON DELETE
    CASCADE). *)
Definition delete_deposits (P : deposit_row → Prop) `{∀ r, Decision (P r)} (t : Tables) : Tables :=
  let gone := dr_id <$> filter P (t_deposit t) in
  on_deposit (filter (λ r, ¬ P r))
    (on_root (filter (λ r, rr_deposit_id r ∉ gone))
      (on_rht (filter (λ r, rh_deposit_id r ∉ gone)) t)).

(** DELETE FROM sync.block: everything that references the block goes with it. *)
Definition delete_blocks (P : block_row → Prop) `{∀ r, Decision (P r)} (t : Tables) : Tables :=
  let gone := br_id <$> filter P (t_block t) in
  on_block (filter (λ r, ¬ P r))
    (on_exit_root (filter (λ r, er_block_id r ∉ gone))
    (on_claim (filter (λ r, cr_block_id r ∉ gone))
    (on_token_wrapped (filter (λ r, tw_block_id r ∉ gone))
    (on_rollup_exit (filter (λ r, re_block_id r ∉ gone))
    (on_remove_exit_root (filter (λ r, rm_block_id r ∉ gone))
    (on_backward_let (filter (λ r, bw_block_id r ∉ gone))
    (on_forward_let (filter (λ r, fw_block_id r ∉ gone))
    (on_set_unset_claim (filter (λ r, su_block_id r ∉ gone))
      (delete_deposits (λ r, dr_block_id r ∈ gone) t))))))))).

(** ** Statements and transactions

    A statement reads and rewrites the tables or violates a constraint.  [nextval]
    is not undone by a rollback, so the sequences live outside the transaction. *)
Definition stmt (A : Type) : Type := Tables → Seqs → (sqlerr + (A * Tables)) * Seqs.

Definition sql_query {A} (f : Tables → A) : stmt A := λ t s, (inr (f t, t), s).
Definition sql_update (f : Tables → Tables) : stmt unit := λ t s, (inr (tt, f t), s).
Definition sql_exec (f : Tables → sqlerr + Tables) : stmt unit := λ t s,
  (match f t with inl e => inl e | inr t' => inr (tt, t') end, s).

(** A transaction of the driver: its view of the tables, or aborted by an error. *)
Inductive TxState := TxActive (t : Tables) | TxAborted.

(** The handle the source passes around as [dbTx interface{}]: nil or the open
    transaction. *)
Inductive dbTx := NoTx | InTx.

(** [faults] is the schedule of connection failures: each call of the driver takes
    the next entry, and fails when it is true; an empty schedule means no failure. *)
Record DB := mkDB {
  db_committed : Tables;
  db_tx : option TxState;
  db_seqs : Seqs;
  db_faults : list bool
}.

Definition next_fault (db : DB) : bool * DB :=
  match db_faults db with
  | [] => (false, db)
  | b :: fs => (b, mkDB (db_committed db) (db_tx db) (db_seqs db) fs)
  end.

Definition set_tx (x : option TxState) (db : DB) : DB :=
  mkDB (db_committed db) x (db_seqs db) (db_faults db).

(** The error of a statement aborts the transaction it runs in. *)
Definition abort_tx (h : dbTx) (db : DB) : DB :=
  match h with
  | NoTx => db
  | InTx => set_tx ((λ _, TxAborted) <$> db_tx db) db
  end.

(** [p.getExecQuerier(dbTx)] followed by one statement. *)
Definition run {A} (h : dbTx) (q : stmt A) : M DB A := λ db,
  let '(fault, db) := next_fault db in
  if fault then (Err (ErrSQL ErrConn), abort_tx h db) else
  match h with
  | NoTx =>
      let '(r, s) := q (db_committed db) (db_seqs db) in
      match r with
      | inl e => (Err (ErrSQL e), mkDB (db_committed db) (db_tx db) s (db_faults db))
      | inr (a, t) => (Ok a, mkDB t (db_tx db) s (db_faults db))
      end
  | InTx =>
      match db_tx db with
      | None => (Err (ErrSQL ErrTxClosed), db)
      | Some TxAborted => (Err (ErrSQL ErrTxAborted), db)
      | Some (TxActive t) =>
          let '(r, s) := q t (db_seqs db) in
          match r with
          | inl e => (Err (ErrSQL e), mkDB (db_committed db) (Some TxAborted) s (db_faults db))
          | inr (a, t') => (Ok a, mkDB (db_committed db) (Some (TxActive t')) s (db_faults db))
          end
      end
  end.

(** The tables a handle sees. *)
Definition view (h : dbTx) (db : DB) : option Tables :=
  match h with
  | NoTx => Some (db_committed db)
  | InTx => match db_tx db with Some (TxActive t) => Some t | _ => None end
  end.

#[global] Instance token_wrapped_row_eq_dec : EqDecision token_wrapped_row.
Proof. solve_decision. Defined.
