(* ===== verification/MerkleStore.v ===== *)
(** * The store a Merkle tree works on (bridgectrl/interfaces.go)

    [merkleTreeStore] has one field per method of the Go interface; the theorems about
    the trees are proved against the laws of [MerkleStoreLaws], which say what the
    methods do to a relational view of the store, and which the storage discharges.
    A view exists when the store serves the handle: no connection failure is due and
    the transaction of the handle is open. *)
From S2P Require Import Prelude Types ClaimTypes Schema.

Class merkleTreeStore (St : Type) := {
  store_Get : Hash → dbTx → M St (list Hash);
  store_BulkSet : list (Hash * list Hash * Z) → dbTx → M St unit;
  store_GetRoot : Z → Z → dbTx → M St Hash;
  store_SetRoot : Hash → Z → Z → dbTx → M St unit;
  store_GetLastDepositCount : Z → dbTx → M St Z;
  store_AddRollupExitLeaves : list (Hash * Z * Hash * Z) → dbTx → M St unit;
  store_GetRollupExitLeavesByRoot : Hash → dbTx → M St (list RollupExitLeaf);
  store_GetLatestRollupExitLeaves : dbTx → M St (list RollupExitLeaf);
  store_IsRollupExitRoot : Hash → dbTx → M St bool
}.

(** The tables the trees live in: nodes, roots, the id and count of every deposit, the
    leaves of the rollup exit tree, the ids of the blocks, the next leaf id. *)
Record MTView := mkMTView {
  mv_rht : list rht_row;
  mv_root : list root_row;
  mv_dep : list (Z * Z);
  mv_rollup : list rollup_exit_row;
  mv_block : list Z;
  mv_next : Z
}.

Definition v_node (v : MTView) (k : Hash) : option (list Hash) :=
  rh_value <$> head (filter (λ r, rh_key r = k) (mv_rht v)).

Definition v_root (v : MTView) (cnt net : Z) : option Hash :=
  head (r ← filter (λ r, rr_network r = net) (mv_root v);
        d ← filter (λ d, d.1 = rr_deposit_id r ∧ d.2 = cnt) (mv_dep v);
        [rr_root r]).

Definition v_last (v : MTView) (net : Z) : Z :=
  max_or_neg1 (snd <$> filter (λ d, d.1 = max_or_neg1 (rr_deposit_id <$> filter (λ r, rr_network r = net) (mv_root v)))
                              (mv_dep v)).

Definition v_latest_of (l : list rollup_exit_row) (r : rollup_exit_row) : Prop :=
  Forall (λ r', re_rollup_id r' = re_rollup_id r → re_id r' ≤ re_id r) l.
#[global] Instance v_latest_of_dec l r : Decision (v_latest_of l r).
Proof. unfold v_latest_of. apply _. Defined.

Definition v_leaf (r : rollup_exit_row) : RollupExitLeaf :=
  mkRollupExitLeaf (re_id r) (re_block_id r) (re_leaf r) (re_rollup_id r) (re_root r).

Definition v_latest (v : MTView) : list RollupExitLeaf :=
  v_leaf <$> sort_by re_rollup_id (filter (v_latest_of (mv_rollup v)) (mv_rollup v)).

Definition v_add_root (r : root_row) (v : MTView) : MTView :=
  mkMTView (mv_rht v) (mv_root v ++ [r]) (mv_dep v) (mv_rollup v) (mv_block v) (mv_next v).
Definition v_add_nodes (rows : list rht_row) (v : MTView) : MTView :=
  mkMTView (mv_rht v ++ rows) (mv_root v) (mv_dep v) (mv_rollup v) (mv_block v) (mv_next v).
Definition v_add_rollup (rows : list rollup_exit_row) (v : MTView) : MTView :=
  mkMTView (mv_rht v) (mv_root v) (mv_dep v) (mv_rollup v ++ rows) (mv_block v)
    (mv_next v + Z.of_nat (length rows)).

(** Rows numbered from the next id of the sequence. *)
Fixpoint number_rows (next : Z) (rows : list (Hash * Z * Hash * Z)) : list rollup_exit_row :=
  match rows with
  | [] => []
  | (leaf, rollup_id, root, block_id) :: rows =>
      mk_rollup_exit_row next leaf rollup_id root block_id :: number_rows (next + 1) rows
  end.

(** The node rows of a deposit: one per key, of a deposit that is there. *)
Definition nodes_fit (v : MTView) (rows : list (Hash * list Hash * Z)) : Prop :=
  NoDup ((λ '(k, _, d), (k, d)) <$> rows) ∧
  (∀ k x d, (k, x, d) ∈ rows → d ∈ (fst <$> mv_dep v) ∧ (k, d) ∉ ((λ r, (rh_key r, rh_deposit_id r)) <$> mv_rht v)).

Class MerkleStoreLaws (St : Type) `{merkleTreeStore St} := {
  mview : dbTx → St → option MTView;
  law_Get : ∀ k h s v, mview h s = Some v → store_Get k h s = (or_not_found (v_node v k), s);
  law_GetRoot : ∀ c n h s v, mview h s = Some v → store_GetRoot c n h s = (or_not_found (v_root v c n), s);
  law_GetLastDepositCount : ∀ n h s v, mview h s = Some v →
    store_GetLastDepositCount n h s =
      (if decide (v_last v n < 0) then Err ErrStorageNotFound else Ok (u32 (v_last v n)), s);
  law_SetRoot : ∀ root d n h s v, mview h s = Some v →
    d ∈ (fst <$> mv_dep v) → d ∉ (rr_deposit_id <$> mv_root v) →
    ∃ s', store_SetRoot root d n h s = (Ok tt, s') ∧ mview h s' = Some (v_add_root (mk_root_row root d n) v);
  law_BulkSet : ∀ rows h s v, mview h s = Some v → nodes_fit v rows →
    ∃ s', store_BulkSet rows h s = (Ok tt, s') ∧
          mview h s' = Some (v_add_nodes ((λ '(k, x, d), mk_rht_row k x d) <$> rows) v);
  law_GetLatestRollupExitLeaves : ∀ h s v, mview h s = Some v →
    store_GetLatestRollupExitLeaves h s = (Ok (v_latest v), s);
  law_GetRollupExitLeavesByRoot : ∀ root h s v, mview h s = Some v →
    store_GetRollupExitLeavesByRoot root h s =
      (Ok (v_leaf <$> sort_by re_rollup_id (filter (λ r, re_root r = root) (mv_rollup v))), s);
  law_IsRollupExitRoot : ∀ root h s v, mview h s = Some v →
    store_IsRollupExitRoot root h s = (Ok (bool_decide (root ∈ (re_root <$> mv_rollup v))), s);
  law_AddRollupExitLeaves : ∀ rows h s v, mview h s = Some v →
    (∀ l i r b, (l, i, r, b) ∈ rows → b = 0 ∨ b ∈ mv_block v) →
    ∃ s', store_AddRollupExitLeaves rows h s = (Ok tt, s') ∧
          mview h s' = Some (v_add_rollup (number_rows (mv_next v) rows) v)
}.
