(* ===== verification/Storage.v ===== *)
(** * The storage (db/pgstorage/pgstorage.go)

    One definition per method of [PostgresStorage]: the SQL statement of the method
    on the tables of [Schema], then what the Go code makes of its result.  A SELECT
    without an ORDER BY that may match several rows returns the first in insertion
    order.  The amount columns hold decimal strings that the code prints and parses:
    here they hold the number. *)
From S2P Require Import Prelude Types ClaimTypes Schema.

(** ** Transactions *)

Definition Rollback (h : dbTx) : M DB unit := λ db,
  match h with
  | NoTx => (Err ErrNilDBTransaction, db)
  | InTx =>
      let '(fault, db) := next_fault db in
      match db_tx db with
      | None => (Err (ErrSQL ErrTxClosed), db)
      | Some _ =>
          (* a lost connection rolls the transaction back on the server as well *)
          ((if fault then Err (ErrSQL ErrConn) else Ok tt), set_tx None db)
      end
  end.

Definition Commit (h : dbTx) : M DB unit := λ db,
  match h with
  | NoTx => (Err ErrNilDBTransaction, db)
  | InTx =>
      let '(fault, db) := next_fault db in
      match db_tx db with
      | None => (Err (ErrSQL ErrTxClosed), db)
      | Some TxAborted => (Err (ErrSQL ErrTxCommitRollback), set_tx None db)
      | Some (TxActive t) =>
          if fault then (Err (ErrSQL ErrConn), set_tx None db)
          else (Ok tt, mkDB t None (db_seqs db) (db_faults db))
      end
  end.

Definition BeginDBTransaction : M DB dbTx := λ db,
  let '(fault, db) := next_fault db in
  if fault then (Err (ErrSQL ErrConn), db)
  else (Ok InTx, set_tx (Some (TxActive (db_committed db))) db).

(** ** Blocks *)

Definition block_of_row (r : block_row) : Block :=
  mkBlock (br_id r) (br_block_num r) (br_block_hash r) (br_network_id r) [] [] [] [] [] [] [] [] [] [].

Definition GetLastBlock (networkID : Z) (h : dbTx) : M DB Block :=
  r ← run h (sql_query (λ t,
        head (sort_desc br_block_num (filter (λ r, br_network_id r = networkID) (t_block t)))));
  match r with
  | None => throw ErrStorageNotFound
  | Some r => mret (block_of_row r)
  end.

Definition AddBlock (block : Block) (h : dbTx) : M DB Z :=
  run h (λ t s,
    let id := sq_block s in
    match filter (λ r, br_block_hash r = b_BlockHash block) (t_block t) with
    | r :: _ => (inr (br_id r, t), bump_block s)
    | [] => (inr (id, on_block (λ l, l ++ [mk_block_row id (b_BlockNumber block) (b_BlockHash block) (b_NetworkID block)]) t),
             bump_block s)
    end).

Definition GetPreviousBlock (networkID offset : Z) (h : dbTx) : M DB Block :=
  r ← run h (sql_query (λ t,
        head (limit_offset 1 offset
          (sort_desc br_block_num (filter (λ r, br_network_id r = networkID) (t_block t))))));
  match r with
  | None => throw ErrStorageNotFound
  | Some r => mret (mkBlock 0 (br_block_num r) (br_block_hash r) (br_network_id r) [] [] [] [] [] [] [] [] [] [])
  end.

Definition Reset (blockNumber networkID : Z) (h : dbTx) : M DB unit :=
  run h (sql_update (delete_blocks (λ r, blockNumber < br_block_num r ∧ br_network_id r = networkID))).

(** ** Deposits *)

(** [sync.deposit as d INNER JOIN sync.block as b
      ON d.network_id = b.network_id AND d.block_id = b.id]. *)
Definition deposit_join_block (t : Tables) : list (deposit_row * block_row) :=
  d ← t_deposit t;
  b ← filter (λ b, dr_network_id d = br_network_id b ∧ dr_block_id d = br_id b) (t_block t);
  [(d, b)].

Definition deposit_of_row (d : deposit_row) (block_num : Z) : Deposit :=
  mkDeposit (dr_id d) (dr_leaf_type d) (dr_orig_net d) (dr_orig_addr d) (dr_amount d)
    (dr_dest_net d) (dr_dest_addr d) (dr_deposit_cnt d) (dr_block_id d) block_num
    (dr_network_id d) (dr_tx_hash d) (dr_metadata d) (dr_ready_for_claim d).

Definition AddDeposit (deposit : Deposit) (h : dbTx) : M DB Z :=
  run h (λ t s,
    let id := sq_deposit s in
    if decide (block_exists t (d_BlockID deposit)) then
      (inr (id, on_deposit (λ l, l ++
         [mk_deposit_row id (d_LeafType deposit) (d_NetworkID deposit) (d_OriginalNetwork deposit)
            (d_OriginalAddress deposit) (d_Amount deposit) (d_DestinationNetwork deposit)
            (d_DestinationAddress deposit) (d_BlockID deposit) (d_DepositCount deposit)
            (d_TxHash deposit) (d_Metadata deposit) false false]) t), bump_deposit s)
    else (inl (ErrForeignKey "deposit_block_id_fkey"), bump_deposit s)).

Definition GetDeposit (depositCounter networkID : Z) (h : dbTx) : M DB Deposit :=
  r ← run h (sql_query (λ t,
        head (filter (λ p, dr_network_id p.1 = networkID ∧ dr_deposit_cnt p.1 = depositCounter)
                     (deposit_join_block t))));
  match r with
  | None => throw ErrStorageNotFound
  | Some (d, b) => mret (deposit_of_row d (br_block_num b))
  end.

Definition GetDepositByDepositID (depositID : Z) (h : dbTx) : M DB Deposit :=
  r ← run h (sql_query (λ t, head (filter (λ p, dr_id p.1 = depositID) (deposit_join_block t))));
  match r with
  | None => throw ErrNoRows
  | Some (d, b) => mret (deposit_of_row d (br_block_num b))
  end.

Definition GetNumberDeposits (networkID blockNumber : Z) (h : dbTx) : M DB Z :=
  nDeposits ← run h (sql_query (λ t,
     max_or_neg1 ((λ p, dr_deposit_cnt p.1) <$>
       filter (λ p, dr_network_id p.1 = networkID ∧ br_block_num p.2 ≤ blockNumber) (deposit_join_block t))));
  mret (u32 (nDeposits + 1)).

Definition ResetDeposits (depositCount networkID : Z) (h : dbTx) : M DB unit :=
  if decide (networkID = 0) then throw (Errorf "cannot reset L1 deposits") else
  run h (sql_update (delete_deposits (λ r, depositCount ≤ dr_deposit_cnt r ∧ dr_network_id r = networkID))).

Definition opt_filter (o : option Z) (x : Z) : Prop := match o with None => True | Some v => x = v end.
#[global] Instance opt_filter_dec o x : Decision (opt_filter o x).
Proof. destruct o; simpl; apply _. Defined.

(** ORDER BY d.block_id DESC, d.deposit_cnt DESC: a stable sort by the second key,
    then by the first. *)
Definition bridge_rows (destAddr : Address) (networkID destinationNetworkID : option Z) (t : Tables)
    : list (deposit_row * block_row) :=
  sort_desc (λ p, dr_block_id p.1) (sort_desc (λ p, dr_deposit_cnt p.1)
    (filter (λ p, dr_dest_addr p.1 = destAddr ∧ opt_filter networkID (dr_network_id p.1)
                  ∧ opt_filter destinationNetworkID (dr_dest_net p.1)) (deposit_join_block t))).

Definition GetDeposits (destAddr : Address) (networkID destinationNetworkID : option Z)
    (limit offset : Z) (h : dbTx) : M DB (list Deposit) :=
  rows ← run h (sql_query (λ t, limit_offset limit offset (bridge_rows destAddr networkID destinationNetworkID t)));
  mret ((λ p, deposit_of_row p.1 (br_block_num p.2)) <$> rows).

Definition GetDepositCount (destAddr : Address) (networkID destinationNetworkID : option Z)
    (h : dbTx) : M DB Z :=
  run h (sql_query (λ t, Z.of_nat (length
    (filter (λ d, dr_dest_addr d = destAddr ∧ opt_filter networkID (dr_network_id d)
                  ∧ opt_filter destinationNetworkID (dr_dest_net d)) (t_deposit t))))).

Definition IgnoreDeposit (depositID : Z) (h : dbTx) : M DB unit :=
  run h (sql_update (on_deposit (fmap (λ d,
    if decide (dr_id d = depositID) then
      mk_deposit_row (dr_id d) (dr_leaf_type d) (dr_network_id d) (dr_orig_net d) (dr_orig_addr d)
        (dr_amount d) (dr_dest_net d) (dr_dest_addr d) (dr_block_id d) (dr_deposit_cnt d)
        (dr_tx_hash d) (dr_metadata d) (dr_ready_for_claim d) true
    else d)))).

(** ** Claims *)

Definition AddClaim (claim : Claim) (h : dbTx) : M DB unit :=
  run h (sql_exec (λ t,
    if decide (¬ block_exists t (c_BlockID claim)) then inl (ErrForeignKey "claim_block_id_fkey") else
    if decide (Exists (λ r, cr_index r = c_Index claim ∧ cr_rollup_index r = c_RollupIndex claim ∧
                            cr_network_id r = c_NetworkID claim ∧ cr_mainnet_flag r = c_MainnetFlag claim)
                      (t_claim t))
    then inl (ErrUnique "claim_pkey") else
    inr (on_claim (λ l, l ++ [mk_claim_row (c_NetworkID claim) (c_Index claim) (c_OriginalNetwork claim)
           (c_OriginalAddress claim) (c_Amount claim) (c_DestinationAddress claim) (c_BlockID claim)
           (c_TxHash claim) (c_RollupIndex claim) (c_MainnetFlag claim) (c_GlobalIndex claim)]) t))).

Definition GetClaim (depositCount originNetworkID networkID : Z) (h : dbTx) : M DB Claim :=
  r ← (if decide (originNetworkID = 0) then
         run h (sql_query (λ t, head (filter (λ r, cr_index r = depositCount ∧ cr_mainnet_flag r = true ∧
                                                   cr_network_id r = networkID) (t_claim t))))
       else
         run h (sql_query (λ t, head (filter (λ r, cr_index r = depositCount ∧ cr_mainnet_flag r = false ∧
                                                   cr_rollup_index r + 1 = originNetworkID ∧
                                                   cr_network_id r = networkID) (t_claim t)))));
  match r with
  | None => throw ErrStorageNotFound
  | Some r =>
      mret (mkClaim (bool_decide (originNetworkID = 0)) (cr_rollup_index r) (cr_index r) (cr_orig_net r)
              (cr_orig_addr r) (cr_amount r) (cr_dest_addr r) (cr_block_id r) 0 (cr_network_id r)
              (cr_tx_hash r) (cr_global_index r))
  end.

Definition GetClaimCount (destAddr : Address) (h : dbTx) : M DB Z :=
  run h (sql_query (λ t, Z.of_nat (length (filter (λ r, cr_dest_addr r = destAddr) (t_claim t))))).

Definition GetClaims (destAddr : Address) (limit offset : Z) (h : dbTx) : M DB (list Claim) :=
  rows ← run h (sql_query (λ t,
     limit_offset limit offset (sort_desc cr_block_id (filter (λ r, cr_dest_addr r = destAddr) (t_claim t)))));
  mret ((λ r, mkClaim (cr_mainnet_flag r) (cr_rollup_index r) (cr_index r) (cr_orig_net r) (cr_orig_addr r)
                (cr_amount r) (cr_dest_addr r) (cr_block_id r) 0 (cr_network_id r) (cr_tx_hash r)
                (cr_global_index r)) <$> rows).

(** The column holds [globalIndex.String()]. *)
Definition DeleteClaimByGlobalIndex (globalIndex networkID : Z) (h : dbTx) : M DB unit :=
  run h (sql_update (on_claim (filter (λ r,
    ¬ (cr_global_index r = pretty globalIndex ∧ cr_network_id r = networkID))))).

(** ** Global exit roots *)

Definition UC_conflict (block_id : Z) (ger : Hash) (network_id : Z) (t : Tables) : Prop :=
  Exists (λ r, er_block_id r = block_id ∧ er_global_exit_root r = ger ∧ er_network_id r = network_id)
         (t_exit_root t).
#[global] Instance UC_conflict_dec b g n t : Decision (UC_conflict b g n t).
Proof. unfold UC_conflict. apply _. Defined.

(** The Go slice of hashes as the column [exit_roots]: empty, or its first two
    elements (indexing panics when the second is missing). *)
Definition exit_roots_column (l : list Hash) : result (list Hash) :=
  match l with
  | [] => Ok []
  | _ => a ← at_index l 0; b ← at_index l 1; Ok [a; b]
  end.

Definition AddGlobalExitRoot (exitRoot : GlobalExitRoot) (h : dbTx) : M DB unit :=
  roots ← lift (exit_roots_column (g_ExitRoots exitRoot));
  run h (λ t s,
    let id := sq_exit_root s in
    (if decide (UC_conflict (g_BlockID exitRoot) (g_GlobalExitRoot exitRoot) (g_NetworkID exitRoot) t)
     then inl (ErrUnique "uc")
     else if decide (¬ block_exists t (g_BlockID exitRoot)) then inl (ErrForeignKey "exit_root_block_id_fkey")
     else inr (tt, on_exit_root (λ l, l ++
            [mk_exit_root_row id (g_BlockID exitRoot) (g_GlobalExitRoot exitRoot) roots
               (g_NetworkID exitRoot) true]) t),
     bump_exit_root s)).

Definition AddTrustedGlobalExitRoot (trustedExitRoot : GlobalExitRoot) (h : dbTx) : M DB bool :=
  mainnet ← lift (at_index (g_ExitRoots trustedExitRoot) 0);
  rollup ← lift (at_index (g_ExitRoots trustedExitRoot) 1);
  run h (λ t s,
    let id := sq_exit_root s in
    (if decide (UC_conflict 0 (g_GlobalExitRoot trustedExitRoot) (g_NetworkID trustedExitRoot) t)
     then inr (false, t)
     else inr (true, on_exit_root (λ l, l ++
            [mk_exit_root_row id 0 (g_GlobalExitRoot trustedExitRoot) [mainnet; rollup]
               (g_NetworkID trustedExitRoot) true]) t),
     bump_exit_root s)).

(** [[]common.Hash{BytesToHash(exitRoots[0]), BytesToHash(exitRoots[1])}]. *)
Definition two_roots (l : list Hash) : result (list Hash) :=
  a ← at_index l 0; b ← at_index l 1; Ok [a; b].

Definition GetLatestL1SyncedExitRoot (h : dbTx) : M DB GlobalExitRoot :=
  r ← run h (sql_query (λ t,
        head (sort_desc er_id (filter (λ r, er_allowed r = true ∧ 0 < er_block_id r ∧ er_network_id r = 0)
                                      (t_exit_root t)))));
  match r with
  | None => throw ErrStorageNotFound
  | Some r =>
      roots ← lift (two_roots (er_exit_roots r));
      mret (mkGlobalExitRoot (er_block_id r) 0 roots (er_global_exit_root r) 0 0)
  end.

Definition GetL1ExitRootByGER (ger : Hash) (h : dbTx) : M DB GlobalExitRoot :=
  r ← run h (sql_query (λ t,
        head (sort_desc er_id (filter (λ r, er_allowed r = true ∧ 0 < er_block_id r ∧
                                            er_global_exit_root r = ger ∧ er_network_id r = 0)
                                      (t_exit_root t)))));
  match r with
  | None => throw ErrStorageNotFound
  | Some r =>
      roots ← lift (two_roots (er_exit_roots r));
      mret (mkGlobalExitRoot (er_block_id r) 0 roots (er_global_exit_root r) 0 0)
  end.

Definition GetL2ExitRootsByGER (ger : Hash) (h : dbTx) : M DB (list GlobalExitRoot) :=
  rows ← run h (sql_query (λ t,
     sort_desc er_id (filter (λ r, er_allowed r = true ∧ 0 < er_block_id r ∧ er_global_exit_root r = ger ∧
                                   er_network_id r ≠ 0 ∧ er_exit_roots r = []) (t_exit_root t))));
  mret ((λ r, mkGlobalExitRoot (er_block_id r) 0 [] (er_global_exit_root r) (er_network_id r) (er_id r)) <$> rows).

Definition set_er_exit_roots (v : list Hash) (r : exit_root_row) : exit_root_row :=
  mk_exit_root_row (er_id r) (er_block_id r) (er_global_exit_root r) v (er_network_id r) (er_allowed r).
Definition set_er_allowed (v : bool) (r : exit_root_row) : exit_root_row :=
  mk_exit_root_row (er_id r) (er_block_id r) (er_global_exit_root r) (er_exit_roots r) (er_network_id r) v.

Definition UpdateL2GER (ger : GlobalExitRoot) (h : dbTx) : M DB unit :=
  mainnet ← lift (at_index (g_ExitRoots ger) 0);
  rollup ← lift (at_index (g_ExitRoots ger) 1);
  run h (sql_update (on_exit_root (fmap (λ r,
    if decide (er_id r = g_ID ger) then set_er_exit_roots [mainnet; rollup] r else r)))).

Definition GetLatestTrustedExitRoot (networkID : Z) (h : dbTx) : M DB GlobalExitRoot :=
  r ← run h (sql_query (λ t,
        head (sort_desc er_id (filter (λ r, er_network_id r = networkID ∧ er_allowed r = true) (t_exit_root t)))));
  match r with
  | None => throw ErrStorageNotFound
  | Some r =>
      roots ← (if decide (length (er_exit_roots r) = 2%nat) then lift (two_roots (er_exit_roots r))
               else
                 l1GER ← attempt (GetL1ExitRootByGER (er_global_exit_root r) h);
                 match l1GER with
                 | inl _ => throw ErrL1GERNotFound
                 | inr l1GER => mret (g_ExitRoots l1GER)
                 end);
      mret (mkGlobalExitRoot (er_block_id r) 0 roots (er_global_exit_root r) (er_network_id r) (er_id r))
  end.

Definition GetLatestExitRoot (networkID destNetwork : Z) (h : dbTx) : M DB GlobalExitRoot :=
  if decide (destNetwork ≠ 0) then GetLatestTrustedExitRoot destNetwork h
  else GetLatestL1SyncedExitRoot h.

(** ** Wrapped tokens

    [abi.Arguments.UnpackIntoMap] is code of go-ethereum: the parameter of the class
    is what it makes of the metadata with the three arguments name, symbol and
    decimals. *)
Class AbiToken := UnpackIntoMap : bytes → error + (string * string * Z).

Section TokenWrapped.
Context `{AbiToken}.

Definition getDecodedToken (metadata : bytes) : result TokenMetadata :=
  match UnpackIntoMap metadata with
  | inl e => Err e
  | inr (name, symbol, decimals) => Ok (mkTokenMetadata name symbol decimals)
  end.

(** The metadata of a deposit event is never a nil slice: [metadata IS NOT NULL]
    holds of every row. *)
Definition GetTokenMetadata (networkID destNet : Z) (originalTokenAddr : Address) (h : dbTx) : M DB bytes :=
  r ← run h (sql_query (λ t,
        head (filter (λ d, dr_network_id d = networkID ∧ dr_orig_addr d = originalTokenAddr ∧
                           dr_dest_net d = destNet) (t_deposit t))));
  match r with
  | None => throw ErrNoRows
  | Some d => mret (dr_metadata d)
  end.

Definition AddTokenWrapped (tokenWrapped : TokenWrapped) (h : dbTx) : M DB unit :=
  metadata ← attempt (GetTokenMetadata (t_OriginalNetwork tokenWrapped) (t_NetworkID tokenWrapped)
                        (t_OriginalTokenAddress tokenWrapped) h);
  tokenMetadata ← match metadata with
                  | inl e => if decide (e = ErrNoRows) then mret (mkTokenMetadata "" "" 0) else throw e
                  | inr metadata => lift (getDecodedToken metadata)
                  end;
  run h (sql_exec (λ t,
    if decide (¬ block_exists t (t_BlockID tokenWrapped)) then inl (ErrForeignKey "token_wrapped_block_id_fkey") else
    if decide (Exists (λ r, tw_network_id r = t_NetworkID tokenWrapped ∧ tw_orig_net r = t_OriginalNetwork tokenWrapped ∧
                            tw_orig_token_addr r = t_OriginalTokenAddress tokenWrapped) (t_token_wrapped t))
    then inl (ErrUnique "token_wrapped_pkey") else
    inr (on_token_wrapped (λ l, l ++
      [mk_token_wrapped_row (t_NetworkID tokenWrapped) (t_OriginalNetwork tokenWrapped)
         (t_OriginalTokenAddress tokenWrapped) (t_WrappedTokenAddress tokenWrapped) (t_BlockID tokenWrapped)
         (tm_Name tokenMetadata) (tm_Symbol tokenMetadata) (tm_Decimals tokenMetadata)]) t))).

(** An error of the first query other than no rows leaves the zero token and goes
    on, as the source does. *)
Definition GetTokenWrapped (originalNetwork : Z) (originalTokenAddress : Address) (h : dbTx) : M DB TokenWrapped :=
  r ← attempt (run h (sql_query (λ t,
        head (filter (λ r, tw_orig_net r = originalNetwork ∧ tw_orig_token_addr r = originalTokenAddress)
                     (t_token_wrapped t)))));
  if decide (r = inr None) then throw ErrStorageNotFound else
  let token := match r with
               | inr (Some r) => mkTokenWrapped (mkTokenMetadata (tw_name r) (tw_symbol r) (tw_decimals r))
                                   (tw_orig_net r) (tw_orig_token_addr r) (tw_wrapped_token_addr r)
                                   (tw_block_id r) 0 (tw_network_id r)
               | _ => mkTokenWrapped (mkTokenMetadata "" "" 0) 0 0 0 0 0 0
               end in
  token ← (if decide (tm_Symbol (t_TokenMetadata token) = "")%string then
     metadata ← attempt (GetTokenMetadata (t_OriginalNetwork token) (t_NetworkID token) (t_OriginalTokenAddress token) h);
     match metadata with
     | inl e => if decide (e = ErrNoRows) then mret token else throw e
     | inr metadata =>
         tokenMetadata ← lift (getDecodedToken metadata);
         run h (sql_update (on_token_wrapped (fmap (λ r,
           if decide (tw_orig_net r = originalNetwork ∧ tw_orig_token_addr r = originalTokenAddress) then
             mk_token_wrapped_row (tw_network_id r) (tw_orig_net r) (tw_orig_token_addr r)
               (tw_wrapped_token_addr r) (tw_block_id r) (tm_Name tokenMetadata)
               (tm_Symbol tokenMetadata) (tm_Decimals tokenMetadata)
           else r))));;
         mret (mkTokenWrapped tokenMetadata (t_OriginalNetwork token) (t_OriginalTokenAddress token)
                 (t_WrappedTokenAddress token) (t_BlockID token) (t_BlockNumber token) (t_NetworkID token))
     end
   else mret token);
  match r with
  | inl e => throw e
  | inr _ => mret token
  end.

End TokenWrapped.

(** ** The Merkle tree tables *)

Definition GetDepositCountByRoot (root : Hash) (network : Z) (h : dbTx) : M DB Z :=
  r ← attempt (run h (sql_query (λ t,
        head (r ← filter (λ r, rr_root r = root ∧ rr_network r = network) (t_root t);
              dr_deposit_cnt <$> filter (λ d, dr_id d = rr_deposit_id r) (t_deposit t)))));
  match r with
  | inr None => throw ErrStorageNotFound
  | inr (Some c) => mret c
  | inl _ => mret 0
  end.

Definition CheckIfRootExists (root : Hash) (network : Z) (h : dbTx) : M DB bool :=
  r ← attempt (run h (sql_query (λ t,
        length (filter (λ r, rr_root r = root ∧ rr_network r = network) (t_root t)))));
  match r with
  | inr count => mret (bool_decide (count ≠ 0%nat))
  | inl _ => mret false
  end.

Definition GetRoot (depositCnt network : Z) (h : dbTx) : M DB Hash :=
  r ← run h (sql_query (λ t,
        head (r ← filter (λ r, rr_network r = network) (t_root t);
              d ← filter (λ d, dr_id d = rr_deposit_id r ∧ dr_deposit_cnt d = depositCnt) (t_deposit t);
              [rr_root r])));
  match r with
  | None => throw ErrStorageNotFound
  | Some root => mret root
  end.

Definition SetRoot (root : Hash) (depositID network : Z) (h : dbTx) : M DB unit :=
  run h (sql_exec (λ t,
    if decide (depositID ∈ (rr_deposit_id <$> t_root t)) then inl (ErrUnique "root_pkey") else
    if decide (¬ deposit_exists t depositID) then inl (ErrForeignKey "root_deposit_id_fkey") else
    inr (on_root (λ l, l ++ [mk_root_row root depositID network]) t))).

Definition Get (key : Hash) (h : dbTx) : M DB (list Hash) :=
  r ← run h (sql_query (λ t, head (filter (λ r, rh_key r = key) (t_rht t))));
  match r with
  | None => throw ErrStorageNotFound
  | Some r => mret (rh_value r)
  end.

(** One row more in mt.rht, under its primary key and its foreign key. *)
Definition insert_rht (row : rht_row) (t : Tables) : sqlerr + Tables :=
  if decide (Exists (λ r, rh_key r = rh_key row ∧ rh_deposit_id r = rh_deposit_id row) (t_rht t))
  then inl (ErrUnique "rht_pkey") else
  if decide (¬ deposit_exists t (rh_deposit_id row)) then inl (ErrForeignKey "rht_deposit_id_fkey") else
  inr (on_rht (λ l, l ++ [row]) t).

Definition Set' (key : Hash) (value : list Hash) (depositID : Z) (h : dbTx) : M DB unit :=
  run h (sql_exec (insert_rht (mk_rht_row key value depositID))).

(** COPY: all the rows or none. *)
Fixpoint copy_rht (rows : list rht_row) (t : Tables) : sqlerr + Tables :=
  match rows with
  | [] => inr t
  | row :: rows => match insert_rht row t with inl e => inl e | inr t' => copy_rht rows t' end
  end.

Definition BulkSet (rows : list (Hash * list Hash * Z)) (h : dbTx) : M DB unit :=
  run h (sql_exec (copy_rht ((λ '(k, v, d), mk_rht_row k v d) <$> rows))).

Fixpoint copy_rollup_exit (rows : list (Hash * Z * Hash * Z)) : stmt unit := λ t s,
  match rows with
  | [] => (inr (tt, t), s)
  | (leaf, rollup_id, root, block_id) :: rows =>
      if decide (block_exists t block_id) then
        copy_rollup_exit rows
          (on_rollup_exit (λ l, l ++ [mk_rollup_exit_row (sq_rollup_exit s) leaf rollup_id root block_id]) t)
          (bump_rollup_exit s)
      else (inl (ErrForeignKey "rollup_exit_block_id_fkey"), bump_rollup_exit s)
  end.

Definition AddRollupExitLeaves (rows : list (Hash * Z * Hash * Z)) (h : dbTx) : M DB unit :=
  run h (copy_rollup_exit rows).

Definition leaf_of_row (r : rollup_exit_row) : RollupExitLeaf :=
  mkRollupExitLeaf (re_id r) (re_block_id r) (re_leaf r) (re_rollup_id r) (re_root r).

Definition GetRollupExitLeavesByRoot (root : Hash) (h : dbTx) : M DB (list RollupExitLeaf) :=
  rows ← run h (sql_query (λ t, sort_by re_rollup_id (filter (λ r, re_root r = root) (t_rollup_exit t))));
  mret (leaf_of_row <$> rows).

Definition IsRollupExitRoot (root : Hash) (h : dbTx) : M DB bool :=
  count ← run h (sql_query (λ t, length (filter (λ r, re_root r = root) (t_rollup_exit t))));
  mret (bool_decide (0 < count)%nat).

(** The rows that carry the greatest id of their rollup. *)
Definition latest_of_rollup (l : list rollup_exit_row) (r : rollup_exit_row) : Prop :=
  Forall (λ r', re_rollup_id r' = re_rollup_id r → re_id r' ≤ re_id r) l.
#[global] Instance latest_of_rollup_dec l r : Decision (latest_of_rollup l r).
Proof. unfold latest_of_rollup. apply _. Defined.

Definition GetLatestRollupExitLeaves (h : dbTx) : M DB (list RollupExitLeaf) :=
  rows ← run h (sql_query (λ t,
     sort_by re_rollup_id (filter (latest_of_rollup (t_rollup_exit t)) (t_rollup_exit t))));
  mret (leaf_of_row <$> rows).

Definition GetLastDepositCount (networkID : Z) (h : dbTx) : M DB Z :=
  r ← attempt (run h (sql_query (λ t,
        let lastID := max_or_neg1 (rr_deposit_id <$> filter (λ r, rr_network r = networkID) (t_root t)) in
        max_or_neg1 (dr_deposit_cnt <$> filter (λ d, dr_id d = lastID) (t_deposit t)))));
  match r with
  | inl _ => mret 0
  | inr depositCnt => if decide (depositCnt < 0) then throw ErrStorageNotFound else mret (u32 depositCnt)
  end.

Definition GetLastComputedRoot (networkID : Z) (h : dbTx) : M DB Hash :=
  r ← attempt (run h (sql_query (λ t,
        head (sort_desc rr_deposit_id (filter (λ r, rr_network r = networkID) (t_root t))))));
  match r with
  | inr (Some r) => mret (rr_root r)
  | _ => throw (Errorf "error getting the root from db")
  end.

(** ** Readiness of deposits *)

Definition set_dr_ready (v : bool) (d : deposit_row) : deposit_row :=
  mk_deposit_row (dr_id d) (dr_leaf_type d) (dr_network_id d) (dr_orig_net d) (dr_orig_addr d)
    (dr_amount d) (dr_dest_net d) (dr_dest_addr d) (dr_block_id d) (dr_deposit_cnt d)
    (dr_tx_hash d) (dr_metadata d) v (dr_ignore d).

(** The value of a scalar subquery: NULL without a row, an error with several. *)
Definition scalar {A} (l : list A) : sqlerr + option A :=
  match l with
  | [] => inr None
  | [x] => inr (Some x)
  | _ => inl ErrCardinality
  end.

(** SELECT deposit_cnt FROM mt.root INNER JOIN sync.deposit ON id = deposit_id
    WHERE root = $1 AND network = $2. *)
Definition counts_of_root (t : Tables) (root : Hash) (network : Z) : list Z :=
  r ← filter (λ r, rr_root r = root ∧ rr_network r = network) (t_root t);
  dr_deposit_cnt <$> filter (λ d, dr_id d = rr_deposit_id r) (t_deposit t).

(** UPDATE sync.deposit SET ready_for_claim = true WHERE deposit_cnt <= bound AND
    ready_for_claim = false AND P; nothing is less than or equal to NULL. *)
Definition set_ready_upto (bound : option Z) (P : deposit_row → Prop) `{∀ d, Decision (P d)} (t : Tables) : Tables :=
  match bound with
  | None => t
  | Some c => on_deposit (fmap (λ d,
      if decide (dr_deposit_cnt d ≤ c ∧ dr_ready_for_claim d = false ∧ P d) then set_dr_ready true d else d)) t
  end.

(** The subqueries do not depend on the row: they are evaluated first. *)
Definition UpdateL1DepositsStatus (exitRoot : Hash) (destinationNetwork : Z) (h : dbTx) : M DB unit :=
  run h (sql_exec (λ t,
    match scalar (counts_of_root t exitRoot 0) with
    | inl e => inl e
    | inr bound => inr (set_ready_upto bound (λ d, dr_network_id d = 0 ∧ dr_dest_net d = destinationNetwork) t)
    end)).

Definition UpdateL2DepositsStatus (exitRoot : Hash) (rollupID networkID : Z) (isDestNetL1 : bool)
    (h : dbTx) : M DB unit :=
  run h (sql_exec (λ t,
    match scalar (re_leaf <$> filter (λ r, re_root r = exitRoot ∧ re_rollup_id r = rollupID) (t_rollup_exit t)) with
    | inl e => inl e
    | inr None => inr t
    | inr (Some leaf) =>
        match scalar (counts_of_root t leaf networkID) with
        | inl e => inl e
        | inr bound =>
            inr (if isDestNetL1
                 then set_ready_upto bound (λ d, dr_network_id d = networkID ∧ dr_dest_net d = 0) t
                 else set_ready_upto bound (λ d, dr_network_id d = networkID ∧ dr_dest_net d ≠ 0) t)
        end
    end)).

Definition GetDepositsFromOtherL2ToClaim (destinationNetwork : Z) (h : dbTx) : M DB (list Deposit) :=
  rows ← run h (sql_query (λ t,
     let claimed := cr_index <$> filter (λ c, cr_network_id c = destinationNetwork) (t_claim t) in
     sort_desc dr_id (filter (λ d, (dr_deposit_cnt d ∉ claimed) ∧ dr_network_id d ≠ 0 ∧ dr_ignore d = false ∧
                                   dr_dest_net d = destinationNetwork ∧ dr_ready_for_claim d = true)
                             (t_deposit t))));
  mret ((λ d, deposit_of_row d 0) <$> rows).

(** exit_roots[i], with the indices of SQL arrays: NULL out of range. *)
Definition sql_array (l : list Hash) (i : nat) : option Hash :=
  match i with O => None | S j => l !! j end.

Definition GetLatestTrustedGERByDeposit (depositCnt networkID destinationNetwork : Z) (h : dbTx) : M DB Hash :=
  r ← run h (sql_query (λ t,
        head (sort_desc er_id
          (d ← filter (λ d, dr_deposit_cnt d = depositCnt ∧ dr_network_id d = networkID ∧
                            dr_dest_net d = destinationNetwork) (t_deposit t);
           r ← filter (λ r, rr_deposit_id r = dr_id d) (t_root t);
           x ← filter (λ x, re_leaf x = rr_root r ∧ re_rollup_id x = networkID) (t_rollup_exit t);
           filter (λ e, sql_array (er_exit_roots e) 2 = Some (re_root x) ∧ er_allowed e = true ∧
                        er_network_id e = dr_dest_net d) (t_exit_root t)))));
  match r with
  | None => throw ErrStorageNotFound
  | Some e => mret (er_global_exit_root e)
  end.

(** The common WHERE clause of the two statements below. *)
Definition pending_to_claim (addressFilter : Address) (destNetwork leafType fromNetwork : Z) (t : Tables)
    (d : deposit_row) : Prop :=
  dr_dest_net d = destNetwork ∧ dr_ready_for_claim d = true ∧
  (fromNetwork = 0 → dr_network_id d = 0) ∧ (fromNetwork = 1 → dr_network_id d ≠ 0) ∧
  dr_leaf_type d = leafType ∧
  (addressFilter ≠ 0 → leafType = 0 → dr_dest_addr d = addressFilter) ∧
  (addressFilter ≠ 0 → leafType = 1 → dr_orig_addr d = addressFilter) ∧
  ¬ Exists (λ c, cr_network_id c = destNetwork ∧ cr_index c = dr_deposit_cnt d) (t_claim t) ∧
  ¬ Exists (λ m, m_DepositID m = dr_id d) (t_monitored_txs t) ∧
  dr_ignore d = false.
#[global] Instance pending_to_claim_dec a n l f t d : Decision (pending_to_claim a n l f t d).
Proof. unfold pending_to_claim. apply _. Defined.

Definition GetPendingDepositsToClaim (addressFilter : Address) (destNetwork leafType limit offset fromNetwork : Z)
    (h : dbTx) : M DB (list Deposit * Z) :=
  totalCount ← run h (sql_query (λ t, Z.of_nat (length
     (filter (pending_to_claim addressFilter destNetwork leafType fromNetwork t) (t_deposit t)))));
  rows ← run h (sql_query (λ t,
     let rows := sort_by (λ p, dr_deposit_cnt p.1)
       (d ← filter (pending_to_claim addressFilter destNetwork leafType fromNetwork t) (t_deposit t);
        b ← filter (λ b, br_id b = dr_block_id d) (t_block t);
        [(d, b)]) in
     if decide (0 < limit) then limit_offset limit offset rows else rows));
  mret ((λ p, deposit_of_row p.1 (br_block_num p.2)) <$> rows, totalCount).

(** ** Removed global exit roots *)

Definition GetDepositCountByGER (ger : Hash) (network : Z) (rollupsTree : bool) (h : dbTx) : M DB (Z * Z) :=
  let arrayIndex := if rollupsTree then 2%nat else 1%nat in
  let rootNetwork := if rollupsTree then network else 0 in
  r ← run h (sql_query (λ t,
        head (d ← t_deposit t;
              r ← filter (λ r, rr_deposit_id r = dr_id d ∧ rr_network r = rootNetwork) (t_root t);
              e ← filter (λ e, sql_array (er_exit_roots e) arrayIndex = Some (rr_root r) ∧
                               er_global_exit_root e = ger ∧ er_network_id e = network) (t_exit_root t);
              [(dr_id d, dr_deposit_cnt d)])));
  match r with
  | None => throw ErrStorageNotFound
  | Some p => mret p
  end.

(** [x, _, err := c; if errors.Is(err, ErrStorageNotFound) { x = dflt } else if err
    != nil { return err }]. *)
Definition found_or {S A} (dflt : A) (c : M S A) : M S A :=
  r ← attempt c;
  match r with
  | inr a => mret a
  | inl e => if errors_Is e ErrStorageNotFound then mret dflt else throw e
  end.

(** WHERE global_exit_root = $1 AND network_id = $2. *)
Definition is_ger (g : GlobalExitRoot) (r : exit_root_row) : Prop :=
  er_global_exit_root r = g_GlobalExitRoot g ∧ er_network_id r = g_NetworkID g.
#[global] Instance is_ger_dec g r : Decision (is_ger g r).
Proof. unfold is_ger. apply _. Defined.

(** The driver does not send a parameter that does not fit its BIGINT. *)
Definition bind_bigint {S} (v : Z) : M S unit :=
  if decide (v ≤ MaxInt64) then mret tt else throw (ErrSQL ErrBind).

(** The first UPDATE is a QueryRow with RETURNING: no row is an error. *)
Definition AddRemoveL2GER (globalExitRoot : GlobalExitRoot) (h : dbTx) : M DB unit :=
  run h (λ t s,
    let id := sq_remove_exit_root s in
    (if decide (block_exists t (g_BlockID globalExitRoot)) then
       inr (tt, on_remove_exit_root (λ l, l ++ [mk_remove_exit_root_row id (g_BlockID globalExitRoot)
                  (g_GlobalExitRoot globalExitRoot) (g_NetworkID globalExitRoot)]) t)
     else inl (ErrForeignKey "remove_exit_root_block_id_fkey"), bump_remove_exit_root s));;
  gerID ← run h (λ t s,
    (inr (er_id <$> head (filter (is_ger globalExitRoot) (t_exit_root t)),
          on_exit_root (fmap (λ r, if decide (is_ger globalExitRoot r) then set_er_allowed false r else r)) t), s));
  gerID ← lift (match gerID with None => Err ErrNoRows | Some id => Ok id end);
  prevGer ← run h (sql_query (λ t,
     head (sort_desc er_id (filter (λ r, er_network_id r = g_NetworkID globalExitRoot ∧ er_id r < gerID)
                                   (t_exit_root t)))));
  prevGer ← lift (match prevGer with None => Err ErrNoRows | Some r => Ok (er_global_exit_root r) end);
  prev ← found_or (0, 0) (GetDepositCountByGER prevGer (g_NetworkID globalExitRoot) false h);
  cur ← found_or (MaxUint64, 0)
     (GetDepositCountByGER (g_GlobalExitRoot globalExitRoot) (g_NetworkID globalExitRoot) false h);
  let prevDepositID := prev.1 in
  let CurrentDepositID := cur.1 in
  bind_bigint CurrentDepositID;;
  run h (sql_update (on_deposit (fmap (λ d,
    if decide (prevDepositID < dr_id d ∧ dr_id d ≤ CurrentDepositID ∧ dr_network_id d = 0 ∧
               dr_dest_net d = g_NetworkID globalExitRoot)
    then set_dr_ready false d else d)))).

(** ** Monitored transactions *)

(** [now] is [time.Now().UTC()]. *)
Definition AddClaimTx (now : Z) (mTx : MonitoredTx) (h : dbTx) : M DB unit :=
  run h (sql_update (λ t,
    if decide (m_DepositID mTx ∈ (m_DepositID <$> t_monitored_txs t)) then t else
    on_monitored_txs (λ l, l ++
      [mkMonitoredTx (m_DepositID mTx) (m_From mTx) (m_To mTx) (m_Nonce mTx) (m_Value mTx) (m_Data mTx)
         (m_Gas mTx) None (m_Status mTx) (m_History mTx) now now (m_GroupID mTx) (m_GlobalExitRoot mTx)]) t)).

(** The columns created_at and global_exit_root are kept; the gas price has no
    column. *)
Definition UpdateClaimTx (now : Z) (mTx : MonitoredTx) (h : dbTx) : M DB unit :=
  run h (sql_update (on_monitored_txs (fmap (λ r,
    if decide (m_DepositID r = m_DepositID mTx) then
      mkMonitoredTx (m_DepositID r) (m_From mTx) (m_To mTx) (m_Nonce mTx) (m_Value mTx) (m_Data mTx)
        (m_Gas mTx) None (m_Status mTx) (m_History mTx) (m_CreatedAt r) now (m_GroupID mTx) (m_GlobalExitRoot r)
    else r)))).

Definition GetClaimTxsByStatus (statuses : list MonitoredTxStatus) (rollupID : Z) (h : dbTx)
    : M DB (list MonitoredTx) :=
  run h (sql_query (λ t,
    sort_by m_CreatedAt
      (m ← filter (λ m, m_Status m ∈ statuses) (t_monitored_txs t);
       d ← filter (λ d, dr_id d = m_DepositID m ∧ dr_dest_net d = rollupID) (t_deposit t);
       [m]))).

Definition GetLatestMonitoredTxGroupID (h : dbTx) : M DB Z :=
  r ← run h (sql_query (λ t, head (sort_desc ge_GroupID (t_monitored_txs_group t))));
  match r with
  | None => mret 0
  | Some g => mret (ge_GroupID g)
  end.

(** The JSON text of the history column is read back as it was written: a nil
    history is the empty string. *)
Definition AddMonitoredTxsGroup (mTxGroup : option MonitoredTxGroupDBEntry) (h : dbTx) : M DB unit :=
  match mTxGroup with
  | None => throw (Errorf "nil monitored tx group")
  | Some g =>
      run h (sql_exec (λ t,
        if decide (ge_GroupID g ∈ (ge_GroupID <$> t_monitored_txs_group t))
        then inl (ErrUnique "monitored_txs_group_pkey")
        else inr (on_monitored_txs_group (λ l, l ++ [set_ge_LastLog "" g]) t)))
  end.

Definition UpdateMonitoredTxsGroup (mTxGroup : option MonitoredTxGroupDBEntry) (h : dbTx) : M DB unit :=
  match mTxGroup with
  | None => throw (Errorf "nil monitored tx group")
  | Some g =>
      run h (sql_update (on_monitored_txs_group (fmap (λ r,
        if decide (ge_GroupID r = ge_GroupID g) then
          mkMonitoredTxGroupDBEntry (ge_GroupID r) (ge_Status g) (ge_DepositIDs r) (ge_CompressedTxData g)
            (ge_ClaimTxHistory g) (ge_CreatedAt r) (ge_UpdatedAt g) (ge_NumRetries g) (ge_LastLog g)
        else r))))
  end.

(** The columns deposit_ids and last_log are not read. *)
Definition GetMonitoredTxsGroups (groupIds : list Z) (h : dbTx) : M DB (gmap Z MonitoredTxGroupDBEntry) :=
  rows ← run h (sql_query (λ t,
     sort_by ge_CreatedAt (filter (λ g, ge_GroupID g ∈ groupIds) (t_monitored_txs_group t))));
  mret (foldl (λ groups g, <[ge_GroupID g := set_ge_LastLog "" (set_ge_DepositIDs [] g)]> groups) ∅ rows).

(** ** Sync status *)

Definition AddSyncStatus (syncStatus : SyncStatus) (h : dbTx) : M DB unit :=
  run h (sql_update (on_status (λ l,
    if decide (s_NetworkID syncStatus ∈ (s_NetworkID <$> l)) then
      (λ r, if decide (s_NetworkID r = s_NetworkID syncStatus) then syncStatus else r) <$> l
    else l ++ [syncStatus]))).

Definition GetSyncStatus (h : dbTx) : M DB (list SyncStatus) :=
  run h (sql_query (λ t, sort_by s_NetworkID (t_status t))).

(** ** Local exit tree and claim events of sovereign chains *)

Definition AddBackwardLET (backwardLET : BackwardLET) (h : dbTx) : M DB unit :=
  run h (λ t s,
    (if decide (block_exists t (bl_BlockID backwardLET)) then
       inr (tt, on_backward_let (λ l, l ++
         [mk_backward_let_row (sq_backward_let s) (bl_BlockID backwardLET) (bl_PreviousDepositCount backwardLET)
            (bl_PreviousRoot backwardLET) (bl_NewDepositCount backwardLET) (bl_NewRoot backwardLET)]) t)
     else inl (ErrForeignKey "backward_let_block_id_fkey"), bump_backward_let s)).

Definition AddForwardLET (forwardLET : ForwardLET) (h : dbTx) : M DB unit :=
  run h (λ t s,
    (if decide (block_exists t (fl_BlockID forwardLET)) then
       inr (tt, on_forward_let (λ l, l ++
         [mk_forward_let_row (sq_forward_let s) (fl_BlockID forwardLET) (fl_PreviousDepositCount forwardLET)
            (fl_PreviousRoot forwardLET) (fl_NewDepositCount forwardLET) (fl_NewRoot forwardLET)
            (fl_NewRawLeaves forwardLET)]) t)
     else inl (ErrForeignKey "forward_let_block_id_fkey"), bump_forward_let s)).

Definition addSetUnsetClaim (eventType : string) (blockID : Z) (mainnetFlag : bool)
    (rollupIndex index globalIndex : Z) (h : dbTx) : M DB unit :=
  run h (λ t s,
    (if decide (block_exists t blockID) then
       inr (tt, on_set_unset_claim (λ l, l ++
         [mk_set_unset_claim_row (sq_set_unset_claim s) blockID mainnetFlag rollupIndex index
            (pretty globalIndex) eventType]) t)
     else inl (ErrForeignKey "set_unset_claim_block_id_fkey"), bump_set_unset_claim s)).

Definition AddSetClaim (setClaim : SetClaim) (h : dbTx) : M DB unit :=
  addSetUnsetClaim "SET" (sc_BlockID setClaim) (sc_MainnetFlag setClaim) (sc_RollupIndex setClaim)
    (sc_Index setClaim) (sc_GlobalIndex setClaim) h.

Definition AddUnsetClaim (unsetClaim : UnsetClaim) (h : dbTx) : M DB unit :=
  addSetUnsetClaim "UNSET" (uc_BlockID unsetClaim) (uc_MainnetFlag unsetClaim) (uc_RollupIndex unsetClaim)
    (uc_Index unsetClaim) (uc_GlobalIndex unsetClaim) h.
