(* ===== verification/PgMerkleStore.v ===== *)
(** * PostgresStorage as the store of the Merkle trees

    The methods of [Storage] implement the interface [merkleTreeStore], and satisfy
    its laws when no connection failure is scheduled. *)
From S2P Require Import Prelude Types ClaimTypes Schema MerkleStore Storage.

#[global] Instance pg_merkleTreeStore : merkleTreeStore DB := {|
  store_Get := Get;
  store_BulkSet := BulkSet;
  store_GetRoot := GetRoot;
  store_SetRoot := SetRoot;
  store_GetLastDepositCount := GetLastDepositCount;
  store_AddRollupExitLeaves := AddRollupExitLeaves;
  store_GetRollupExitLeavesByRoot := GetRollupExitLeavesByRoot;
  store_GetLatestRollupExitLeaves := GetLatestRollupExitLeaves;
  store_IsRollupExitRoot := IsRollupExitRoot
|}.

Definition tables_view (t : Tables) (s : Seqs) : MTView :=
  mkMTView (t_rht t) (t_root t) ((λ d, (dr_id d, dr_deposit_cnt d)) <$> t_deposit t) (t_rollup_exit t)
    (br_id <$> t_block t) (sq_rollup_exit s).

Definition pg_mview (h : dbTx) (db : DB) : option MTView :=
  match db_faults db with
  | [] => (λ t, tables_view t (db_seqs db)) <$> view h db
  | _ => None
  end.

(** The database after a statement that succeeded on handle [h]. *)
Definition with_tables (h : dbTx) (t : Tables) (s : Seqs) (db : DB) : DB :=
  match h with
  | NoTx => mkDB t (db_tx db) s (db_faults db)
  | InTx => mkDB (db_committed db) (Some (TxActive t)) s (db_faults db)
  end.

Lemma pg_mview_inv h db v :
  pg_mview h db = Some v →
  ∃ t, view h db = Some t ∧ db_faults db = [] ∧ v = tables_view t (db_seqs db).
Proof.
  unfold pg_mview. destruct (db_faults db); [|done]. intros Hv.
  apply fmap_Some in Hv as (t & ? & ->). eauto.
Qed.

Lemma run_live {A} h (q : stmt A) db t a t' s' :
  view h db = Some t → db_faults db = [] → q t (db_seqs db) = (inr (a, t'), s') →
  run h q db = (Ok a, with_tables h t' s' db).
Proof.
  intros Hv Hf Hq. unfold run, next_fault. rewrite Hf. destruct h; simpl in *.
  - simplify_eq. by rewrite Hq.
  - destruct (db_tx db) as [[t0|]|]; simplify_eq. by rewrite Hq.
Qed.

Lemma with_tables_same h t db : view h db = Some t → with_tables h t (db_seqs db) db = db.
Proof. destruct h, db as [c [[]|] s f]; simpl; intros; by simplify_eq. Qed.

Lemma run_query_live {A} h (f : Tables → A) db t :
  view h db = Some t → db_faults db = [] → run h (sql_query f) db = (Ok (f t), db).
Proof.
  intros Hv Hf. erewrite run_live by (reflexivity || done). by rewrite with_tables_same.
Qed.

Lemma run_exec_live h f db t t' :
  view h db = Some t → db_faults db = [] → f t = inr t' →
  run h (sql_exec f) db = (Ok tt, with_tables h t' (db_seqs db) db).
Proof. intros Hv Hf Hx. eapply run_live; [done..|]. unfold sql_exec. by rewrite Hx. Qed.

Lemma pg_mview_with h t s db :
  db_faults db = [] → pg_mview h (with_tables h t s db) = Some (tables_view t s).
Proof. intros Hf. destruct h; unfold pg_mview; simpl; by rewrite Hf. Qed.

Lemma dep_ids t s : fst <$> mv_dep (tables_view t s) = dr_id <$> t_deposit t.
Proof. simpl. by rewrite <- list_fmap_compose. Qed.

Lemma filter_fmap_swap {A B} (f : A → B) (P : B → Prop) (Q : A → Prop)
    `{∀ x, Decision (P x), ∀ x, Decision (Q x)} (l : list A) :
  (∀ x, P (f x) ↔ Q x) → filter P (f <$> l) = f <$> filter Q l.
Proof.
  intros HPQ. induction l as [|x l IH]; [done|]. cbn [fmap list_fmap].
  rewrite !filter_cons, IH. destruct (decide (P (f x))) as [p|p].
  - by rewrite decide_True by (by apply HPQ).
  - rewrite decide_False; [done|]. by intros ?%HPQ.
Qed.

Lemma bind_const {A B C} (f : A → B) (l : list A) (c : C) :
  ((f <$> l) ≫= λ _, [c]) = (l ≫= λ _, [c]).
Proof. induction l as [|x l IH]; [done|]. cbn. by f_equal. Qed.

Lemma mbind_ext_list {A B} (f g : A → list B) (l : list A) :
  (∀ x, f x = g x) → l ≫= f = l ≫= g.
Proof. intros E. induction l as [|x l IH]; [done|]. cbn. by rewrite E, IH. Qed.

Lemma copy_rht_Ok rows : ∀ t,
  NoDup ((λ r, (rh_key r, rh_deposit_id r)) <$> rows) →
  (∀ r, r ∈ rows → deposit_exists t (rh_deposit_id r) ∧
                   (rh_key r, rh_deposit_id r) ∉ ((λ r, (rh_key r, rh_deposit_id r)) <$> t_rht t)) →
  copy_rht rows t = inr (on_rht (λ l, l ++ rows) t).
Proof.
  induction rows as [|r rows IH]; intros t Hnd Hok; simpl.
  - destruct t. unfold on_rht. simpl. by rewrite app_nil_r.
  - inversion Hnd as [|? ? Hni Hnd']; subst. destruct (Hok r) as [Hd Hk]; [left|].
    unfold insert_rht. rewrite decide_False, decide_False.
    + rewrite IH; [|done|].
      * unfold on_rht. simpl. by rewrite <- app_assoc.
      * intros r' Hr'. destruct (Hok r') as [Hd' Hk']; [by right|]. split; [done|].
        unfold on_rht. simpl. rewrite fmap_app, not_elem_of_app. split; [done|].
        cbn. rewrite list_elem_of_singleton. intros E. apply Hni. rewrite <- E.
        by apply (list_elem_of_fmap_2 (λ r, (rh_key r, rh_deposit_id r))).
    + auto.
    + intros (x & Hx & E1 & E2)%Exists_exists. apply Hk. apply list_elem_of_fmap. exists x.
      split; [by rewrite E1, E2|done].
Qed.

Lemma copy_rollup_exit_Ok rows : ∀ t s,
  (∀ l i r b, (l, i, r, b) ∈ rows → block_exists t b) →
  ∃ t' s', copy_rollup_exit rows t s = (inr (tt, t'), s') ∧
    tables_view t' s' = v_add_rollup (number_rows (sq_rollup_exit s) rows) (tables_view t s).
Proof.
  induction rows as [|[[[l i] r] b] rows IH]; intros t s Hb; simpl.
  - exists t, s. split; [done|]. unfold tables_view, v_add_rollup. simpl. by rewrite app_nil_r, Z.add_0_r.
  - rewrite decide_True by (eapply Hb; left).
    set (t1 := on_rollup_exit _ t). destruct (IH t1 (bump_rollup_exit s)) as (t' & s' & E & Ev).
    { intros l' i' r' b' Hin. destruct (Hb l' i' r' b') as [|Hx]; [by right|by left|by right]. }
    exists t', s'. split; [done|]. rewrite Ev. unfold tables_view, v_add_rollup, t1. simpl.
    rewrite <- app_assoc. simpl. f_equal. lia.
Qed.

Lemma v_root_tables t s c n :
  v_root (tables_view t s) c n =
  head (r ← filter (λ r, rr_network r = n) (t_root t);
        d ← filter (λ d, dr_id d = rr_deposit_id r ∧ dr_deposit_cnt d = c) (t_deposit t);
        [rr_root r]).
Proof.
  unfold v_root. cbn [mv_root mv_dep tables_view]. f_equal. apply mbind_ext_list. intros r.
  rewrite (filter_fmap_swap _ _ (λ d, dr_id d = rr_deposit_id r ∧ dr_deposit_cnt d = c)) by done.
  apply bind_const.
Qed.

Lemma v_last_tables t s n :
  v_last (tables_view t s) n =
  max_or_neg1 (dr_deposit_cnt <$> filter (λ d, dr_id d =
    max_or_neg1 (rr_deposit_id <$> filter (λ r, rr_network r = n) (t_root t))) (t_deposit t)).
Proof.
  unfold v_last. cbn [mv_root mv_dep tables_view].
  rewrite (filter_fmap_swap _ _ (λ d, dr_id d =
    max_or_neg1 (rr_deposit_id <$> filter (λ r, rr_network r = n) (t_root t)))) by done.
  by rewrite <- list_fmap_compose.
Qed.

#[global] Instance pg_merkleStoreLaws : MerkleStoreLaws DB.
Proof.
  refine {| mview := pg_mview |}.
  - intros k h s v (t & Hv & Hf & ->)%pg_mview_inv. cbn. unfold Get, mbind, M_bind.
    rewrite (run_query_live _ _ _ t) by done. unfold v_node. cbn. by destruct (head _).
  - intros c n h s v (t & Hv & Hf & ->)%pg_mview_inv. cbn. unfold GetRoot. unfold mbind at 1, M_bind.
    rewrite (run_query_live _ _ _ t) by done. rewrite v_root_tables. by destruct (head _).
  - intros n h s v (t & Hv & Hf & ->)%pg_mview_inv. cbn [store_GetLastDepositCount pg_merkleTreeStore].
    unfold GetLastDepositCount, mbind, M_bind, attempt. rewrite (run_query_live _ _ _ t) by done.
    rewrite <- v_last_tables with (s := db_seqs s). cbn beta iota zeta. by case_decide.
  - intros root d n h s v (t & Hv & Hf & ->)%pg_mview_inv Hd Hr. rewrite dep_ids in Hd. cbn in Hr |- *.
    eexists. split.
    + apply (run_exec_live _ _ _ t); [done..|]. rewrite decide_False by done.
      rewrite decide_False; [reflexivity|]. unfold deposit_exists. tauto.
    + rewrite pg_mview_with by done. done.
  - intros rows h s v (t & Hv & Hf & ->)%pg_mview_inv [Hnd Hok]. cbn. eexists. split.
    + apply (run_exec_live _ _ _ t); [done..|]. apply copy_rht_Ok.
      * rewrite <- list_fmap_compose. erewrite list_fmap_ext; [exact Hnd|].
        by intros ? [[? ?] ?] ?.
      * intros r ([[k x] d] & -> & Hin)%list_elem_of_fmap. simpl. destruct (Hok k x d Hin) as [Hd Hk]. split; [|done]. unfold deposit_exists.
        by rewrite <- (dep_ids t (db_seqs s)).
    + rewrite pg_mview_with by done. done.
  - intros h s v (t & Hv & Hf & ->)%pg_mview_inv. cbn. unfold GetLatestRollupExitLeaves, mbind, M_bind.
    rewrite (run_query_live _ _ _ t) by done. done.
  - intros root h s v (t & Hv & Hf & ->)%pg_mview_inv. cbn. unfold GetRollupExitLeavesByRoot, mbind, M_bind.
    rewrite (run_query_live _ _ _ t) by done. done.
  - intros root h s v (t & Hv & Hf & ->)%pg_mview_inv. cbn. unfold IsRollupExitRoot, mbind, M_bind.
    rewrite (run_query_live _ _ _ t) by done. unfold mret, M_ret. cbn beta. do 2 f_equal. apply bool_decide_ext. cbn [mv_rollup tables_view].
    rewrite list_elem_of_fmap. split.
    + intros Hl. destruct (filter _ (t_rollup_exit t)) as [|r l] eqn:E; [simpl in Hl; lia|].
      assert (r ∈ filter (λ r, re_root r = root) (t_rollup_exit t)) as Hr by (rewrite E; left).
      apply list_elem_of_filter in Hr as [? ?]. by exists r.
    + intros (r & -> & Hr).
      assert (r ∈ filter (λ r', re_root r' = re_root r) (t_rollup_exit t)) as Hin by (by apply list_elem_of_filter).
      destruct (filter _ _); [by apply elem_of_nil in Hin|simpl; lia].
  - intros rows h s v (t & Hv & Hf & ->)%pg_mview_inv Hb. cbn.
    destruct (copy_rollup_exit_Ok rows t (db_seqs s)) as (t' & s' & E & Ev).
    { intros l i r b Hin. destruct (Hb l i r b Hin); [by left|by right]. }
    exists (with_tables h t' s' s). split; [by eapply run_live|]. rewrite pg_mview_with by done. by rewrite Ev.
Defined.
