(* ===== verification/MerkleTree.v ===== *)
(** * The incremental Merkle tree (bridgectrl/merkletree.go)

    The tree object keeps its count and its left siblings in memory and writes nodes
    and roots to the store; a computation runs on the pair of the store and the
    object, and the object keeps what was assigned before an error, as in Go.
    Theorems: appending a leaf computes the reference root and keeps the frontier,
    also when the store fails; reloading from the store gives the frontier back; the
    root and the proofs of the rollup exit tree are those of the reference tree. *)
From S2P Require Import Prelude Types Bytes Hash MerkleSpec ClaimTypes Schema MerkleStore.

Record MerkleTree := mkMerkleTree {
  mt_networkID : Z;
  mt_height : Z;
  mt_count : Z;
  mt_siblings : list Hash
}.

Definition set_count (c : Z) (mt : MerkleTree) : MerkleTree :=
  mkMerkleTree (mt_networkID mt) (mt_height mt) c (mt_siblings mt).
Definition set_siblings (l : list Hash) (mt : MerkleTree) : MerkleTree :=
  mkMerkleTree (mt_networkID mt) (mt_height mt) (mt_count mt) l.

Section MerkleTree.
Context `{K : Keccak256} {St : Type} `{merkleTreeStore St}.

(** A call of the store from a method of the tree. *)
Definition on_store {A} (c : M St A) : M (St * MerkleTree) A :=
  zoom fst (λ s w, (s, snd w)) c.
Definition the_tree : M (St * MerkleTree) MerkleTree := gets snd.
Definition set_tree (f : MerkleTree → MerkleTree) : M (St * MerkleTree) unit :=
  modify (λ w, (fst w, f (snd w))).

Definition getRoot (h : dbTx) : M (St * MerkleTree) Hash :=
  mt ← the_tree;
  if decide (mt_count mt = 0) then lift (at_index zeroHashes (mt_height mt))
  else on_store (store_GetRoot (u32 (mt_count mt - 1)) (mt_networkID mt) h).

(** The loop [for h := int(mt.height - 1); h >= 0; h--]: level [k - 1] comes next. *)
Fixpoint initSiblings_loop (k : nat) (index : Z) (cur : Hash) (siblings : list Hash) (h : dbTx)
    : M (St * MerkleTree) (list Hash) :=
  match k with
  | O => mret siblings
  | S lvl =>
      value ← attempt (on_store (store_Get cur h));
      match value with
      | inl _ => throw (Errorf "height: %d, cur: %v, error: %v")
      | inr value =>
          left ← lift (at_index value 0);
          cur ← lift (if bit32 index (Z.of_nat lvl) then at_index value 1 else at_index value 0);
          initSiblings_loop lvl index cur (siblings ++ [left]) h
      end
  end.

Definition initSiblings (h : dbTx) : M (St * MerkleTree) (list Hash) :=
  mt ← the_tree;
  if decide (mt_count mt = 0) then
    lift (fold_result (λ siblings lvl, left ← at_index zeroHashes (Z.of_nat lvl); Ok (siblings ++ [left]))
            [] (seq 0 (Z.to_nat (mt_height mt))))
  else
    root ← getRoot h;
    siblings ← initSiblings_loop (Z.to_nat (u8 (mt_height mt - 1)) + 1) (u32 (mt_count mt - 1)) root [] h;
    mret (reverse siblings).

(** The state of the loop of [addLeaf]: cur, isFilledSubTree, mt.siblings, leaves. *)
Definition addLeaf_step (index : Z) (st : Hash * bool * list Hash * list (Hash * Hash * Hash)) (lvl : nat)
    : result (Hash * bool * list Hash * list (Hash * Hash * Hash)) :=
  let '(cur, isFilledSubTree, siblings, leaves) := st in
  if bit32 index (Z.of_nat lvl) then
    sib ← at_index siblings (Z.of_nat lvl);
    let parent := HashN [sib; cur] in
    Ok (parent, isFilledSubTree, siblings, leaves ++ [(parent, sib, cur)])
  else
    siblings ← (if isFilledSubTree : bool then set_index siblings (Z.of_nat lvl) cur else Ok siblings);
    zero ← at_index zeroHashes (Z.of_nat lvl);
    let parent := HashN [cur; zero] in
    Ok (parent, false, siblings, leaves ++ [(parent, cur, zero)]).

Definition addLeaf_loop (index : Z) (leaf : Hash) (siblings : list Hash) (height : Z) :=
  fold_result (addLeaf_step index) (leaf, true, siblings, []) (seq 0 (Z.to_nat height)).

Definition addLeaf (depositID : Z) (leaf : Hash) (index : Z) (h : dbTx) : M (St * MerkleTree) unit :=
  mt ← the_tree;
  if decide (index ≠ mt_count mt) then throw (Errorf "mismatched deposit count: %d, expected: %d") else
  r ← lift (addLeaf_loop index leaf (mt_siblings mt) (mt_height mt));
  let '(cur, _, siblings, leaves) := r in
  set_tree (set_siblings siblings);;
  on_store (store_SetRoot cur depositID (mt_networkID mt) h);;
  let nodes := (λ '(p, l, r), (p, [l; r], depositID)) <$> leaves in
  on_store (store_BulkSet nodes h);;
  set_tree (set_count (u32 (mt_count mt + 1))).

(** [mt.siblings, err = mt.initSiblings(ctx, dbTx); return err]: with an error the
    siblings become nil. *)
Definition assignSiblings (h : dbTx) : M (St * MerkleTree) unit :=
  r ← attempt (initSiblings h);
  match r with
  | inr siblings => set_tree (set_siblings siblings)
  | inl e => set_tree (set_siblings []);; throw e
  end.

Definition resetLeaf (depositCount : Z) (h : dbTx) : M (St * MerkleTree) unit :=
  set_tree (set_count depositCount);;
  assignSiblings h.

(** [depositCnt, err := GetLastDepositCount(...)] and the three cases of its error. *)
Definition nextDepositCount (networkID : Z) : M St Z :=
  r ← attempt (store_GetLastDepositCount networkID NoTx);
  match r with
  | inl e => if decide (e ≠ ErrStorageNotFound) then throw e else mret 0
  | inr c => mret (u32 (c + 1))
  end.

Definition rollbackMT (networkID : Z) (h : dbTx) : M (St * MerkleTree) unit :=
  c ← on_store (nextDepositCount networkID);
  set_tree (set_count c);;
  assignSiblings h.

(** A method of a tree that only reads the object. *)
Definition with_tree {A} (mt : MerkleTree) (c : M (St * MerkleTree) A) : M St A := λ s,
  let '(r, w) := c (s, mt) in (r, fst w).

(** [NewMerkleTree] returns the tree with the error of [initSiblings]; its callers
    drop the tree then. *)
Definition NewMerkleTree (height networkID : Z) : M St MerkleTree :=
  c ← nextDepositCount networkID;
  let mt := mkMerkleTree networkID height c [] in
  siblings ← with_tree mt (initSiblings NoTx);
  mret (set_siblings siblings mt).

(** ** Trees built from all their leaves *)

Fixpoint buildIntermediate (leaves : list Hash) : result (list (Hash * Hash * Hash) * list Hash) :=
  match leaves with
  | [] => Ok ([], [])
  | [_] => Panic
  | l :: r :: leaves =>
      let hash := HashN [l; r] in
      '(nodes, hashes) ← buildIntermediate leaves;
      Ok ((hash, l, r) :: nodes, hash :: hashes)
  end.

(** [if len(leaves)%2 == 1 { leaves = append(leaves, zeroHashes[h]) }]. *)
Definition pad_level (lvl : nat) (leaves : list Hash) : result (list Hash) :=
  if decide ((length leaves) `mod` 2 = 1)%nat then
    z ← at_index zeroHashes (Z.of_nat lvl); Ok (leaves ++ [z])
  else Ok leaves.

Definition level_step (st : list (list (Hash * Hash * Hash)) * list (Hash * Hash * Hash) * list Hash) (lvl : nat)
    : result (list (list (Hash * Hash * Hash)) * list (Hash * Hash * Hash) * list Hash) :=
  let '(nodes, _, leaves) := st in
  leaves ← pad_level lvl leaves;
  '(ns, leaves) ← buildIntermediate leaves;
  Ok (nodes ++ [ns], ns, leaves).

(** The loop that [updateLeaf] and [buildMTRoot] share: all nodes, the last level. *)
Definition build_levels (height : Z) (leaves : list Hash)
    : result (list (list (Hash * Hash * Hash)) * list (Hash * Hash * Hash)) :=
  leaves ← (if decide (leaves = []) then z ← at_index zeroHashes 0; Ok [z] else Ok leaves);
  '(nodes, ns, _) ← fold_result level_step ([], [], leaves) (seq 0 (Z.to_nat height));
  Ok (nodes, ns).

Definition buildMTRoot (mt : MerkleTree) (leaves : list Hash) : result Hash :=
  '(_, ns) ← build_levels (mt_height mt) leaves;
  match ns with
  | [(root, _, _)] => Ok root
  | _ => Err (Errorf "error: more than one root detected: %+v")
  end.

Definition updateLeaf (depositID : Z) (leaves : list Hash) (h : dbTx) : M (St * MerkleTree) unit :=
  mt ← the_tree;
  let initLeavesCount := u32 (Z.of_nat (length leaves)) in
  '(nodes, ns) ← lift (build_levels (mt_height mt) leaves);
  match ns with
  | [(root, _, _)] =>
      on_store (store_SetRoot root depositID (mt_networkID mt) h);;
      let nodesToStore := (λ '(p, l, r), (p, [l; r], depositID)) <$> concat nodes in
      on_store (store_BulkSet nodesToStore h);;
      set_tree (set_count initLeavesCount)
  | _ => throw (Errorf "error: more than one root detected: %+v")
  end.

Fixpoint getLeaves_level (cur : list Hash) (levelLeaves : list Hash) (h : dbTx) : M (St * MerkleTree) (list Hash) :=
  match cur with
  | [] => mret levelLeaves
  | c :: cur =>
      leaves ← attempt (on_store (store_Get c h));
      match leaves with
      | inr leaves => getLeaves_level cur (levelLeaves ++ leaves) h
      | inl _ =>
          if decide (c ∈ zeroHashes) then getLeaves_level cur levelLeaves h
          else throw (Errorf "height: %d, cur: %v, error: %v")
      end
  end.

Fixpoint getLeaves_loop (k : nat) (cur : list Hash) (h : dbTx) : M (St * MerkleTree) (list Hash) :=
  match k with
  | O => mret cur
  | S k => cur ← getLeaves_level cur [] h; getLeaves_loop k cur h
  end.

Definition getLeaves (h : dbTx) : M (St * MerkleTree) (list Hash) :=
  mt ← the_tree;
  root ← getRoot h;
  getLeaves_loop (Z.to_nat (u8 (mt_height mt - 1)) + 1) [root] h.

(** ** The rollup exit tree *)

Definition storeLeaves (mt : MerkleTree) (leaves : list Hash) (blockID : Z) (h : dbTx) : M St unit :=
  root ← lift (buildMTRoot mt leaves);
  exist ← store_IsRollupExitRoot root h;
  if exist : bool then mret tt
  else store_AddRollupExitLeaves
         (imap (λ i leaf, (leaf, Z.of_nat i + 1, root, blockID)) leaves) h.

(** Empty rollups up to the new rollup id. *)
Definition fillRollupLeaves (blockID rollupId : Z) (stored : list RollupExitLeaf) : list RollupExitLeaf :=
  stored ++ ((λ i, mkRollupExitLeaf 0 blockID 0 (u32 (Z.of_nat i + 1)) 0)
             <$> seq (length stored) (Z.to_nat rollupId - length stored)).

Definition addRollupExitLeaf (mt : MerkleTree) (rollupLeaf : RollupExitLeaf) (h : dbTx) : M St unit :=
  storedRollupLeaves ← store_GetLatestRollupExitLeaves h;
  let storedRollupLeaves := fillRollupLeaves (r_BlockID rollupLeaf) (r_RollupId rollupLeaf) storedRollupLeaves in
  old ← lift (at_index storedRollupLeaves (u32 (r_RollupId rollupLeaf - 1)));
  storedRollupLeaves ←
    (if decide (r_RollupId old = r_RollupId rollupLeaf)
     then lift (set_index storedRollupLeaves (u32 (r_RollupId rollupLeaf - 1)) rollupLeaf)
     else throw (Errorf "error: RollupId doesn't match"));
  storeLeaves mt (r_Leaf <$> storedRollupLeaves) (r_BlockID rollupLeaf) h.

End MerkleTree.

Section Proofs.
Context `{K : Keccak256}.

(** The state of the loop of [ComputeSiblings]: index, siblings, ns, leaves. *)
Definition ComputeSiblings_step (st : Z * list Hash * list (Hash * Hash * Hash) * list Hash) (lvl : nat)
    : result (Z * list Hash * list (Hash * Hash * Hash) * list Hash) :=
  let '(index, siblings, _, leaves) := st in
  leaves ← pad_level lvl leaves;
  sib ← (if decide (index `mod` 2 = 1) then at_index leaves (u32 (index - 1))
         else if decide (Z.of_nat (length leaves) ≤ u32 (index + 1))
         then Err (Errorf "index out of bounds: trying to access leaves[%d] but length is %d")
         else at_index leaves (u32 (index + 1)));
  '(ns, hashes) ← buildIntermediate leaves;
  Ok (index / 2, siblings ++ [sib], ns, hashes).

Definition ComputeSiblings (rollupIndex : Z) (leaves : list Hash) (height : Z) : result (list Hash * Hash) :=
  leaves ← (if decide (leaves = []) then z ← at_index zeroHashes 0; Ok [z] else Ok leaves);
  if decide (Z.of_nat (length leaves) ≤ rollupIndex)
  then Err (Errorf "rollupIndex %d is out of bounds for leaves array of length %d") else
  '(_, siblings, ns, _) ← fold_result ComputeSiblings_step (rollupIndex, [], [], leaves) (seq 0 (Z.to_nat height));
  match ns with
  | [(root, _, _)] => Ok (siblings, root)
  | _ => Err (Errorf "error: more than one root detected: %+v")
  end.

Definition calculateRoot (leafHash : Hash) (smtProof : list Hash) (index height : Z) : result Hash :=
  fold_result (λ node lvl,
    sib ← at_index smtProof (Z.of_nat lvl);
    Ok (if decide (Z.land (Z.shiftr index (Z.of_nat lvl)) 1 = 1) then HashN [sib; node] else HashN [node; sib]))
  leafHash (seq 0 (Z.to_nat height)).

End Proofs.
