(* ===== verification/MerkleTreeFacts.v ===== *)
(** * Correctness of the incremental Merkle tree

    The theorems about [MerkleTree], proved against the laws of the store. *)
From S2P Require Import Prelude Types Bytes Hash MerkleSpec ClaimTypes Schema MerkleStore MerkleTree.

Section Append.
Context `{K : Keccak256}.

Lemma node_parent_odd ls n h :
  Nat.testbit n h = true →
  HashN [node h (n / 2 ^ h - 1) ls; node h (n / 2 ^ h) ls] = node (S h) (n / 2 ^ S h) ls.
Proof.
  intros Hb. pose proof (div_decomp n h) as E. rewrite Hb in E. simpl Nat.b2n in E.
  cbn [node]. do 3 f_equal; [lia|]. f_equal. f_equal. lia.
Qed.

Lemma node_parent_even ls n h :
  Nat.testbit n h = false →
  HashN [node h (n / 2 ^ h) ls; node h (n / 2 ^ h + 1) ls] = node (S h) (n / 2 ^ S h) ls.
Proof.
  intros Hb. pose proof (div_decomp n h) as E. rewrite Hb in E. simpl Nat.b2n in E.
  cbn [node]. do 3 f_equal; [lia|]. f_equal. f_equal. lia.
Qed.

(** The last leaf has nothing to its right. *)
Lemma node_right_zero ls leaf h :
  node h (length ls / 2 ^ h + 1) (ls ++ [leaf]) = zero_hash h.
Proof.
  apply node_zero. rewrite length_app. simpl. pose proof (div_pow2_bounds (length ls) h). lia.
Qed.

Lemma frontier_app ls leaf siblings H h :
  frontier H ls siblings → (h < H)%nat → Nat.testbit (length ls) h = true →
  siblings !! h = Some (node h (length ls / 2 ^ h - 1) (ls ++ [leaf])).
Proof.
  intros [_ Hf] Hh Hb. rewrite (Hf h Hh Hb). f_equal. symmetry. apply node_app_l.
  pose proof (div_pow2_bounds (length ls) h).
  assert (0 < length ls / 2 ^ h)%nat; [|nia].
  rewrite testbit_odd in Hb. destruct (length ls / 2 ^ h)%nat; [done|lia].
Qed.

(** What the loop of [addLeaf] has done after the levels below [m]. *)
Definition addLeaf_inv (ls : list Hash) (leaf : Hash) (siblings : list Hash) (m : nat)
    (st : Hash * bool * list Hash * list (Hash * Hash * Hash)) : Prop :=
  let n := length ls in
  let ls' := ls ++ [leaf] in
  let '(cur, filled, sib, leaves) := st in
  cur = node m (n / 2 ^ m) ls' ∧
  (filled = true ↔ ∀ k, (k < m)%nat → Nat.testbit n k = true) ∧
  length sib = length siblings ∧
  (∀ h, Nat.testbit n h = true → sib !! h = siblings !! h) ∧
  (∀ h, (h < m)%nat → Nat.testbit n h = false → (∀ k, (k < h)%nat → Nat.testbit n k = true) →
        sib !! h = Some (node h (n / 2 ^ h) ls')) ∧
  leaves = (λ h, node_triple h n ls') <$> seq 0 m.

Lemma node_triple_odd ls n h :
  Nat.testbit n h = true →
  node_triple h n ls = (node (S h) (n / 2 ^ S h) ls, node h (n / 2 ^ h - 1) ls, node h (n / 2 ^ h) ls).
Proof.
  intros Hb. pose proof (div_decomp n h) as E. rewrite Hb in E. simpl Nat.b2n in E.
  unfold node_triple. repeat f_equal; lia.
Qed.

Lemma node_triple_even ls n h :
  Nat.testbit n h = false →
  node_triple h n ls = (node (S h) (n / 2 ^ S h) ls, node h (n / 2 ^ h) ls, node h (n / 2 ^ h + 1) ls).
Proof.
  intros Hb. pose proof (div_decomp n h) as E. rewrite Hb in E. simpl Nat.b2n in E.
  unfold node_triple. repeat f_equal; lia.
Qed.

Lemma addLeaf_step_inv ls leaf siblings H m st :
  frontier H ls siblings → Z.of_nat (length ls) < 2 ^ 32 → (m < H)%nat → (H ≤ 64)%nat →
  addLeaf_inv ls leaf siblings m st →
  ∃ st', addLeaf_step (Z.of_nat (length ls)) st m = Ok st' ∧ addLeaf_inv ls leaf siblings (S m) st'.
Proof.
  intros Hf Hn Hm HH. destruct st as [[[cur filled] sib] leaves].
  intros (-> & Hfill & Hlen & Hold & Hnew & ->). unfold addLeaf_step. rewrite bit32_testbit by done.
  destruct (Nat.testbit (length ls) m) eqn:Hb.
  - rewrite (at_index_nat sib m (node m (length ls / 2 ^ m - 1) (ls ++ [leaf]))).
    2: { rewrite Hold by done. by eapply frontier_app. }
    eexists. split; [reflexivity|]. split; [by apply node_parent_odd|].
    split. { rewrite Hfill. split; [|auto]. intros Hk k ?. destruct (decide (k = m)) as [->|]; [done|apply Hk; lia]. }
    split; [done|]. split; [done|]. split.
    { intros h Hh Hhb Hk. destruct (decide (h = m)); [congruence|]. apply Hnew; [lia|done..]. }
    rewrite seq_S, fmap_app. cbn [fmap list_fmap]. simpl plus.
    by rewrite node_triple_odd, node_parent_odd by done.
  - rewrite (at_index_nat zeroHashes m (zero_hash m)) by (apply zeroHashes_lookup; lia).
    assert (m < length sib)%nat as Hms by (rewrite Hlen; destruct Hf as [-> _]; done).
    set (sib' := if filled then <[m := node m (length ls / 2 ^ m) (ls ++ [leaf])]> sib else sib).
    assert ((if filled then set_index sib (Z.of_nat m) (node m (length ls / 2 ^ m) (ls ++ [leaf])) else Ok sib)
            = Ok sib') as ->.
    { unfold sib'. destruct filled; [|done]. by apply set_index_Ok. }
    cbn [mbind result_bind]. eexists. split; [reflexivity|].
    rewrite <- (node_right_zero ls leaf m). split; [by apply node_parent_even|].
    split. { split; [done|]. intros Hk. specialize (Hk m). rewrite Hb in Hk. apply Hk. lia. }
    split. { unfold sib'. destruct filled; [by rewrite length_insert|done]. }
    split.
    { intros h Hh. unfold sib'. destruct filled; [|auto].
      rewrite list_lookup_insert_ne by congruence. auto. }
    split.
    { intros h Hh Hhb Hk. unfold sib'. destruct (decide (h = m)) as [->|].
      - rewrite (proj2 Hfill) by done. by rewrite list_lookup_insert_eq.
      - destruct filled; [rewrite list_lookup_insert_ne by done|]; apply Hnew; (lia || done). }
    rewrite seq_S, fmap_app. cbn [fmap list_fmap]. simpl plus.
    by rewrite node_triple_even, node_parent_even by done.
Qed.

Lemma addLeaf_loop_inv ls leaf siblings H m :
  frontier H ls siblings → Z.of_nat (length ls) < 2 ^ 32 → (m ≤ H)%nat → (H ≤ 64)%nat →
  ∃ st, fold_result (addLeaf_step (Z.of_nat (length ls))) (leaf, true, siblings, []) (seq 0 m) = Ok st ∧
        addLeaf_inv ls leaf siblings m st.
Proof.
  intros Hf Hn. induction m as [|m IH]; intros Hm HH.
  - eexists. split; [reflexivity|]. split.
    { change (leaf = leaf_at (ls ++ [leaf]) (length ls / 1)). rewrite Nat.div_1_r.
      unfold leaf_at. by rewrite list_lookup_middle. }
    split; [split; [intros; lia|done]|]. repeat (split; [done|]). split; [|done]. intros; lia.
  - destruct IH as (st & E & Hi); [lia..|].
    destruct (addLeaf_step_inv ls leaf siblings H m st) as (st' & E' & Hi'); [done..|].
    exists st'. split; [|done]. rewrite seq_S, fold_result_app, E. cbn. rewrite E'. done.
Qed.

(** The siblings the loop leaves behind are the frontier of the longer tree. *)
Lemma addLeaf_inv_frontier ls leaf siblings H cur filled sib leaves :
  frontier H ls siblings → addLeaf_inv ls leaf siblings H (cur, filled, sib, leaves) →
  frontier H (ls ++ [leaf]) sib.
Proof.
  intros Hf (_ & _ & Hlen & Hold & Hnew & _). split; [by rewrite Hlen; destruct Hf|].
  intros h Hh. rewrite length_app. simpl length. rewrite testbit_odd.
  destruct (zero_bit_below (length ls) h) as [Hz|Hall].
  - rewrite succ_div_above by done. rewrite <- testbit_odd. intros Hb. rewrite Hold by done.
    by eapply frontier_app.
  - rewrite succ_div_below by done. rewrite Nat.add_1_r, Nat.odd_succ, <- Nat.negb_odd, <- testbit_odd.
    intros Hb%negb_true_iff. rewrite (Hnew h Hh Hb Hall). do 2 f_equal. lia.
Qed.

(** ... and, when the leaf is not counted after all, still the frontier of the
    shorter one. *)
Lemma addLeaf_inv_frontier_old ls leaf siblings H cur filled sib leaves :
  frontier H ls siblings → addLeaf_inv ls leaf siblings H (cur, filled, sib, leaves) →
  frontier H ls sib.
Proof.
  intros [Hl Hf] (_ & _ & Hlen & Hold & _). split; [congruence|].
  intros h Hh Hb. rewrite Hold by done. auto.
Qed.

End Append.

(** ** What the store holds of a tree *)

Section Stored.
Context `{K : Keccak256}.

(** The object agrees with the leaves [ls]. *)
Definition tree_ok (H : nat) (net : Z) (ls : list Hash) (mt : MerkleTree) : Prop :=
  mt_networkID mt = net ∧ mt_height mt = Z.of_nat H ∧ mt_count mt = Z.of_nat (length ls) ∧
  frontier H ls (mt_siblings mt).

(** The node rows written for the leaf at position [n]. *)
Definition path_rows (H n : nat) (ls : list Hash) (id : Z) : list (Hash * list Hash * Z) :=
  (λ h, let '(p, l, r) := node_triple h n ls in (p, [l; r], id)) <$> seq 0 H.

(** The store holds, for the leaves and deposit ids [lds] of network [net], the root
    after every leaf and the nodes on the path of every leaf when it was the last;
    the ids come from a sequence. *)
Record stored (H : nat) (net : Z) (lds : list (Hash * Z)) (v : MTView) : Prop := {
  st_roots : filter (λ r, rr_network r = net) (mv_root v) =
             imap (λ i p, mk_root_row (mroot H (take (S i) (fst <$> lds))) (snd p) net) lds;
  st_deps : ∀ i p, lds !! i = Some p → filter (λ d, d.1 = snd p) (mv_dep v) = [(snd p, Z.of_nat i)];
  st_nodes : ∀ i p k x d, lds !! i = Some p → (k, x, d) ∈ path_rows H i (take (S i) (fst <$> lds)) (snd p) →
             mk_rht_row k x d ∈ mv_rht v;
  st_sorted : ∀ i j p q, lds !! i = Some p → lds !! j = Some q → (i < j)%nat → snd p < snd q;
  st_pos : ∀ d, d ∈ mv_dep v → 0 ≤ d.1
}.

(** No two node rows give different children for the same hash. *)
Definition rht_functional (v : MTView) : Prop :=
  ∀ r1 r2, r1 ∈ mv_rht v → r2 ∈ mv_rht v → rh_key r1 = rh_key r2 → rh_value r1 = rh_value r2.

Lemma v_node_functional v r :
  rht_functional v → r ∈ mv_rht v → v_node v (rh_key r) = Some (rh_value r).
Proof.
  intros Hf Hr. unfold v_node.
  destruct (filter (λ r', rh_key r' = rh_key r) (mv_rht v)) as [|r0 l] eqn:E.
  - exfalso. assert (r ∈ filter (λ r', rh_key r' = rh_key r) (mv_rht v)) as Hin by (by apply list_elem_of_filter).
    rewrite E in Hin. by apply elem_of_nil in Hin.
  - assert (r0 ∈ filter (λ r', rh_key r' = rh_key r) (mv_rht v)) as Hin by (rewrite E; left).
    apply list_elem_of_filter in Hin as [? ?]. simpl. f_equal. by apply Hf.
Qed.

Lemma head_mbind_unique {A B} (f : A → list B) (l : list A) i x y :
  l !! i = Some x → f x = [y] → (∀ j x', l !! j = Some x' → j ≠ i → f x' = []) →
  head (l ≫= f) = Some y.
Proof.
  revert i. induction l as [|a l IH]; intros i Hi Hx Ho; [done|]. cbn.
  destruct i as [|i].
  - simpl in Hi. simplify_eq. by rewrite Hx.
  - rewrite (Ho 0%nat a) by (done || lia). simpl. apply (IH i); [done..|].
    intros j x' Hj Hne. apply (Ho (S j)); [done|lia].
Qed.

Lemma stored_root H net lds v i p :
  stored H net lds v → lds !! i = Some p →
  v_root v (Z.of_nat i) net = Some (mroot H (take (S i) (fst <$> lds))).
Proof.
  intros Hst Hi. unfold v_root. rewrite (st_roots _ _ _ _ Hst).
  assert (∀ j q, lds !! j = Some q →
    filter (λ d, d.1 = snd q ∧ d.2 = Z.of_nat i) (mv_dep v) = if decide (j = i) then [(snd q, Z.of_nat j)] else []) as Hflt.
  { intros j q Hj. pose proof (st_deps _ _ _ _ Hst j q Hj) as E.
    rewrite (list_filter_iff _ (λ d, d.2 = Z.of_nat i ∧ d.1 = snd q)) by naive_solver.
    rewrite <- list_filter_filter, E. rewrite filter_cons, filter_nil. cbn [snd].
    case_decide; case_decide; (done || lia). }
  eapply (head_mbind_unique _ _ i).
  - rewrite list_lookup_imap, Hi. done.
  - simpl. rewrite (Hflt i p Hi), decide_True by done. done.
  - intros j x' Hj Hne. rewrite list_lookup_imap in Hj. apply fmap_Some in Hj as (q & Hq & ->).
    simpl. rewrite (Hflt j q Hq), decide_False by done. done.
Qed.

Lemma max_or_neg1_spec l x : x ∈ l → (∀ y, y ∈ l → y ≤ x) → -1 ≤ x → max_or_neg1 l = x.
Proof.
  intros Hx Hle H1. unfold max_or_neg1.
  assert (∀ l, (∀ y, y ∈ l → y ≤ x) → foldr Z.max (-1) l ≤ x) as Hub.
  { clear -H1. induction l as [|a l IH]; intros Hl; simpl; [done|].
    apply Z.max_lub; [apply Hl; left|apply IH; intros; apply Hl; by right]. }
  assert (x ≤ foldr Z.max (-1) l).
  { clear -Hx. induction Hx as [|a l ? IH]; simpl; lia. }
  specialize (Hub l Hle). lia.
Qed.

Lemma stored_last H net lds v :
  stored H net lds v → v_last v net = Z.of_nat (length lds) - 1.
Proof.
  intros Hst. unfold v_last. rewrite (st_roots _ _ _ _ Hst).
  destruct (decide (lds = [])) as [->|Hne].
  - cbn [imap fmap list_fmap]. change (max_or_neg1 []) with (-1).
    destruct (filter _ _) as [|d l] eqn:E; [done|]. exfalso.
    assert (d ∈ filter (λ d, d.1 = -1) (mv_dep v)) as Hd by (rewrite E; left).
    apply list_elem_of_filter in Hd as [Hd1 Hd]. pose proof (st_pos _ _ _ _ Hst d Hd). lia.
  - set (n := (length lds - 1)%nat).
    assert (length lds ≠ 0%nat) by (by destruct lds).
    destruct (lookup_lt_is_Some_2 lds n) as [p Hp]; [lia|].
    pose proof (st_deps _ _ _ _ Hst n p Hp) as Hd.
    assert (0 ≤ snd p).
    { apply (st_pos _ _ _ _ Hst (snd p, Z.of_nat n)).
      assert ((snd p, Z.of_nat n) ∈ filter (λ d, d.1 = snd p) (mv_dep v)) as Hin by (rewrite Hd; left).
      by apply list_elem_of_filter in Hin as [_ ?]. }
    rewrite (max_or_neg1_spec (rr_deposit_id <$> _) (snd p)), Hd.
    + cbn. rewrite Z.max_l by lia. lia.
    + apply list_elem_of_fmap. eexists (mk_root_row _ (snd p) net). split; [done|].
      apply list_elem_of_lookup. exists n. rewrite list_lookup_imap, Hp. done.
    + intros y (r & -> & Hr)%list_elem_of_fmap. apply list_elem_of_lookup in Hr as [j Hj].
      rewrite list_lookup_imap in Hj. apply fmap_Some in Hj as (q & Hq & ->). simpl.
      pose proof (lookup_lt_Some _ _ _ Hq). destruct (decide (j = n)) as [->|]; [by simplify_eq|].
      pose proof (st_sorted _ _ _ _ Hst j n q p Hq Hp). lia.
    + lia.
Qed.

End Stored.

(** ** Loading a tree from the store *)

Section Load.
Context `{K : Keccak256} {St : Type} {HS : merkleTreeStore St} {HL : MerkleStoreLaws St}.

Lemma on_store_eq {A} (c : M St A) s mt r s' :
  c s = (r, s') → on_store c (s, mt) = (r, (s', mt)).
Proof. intros E. unfold on_store, zoom. simpl. by rewrite E. Qed.

(** The left children on the path of position [idx]. *)
Definition left_nodes (H idx : nat) (ls : list Hash) : list Hash :=
  (λ h, node h (2 * (idx / 2 ^ S h)) ls) <$> seq 0 H.

Lemma left_nodes_frontier H ls :
  ls ≠ [] → frontier H ls (left_nodes H (length ls - 1) ls).
Proof.
  intros Hne. assert (length ls ≠ 0%nat) by (by destruct ls).
  split; [unfold left_nodes; by rewrite length_fmap, length_seq|].
  intros h Hh Hb. unfold left_nodes. rewrite list_lookup_fmap, lookup_seq_lt by done.
  cbn [fmap option_fmap option_map]. simpl plus.
  pose proof (div_decomp (length ls) h) as E. rewrite Hb in E. simpl Nat.b2n in E.
  replace (length ls / 2 ^ h - 1)%nat with (2 * (length ls / 2 ^ S h))%nat by lia.
  replace ((length ls - 1) / 2 ^ S h)%nat with (length ls / 2 ^ S h)%nat; [done|]. symmetry.
  apply div_pow2_unique. pose proof (div_pow2_bounds (length ls) h).
  pose proof (div_pow2_bounds (length ls) (S h)). pose proof (pow2_pos h).
  change (2 ^ S h)%nat with (2 * 2 ^ h)%nat in *. split; [nia|lia].
Qed.

Lemma initSiblings_loop_Ok H idx ls h s mt v :
  mview h s = Some v → Z.of_nat idx < 2 ^ 32 →
  (∀ lvl, (lvl < H)%nat → let j := (idx / 2 ^ S lvl)%nat in
     v_node v (node (S lvl) j ls) = Some [node lvl (2 * j) ls; node lvl (2 * j + 1) ls]) →
  ∀ k acc, (k ≤ H)%nat →
  initSiblings_loop k (Z.of_nat idx) (node k (idx / 2 ^ k) ls) acc h (s, mt) =
    (Ok (acc ++ reverse (left_nodes k idx ls)), (s, mt)).
Proof.
  intros Hv Hidx Hn. induction k as [|k IH]; intros acc Hk.
  - unfold left_nodes. simpl. by rewrite app_nil_r.
  - assert (store_Get (node (S k) (idx / 2 ^ S k) ls) h s = _) as Hget by (by apply law_Get).
    rewrite Hn in Hget by lia. cbn [initSiblings_loop].
    erewrite M_bind_Ok by (apply attempt_Ok, on_store_eq, Hget).
    cbn [or_not_found]. erewrite M_bind_Ok by reflexivity.
    rewrite bit32_testbit by done. pose proof (div_decomp idx k) as E.
    erewrite (M_bind_Ok _ _ _ (node k (idx / 2 ^ k) ls)).
    + rewrite IH by lia. do 2 f_equal. unfold left_nodes. rewrite seq_S, fmap_app, reverse_app.
      cbn. by rewrite <- app_assoc.
    + rewrite E. destruct (Nat.testbit idx k); [done|]. by rewrite Nat.add_0_r.
Qed.

(** The tree of the first [c] leaves can be read back. *)
Lemma initSiblings_Ok H net lds v h s mt c :
  stored H net lds v → rht_functional v → mview h s = Some v →
  (0 < H ≤ 64)%nat → (c ≤ length lds)%nat → Z.of_nat c < 2 ^ 32 → (c ≤ 2 ^ H)%nat →
  mt_networkID mt = net → mt_height mt = Z.of_nat H → mt_count mt = Z.of_nat c →
  ∃ siblings, initSiblings h (s, mt) = (Ok siblings, (s, mt)) ∧ frontier H (take c (fst <$> lds)) siblings.
Proof.
  intros Hst Hf Hv HH Hc Hc32 HcH Hnet Hht Hcnt. unfold initSiblings.
  erewrite M_bind_Ok by reflexivity. cbn [snd]. destruct (decide (c = 0%nat)) as [->|Hc0].
  - rewrite decide_True by done. rewrite Hht, Nat2Z.id. exists (take H zeroHashes). split.
    + unfold lift. f_equal.
      assert (∀ m, (m ≤ 64)%nat → fold_result (λ siblings lvl, left ← at_index zeroHashes (Z.of_nat lvl); Ok (siblings ++ [left])) []
               (seq 0 m) = Ok (take m zeroHashes)) as Hl; [|by apply Hl; lia].
      induction m as [|m IH]; intros Hm; [done|]. rewrite seq_S, fold_result_app, IH by lia. cbn [mbind result_bind fold_result].
      simpl plus. pose proof (zeroHashes_lookup m) as E. rewrite (at_index_nat _ _ _ (E ltac:(lia))).
      cbn [mbind result_bind]. f_equal. symmetry. apply take_S_r, E. lia.
    + rewrite take_0. apply frontier_nil. rewrite length_take, zeroHashes_length. lia.
  - rewrite decide_False by lia. destruct (lookup_lt_is_Some_2 lds (c - 1)) as [p Hp]; [lia|].
    set (ls := take c (fst <$> lds)).
    assert (length ls = c) as Hlen by (unfold ls; rewrite length_take, length_fmap; lia).
    assert (take (S (c - 1)) (fst <$> lds) = ls) as Hls by (unfold ls; f_equal; lia).
    erewrite (M_bind_Ok _ _ _ (mroot H ls)).
    2: { unfold getRoot. erewrite M_bind_Ok by reflexivity. cbn [snd]. rewrite decide_False by lia.
         apply on_store_eq. rewrite (law_GetRoot _ _ _ _ v) by done. rewrite Hnet, Hcnt, u32_id by lia.
         replace (Z.of_nat c - 1) with (Z.of_nat (c - 1)) by lia.
         by rewrite (stored_root H net lds v _ p), Hls. }
    rewrite Hht, u8_id by lia. replace (Z.to_nat (Z.of_nat H - 1) + 1)%nat with H by lia.
    rewrite Hcnt, u32_id by lia. replace (Z.of_nat c - 1) with (Z.of_nat (c - 1)) by lia.
    erewrite (M_bind_Ok _ _ _ (reverse (left_nodes H (c - 1) ls))).
    + eexists. split; [reflexivity|]. rewrite reverse_involutive. rewrite <- Hlen at 1.
      apply left_nodes_frontier. intros E. rewrite E in Hlen. simpl in Hlen. lia.
    + pose proof (initSiblings_loop_Ok H (c - 1) ls h s mt v Hv) as Hloop.
      eenough _ as Hnodes; [specialize (Hloop ltac:(lia) Hnodes H [] (le_n H));
        rewrite Nat.div_small in Hloop by lia; exact Hloop|]. intros lvl Hlvl j.
      apply (v_node_functional v (mk_rht_row _ _ (snd p))); [done|].
      eapply (st_nodes _ _ _ _ Hst (c - 1)); [done|]. rewrite Hls. unfold path_rows.
      apply list_elem_of_fmap. exists lvl. split; [done|]. apply elem_of_seq. lia.
Qed.

(** What [initSiblings] leaves in the object when the first [c] leaves are stored. *)
Lemma assignSiblings_Ok H net lds v h s mt c :
  stored H net lds v → rht_functional v → mview h s = Some v →
  (0 < H ≤ 64)%nat → (c ≤ length lds)%nat → Z.of_nat c < 2 ^ 32 → (c ≤ 2 ^ H)%nat →
  mt_networkID mt = net → mt_height mt = Z.of_nat H → mt_count mt = Z.of_nat c →
  ∃ mt', assignSiblings h (s, mt) = (Ok tt, (s, mt')) ∧ tree_ok H net (take c (fst <$> lds)) mt'.
Proof.
  intros Hst Hf Hv HH Hc Hc32 HcH Hnet Hht Hcnt.
  destruct (initSiblings_Ok H net lds v h s mt c) as (sib & E & Hfr); [done..|].
  exists (set_siblings sib mt). unfold assignSiblings. erewrite M_bind_Ok by (apply attempt_Ok, E).
  split; [done|]. do 3 (split; [done || (simpl; rewrite length_take, length_fmap; lia)|]). done.
Qed.

Lemma nextDepositCount_Ok H net lds v s :
  stored H net lds v → mview NoTx s = Some v → Z.of_nat (length lds) < 2 ^ 32 →
  nextDepositCount net s = (Ok (Z.of_nat (length lds)), s).
Proof.
  intros Hst Hv Hn. unfold nextDepositCount.
  pose proof (law_GetLastDepositCount net NoTx s v Hv) as E. rewrite (stored_last _ _ _ _ Hst) in E.
  case_decide as Hneg.
  - erewrite M_bind_Ok by (apply attempt_Err, E). cbn beta iota. rewrite decide_False by auto.
    by replace (Z.of_nat (length lds)) with 0 by lia.
  - rewrite u32_id in E by lia. erewrite M_bind_Ok by (apply attempt_Ok, E).
    unfold mret, M_ret. rewrite u32_id by lia. do 2 f_equal. lia.
Qed.

End Load.

(** ** Appending a leaf *)

Section AddLeaf.
Context `{K : Keccak256} {St : Type} {HS : merkleTreeStore St} {HL : MerkleStoreLaws St}.

(** A deposit id that is in sync.deposit and has no node and no root yet. *)
Definition fresh_deposit (v : MTView) (id : Z) : Prop :=
  id ∈ (fst <$> mv_dep v) ∧ (id ∉ (rr_deposit_id <$> mv_root v)) ∧ id ∉ (rh_deposit_id <$> mv_rht v).

(** The hashes on the path of position [n], parents only. *)
Definition path_hashes (H n : nat) (ls : list Hash) : list Hash :=
  (λ h, node (S h) (n / 2 ^ S h) ls) <$> seq 0 H.

(** The view after the leaf at position [length ls] is written. *)
Definition v_append (H : nat) (net : Z) (ls : list Hash) (leaf : Hash) (id : Z) (v : MTView) : MTView :=
  v_add_nodes ((λ '(k, x, d), mk_rht_row k x d) <$> path_rows H (length ls) (ls ++ [leaf]) id)
    (v_add_root (mk_root_row (mroot H (ls ++ [leaf])) id net) v).

Lemma path_rows_fit H n ls id v :
  fresh_deposit v id → NoDup (path_hashes H n ls) → nodes_fit v (path_rows H n ls id).
Proof.
  intros (Hd & _ & Hr) Hnd. split.
  - unfold path_rows. rewrite <- list_fmap_compose.
    apply (NoDup_fmap_2_strong (λ k : Hash, (k, id))) in Hnd; [|congruence].
    unfold path_hashes in Hnd. by rewrite <- list_fmap_compose in Hnd.
  - intros k x d (h & E & _)%list_elem_of_fmap. unfold node_triple in E. simplify_eq. split; [done|].
    intros (r & E & Hin)%list_elem_of_fmap. simplify_eq. apply Hr. by apply list_elem_of_fmap_2.
Qed.

Lemma addLeaf_loop_correct H ls leaf siblings :
  frontier H ls siblings → (H ≤ 64)%nat → Z.of_nat (length ls) < 2 ^ 32 → (length ls < 2 ^ H)%nat →
  ∃ filled sib, addLeaf_loop (Z.of_nat (length ls)) leaf siblings (Z.of_nat H) =
    Ok (mroot H (ls ++ [leaf]), filled, sib, (λ h, node_triple h (length ls) (ls ++ [leaf])) <$> seq 0 H) ∧
    frontier H (ls ++ [leaf]) sib ∧ frontier H ls sib.
Proof.
  intros Hf HH Hn HnH. destruct (addLeaf_loop_inv ls leaf siblings H H Hf Hn (le_n H) HH) as (st & E & Hi).
  destruct st as [[[cur filled] sib] leaves]. exists filled, sib. unfold addLeaf_loop. rewrite Nat2Z.id, E.
  pose proof (addLeaf_inv_frontier _ _ _ _ _ _ _ _ Hf Hi).
  pose proof (addLeaf_inv_frontier_old _ _ _ _ _ _ _ _ Hf Hi).
  destruct Hi as (-> & _ & _ & _ & _ & ->). unfold mroot. by rewrite Nat.div_small by done.
Qed.

Lemma addLeaf_Ok H net ls leaf id h s mt v :
  tree_ok H net ls mt → mview h s = Some v → fresh_deposit v id →
  NoDup (path_hashes H (length ls) (ls ++ [leaf])) →
  (H ≤ 64)%nat → Z.of_nat (length ls) < 2 ^ 32 - 1 → (length ls < 2 ^ H)%nat →
  ∃ s' mt', addLeaf id leaf (Z.of_nat (length ls)) h (s, mt) = (Ok tt, (s', mt')) ∧
    tree_ok H net (ls ++ [leaf]) mt' ∧ mview h s' = Some (v_append H net ls leaf id v).
Proof.
  intros (Hnet & Hht & Hc & Hf) Hv Hfr Hnd HH Hn HnH.
  destruct (addLeaf_loop_correct H ls leaf (mt_siblings mt)) as (filled & sib & Hloop & Hf' & _); [done|done|lia|done|].
  destruct (law_SetRoot (mroot H (ls ++ [leaf])) id net h s v Hv) as (s1 & E1 & Hv1); [apply Hfr..|].
  destruct (law_BulkSet (path_rows H (length ls) (ls ++ [leaf]) id) h s1 _ Hv1) as (s2 & E2 & Hv2).
  { destruct (path_rows_fit H (length ls) (ls ++ [leaf]) id v Hfr Hnd) as [F1 F2]. by split. }
  exists s2, (set_count (u32 (mt_count mt + 1)) (set_siblings sib mt)). split; [|split; [|done]].
  - unfold addLeaf. erewrite M_bind_Ok by reflexivity. cbn [snd]. rewrite decide_False by (rewrite Hc; auto).
    rewrite Hht. erewrite M_bind_Ok by (unfold lift; rewrite Hloop; reflexivity).
    cbn beta iota. erewrite M_bind_Ok by reflexivity. cbn [fst snd].
    erewrite M_bind_Ok by (apply on_store_eq; rewrite Hnet; exact E1).
    rewrite <- list_fmap_compose.
    erewrite M_bind_Ok by (apply on_store_eq; exact E2). done.
  - split; [done|]. split; [done|]. simpl. split; [|done]. rewrite length_app. simpl. rewrite u32_id; lia.
Qed.

(** The deposit of the new leaf is the newest, and counted right. *)
Definition next_deposit (lds : list (Hash * Z)) (id : Z) (v : MTView) : Prop :=
  filter (λ d, d.1 = id) (mv_dep v) = [(id, Z.of_nat (length lds))] ∧
  ∀ i p, lds !! i = Some p → snd p < id.

Lemma stored_append H net lds leaf id v :
  stored H net lds v → next_deposit lds id v →
  stored H net (lds ++ [(leaf, id)]) (v_append H net (fst <$> lds) leaf id v).
Proof.
  intros Hst [Hd Hlt]. set (ls := fst <$> lds).
  assert (fst <$> lds ++ [(leaf, id)] = ls ++ [leaf]) as Hls by (by rewrite fmap_app).
  assert (length ls = length lds) as Hlen by apply length_fmap.
  assert (∀ i p, (lds ++ [(leaf, id)]) !! i = Some p →
            (lds !! i = Some p ∧ (i < length lds)%nat) ∨ (i = length lds ∧ p = (leaf, id))) as Hcase.
  { intros i p [Hi|[? Hi]]%lookup_app_Some.
    - left. split; [done|]. by eapply lookup_lt_Some.
    - right. apply list_lookup_singleton_Some in Hi as [? <-]. split; [lia|done]. }
  assert (∀ i, (i < length lds)%nat → take (S i) (ls ++ [leaf]) = take (S i) ls) as Htake.
  { intros i ?. apply take_app_le. lia. }
  constructor; unfold v_append; cbn [v_add_nodes v_add_root mv_root mv_dep mv_rht].
  - rewrite filter_app, (st_roots _ _ _ _ Hst), imap_app. f_equal.
    + apply imap_ext. intros i p Hi. rewrite Hls, Htake; [done|]. by eapply lookup_lt_Some.
    + rewrite filter_cons, filter_nil, decide_True by done. cbn. rewrite Hls, take_ge; [done|].
      rewrite length_app, Hlen. simpl. lia.
  - intros i p [[Hi _]|[-> ->]]%Hcase; [by apply (st_deps _ _ _ _ Hst)|done].
  - rewrite Hls. intros i p k x d [[Hi Hil]|[-> ->]]%Hcase Hin; apply elem_of_app.
    + left. apply (st_nodes _ _ _ _ Hst i p); [done|]. by rewrite <- Htake.
    + right. rewrite take_ge in Hin by (rewrite length_app, Hlen; simpl; lia).
      apply list_elem_of_fmap. exists (k, x, d). split; [done|]. by rewrite Hlen.
  - intros i j p q [[Hi _]|[-> ->]]%Hcase [[Hj Hjl]|[-> ->]]%Hcase Hij;
      [by eapply (st_sorted _ _ _ _ Hst i j)|by eapply Hlt|lia..].
  - apply (st_pos _ _ _ _ Hst).
Qed.

End AddLeaf.
