(* ===== verification/RollupTreeFacts.v ===== *)
(** * Correctness of the trees built from all their leaves

    The rollup exit tree is rebuilt at each update: [buildMTRoot] is the reference
    root, [ComputeSiblings] the reference path, and [calculateRoot] verifies it. *)
From S2P Require Import Prelude Types Bytes Hash MerkleSpec ClaimTypes Schema MerkleStore MerkleTree.

Section Levels.
Context `{K : Keccak256}.

(** The number of nodes of level [m] that cover [n] leaves. *)
Definition width (n m : nat) : nat := ((n + 2 ^ m - 1) / 2 ^ m)%nat.

Lemma width_0 n : width n 0 = n.
Proof. unfold width. simpl Nat.pow. rewrite Nat.div_1_r. lia. Qed.

Lemma width_cover n m : (0 < n)%nat → (n ≤ width n m * 2 ^ m ∧ (width n m - 1) * 2 ^ m < n)%nat.
Proof.
  intros. unfold width. pose proof (div_pow2_bounds (n + 2 ^ m - 1) m). pose proof (pow2_pos m). nia.
Qed.

Lemma width_pos n m : (0 < n)%nat → (0 < width n m)%nat.
Proof. intros Hn. pose proof (width_cover n m Hn). nia. Qed.

Lemma width_unique n m k :
  (0 < n)%nat → (0 < k)%nat → (n ≤ k * 2 ^ m)%nat → ((k - 1) * 2 ^ m < n)%nat → width n m = k.
Proof. intros Hn ???. pose proof (width_cover n m Hn). pose proof (width_pos n m Hn). nia. Qed.

Lemma width_S n m : (0 < n)%nat → width n (S m) = ((width n m + 1) / 2)%nat.
Proof.
  intros Hn. pose proof (width_cover n m Hn). pose proof (width_pos n m Hn). pose proof (pow2_pos m).
  pose proof (odd_decomp (width n m + 1)) as E.
  destruct (Nat.odd (width n m + 1)); cbn [Nat.b2n] in E;
    apply width_unique; change (2 ^ S m)%nat with (2 * 2 ^ m)%nat; nia.
Qed.

Lemma width_1 n m : (0 < n)%nat → width n m = 1%nat ↔ (n ≤ 2 ^ m)%nat.
Proof.
  intros Hn. pose proof (width_cover n m Hn). split; [intros E; rewrite E in *; lia|].
  intros. apply width_unique; simpl; lia.
Qed.

(** The nodes of a level. *)
Definition level (m k : nat) (ls : list Hash) : list Hash := (λ i, node m i ls) <$> seq 0 k.

Lemma level_0 ls : level 0 (length ls) ls = ls.
Proof.
  apply list_eq. intros i. unfold level. rewrite list_lookup_fmap.
  destruct (decide (i < length ls)%nat) as [Hi|Hi].
  - rewrite lookup_seq_lt by done. simpl. destruct (lookup_lt_is_Some_2 ls i Hi) as [x Hx].
    unfold leaf_at. by rewrite Hx.
  - rewrite lookup_seq_ge, lookup_ge_None_2 by lia. done.
Qed.

Lemma level_length m k ls : length (level m k ls) = k.
Proof. unfold level. by rewrite length_fmap, length_seq. Qed.

Lemma level_lookup m k ls i : (i < k)%nat → level m k ls !! i = Some (node m i ls).
Proof. intros. unfold level. rewrite list_lookup_fmap, lookup_seq_lt by done. done. Qed.

Lemma level_S m k ls : level m (S k) ls = level m k ls ++ [node m k ls].
Proof. unfold level. by rewrite seq_S, fmap_app. Qed.

Lemma buildIntermediate_level m ls q : ∀ a,
  ∃ ns, buildIntermediate ((λ i, node m i ls) <$> seq (2 * a) (2 * q)) =
        Ok (ns, (λ i, node (S m) i ls) <$> seq a q) ∧
        (λ t, t.1.1) <$> ns = (λ i, node (S m) i ls) <$> seq a q.
Proof.
  induction q as [|q IH]; intros a; [by exists []|].
  replace (2 * S q)%nat with (S (S (2 * q))) by lia. cbn [seq fmap list_fmap buildIntermediate].
  destruct (IH (S a)) as (ns & E & Ens). replace (2 * S a)%nat with (S (S (2 * a))) in E by lia.
  rewrite E. eexists. cbn [mbind result_bind]. split; [do 2 f_equal|];
    cbn [fmap list_fmap fst node]; rewrite ?Nat.add_1_r, ?Ens; done.
Qed.

Lemma width_even_pad n m :
  (0 < n)%nat → (2 * width n (S m) = width n m + (width n m) mod 2)%nat.
Proof.
  intros Hn. rewrite width_S by done. pose proof (Nat.div_mod_eq (width n m) 2).
  pose proof (Nat.mod_upper_bound (width n m) 2).
  pose proof (Nat.div_mod_eq (width n m + 1) 2). pose proof (Nat.mod_upper_bound (width n m + 1) 2). lia.
Qed.

Lemma pad_level_Ok ls m :
  ls ≠ [] → (m ≤ 64)%nat →
  pad_level m (level m (width (length ls) m) ls) = Ok (level m (2 * width (length ls) (S m)) ls).
Proof.
  intros Hne Hm. assert (0 < length ls)%nat as Hn by (destruct ls; [done|simpl; lia]).
  rewrite width_even_pad by done. unfold pad_level. rewrite level_length. case_decide as Hodd.
  - rewrite (at_index_nat _ _ _ (zeroHashes_lookup m Hm)). cbn [mbind result_bind].
    rewrite Hodd, Nat.add_1_r, level_S. do 3 f_equal. symmetry. apply node_zero.
    by apply width_cover.
  - f_equal. f_equal. pose proof (Nat.mod_upper_bound (width (length ls) m) 2). lia.
Qed.

(** The common loop: after [m] levels the nodes of level [m] are left. *)
Lemma level_step_Ok ls m nodes ns :
  ls ≠ [] → (m ≤ 64)%nat →
  ∃ ns', level_step (nodes, ns, level m (width (length ls) m) ls) m =
         Ok (nodes ++ [ns'], ns', level (S m) (width (length ls) (S m)) ls) ∧
         (λ t, t.1.1) <$> ns' = level (S m) (width (length ls) (S m)) ls.
Proof.
  intros Hne Hm. unfold level_step. rewrite pad_level_Ok by done. cbn [mbind result_bind].
  destruct (buildIntermediate_level m ls (width (length ls) (S m)) 0) as (ns' & E & Ens).
  rewrite Nat.mul_0_r in E. unfold level at 1. rewrite E. exists ns'. by split.
Qed.

Lemma level_loop_Ok ls m :
  ls ≠ [] → (m ≤ 64)%nat →
  ∃ nodes ns, fold_result level_step ([], [], ls) (seq 0 (S m)) =
         Ok (nodes, ns, level (S m) (width (length ls) (S m)) ls) ∧
         (λ t, t.1.1) <$> ns = level (S m) (width (length ls) (S m)) ls.
Proof.
  intros Hne. induction m as [|m IH]; intros Hm.
  - destruct (level_step_Ok ls 0 [] [] Hne ltac:(lia)) as (ns & E & Ens).
    rewrite width_0, level_0 in E. exists ([] ++ [ns]), ns. cbn [seq fold_result]. rewrite E. by split.
  - destruct IH as (nodes & ns & E & _); [lia|]. rewrite (seq_S (S m)), fold_result_app, E.
    destruct (level_step_Ok ls (S m) nodes ns Hne Hm) as (ns' & E' & Ens').
    exists (nodes ++ [ns']), ns'. cbn [mbind result_bind fold_result]. rewrite Nat.add_0_l, E'. by split.
Qed.

(** An empty tree and a tree with one zero leaf are the same tree. *)
Lemma mroot_zero_leaf H : mroot H [HashZero] = mroot H [].
Proof. apply node_ext. intros j _. unfold leaf_at. by destruct j. Qed.

Definition nonempty (ls : list Hash) : list Hash := if decide (ls = []) then [HashZero] else ls.

Lemma nonempty_ne ls : nonempty ls ≠ [].
Proof. unfold nonempty. by case_decide. Qed.

Lemma mroot_nonempty H ls : mroot H (nonempty ls) = mroot H ls.
Proof. unfold nonempty. case_decide; [|done]. subst. apply mroot_zero_leaf. Qed.

Lemma nonempty_code ls :
  (if decide (ls = []) then z ← at_index zeroHashes 0; Ok [z] else Ok ls) = Ok (nonempty ls).
Proof. unfold nonempty. by case_decide. Qed.

Lemma buildMTRoot_eq mt H ls :
  mt_height mt = Z.of_nat H → (0 < H ≤ 64)%nat →
  buildMTRoot mt ls =
    if decide (length ls ≤ 2 ^ H)%nat then Ok (mroot H ls)
    else Err (Errorf "error: more than one root detected: %+v").
Proof.
  intros Hht HH. unfold buildMTRoot, build_levels. rewrite nonempty_code, Hht, Nat2Z.id.
  cbn [mbind result_bind]. destruct H as [|H]; [lia|].
  pose proof (nonempty_ne ls) as Hne.
  destruct (level_loop_Ok (nonempty ls) H Hne) as (nodes & ns & E & Ens); [lia|]. rewrite E. cbn [mbind result_bind].
  assert (0 < length (nonempty ls))%nat as Hpos by (destruct (nonempty ls); [done|simpl; lia]).
  pose proof (width_1 _ (S H) Hpos) as Hw. pose proof (width_pos _ (S H) Hpos).
  assert (length ns = width (length (nonempty ls)) (S H)) as Hlen
    by (rewrite <- (length_fmap (λ t, t.1.1)), Ens; apply level_length).
  assert ((length (nonempty ls) ≤ 2 ^ S H)%nat ↔ (length ls ≤ 2 ^ S H)%nat) as Heq.
  { unfold nonempty. case_decide; [|done]. subst. simpl length. pose proof (pow2_pos (S H)). lia. }
  case_decide as Hle.
  - apply Heq, Hw in Hle. rewrite Hle in *. destruct ns as [|[[root l] r] [|]]; try done.
    unfold level in Ens. cbn in Ens. simplify_eq. by rewrite <- mroot_nonempty.
  - assert (width (length (nonempty ls)) (S H) ≠ 1%nat) as Hne1 by (rewrite Hw, Heq; done).
    destruct ns as [|[[root l] r] [|]]; simpl in Hlen; (lia || done).
Qed.

End Levels.

(** ** Sibling paths *)

Section Siblings.
Context `{K : Keccak256}.

Lemma odd_mod_Z (j : nat) : Z.of_nat j `mod` 2 = 1 ↔ Nat.odd j = true.
Proof.
  pose proof (odd_decomp j) as E. destruct (Nat.odd j); cbn [Nat.b2n] in E; split; try done; intros.
  - rewrite E, Nat2Z.inj_add, Nat2Z.inj_mul, Z.mul_comm, Z.add_comm, Z.mod_add by lia. done.
  - exfalso. rewrite E, Nat.add_0_r, Nat2Z.inj_mul, Z.mul_comm, Z.mod_mul in * by lia. lia.
Qed.

(** What the loop of [ComputeSiblings] has done after the levels below [m]. *)
Definition ComputeSiblings_inv (ls : list Hash) (idx m : nat)
    (st : Z * list Hash * list (Hash * Hash * Hash) * list Hash) : Prop :=
  let '(index, siblings, ns, leaves) := st in
  index = Z.of_nat (idx / 2 ^ m) ∧ siblings = path_of m idx ls ∧
  leaves = level m (width (length ls) m) ls ∧
  (m ≠ 0%nat → (λ t, t.1.1) <$> ns = leaves).

Lemma path_of_S m idx ls :
  path_of (S m) idx ls =
  path_of m idx ls ++ [let j := (idx / 2 ^ m)%nat in node m (if Nat.odd j then j - 1 else j + 1)%nat ls].
Proof. unfold path_of. by rewrite seq_S, fmap_app. Qed.

Lemma index_below_width (ls : list Hash) idx m : (idx < length ls)%nat → (idx / 2 ^ m < width (length ls) m)%nat.
Proof.
  intros Hi. pose proof (width_cover (length ls) m ltac:(lia)). pose proof (div_pow2_bounds idx m).
  pose proof (pow2_pos m). nia.
Qed.

Lemma ComputeSiblings_step_inv ls idx m st :
  ls ≠ [] → (m ≤ 64)%nat → (idx < length ls)%nat → Z.of_nat idx < 2 ^ 32 →
  ComputeSiblings_inv ls idx m st →
  ∃ st', ComputeSiblings_step st m = Ok st' ∧ ComputeSiblings_inv ls idx (S m) st'.
Proof.
  intros Hne Hm Hi Hi32. destruct st as [[[index siblings] ns] leaves]. intros (-> & -> & -> & _).
  unfold ComputeSiblings_step. rewrite pad_level_Ok by done. cbn [mbind result_bind].
  pose proof (index_below_width ls idx m Hi) as Hj. set (j := (idx / 2 ^ m)%nat) in *.
  assert (Z.of_nat j < 2 ^ 32) as Hj32.
  { assert (j ≤ idx)%nat by (apply Nat.Div0.div_le_upper_bound; pose proof (pow2_pos m); nia). lia. }
  pose proof (width_even_pad (length ls) m ltac:(lia)) as Hw.
  pose proof (Nat.mod_upper_bound (width (length ls) m) 2).
  set (sib := node m (if Nat.odd j then j - 1 else j + 1)%nat ls).
  assert ((if decide (Z.of_nat j `mod` 2 = 1) then at_index (level m (2 * width (length ls) (S m)) ls) (u32 (Z.of_nat j - 1))
    else if decide (Z.of_nat (length (level m (2 * width (length ls) (S m)) ls)) ≤ u32 (Z.of_nat j + 1))
    then Err (Errorf "index out of bounds: trying to access leaves[%d] but length is %d")
    else at_index (level m (2 * width (length ls) (S m)) ls) (u32 (Z.of_nat j + 1))) = Ok sib) as ->.
  { unfold sib. pose proof (odd_decomp j) as Ej. destruct (Nat.odd j) eqn:Eo; cbn [Nat.b2n] in Ej.
    - rewrite decide_True by (by apply odd_mod_Z). rewrite u32_id by lia.
      replace (Z.of_nat j - 1) with (Z.of_nat (j - 1)) by lia. apply at_index_nat, level_lookup. lia.
    - rewrite decide_False by (rewrite odd_mod_Z, Eo; done). rewrite u32_id by lia.
      rewrite level_length, decide_False by lia.
      replace (Z.of_nat j + 1) with (Z.of_nat (j + 1)) by lia. apply at_index_nat, level_lookup. lia. }
  cbn [mbind result_bind].
  destruct (buildIntermediate_level m ls (width (length ls) (S m)) 0) as (ns' & E & Ens).
  rewrite Nat.mul_0_r in E. unfold level at 1. rewrite E. cbn [mbind result_bind].
  eexists. split; [reflexivity|]. split.
  { unfold j. rewrite div_pow2_S, (Nat2Z.inj_div _ 2). done. }
  split; [by rewrite path_of_S|]. split; [done|]. intros _. exact Ens.
Qed.

Lemma ComputeSiblings_loop_inv ls idx m :
  ls ≠ [] → (m ≤ 65)%nat → (idx < length ls)%nat → Z.of_nat idx < 2 ^ 32 →
  ∃ st, fold_result ComputeSiblings_step (Z.of_nat idx, [], [], ls) (seq 0 m) = Ok st ∧
        ComputeSiblings_inv ls idx m st.
Proof.
  intros Hne Hm Hi Hi32. induction m as [|m IH].
  - eexists. split; [reflexivity|]. split.
    { change (2 ^ 0)%nat with 1%nat. by rewrite Nat.div_1_r. }
    split; [done|]. split; [by rewrite width_0, level_0|done].
  - destruct IH as (st & E & Hinv); [lia|].
    destruct (ComputeSiblings_step_inv ls idx m st) as (st' & E' & Hinv'); [done|lia|done..|].
    exists st'. split; [|done]. rewrite seq_S, fold_result_app, E. cbn [mbind result_bind fold_result].
    by rewrite Nat.add_0_l, E'.
Qed.

Lemma path_of_nonempty H idx ls : path_of H idx (nonempty ls) = path_of H idx ls.
Proof.
  unfold nonempty. case_decide; [|done]. subst. unfold path_of. apply list_fmap_ext. intros h x Hx.
  apply node_ext. intros j _. unfold leaf_at. by destruct j.
Qed.

Lemma ComputeSiblings_eq H idx ls :
  (0 < H ≤ 64)%nat → Z.of_nat idx < 2 ^ 32 →
  ComputeSiblings (Z.of_nat idx) ls (Z.of_nat H) =
    if decide (idx < Nat.max 1 (length ls))%nat then
      if decide (length ls ≤ 2 ^ H)%nat then Ok (path_of H idx ls, mroot H ls)
      else Err (Errorf "error: more than one root detected: %+v")
    else Err (Errorf "rollupIndex %d is out of bounds for leaves array of length %d").
Proof.
  intros HH Hi32. unfold ComputeSiblings. rewrite nonempty_code. cbn [mbind result_bind].
  assert (length (nonempty ls) = Nat.max 1 (length ls)) as Hlen.
  { unfold nonempty. case_decide; [by subst|]. destruct ls; [done|simpl; lia]. }
  pose proof (nonempty_ne ls) as Hne.
  destruct (decide (idx < Nat.max 1 (length ls))%nat) as [Hi|Hi].
  2: { rewrite decide_True by lia. done. }
  rewrite decide_False by lia. rewrite Nat2Z.id.
  destruct (ComputeSiblings_loop_inv (nonempty ls) idx H Hne) as (st & E & Hinv); [lia..|].
  rewrite E. destruct st as [[[index siblings] ns] leaves]. destruct Hinv as (_ & -> & -> & Hns).
  cbn [mbind result_bind]. specialize (Hns ltac:(lia)).
  assert (0 < length (nonempty ls))%nat as Hpos by lia.
  pose proof (width_1 _ H Hpos) as Hw. pose proof (width_pos _ H Hpos).
  assert (length ns = width (length (nonempty ls)) H) as Hlns
    by (rewrite <- (length_fmap (λ t, t.1.1)), Hns; apply level_length).
  assert ((length (nonempty ls) ≤ 2 ^ H)%nat ↔ (length ls ≤ 2 ^ H)%nat) as Heq
    by (rewrite Hlen; pose proof (pow2_pos H); lia).
  destruct (decide (length ls ≤ 2 ^ H)%nat) as [Hle|Hle].
  - apply Heq, Hw in Hle. rewrite Hle in *. destruct ns as [|[[root l] r] [|]]; try done.
    unfold level in Hns. cbn in Hns. simplify_eq. by rewrite path_of_nonempty, <- mroot_nonempty.
  - assert (width (length (nonempty ls)) H ≠ 1%nat) as Hne1 by (rewrite Hw, Heq; done).
    destruct ns as [|[[root l] r] [|]]; simpl in Hlns; (lia || done).
Qed.

(** The test [(index >> h) & 1 == 1]. *)
Lemma shifted_bit idx m :
  Z.land (Z.shiftr (Z.of_nat idx) (Z.of_nat m)) 1 = 1 ↔ Nat.odd (idx / 2 ^ m) = true.
Proof.
  change 1 with (Z.ones 1) at 1. rewrite Z.land_ones, Z.shiftr_div_pow2 by lia.
  rewrite <- odd_mod_Z, Nat2Z.inj_div, Nat2Z.inj_pow. done.
Qed.

(** [calculateRoot] folds the proof as the verifier of the contract does. *)
Lemma calculateRoot_eq leaf idx (path : list Hash) :
  calculateRoot leaf path (Z.of_nat idx) (Z.of_nat (length path)) = Ok (fold_path idx leaf path).
Proof.
  unfold calculateRoot. rewrite Nat2Z.id.
  assert (∀ m, (m ≤ length path)%nat →
    fold_result (λ node lvl, sib ← at_index path (Z.of_nat lvl);
      Ok (if decide (Z.land (Z.shiftr (Z.of_nat idx) (Z.of_nat lvl)) 1 = 1) then HashN [sib; node] else HashN [node; sib]))
      leaf (seq 0 m) = Ok (fold_path idx leaf (take m path))) as Hl.
  2: { rewrite Hl by done. by rewrite take_ge. }
  induction m as [|m IH]; intros Hm; [done|].
  rewrite seq_S, fold_result_app, IH by lia. cbn [mbind result_bind fold_result]. rewrite Nat.add_0_l.
  destruct (lookup_lt_is_Some_2 path m) as [x Hx]; [lia|].
  rewrite (at_index_nat _ _ _ Hx), (take_S_r _ _ _ Hx), fold_path_app. cbn [mbind result_bind fold_path].
  rewrite length_take, Nat.min_l by lia. f_equal.
  pose proof (shifted_bit idx m) as Hbit.
  case_decide as Hd; [apply Hbit in Hd; by rewrite Hd|].
  destruct (Nat.odd (idx / 2 ^ m)); [|done]. exfalso. by apply Hd, Hbit.
Qed.

End Siblings.

(** ** The leaves of the rollup exit tree *)

Section RollupLeaves.
Context `{K : Keccak256} {St : Type} {HS : merkleTreeStore St} {HL : MerkleStoreLaws St}.

(** The latest leaves are those of the rollups 1, 2, ..., and the sequence is ahead. *)
Record rollups_wf (v : MTView) : Prop := {
  rw_ids : ∀ i l, v_latest v !! i = Some l → r_RollupId l = Z.of_nat i + 1;
  rw_range : ∀ r, r ∈ mv_rollup v → 1 ≤ re_rollup_id r ≤ Z.of_nat (length (v_latest v));
  rw_next : ∀ r, r ∈ mv_rollup v → re_id r < mv_next v
}.

(** The leaves after the rollup [rollupId] has the new leaf. *)
Definition new_leaves (v : MTView) (rollupId : Z) (leaf : Hash) : list Hash :=
  <[(Z.to_nat rollupId - 1)%nat := leaf]>
    ((r_Leaf <$> v_latest v) ++ replicate (Z.to_nat rollupId - length (v_latest v)) HashZero).

Definition leaf_rows (root : Hash) (blockID : Z) (leaves : list Hash) : list (Hash * Z * Hash * Z) :=
  imap (λ i leaf, (leaf, Z.of_nat i + 1, root, blockID)) leaves.

(** The view after the new leaves are stored, unless their root is there already. *)
Definition v_store_leaves (root : Hash) (blockID : Z) (leaves : list Hash) (v : MTView) : MTView :=
  if decide (root ∈ (re_root <$> mv_rollup v)) then v
  else v_add_rollup (number_rows (mv_next v) (leaf_rows root blockID leaves)) v.

Lemma fill_leaves blockID rid stored :
  r_Leaf <$> fillRollupLeaves blockID rid stored =
  (r_Leaf <$> stored) ++ replicate (Z.to_nat rid - length stored) HashZero.
Proof.
  unfold fillRollupLeaves. rewrite fmap_app, <- list_fmap_compose. f_equal.
  generalize (length stored) at 1. induction (Z.to_nat rid - length stored)%nat as [|n IH]; intros m; [done|].
  cbn [seq fmap list_fmap replicate]. by rewrite IH.
Qed.

Lemma fill_ids blockID rid stored i l :
  (∀ i l, stored !! i = Some l → r_RollupId l = Z.of_nat i + 1) → rid < 2 ^ 32 →
  fillRollupLeaves blockID rid stored !! i = Some l → r_RollupId l = Z.of_nat i + 1.
Proof.
  intros Hids Hrid [Hi|[Hle Hi]]%lookup_app_Some; [auto|].
  rewrite list_lookup_fmap in Hi. apply fmap_Some in Hi as (j & [-> Hj]%lookup_seq & ->). simpl.
  rewrite u32_id; lia.
Qed.

Lemma number_rows_lookup rows next i l rid root b :
  rows !! i = Some (l, rid, root, b) →
  number_rows next rows !! i = Some (mk_rollup_exit_row (next + Z.of_nat i) l rid root b).
Proof.
  revert next i. induction rows as [|[[[l' rid'] root'] b'] rows IH]; intros next [|i]; simpl; try done.
  - intros. simplify_eq. by rewrite Z.add_0_r.
  - intros Hi. rewrite (IH _ _ Hi). do 2 f_equal. lia.
Qed.

Lemma number_rows_length rows next : length (number_rows next rows) = length rows.
Proof. revert next. induction rows as [|[[[] ] ] rows IH]; intros next; simpl; by rewrite ?IH. Qed.

Lemma leaf_rows_lookup root b leaves next i r :
  number_rows next (leaf_rows root b leaves) !! i = Some r →
  ∃ leaf, leaves !! i = Some leaf ∧ r = mk_rollup_exit_row (next + Z.of_nat i) leaf (Z.of_nat i + 1) root b.
Proof.
  intros Hi. assert (i < length leaves)%nat as Hlt.
  { apply lookup_lt_Some in Hi. rewrite number_rows_length in Hi. unfold leaf_rows in Hi.
    by rewrite length_imap in Hi. }
  destruct (lookup_lt_is_Some_2 leaves i Hlt) as [leaf Hl]. exists leaf. split; [done|].
  erewrite number_rows_lookup in Hi by (unfold leaf_rows; rewrite list_lookup_imap, Hl; reflexivity).
  congruence.
Qed.

(** After a write, the rows just written are the latest of their rollups. *)
Lemma v_latest_add v root b leaves :
  rollups_wf v → (length (v_latest v) ≤ length leaves)%nat →
  v_latest (v_add_rollup (number_rows (mv_next v) (leaf_rows root b leaves)) v) =
  v_leaf <$> number_rows (mv_next v) (leaf_rows root b leaves).
Proof.
  intros Hwf Hlen. unfold v_latest at 1. f_equal. cbn [v_add_rollup mv_rollup].
  set (new := number_rows (mv_next v) (leaf_rows root b leaves)).
  assert (length new = length leaves) as Hnl
    by (unfold new, leaf_rows; by rewrite number_rows_length, length_imap).
  assert (filter (v_latest_of (mv_rollup v ++ new)) (mv_rollup v) = []) as Hold.
  { apply filter_none. intros r Hr Hlat.
    pose proof (rw_range _ Hwf r Hr) as Hrng.
    destruct (lookup_lt_is_Some_2 new (Z.to_nat (re_rollup_id r) - 1)) as [r' Hr']; [lia|].
    pose proof (leaf_rows_lookup _ _ _ _ _ _ Hr') as (leaf & _ & E).
    unfold v_latest_of in Hlat. rewrite Forall_forall in Hlat. specialize (Hlat r').
    rewrite elem_of_app in Hlat. pose proof (rw_next _ Hwf r Hr).
    apply list_elem_of_lookup_2 in Hr'. rewrite E in Hlat, Hr'. simpl in Hlat.
    specialize (Hlat (or_intror Hr')). lia. }
  assert (filter (v_latest_of (mv_rollup v ++ new)) new = new) as Hnew.
  { apply filter_all. intros r [i Hi]%list_elem_of_lookup. apply Forall_forall. intros r' Hr' Eid.
    pose proof (leaf_rows_lookup _ _ _ _ _ _ Hi) as (leaf & _ & ->). simpl in *.
    apply elem_of_app in Hr' as [Hr'|[j Hj]%list_elem_of_lookup].
    - pose proof (rw_next _ Hwf r' Hr'). lia.
    - pose proof (leaf_rows_lookup _ _ _ _ _ _ Hj) as (leaf' & _ & ->). simpl in *. lia. }
  rewrite filter_app, Hold, Hnew. simpl. apply sort_by_id.
  apply StronglySorted_lookup. intros i j x y Hi Hj Hij.
  pose proof (leaf_rows_lookup _ _ _ _ _ _ Hi) as (? & _ & ->).
  pose proof (leaf_rows_lookup _ _ _ _ _ _ Hj) as (? & _ & ->). simpl. lia.
Qed.

Lemma rollups_wf_store v root b leaves :
  rollups_wf v → (length (v_latest v) ≤ length leaves)%nat → rollups_wf (v_store_leaves root b leaves v).
Proof.
  intros Hwf Hlen. unfold v_store_leaves. case_decide; [done|].
  pose proof (v_latest_add v root b leaves Hwf Hlen) as Elat.
  set (v' := v_add_rollup _ v) in *. constructor.
  - intros i l Hl. rewrite Elat, list_lookup_fmap in Hl. apply fmap_Some in Hl as (r & Hr & ->).
    pose proof (leaf_rows_lookup _ _ _ _ _ _ Hr) as (? & _ & ->). done.
  - intros r Hr. rewrite Elat, length_fmap, number_rows_length. unfold leaf_rows. rewrite length_imap.
    apply elem_of_app in Hr as [Hr|[i Hi]%list_elem_of_lookup].
    + pose proof (rw_range _ Hwf r Hr). lia.
    + pose proof (leaf_rows_lookup _ _ _ _ _ _ Hi) as (? & Hl & ->). apply lookup_lt_Some in Hl. simpl. lia.
  - intros r Hr. unfold v'. cbn [v_add_rollup mv_next]. rewrite number_rows_length. unfold leaf_rows.
    rewrite length_imap. apply elem_of_app in Hr as [Hr|[i Hi]%list_elem_of_lookup].
    + pose proof (rw_next _ Hwf r Hr). lia.
    + pose proof (leaf_rows_lookup _ _ _ _ _ _ Hi) as (? & Hl & ->). apply lookup_lt_Some in Hl. simpl. lia.
Qed.

Lemma storeLeaves_Ok mt H leaves b h s v :
  mview h s = Some v → mt_height mt = Z.of_nat H → (0 < H ≤ 64)%nat → (length leaves ≤ 2 ^ H)%nat →
  b = 0 ∨ b ∈ mv_block v →
  ∃ s', storeLeaves mt leaves b h s = (Ok tt, s') ∧ mview h s' = Some (v_store_leaves (mroot H leaves) b leaves v).
Proof.
  intros Hv Hht HH Hlen Hb. unfold storeLeaves, v_store_leaves.
  rewrite (buildMTRoot_eq mt H) by done. rewrite decide_True by done.
  erewrite M_bind_Ok by reflexivity. erewrite M_bind_Ok by (by apply law_IsRollupExitRoot).
  case_decide as Hin.
  - rewrite bool_decide_eq_true_2 by done. by exists s.
  - rewrite bool_decide_eq_false_2 by done. apply law_AddRollupExitLeaves; [done|].
    intros l i r b' [j Hj]%list_elem_of_lookup. unfold leaf_rows in Hj; rewrite list_lookup_imap in Hj.
    apply fmap_Some in Hj as (x & _ & E). by simplify_eq.
Qed.

Lemma addRollupExitLeaf_Ok mt H leaf h s v :
  mview h s = Some v → rollups_wf v → mt_height mt = Z.of_nat H → (0 < H ≤ 64)%nat →
  1 ≤ r_RollupId leaf < 2 ^ 32 → (Nat.max (length (v_latest v)) (Z.to_nat (r_RollupId leaf)) ≤ 2 ^ H)%nat →
  r_BlockID leaf = 0 ∨ r_BlockID leaf ∈ mv_block v →
  let leaves := new_leaves v (r_RollupId leaf) (r_Leaf leaf) in
  ∃ s', addRollupExitLeaf mt leaf h s = (Ok tt, s') ∧
        mview h s' = Some (v_store_leaves (mroot H leaves) (r_BlockID leaf) leaves v).
Proof.
  intros Hv Hwf Hht HH Hid Hlen Hb leaves. unfold addRollupExitLeaf.
  erewrite M_bind_Ok by (by apply law_GetLatestRollupExitLeaves). cbn zeta.
  set (filled := fillRollupLeaves _ _ _).
  assert (length filled = Nat.max (length (v_latest v)) (Z.to_nat (r_RollupId leaf))) as Hfl.
  { unfold filled, fillRollupLeaves. rewrite length_app, length_fmap, length_seq. lia. }
  rewrite u32_id by lia. replace (r_RollupId leaf - 1) with (Z.of_nat (Z.to_nat (r_RollupId leaf) - 1)) by lia.
  set (pos := (Z.to_nat (r_RollupId leaf) - 1)%nat).
  assert (pos < length filled)%nat as Hpos by (unfold pos; lia).
  destruct (lookup_lt_is_Some_2 filled pos Hpos) as [old Hold].
  erewrite M_bind_Ok by (unfold lift; rewrite (at_index_nat _ _ _ Hold); reflexivity).
  rewrite decide_True.
  2: { rewrite (fill_ids (r_BlockID leaf) (r_RollupId leaf) _ _ _ (rw_ids _ Hwf) ltac:(lia) Hold). unfold pos. lia. }
  erewrite M_bind_Ok by (unfold lift; rewrite set_index_Ok by lia; reflexivity).
  assert (r_Leaf <$> <[pos:=leaf]> filled = leaves) as ->.
  { unfold leaves, new_leaves. rewrite list_fmap_insert. unfold filled. by rewrite fill_leaves. }
  apply storeLeaves_Ok; try done. unfold leaves, new_leaves.
  rewrite length_insert, length_app, length_fmap, length_replicate. lia.
Qed.

End RollupLeaves.

(** ** Soundness of verified paths *)

Section Binding.
Context `{K : Keccak256}.

(** The value and the pair that the verifier hashes at level [h]. *)
Definition path_value (i : nat) (leaf : Hash) (path : list Hash) (h : nat) : Hash :=
  fold_path i leaf (take h path).
Definition path_pair (i : nat) (leaf : Hash) (path : list Hash) (h : nat) : list Hash :=
  let cur := path_value i leaf path h in
  let sib := default 0 (path !! h) in
  if Nat.odd (i / 2 ^ h) then [sib; cur] else [cur; sib].

(** The pair of children in the tree, above position [i]. *)
Definition tree_pair (i : nat) (ls : list Hash) (h : nat) : list Hash :=
  let j := (i / 2 ^ S h)%nat in [node h (2 * j) ls; node h (2 * j + 1) ls].

Lemma path_value_S i leaf path h :
  (h < length path)%nat → path_value i leaf path (S h) = HashN (path_pair i leaf path h).
Proof.
  intros Hh. destruct (lookup_lt_is_Some_2 path h Hh) as [x Hx].
  unfold path_value at 1. rewrite (take_S_r _ _ _ Hx), fold_path_app. cbn [fold_path].
  rewrite length_take, Nat.min_l by lia. unfold path_pair, path_value. rewrite Hx. simpl.
  by destruct (Nat.odd _).
Qed.

Lemma path_pair_value i leaf path ls h :
  path_pair i leaf path h = tree_pair i ls h → path_value i leaf path h = node h (i / 2 ^ h) ls.
Proof.
  unfold path_pair, tree_pair. pose proof (div_decomp i h) as E. rewrite testbit_odd in E.
  destruct (Nat.odd (i / 2 ^ h)); cbn [Nat.b2n] in E; intros Heq; simplify_eq.
  - rewrite E. congruence.
  - rewrite E, Nat.add_0_r. congruence.
Qed.

Lemma path_binding i leaf path ls h :
  (h ≤ length path)%nat → path_value i leaf path h = node h (i / 2 ^ h) ls →
  leaf = leaf_at ls i ∨
  ∃ k, (k < h)%nat ∧ path_pair i leaf path k ≠ tree_pair i ls k ∧
       HashN (path_pair i leaf path k) = HashN (tree_pair i ls k).
Proof.
  induction h as [|h IH]; intros Hh Heq.
  - left. unfold path_value in Heq. simpl take in Heq. cbn [fold_path node] in Heq.
    change (2 ^ 0)%nat with 1%nat in Heq. by rewrite Nat.div_1_r in Heq.
  - destruct (decide (path_pair i leaf path h = tree_pair i ls h)) as [Hp|Hp].
    + destruct IH as [?|(k & ? & ?)]; [lia|by apply path_pair_value|by left|right; exists k; split; [lia|done]].
    + right. exists h. split; [lia|]. split; [done|]. rewrite <- path_value_S by lia. done.
Qed.

End Binding.
