(* ===== verification/Toy.v ===== *)
(** * Concrete inputs for the witnesses

    A database with the blocks and deposits that the witnesses of the theorems start
    from; [toy_keccak] of [Hash] is in the place of Keccak-256. *)
From S2P Require Import Prelude Types Bytes Hash MerkleSpec ClaimTypes Schema MerkleStore Storage.
From S2P Require Import PgMerkleStore MerkleTree MerkleTreeFacts.

Definition toy_deposit_row (id cnt block : Z) : deposit_row :=
  mk_deposit_row id 0 1 0 100 5 0 200 block cnt 77 [1; 2; 3] false false.

Definition toy_blocks : list block_row :=
  [mk_block_row 1 10 1001 1; mk_block_row 2 11 1002 1; mk_block_row 3 12 1003 1].

(** Three deposits of network 1 in three blocks, no leaf of the tree yet. *)
Definition toy_tables : Tables :=
  on_block (λ _, toy_blocks)
    (on_deposit (λ _, [toy_deposit_row 1 0 1; toy_deposit_row 2 1 2; toy_deposit_row 3 2 3]) emptyTables).
Definition toy_seqs : Seqs := mkSeqs 4 1 4 1 1 1 1 1.
Definition toy_db : DB := mkDB toy_tables None toy_seqs [].
Definition toy_view0 : MTView := tables_view toy_tables toy_seqs.

Definition toy_leaves : list (Hash * Z) := [(111, 1); (222, 2)].

(** The empty tree of height 3 of network 1. *)
Definition toy_tree : MerkleTree := mkMerkleTree 1 3 0 (take 3 (zeroHashes (K := toy_keccak))).

Definition toy_run {A} (c : M (DB * MerkleTree) A) (w : DB * MerkleTree) : DB * MerkleTree := snd (c w).

(** Database and tree after one and after two leaves. *)
Definition toy_w1 : DB * MerkleTree := Eval vm_compute in
  toy_run (addLeaf (K := toy_keccak) 1 111 0 NoTx) (toy_db, toy_tree).
Definition toy_w2 : DB * MerkleTree := Eval vm_compute in
  toy_run (addLeaf (K := toy_keccak) 2 222 1 NoTx) toy_w1.

Definition toy_w3 : DB * MerkleTree := Eval vm_compute in
  toy_run (addLeaf (K := toy_keccak) 3 333 2 NoTx) toy_w2.

Definition toy_view1 : MTView := v_append (K := toy_keccak) 3 1 [] 111 1 toy_view0.
Definition toy_view2 : MTView := v_append (K := toy_keccak) 3 1 [111] 222 2 toy_view1.
Definition toy_view3 : MTView := v_append (K := toy_keccak) 3 1 [111; 222] 333 3 toy_view2.
Definition toy_leaves3 : list (Hash * Z) := [(111, 1); (222, 2); (333, 3)].

Lemma stored_nil `{K : Keccak256} H net v :
  filter (λ r, rr_network r = net) (mv_root v) = [] → (∀ d, d ∈ mv_dep v → 0 ≤ d.1) → stored H net [] v.
Proof. intros Hr Hd. by constructor. Qed.

Lemma toy_stored0 : stored (K := toy_keccak) 3 1 [] toy_view0.
Proof.
  apply stored_nil; [done|]. intros d Hd.
  repeat (apply elem_of_cons in Hd as [->|Hd]; [simpl; lia|]). by apply elem_of_nil in Hd.
Qed.

Lemma toy_stored1 : stored (K := toy_keccak) 3 1 [(111, 1)] toy_view1.
Proof. apply (stored_append 3 1 [] 111 1 toy_view0 toy_stored0). split; [by vm_compute|done]. Qed.

Lemma toy_stored2 : stored (K := toy_keccak) 3 1 toy_leaves toy_view2.
Proof.
  apply (stored_append 3 1 [(111, 1)] 222 2 toy_view1 toy_stored1). split; [by vm_compute|].
  intros i p Hi. apply list_lookup_singleton_Some in Hi as [_ <-]. simpl. lia.
Qed.

Lemma toy_view2_eq : pg_mview NoTx toy_w2.1 = Some toy_view2.
Proof. by vm_compute. Qed.

#[global] Instance rht_functional_dec v : Decision (rht_functional v).
Proof.
  refine (cast_if (decide (Forall (λ r1, Forall (λ r2, rh_key r1 = rh_key r2 → rh_value r1 = rh_value r2)
                                     (mv_rht v)) (mv_rht v)))).
  - intros r1 r2 H1 H2. rewrite Forall_forall in f. specialize (f r1 H1).
    rewrite Forall_forall in f. by apply f.
  - intros Hf. apply n. apply Forall_forall. intros r1 H1. apply Forall_forall. intros r2 H2. by apply Hf.
Defined.

Lemma toy_functional2 : rht_functional toy_view2.
Proof. apply (bool_decide_unpack _). by vm_compute. Qed.

Lemma toy_tree2_ok : tree_ok (K := toy_keccak) 3 1 [111; 222] toy_w2.2.
Proof.
  do 3 (split; [done|]). split; [done|]. intros h Hh.
  do 3 (destruct h as [|h]; [by vm_compute|]). lia.
Qed.

Lemma toy_stored3 : stored (K := toy_keccak) 3 1 toy_leaves3 toy_view3.
Proof.
  apply (stored_append 3 1 toy_leaves 333 3 toy_view2 toy_stored2). split; [by vm_compute|].
  intros i p Hi. do 2 (destruct i as [|i]; [simpl in Hi; simplify_eq; simpl; lia|]). done.
Qed.

Lemma toy_functional3 : rht_functional toy_view3.
Proof. apply (bool_decide_unpack _). by vm_compute. Qed.

Lemma toy_view3_eq : tables_view (db_committed toy_w3.1) (db_seqs toy_w3.1) = toy_view3.
Proof. by vm_compute. Qed.

(** Storage of a tree can be checked. *)
#[global] Instance root_row_eq_dec : EqDecision root_row.
Proof. solve_decision. Defined.
#[global] Instance rht_row_eq_dec : EqDecision rht_row.
Proof. solve_decision. Defined.
#[global] Instance stored_dec `{K : Keccak256} H net lds v : Decision (stored H net lds v).
Proof.
  refine (cast_if (decide (
    filter (λ r, rr_network r = net) (mv_root v) =
      imap (λ i p, mk_root_row (mroot H (take (S i) (fst <$> lds))) (snd p) net) lds ∧
    Forall (λ q, filter (λ d, d.1 = snd q.2) (mv_dep v) = [(snd q.2, Z.of_nat q.1)] ∧
                 Forall (λ x, mk_rht_row x.1.1 x.1.2 x.2 ∈ mv_rht v)
                        (path_rows H q.1 (take (S q.1) (fst <$> lds)) (snd q.2))) (imap pair lds) ∧
    Forall (λ q, Forall (λ q', (q.1 < q'.1)%nat → snd q.2 < snd q'.2) (imap pair lds)) (imap pair lds) ∧
    Forall (λ d, 0 ≤ d.1) (mv_dep v)))).
  - match goal with Hx : _ ∧ _ |- _ => destruct Hx as (Hr & Hd & Hs & Hp) end. rewrite Forall_forall in Hd; rewrite Forall_forall in Hs; rewrite Forall_forall in Hp.
    assert (∀ i p, lds !! i = Some p → (i, p) ∈ imap pair lds) as Hin.
    { intros i p Hi. apply (list_elem_of_lookup_2 _ i). by rewrite list_lookup_imap, Hi. }
    constructor; [done| | | |done].
    + intros i p Hi. by destruct (Hd _ (Hin i p Hi)).
    + intros i p k x d Hi Hx. destruct (Hd _ (Hin i p Hi)) as [_ Hn]. rewrite Forall_forall in Hn. by apply (Hn (k, x, d)).
    + intros i j p q Hi Hj Hij. specialize (Hs _ (Hin i p Hi)). rewrite Forall_forall in Hs. by apply (Hs _ (Hin j q Hj)).
  - intros Hst. apply n. split; [apply Hst|].
    assert (∀ q, q ∈ imap pair lds → lds !! q.1 = Some q.2) as Hin.
    { intros q (i & p & -> & Hi)%elem_of_lookup_imap_1. done. }
    split_and!; apply Forall_forall.
    + intros [i p] Hq%Hin. split; [by apply (st_deps _ _ _ _ Hst)|]. apply Forall_forall. intros [[k x] d] Hx.
      by eapply (st_nodes _ _ _ _ Hst).
    + intros q Hq%Hin. apply Forall_forall. intros q' Hq'%Hin Hlt. by eapply (st_sorted _ _ _ _ Hst).
    + intros d Hd. by apply (st_pos _ _ _ _ Hst).
Defined.
