(* ===== verification/TreeTheorems.v ===== *)
(** * The theorems of the Merkle trees

    Exit trees: append, failure, reload, rollback, reorg.  Rollup exit tree: root,
    proofs, update.  Each is stated for every store that satisfies the laws of
    [MerkleStore]; the witnesses run on the storage. *)
From S2P Require Import Prelude Types Bytes Hash MerkleSpec ClaimTypes Schema MerkleStore Storage.
From S2P Require Import PgMerkleStore MerkleTree MerkleTreeFacts RollupTreeFacts Toy.

(** C2: appending the next leaf to an exit tree succeeds on a working store, and then
    the stored root is the root of the reference tree over all leaves, the object's
    siblings are the frontier of the longer tree, and the store holds every node on
    the path of the new leaf. *)
Theorem addLeaf_correct `{K : Keccak256} {St} {HS : merkleTreeStore St} {HL : MerkleStoreLaws St} (H : nat) (net : Z)
    (lds : list (Hash * Z)) (leaf : Hash) (id : Z) (h : dbTx) (s : St) (mt : MerkleTree) (v : MTView) :
  tree_ok H net (fst <$> lds) mt → mview h s = Some v → stored H net lds v →
  fresh_deposit v id → next_deposit lds id v →
  NoDup (path_hashes H (length lds) ((fst <$> lds) ++ [leaf])) →
  (H ≤ 64)%nat → Z.of_nat (length lds) < 2 ^ 32 - 1 → (length lds < 2 ^ H)%nat →
  ∃ s' mt' v', addLeaf id leaf (Z.of_nat (length lds)) h (s, mt) = (Ok tt, (s', mt')) ∧
    mview h s' = Some v' ∧
    tree_ok H net ((fst <$> lds) ++ [leaf]) mt' ∧ stored H net (lds ++ [(leaf, id)]) v' ∧
    v_root v' (Z.of_nat (length lds)) net = Some (mroot H ((fst <$> lds) ++ [leaf])).
Proof.
  intros Hok Hv Hst Hfr Hnx Hnd HH Hn HnH.
  rewrite <- (length_fmap fst lds) in Hnd, Hn, HnH |- *.
  destruct (addLeaf_Ok H net (fst <$> lds) leaf id h s mt v) as (s' & mt' & E & Hok' & Hv'); [done..|].
  pose proof (stored_append H net lds leaf id v Hst Hnx) as Hst'.
  exists s', mt', (v_append H net (fst <$> lds) leaf id v). split; [done|]. split; [done|]. split; [done|]. split; [done|].
  rewrite length_fmap. rewrite (stored_root _ _ _ _ (length lds) (leaf, id) Hst') by (by apply list_lookup_middle).
  rewrite fmap_app, take_ge; [done|]. rewrite length_app, length_fmap. simpl. lia.
Qed.

Lemma addLeaf_correct_witness :
  ∃ s' mt' v', addLeaf (K := toy_keccak) 3 333 2 NoTx toy_w2 = (Ok tt, (s', mt')) ∧
    mview NoTx s' = Some v' ∧
    tree_ok (K := toy_keccak) 3 1 [111; 222; 333] mt' ∧
    stored (K := toy_keccak) 3 1 (toy_leaves ++ [(333, 3)]) v' ∧
    v_root v' 2 1 = Some (mroot (K := toy_keccak) 3 [111; 222; 333]).
Proof.
  apply (addLeaf_correct (K := toy_keccak) 3 1 toy_leaves 333 3 NoTx toy_w2.1 toy_w2.2 toy_view2).
  - exact toy_tree2_ok.
  - exact toy_view2_eq.
  - exact toy_stored2.
  - repeat split; apply (bool_decide_unpack _); by vm_compute.
  - split; [by vm_compute|]. intros i p Hi.
    do 2 (destruct i as [|i]; [simpl in Hi; simplify_eq; simpl; lia|]). done.
  - apply (bool_decide_unpack _). by vm_compute.
  - lia.
  - vm_compute. done.
  - simpl. lia.
Defined.

(** C14: when [addLeaf] returns an error, from a mismatched index, from any failure of
    the store, whatever the store is, the object still is a correct tree over the
    leaves it had: the siblings it overwrote are not part of their frontier. *)
Theorem addLeaf_failure_safe `{K : Keccak256} {St} {HS : merkleTreeStore St} (H : nat) (net : Z)
    (ls : list Hash) (leaf : Hash) (id index : Z) (h : dbTx) (s s' : St) (mt mt' : MerkleTree) (e : error) :
  tree_ok H net ls mt → (H ≤ 64)%nat → Z.of_nat (length ls) < 2 ^ 32 → (length ls < 2 ^ H)%nat →
  addLeaf id leaf index h (s, mt) = (Err e, (s', mt')) →
  tree_ok H net ls mt'.
Proof.
  intros (Hnet & Hht & Hc & Hf) HH Hn HnH. unfold addLeaf. erewrite M_bind_Ok by reflexivity. cbn [snd].
  case_decide as Hix; [intros [= <- <- <-]; done|]. rewrite Hix, Hc, Hht.
  destruct (addLeaf_loop_correct H ls leaf (mt_siblings mt) Hf HH Hn HnH) as (filled & sib & Hl & _ & Hf').
  erewrite M_bind_Ok by (unfold lift; rewrite Hl; reflexivity). cbn beta iota.
  erewrite M_bind_Ok by reflexivity. cbn [fst snd].
  assert (tree_ok H net ls (set_siblings sib mt)) as Hok by done.
  unfold mbind, M_bind, on_store, zoom. cbn [fst snd].
  destruct (store_SetRoot _ _ _ _ s) as [[] s1]; cbn [fst snd]; try (intros [= <- <- <-]; done); [|done..].
  destruct (store_BulkSet _ h s1) as [[] s2]; cbn [fst snd]; try (intros [= <- <- <-]; done); done.
Qed.

(** A store that refuses the roots: the first call of [addLeaf] fails. *)
Lemma addLeaf_failure_safe_witness :
  let s := mkDB (db_committed toy_w2.1) None (db_seqs toy_w2.1) [true] in
  let r := addLeaf (K := toy_keccak) 3 333 2 NoTx (s, toy_w2.2) in
  fst r = Err (ErrSQL ErrConn) ∧ tree_ok (K := toy_keccak) 3 1 [111; 222] (snd (snd r)).
Proof.
  intros s r. split; [by vm_compute|].
  apply (addLeaf_failure_safe (K := toy_keccak) 3 1 [111; 222] 333 3 2 NoTx s (fst (snd r)) toy_w2.2
           (snd (snd r)) (ErrSQL ErrConn)).
  - exact toy_tree2_ok.
  - lia.
  - vm_compute. done.
  - simpl. lia.
  - by vm_compute.
Defined.

(** A service that restarts loads every exit tree as it was: the tree made by
    [NewMerkleTree] from the store has the count and the frontier of all the leaves
    the store holds. *)
Theorem NewMerkleTree_loads `{K : Keccak256} {St} {HS : merkleTreeStore St} {HL : MerkleStoreLaws St} (H : nat) (net : Z)
    (lds : list (Hash * Z)) (s : St) (v : MTView) :
  stored H net lds v → rht_functional v → mview NoTx s = Some v →
  (0 < H ≤ 64)%nat → Z.of_nat (length lds) < 2 ^ 32 → (length lds ≤ 2 ^ H)%nat →
  ∃ mt, NewMerkleTree (Z.of_nat H) net s = (Ok mt, s) ∧ tree_ok H net (fst <$> lds) mt.
Proof.
  intros Hst Hf Hv HH Hn HnH. unfold NewMerkleTree.
  erewrite M_bind_Ok by (by eapply nextDepositCount_Ok). cbn zeta.
  set (mt0 := mkMerkleTree _ _ _ _).
  destruct (initSiblings_Ok H net lds v NoTx s mt0 (length lds)) as (sib & E & Hfr); [done..|].
  exists (set_siblings sib mt0). split.
  - erewrite M_bind_Ok by (unfold with_tree; rewrite E; reflexivity). done.
  - rewrite take_ge in Hfr by (by rewrite length_fmap).
    do 2 (split; [done|]). split; [simpl; by rewrite length_fmap|done].
Qed.

Lemma NewMerkleTree_loads_witness :
  ∃ mt, NewMerkleTree (K := toy_keccak) 3 1 toy_w2.1 = (Ok mt, toy_w2.1) ∧
        tree_ok (K := toy_keccak) 3 1 [111; 222] mt.
Proof.
  apply (NewMerkleTree_loads (K := toy_keccak) 3 1 toy_leaves toy_w2.1 toy_view2).
  - exact toy_stored2.
  - exact toy_functional2.
  - exact toy_view2_eq.
  - lia.
  - vm_compute. done.
  - simpl. lia.
Defined.

(** After the database transaction is rolled back, [rollbackMT] brings the object
    back to the tree that is stored, whatever count and siblings the failed
    transaction had left in memory. *)
Theorem rollbackMT_recovers `{K : Keccak256} {St} {HS : merkleTreeStore St} {HL : MerkleStoreLaws St} (H : nat) (net : Z)
    (lds : list (Hash * Z)) (h : dbTx) (s : St) (mt : MerkleTree) (v : MTView) :
  stored H net lds v → rht_functional v → mview NoTx s = Some v → mview h s = Some v →
  (0 < H ≤ 64)%nat → Z.of_nat (length lds) < 2 ^ 32 → (length lds ≤ 2 ^ H)%nat →
  mt_networkID mt = net → mt_height mt = Z.of_nat H →
  ∃ mt', rollbackMT net h (s, mt) = (Ok tt, (s, mt')) ∧ tree_ok H net (fst <$> lds) mt'.
Proof.
  intros Hst Hf Hv Hvh HH Hn HnH Hnet Hht. unfold rollbackMT.
  erewrite M_bind_Ok by (apply on_store_eq; by eapply nextDepositCount_Ok).
  erewrite M_bind_Ok by reflexivity. cbn [fst snd].
  destruct (assignSiblings_Ok H net lds v h s (set_count (Z.of_nat (length lds)) mt) (length lds))
    as (mt' & E & Hok); [done..|].
  exists mt'. split; [done|]. by rewrite take_ge in Hok by (by rewrite length_fmap).
Qed.

Lemma rollbackMT_recovers_witness :
  ∃ mt', rollbackMT (K := toy_keccak) 1 NoTx (toy_w2.1, mkMerkleTree 1 3 7 [1; 2; 3]) = (Ok tt, (toy_w2.1, mt')) ∧
         tree_ok (K := toy_keccak) 3 1 [111; 222] mt'.
Proof.
  apply (rollbackMT_recovers (K := toy_keccak) 3 1 toy_leaves NoTx toy_w2.1 (mkMerkleTree 1 3 7 [1; 2; 3]) toy_view2);
    [exact toy_stored2|exact toy_functional2|exact toy_view2_eq|exact toy_view2_eq|lia|by vm_compute|simpl; lia|done..].
Defined.

(** [resetLeaf], which a reorganisation and a backward update of the local exit
    tree use, sets the object to the tree of the first [c] stored leaves. *)
Theorem resetLeaf_prefix `{K : Keccak256} {St} {HS : merkleTreeStore St} {HL : MerkleStoreLaws St} (H : nat) (net : Z)
    (lds : list (Hash * Z)) (c : nat) (h : dbTx) (s : St) (mt : MerkleTree) (v : MTView) :
  stored H net lds v → rht_functional v → mview h s = Some v →
  (0 < H ≤ 64)%nat → (c ≤ length lds)%nat → Z.of_nat c < 2 ^ 32 → (c ≤ 2 ^ H)%nat →
  mt_networkID mt = net → mt_height mt = Z.of_nat H →
  ∃ mt', resetLeaf (Z.of_nat c) h (s, mt) = (Ok tt, (s, mt')) ∧ tree_ok H net (take c (fst <$> lds)) mt'.
Proof.
  intros Hst Hf Hv HH Hc Hn HnH Hnet Hht. unfold resetLeaf. erewrite M_bind_Ok by reflexivity. cbn [fst snd].
  by apply (assignSiblings_Ok H net lds v h s (set_count (Z.of_nat c) mt) c).
Qed.

Lemma resetLeaf_prefix_witness :
  ∃ mt', resetLeaf (K := toy_keccak) 1 NoTx toy_w2 = (Ok tt, (toy_w2.1, mt')) ∧
         tree_ok (K := toy_keccak) 3 1 [111] mt'.
Proof.
  apply (resetLeaf_prefix (K := toy_keccak) 3 1 toy_leaves 1 NoTx toy_w2.1 toy_w2.2 toy_view2);
    [exact toy_stored2|exact toy_functional2|exact toy_view2_eq|lia|simpl; lia|by vm_compute|simpl; lia|done..].
Defined.

(** ** Rollup exit tree *)

(** [buildMTRoot] returns the root of the reference tree when the leaves fit in
    the height, and the error "more than one root" when they do not. *)
Theorem buildMTRoot_reference `{K : Keccak256} (mt : MerkleTree) (H : nat) (ls : list Hash) :
  mt_height mt = Z.of_nat H → (0 < H ≤ 64)%nat →
  buildMTRoot mt ls =
    if decide (length ls ≤ 2 ^ H)%nat then Ok (mroot H ls)
    else Err (Errorf "error: more than one root detected: %+v").
Proof. apply buildMTRoot_eq. Qed.

Lemma buildMTRoot_reference_witness :
  buildMTRoot (K := toy_keccak) (mkMerkleTree 0 2 0 []) [5; 6; 7] = Ok (mroot (K := toy_keccak) 2 [5; 6; 7]) ∧
  buildMTRoot (K := toy_keccak) (mkMerkleTree 0 1 0 []) [5; 6; 7] =
    Err (Errorf "error: more than one root detected: %+v").
Proof.
  split.
  - apply (buildMTRoot_reference (K := toy_keccak) (mkMerkleTree 0 2 0 []) 2); [done|lia].
  - apply (buildMTRoot_reference (K := toy_keccak) (mkMerkleTree 0 1 0 []) 1); [done|lia].
Defined.

(** C15: for an index among the leaves [ComputeSiblings] returns the sibling path of
    the reference tree with its root, and [calculateRoot] accepts that path; an index
    out of range and too many leaves are errors. *)
Theorem ComputeSiblings_verifies `{K : Keccak256} (H idx : nat) (ls : list Hash) :
  (0 < H ≤ 64)%nat → Z.of_nat idx < 2 ^ 32 →
  ComputeSiblings (Z.of_nat idx) ls (Z.of_nat H) =
    (if decide (idx < Nat.max 1 (length ls))%nat then
       if decide (length ls ≤ 2 ^ H)%nat then Ok (path_of H idx ls, mroot H ls)
       else Err (Errorf "error: more than one root detected: %+v")
     else Err (Errorf "rollupIndex %d is out of bounds for leaves array of length %d")) ∧
  ((idx < 2 ^ H)%nat →
   calculateRoot (leaf_at ls idx) (path_of H idx ls) (Z.of_nat idx) (Z.of_nat H) = Ok (mroot H ls)).
Proof.
  intros HH Hi. split; [by apply ComputeSiblings_eq|]. intros HiH.
  pose proof (calculateRoot_eq (leaf_at ls idx) idx (path_of H idx ls)) as E.
  rewrite path_of_length, path_of_verifies in E by done. done.
Qed.

Lemma ComputeSiblings_verifies_witness :
  ComputeSiblings (K := toy_keccak) 2 [5; 6; 7] 2 =
    Ok (path_of (K := toy_keccak) 2 2 [5; 6; 7], mroot (K := toy_keccak) 2 [5; 6; 7]).
Proof.
  apply (ComputeSiblings_verifies (K := toy_keccak) 2 2 [5; 6; 7]); [lia|by vm_compute].
Defined.

(** C16: a path that [calculateRoot] accepts for position [idx] of a tree proves the
    leaf at that position, unless it exhibits, at one of its levels, a pair of hashes
    other than the tree's pair with the same parent hash. *)
Theorem accepted_path_binds `{K : Keccak256} (H idx : nat) (ls path : list Hash) (leaf : Hash) :
  length path = H → (idx < 2 ^ H)%nat →
  calculateRoot leaf path (Z.of_nat idx) (Z.of_nat H) = Ok (mroot H ls) →
  leaf = leaf_at ls idx ∨
  ∃ k, (k < H)%nat ∧ path_pair idx leaf path k ≠ tree_pair idx ls k ∧
       HashN (path_pair idx leaf path k) = HashN (tree_pair idx ls k).
Proof.
  intros <- Hi. rewrite calculateRoot_eq. intros E%Ok_inj. apply path_binding; [done|].
  unfold path_value. rewrite take_ge, Nat.div_small by done. done.
Qed.

Lemma accepted_path_binds_witness :
  let path := path_of (K := toy_keccak) 2 1 [5; 6; 7] in
  6 = leaf_at [5; 6; 7] 1 ∨
  ∃ k, (k < 2)%nat ∧ path_pair (K := toy_keccak) 1 6 path k ≠ tree_pair (K := toy_keccak) 1 [5; 6; 7] k ∧
       HashN (K := toy_keccak) (path_pair (K := toy_keccak) 1 6 path k) =
       HashN (K := toy_keccak) (tree_pair (K := toy_keccak) 1 [5; 6; 7] k).
Proof.
  apply (accepted_path_binds (K := toy_keccak) 2 1 [5; 6; 7] (path_of (K := toy_keccak) 2 1 [5; 6; 7]) 6);
    [by vm_compute|simpl; lia|by vm_compute].
Defined.

(** C17: a verified batch of rollup [r_RollupId leaf] succeeds on a working store.  When
    the root of the reference tree over the leaves of all rollups, with the new one in its
    place and empty leaves for the rollups not seen before, is not stored yet, these leaves
    become the latest ones, under that root.  When the root is stored already, nothing is
    written, and the latest leaves stay the ones before.  The leaves stay numbered
    1, 2, ... in both cases. *)
Theorem addRollupExitLeaf_correct `{K : Keccak256} {St} {HS : merkleTreeStore St} {HL : MerkleStoreLaws St}
    (mt : MerkleTree) (H : nat) (leaf : RollupExitLeaf) (h : dbTx) (s : St) (v : MTView) :
  mview h s = Some v → rollups_wf v → mt_height mt = Z.of_nat H → (0 < H ≤ 64)%nat →
  1 ≤ r_RollupId leaf < 2 ^ 32 → (Nat.max (length (v_latest v)) (Z.to_nat (r_RollupId leaf)) ≤ 2 ^ H)%nat →
  r_BlockID leaf = 0 ∨ r_BlockID leaf ∈ mv_block v →
  let leaves := new_leaves v (r_RollupId leaf) (r_Leaf leaf) in
  ∃ s' v', addRollupExitLeaf mt leaf h s = (Ok tt, s') ∧ mview h s' = Some v' ∧ rollups_wf v' ∧
    (mroot H leaves ∉ re_root <$> mv_rollup v → r_Leaf <$> v_latest v' = leaves ∧
       Forall (λ l, r_Root l = mroot H leaves) (v_latest v')) ∧
    (mroot H leaves ∈ re_root <$> mv_rollup v → v' = v).
Proof.
  intros Hv Hwf Hht HH Hid Hlen Hb leaves.
  destruct (addRollupExitLeaf_Ok mt H leaf h s v) as (s' & E & Hv'); [done..|]. fold leaves in Hv'.
  assert (length (v_latest v) ≤ length leaves)%nat as Hll.
  { unfold leaves, new_leaves. rewrite length_insert, length_app, length_fmap. lia. }
  exists s', (v_store_leaves (mroot H leaves) (r_BlockID leaf) leaves v).
  split; [done|]. split; [done|]. split; [by apply rollups_wf_store|].
  split; [|intros Hin; unfold v_store_leaves; by rewrite decide_True]. intros Hnew.
  unfold v_store_leaves. rewrite decide_False by done. rewrite v_latest_add by done.
  split.
  - rewrite <- list_fmap_compose. apply list_eq. intros i. rewrite list_lookup_fmap.
    destruct (number_rows _ _ !! i) as [r|] eqn:Hr.
    + destruct (leaf_rows_lookup _ _ _ _ _ _ Hr) as (x & Hx & ->). by rewrite Hx.
    + apply lookup_ge_None in Hr. rewrite number_rows_length in Hr. unfold leaf_rows in Hr.
      rewrite length_imap in Hr. simpl. by rewrite lookup_ge_None_2.
  - apply Forall_fmap, Forall_forall. intros r [i Hr]%list_elem_of_lookup.
    by destruct (leaf_rows_lookup _ _ _ _ _ _ Hr) as (x & Hx & ->).
Qed.

Lemma rollups_wf_nil v : mv_rollup v = [] → rollups_wf v.
Proof. intros E. constructor; unfold v_latest; rewrite E; [done|by intros r ?%elem_of_nil..]. Qed.

Lemma addRollupExitLeaf_correct_witness :
  let leaf := mkRollupExitLeaf 0 1 99 2 0 in
  let leaves := new_leaves toy_view0 2 99 in
  ∃ s' v', addRollupExitLeaf (K := toy_keccak) (mkMerkleTree MaxInt32 3 0 []) leaf NoTx toy_db = (Ok tt, s') ∧
    mview NoTx s' = Some v' ∧ rollups_wf v' ∧
    (mroot (K := toy_keccak) 3 leaves ∉ re_root <$> mv_rollup toy_view0 → r_Leaf <$> v_latest v' = leaves ∧
       Forall (λ l, r_Root l = mroot (K := toy_keccak) 3 leaves) (v_latest v')) ∧
    (mroot (K := toy_keccak) 3 leaves ∈ re_root <$> mv_rollup toy_view0 → v' = toy_view0).
Proof.
  apply (addRollupExitLeaf_correct (K := toy_keccak) (mkMerkleTree MaxInt32 3 0 []) 3
           (mkRollupExitLeaf 0 1 99 2 0) NoTx toy_db toy_view0).
  - done.
  - by apply rollups_wf_nil.
  - done.
  - lia.
  - simpl. lia.
  - vm_compute. lia.
  - right. apply (bool_decide_unpack _). by vm_compute.
Defined.

(** When the root over the new leaves is stored already, nothing is written: the
    latest leaf of the rollup stays the one before, also when the verified batch
    brought another one. *)
Theorem addRollupExitLeaf_known_root `{K : Keccak256} {St} {HS : merkleTreeStore St} {HL : MerkleStoreLaws St}
    (mt : MerkleTree) (H : nat) (leaf : RollupExitLeaf) (h : dbTx) (s : St) (v : MTView) :
  mview h s = Some v → rollups_wf v → mt_height mt = Z.of_nat H → (0 < H ≤ 64)%nat →
  1 ≤ r_RollupId leaf < 2 ^ 32 → (Nat.max (length (v_latest v)) (Z.to_nat (r_RollupId leaf)) ≤ 2 ^ H)%nat →
  r_BlockID leaf = 0 ∨ r_BlockID leaf ∈ mv_block v →
  mroot H (new_leaves v (r_RollupId leaf) (r_Leaf leaf)) ∈ re_root <$> mv_rollup v →
  ∃ s', addRollupExitLeaf mt leaf h s = (Ok tt, s') ∧ mview h s' = Some v.
Proof.
  intros Hv Hwf Hht HH Hid Hlen Hb Hin.
  destruct (addRollupExitLeaf_Ok mt H leaf h s v) as (s' & E & Hv'); [done..|].
  exists s'. split; [done|]. rewrite Hv'. unfold v_store_leaves. by rewrite decide_True.
Qed.

(** The database after rollup 1 had the leaf 10 and then the leaf 20. *)
Definition toy_rollup_tree : MerkleTree := mkMerkleTree MaxInt32 3 0 [].
Definition toy_leaf (l : Hash) : RollupExitLeaf := mkRollupExitLeaf 0 1 l 1 0.
Definition toy_ab : DB := Eval vm_compute in
  snd (addRollupExitLeaf (K := toy_keccak) toy_rollup_tree (toy_leaf 20) NoTx
         (snd (addRollupExitLeaf (K := toy_keccak) toy_rollup_tree (toy_leaf 10) NoTx toy_db))).
Definition toy_ab_view : MTView := tables_view (db_committed toy_ab) (db_seqs toy_ab).

Lemma toy_ab_wf : rollups_wf toy_ab_view.
Proof.
  constructor.
  - intros i l Hl. destruct i as [|i]; [|done]. vm_compute in Hl. by simplify_eq.
  - intros r Hr. vm_compute in Hr. repeat (apply elem_of_cons in Hr as [->|Hr]; [vm_compute; done|]). by apply elem_of_nil in Hr.
  - intros r Hr. vm_compute in Hr. repeat (apply elem_of_cons in Hr as [->|Hr]; [vm_compute; done|]). by apply elem_of_nil in Hr.
Qed.

(** Back to the leaf 10: it is not stored again, and the latest leaf stays 20. *)
Lemma addRollupExitLeaf_known_root_witness :
  (∃ s', addRollupExitLeaf (K := toy_keccak) toy_rollup_tree (toy_leaf 10) NoTx toy_ab = (Ok tt, s') ∧
         mview NoTx s' = Some toy_ab_view) ∧
  r_Leaf <$> v_latest toy_ab_view = [20].
Proof.
  split; [|by vm_compute].
  apply (addRollupExitLeaf_known_root (K := toy_keccak) toy_rollup_tree 3 (toy_leaf 10) NoTx toy_ab toy_ab_view).
  - done.
  - exact toy_ab_wf.
  - done.
  - lia.
  - simpl. lia.
  - vm_compute. lia.
  - right. apply (bool_decide_unpack _). by vm_compute.
  - apply (bool_decide_unpack _). by vm_compute.
Defined.

(** ** A connection failure while the count is read *)

(** When the connection fails while the last deposit count is read, the storage
    answers zero without an error, and [rollbackMT] succeeds with a tree of one leaf
    although two are stored (a run without the failure finds two). *)
Theorem rollbackMT_fault_wrong_count :
  let db faults := mkDB (db_committed toy_w2.1) None (db_seqs toy_w2.1) faults in
  let counts faults := (λ w : DB * MerkleTree, mt_count w.2) <$>
    (let '(r, w) := rollbackMT (K := toy_keccak) 1 NoTx (db faults, toy_tree) in
     if r is Ok _ then Some w else None) in
  counts [] = Some 2 ∧ counts [true] = Some 1.
Proof. by vm_compute. Qed.
