(* ===== verification/BridgeCtrl.v ===== *)
(** * The bridge controller (bridgectrl/bridgectrl.go)

    One exit tree per network, found through the map of tree ids, and the rollup exit
    tree.  A computation runs on the store and the controller. *)
From S2P Require Import Prelude Types Bytes Hash MerkleSpec ClaimTypes Schema MerkleStore MerkleTree.

Record BridgeController := mkBridgeController {
  bc_exitTrees : list MerkleTree;
  bc_rollupsTree : MerkleTree;
  bc_merkleTreeIDs : gmap Z Z
}.

Definition set_exitTrees (l : list MerkleTree) (bt : BridgeController) : BridgeController :=
  mkBridgeController l (bc_rollupsTree bt) (bc_merkleTreeIDs bt).

Section BridgeCtrl.
Context `{K : Keccak256} {St : Type} `{merkleTreeStore St}.

(** A method of [bt.exitTrees[tID]], a pointer: what it assigns stays. *)
Definition on_tree {A} (tID : Z) (c : M (St * MerkleTree) A) : M (St * BridgeController) A := λ w,
  let '(s, bt) := w in
  match at_index (bc_exitTrees bt) tID with
  | Ok mt =>
      let '(r, (s', mt')) := c (s, mt) in
      (r, (s', set_exitTrees (<[Z.to_nat tID := mt']> (bc_exitTrees bt)) bt))
  | _ => (Panic, w)
  end.

Definition GetMerkleTreeID (networkID : Z) : M (St * BridgeController) Z :=
  bt ← gets snd;
  match bc_merkleTreeIDs bt !! networkID with
  | Some tID => mret tID
  | None => throw ErrNetworkNotRegister
  end.

(** The loop over the networks, from position [i] on. *)
Fixpoint NewBridgeController_loop (height : Z) (networkIDs : list Z) (i : nat) (ids : gmap Z Z)
    (trees : list MerkleTree) : M St (gmap Z Z * list MerkleTree) :=
  match networkIDs with
  | [] => mret (ids, trees)
  | networkID :: networkIDs =>
      mt ← NewMerkleTree height networkID;
      NewBridgeController_loop height networkIDs (S i) (<[networkID := u32 (Z.of_nat i)]> ids) (trees ++ [mt])
  end.

Definition NewBridgeController (height : Z) (networkIDs : list Z) : M St BridgeController :=
  '(merkleTreeIDs, exitTrees) ← NewBridgeController_loop height networkIDs 0 ∅ [];
  rollupsTree ← NewMerkleTree height MaxInt32;
  mret (mkBridgeController exitTrees rollupsTree merkleTreeIDs).

Definition AddDeposit (deposit : Deposit) (h : dbTx) : M (St * BridgeController) unit :=
  leaf ← lift (HashDeposit deposit);
  tID ← GetMerkleTreeID (d_NetworkID deposit);
  on_tree tID (addLeaf (d_Id deposit) leaf (d_DepositCount deposit) h).

Definition ReorgMT (depositCount networkID : Z) (h : dbTx) : M (St * BridgeController) unit :=
  tID ← GetMerkleTreeID networkID;
  on_tree tID (resetLeaf depositCount h).

Definition RollbackMT (networkID : Z) (h : dbTx) : M (St * BridgeController) unit :=
  tID ← GetMerkleTreeID networkID;
  on_tree tID (rollbackMT networkID h).

Definition GetExitRoot (networkID : Z) (h : dbTx) : M (St * BridgeController) Hash :=
  tID ← GetMerkleTreeID networkID;
  on_tree tID (getRoot h).

Definition AddRollupExitLeaf (rollupLeaf : RollupExitLeaf) (h : dbTx) : M (St * BridgeController) unit :=
  bt ← gets snd;
  zoom fst (λ s w, (s, snd w)) (addRollupExitLeaf (bc_rollupsTree bt) rollupLeaf h).

End BridgeCtrl.
