(* ===== verification/Synchronizer.v ===== *)
(** * The synchronizer (synchronizer/synchronizer.go)

    [ClientSynchronizer] reads the events of its network block by block and stores
    each block in one database transaction.  Its state is the database, the bridge
    controller it shares with the other synchronizers, its own fields, what it sent on
    its channels, and the world [W] behind the two clients it calls: the node
    ([ethermanInterface]) and the trusted sequencer ([zkEVMClientInterface]) are
    parameters, whose answers may depend on the world and change it.

    Unbounded loops take [fuel].  Metrics and logs are left out, a send on a channel
    is recorded, and the end of the context is the end of the fuel of [Sync]. *)
From S2P Require Import Prelude Types Bytes Hash MerkleSpec ClaimTypes Schema MerkleStore Storage.
From S2P Require Import PgMerkleStore MerkleTree BridgeCtrl.

Record Header := mkHeader { hd_Number : Z; hd_Hash : Hash }.

Class ethermanInterface (W : Type) := {
  HeaderByNumber : option Z → M W Header;
  GetRollupInfoByBlockRange : Z → Z → M W (list Block * gmap Hash (list Order))
}.

Class zkEVMClientInterface (W : Type) := {
  GetLatestGlobalExitRoot : M W Hash;
  ExitRootsByGER : Hash → M W (option (Hash * Hash))
}.

(** The fields that do not change after [NewSynchronizer]. *)
Record SyncConfig := mkSyncConfig {
  cf_networkID : Z;
  cf_genBlockNumber : Z;
  cf_SyncChunkSize : Z;
  cf_SyncInterval : Z;
  cf_allNetworkIDs : list Z;
  cf_sovereignChain : bool;
  cf_forceSyncChunk : bool;
  cf_nChsExitRootEvent : nat
}.

Record SyncState (W : Type) := mkSyncState {
  y_world : W;
  y_db : DB;
  y_ctrl : BridgeController;
  y_synced : bool;
  y_l1RollupExitRoot : Hash;
  y_waitDuration : Z;
  y_initialRemainingBlocks : Z;
  y_chExitRootEventL2 : list GlobalExitRoot;
  y_chsExitRootEvent : list GlobalExitRoot;
  y_chSynced : list Z
}.
Arguments mkSyncState {_} _ _ _ _ _ _ _ _ _ _.
Arguments y_world {_} _.
Arguments y_db {_} _.
Arguments y_ctrl {_} _.
Arguments y_synced {_} _.
Arguments y_l1RollupExitRoot {_} _.
Arguments y_waitDuration {_} _.
Arguments y_initialRemainingBlocks {_} _.
Arguments y_chExitRootEventL2 {_} _.
Arguments y_chsExitRootEvent {_} _.
Arguments y_chSynced {_} _.

Section Synchronizer.
Context `{K : Keccak256} `{AbiToken} {W : Type} `{ethermanInterface W} `{zkEVMClientInterface W}.
Context (cfg : SyncConfig) (fuel : nat).

Local Abbreviation networkID := (cf_networkID cfg).
Local Abbreviation SM := (M (SyncState W)).

Definition put_world (w : W) (y : SyncState W) : SyncState W :=
  mkSyncState w (y_db y) (y_ctrl y) (y_synced y) (y_l1RollupExitRoot y) (y_waitDuration y)
    (y_initialRemainingBlocks y) (y_chExitRootEventL2 y) (y_chsExitRootEvent y) (y_chSynced y).
Definition put_db (db : DB) (y : SyncState W) : SyncState W :=
  mkSyncState (y_world y) db (y_ctrl y) (y_synced y) (y_l1RollupExitRoot y) (y_waitDuration y)
    (y_initialRemainingBlocks y) (y_chExitRootEventL2 y) (y_chsExitRootEvent y) (y_chSynced y).
Definition put_ctrl (p : DB * BridgeController) (y : SyncState W) : SyncState W :=
  mkSyncState (y_world y) (fst p) (snd p) (y_synced y) (y_l1RollupExitRoot y) (y_waitDuration y)
    (y_initialRemainingBlocks y) (y_chExitRootEventL2 y) (y_chsExitRootEvent y) (y_chSynced y).
(** s.waitDuration = SyncInterval; s.synced = true; s.chSynced <- s.networkID. *)
Definition mark_synced (y : SyncState W) : SyncState W :=
  mkSyncState (y_world y) (y_db y) (y_ctrl y) true (y_l1RollupExitRoot y) (cf_SyncInterval cfg)
    (y_initialRemainingBlocks y) (y_chExitRootEventL2 y) (y_chsExitRootEvent y) (y_chSynced y ++ [networkID]).
Definition put_initialRemainingBlocks (v : Z) (y : SyncState W) : SyncState W :=
  mkSyncState (y_world y) (y_db y) (y_ctrl y) (y_synced y) (y_l1RollupExitRoot y) (y_waitDuration y)
    v (y_chExitRootEventL2 y) (y_chsExitRootEvent y) (y_chSynced y).
Definition send_L2 (ger : GlobalExitRoot) (y : SyncState W) : SyncState W :=
  mkSyncState (y_world y) (y_db y) (y_ctrl y) (y_synced y) (y_l1RollupExitRoot y) (y_waitDuration y)
    (y_initialRemainingBlocks y) (y_chExitRootEventL2 y ++ [ger]) (y_chsExitRootEvent y) (y_chSynced y).
(** s.l1RollupExitRoot = root, and the root goes to every channel. *)
Definition send_L1 (root : Hash) (ger : GlobalExitRoot) (y : SyncState W) : SyncState W :=
  mkSyncState (y_world y) (y_db y) (y_ctrl y) (y_synced y) root (y_waitDuration y)
    (y_initialRemainingBlocks y) (y_chExitRootEventL2 y)
    (y_chsExitRootEvent y ++ replicate (cf_nChsExitRootEvent cfg) ger) (y_chSynced y).

Definition on_world {A} (c : M W A) : SM A := zoom y_world put_world c.
Definition on_db {A} (c : M DB A) : SM A := zoom y_db put_db c.
Definition on_ctrl {A} (c : M (DB * BridgeController) A) : SM A :=
  zoom (λ y, (y_db y, y_ctrl y)) put_ctrl c.

(** ** Rollback *)

Fixpoint rollbackMT_loop (n : nat) : SM unit :=
  match n with
  | O => λ y, (OutOfFuel, y)
  | S n =>
      mtErr ← attempt (on_ctrl (RollbackMT networkID NoTx));
      match mtErr with
      | inr _ => mret tt
      | inl _ => rollbackMT_loop n
      end
  end.

(** [return s.rollback(blockNumber, err, dbTx)]: never returns a value. *)
Definition rollback {A} (err : error) (tx : dbTx) : SM A :=
  rollbackMT_loop fuel;;
  rollbackErr ← attempt (on_db (Rollback tx));
  match rollbackErr with
  | inl e => throw e
  | inr _ => throw err
  end.

(** [x, err := c; if err != nil { return s.rollback(blockNumber, err, dbTx) }]. *)
Definition or_rollback {A} (tx : dbTx) (c : SM A) : SM A :=
  r ← attempt c;
  match r with
  | inr a => mret a
  | inl e => rollback e tx
  end.

(** ** Event handlers *)

Definition processVerifyBatch (verifyBatch : VerifiedBatch) (blockID : Z) (tx : dbTx) : SM unit :=
  if decide (v_LocalExitRoot verifyBatch = 0) then mret tt else
  (if decide (v_RollupID verifyBatch ∈ cf_allNetworkIDs cfg) then
     ok ← or_rollback tx (on_db (CheckIfRootExists (v_LocalExitRoot verifyBatch) (v_RollupID verifyBatch) tx));
     if ok : bool then mret tt
     else rollback (Errorf "networkID: %d, Root: %s doesn't exist! ") tx
   else mret tt);;
  let rollupLeaf := mkRollupExitLeaf 0 blockID (v_LocalExitRoot verifyBatch) (v_RollupID verifyBatch) 0 in
  or_rollback tx (on_ctrl (AddRollupExitLeaf rollupLeaf tx)).

Definition set_g_ExitRoots (roots : list Hash) (g : GlobalExitRoot) : GlobalExitRoot :=
  mkGlobalExitRoot (g_BlockID g) (g_BlockNumber g) roots (g_GlobalExitRoot g) (g_NetworkID g) (g_ID g).

(** globalExitRoot.BlockID = blockID; globalExitRoot.NetworkID = s.networkID. *)
Definition place_ger (blockID : Z) (g : GlobalExitRoot) : GlobalExitRoot :=
  mkGlobalExitRoot blockID (g_BlockNumber g) (g_ExitRoots g) (g_GlobalExitRoot g) networkID (g_ID g).

Definition processGlobalExitRoot (globalExitRoot : GlobalExitRoot) (blockID : Z) (tx : dbTx) : SM unit :=
  let globalExitRoot := place_ger blockID globalExitRoot in
  if decide (length (g_ExitRoots globalExitRoot) = 2%nat) then
    gers ← attempt (on_db (GetL2ExitRootsByGER (g_GlobalExitRoot globalExitRoot) NoTx));
    gers ← match gers with
           | inr gers => mret gers
           | inl e => if errors_Is e ErrStorageNotFound then mret [] else rollback e tx
           end;
    forM_ gers (λ ger, or_rollback tx (on_db (UpdateL2GER (set_g_ExitRoots (g_ExitRoots globalExitRoot) ger) tx)));;
    or_rollback tx (on_db (AddGlobalExitRoot globalExitRoot tx))
  else if decide (length (g_ExitRoots globalExitRoot) = 0%nat) then
    ger ← attempt (on_db (GetL1ExitRootByGER (g_GlobalExitRoot globalExitRoot) NoTx));
    globalExitRoot ← match ger with
                     | inr ger => mret (set_g_ExitRoots (g_ExitRoots ger) globalExitRoot)
                     | inl e => if errors_Is e ErrStorageNotFound then mret globalExitRoot else rollback e tx
                     end;
    or_rollback tx (on_db (AddGlobalExitRoot globalExitRoot tx))
  else throw (Errorf "networkID: %d, error exitRoots have a wrong length. Length: %d").

Definition set_d_Id (id : Z) (d : Deposit) : Deposit :=
  mkDeposit id (d_LeafType d) (d_OriginalNetwork d) (d_OriginalAddress d) (d_Amount d)
    (d_DestinationNetwork d) (d_DestinationAddress d) (d_DepositCount d) (d_BlockID d)
    (d_BlockNumber d) (d_NetworkID d) (d_TxHash d) (d_Metadata d) (d_ReadyForClaim d).

Definition place_deposit (blockID : Z) (d : Deposit) : Deposit :=
  mkDeposit (d_Id d) (d_LeafType d) (d_OriginalNetwork d) (d_OriginalAddress d) (d_Amount d)
    (d_DestinationNetwork d) (d_DestinationAddress d) (d_DepositCount d) blockID
    (d_BlockNumber d) networkID (d_TxHash d) (d_Metadata d) (d_ReadyForClaim d).

(** AddDeposit on the storage, then on the tree: also the body of the loop of
    [processForwardLETSovereign]. *)
Definition storeDeposit (deposit : Deposit) (tx : dbTx) : SM unit :=
  depositID ← or_rollback tx (on_db (Storage.AddDeposit deposit tx));
  or_rollback tx (on_ctrl (BridgeCtrl.AddDeposit (set_d_Id depositID deposit) tx)).

Definition processDeposit (deposit : Deposit) (blockID : Z) (tx : dbTx) : SM unit :=
  storeDeposit (place_deposit blockID deposit) tx.

Definition processClaim (claim : Claim) (blockID : Z) (tx : dbTx) : SM unit :=
  or_rollback tx (on_db (AddClaim
    (mkClaim (c_MainnetFlag claim) (c_RollupIndex claim) (c_Index claim) (c_OriginalNetwork claim)
       (c_OriginalAddress claim) (c_Amount claim) (c_DestinationAddress claim) blockID
       (c_BlockNumber claim) networkID (c_TxHash claim) (c_GlobalIndex claim)) tx)).

Definition processTokenWrapped (tokenWrapped : TokenWrapped) (blockID : Z) (tx : dbTx) : SM unit :=
  or_rollback tx (on_db (AddTokenWrapped
    (mkTokenWrapped (t_TokenMetadata tokenWrapped) (t_OriginalNetwork tokenWrapped)
       (t_OriginalTokenAddress tokenWrapped) (t_WrappedTokenAddress tokenWrapped) blockID
       (t_BlockNumber tokenWrapped) networkID) tx)).

Definition processRemoveL2GlobalExitRoot (ger : GlobalExitRoot) (blockID : Z) (tx : dbTx) : SM unit :=
  or_rollback tx (on_db (AddRemoveL2GER (place_ger blockID ger) tx)).

(** The deposit count and the root before and after an update of the local exit tree,
    against what the event says. *)
Definition checkLET (blockNumber : Z) (root : Hash) (count : Z) (msg : string) (tx : dbTx) : SM unit :=
  depositCnt ← or_rollback tx (on_db (GetNumberDeposits networkID blockNumber tx));
  localExitTreeRoot ← or_rollback tx (on_ctrl (GetExitRoot networkID tx));
  if decide (localExitTreeRoot ≠ root ∨ depositCnt ≠ count) then rollback (Errorf msg) tx else mret tt.

Definition processBackwardLETSovereign (backwardLET : BackwardLET) (blockID blockNumber : Z) (tx : dbTx) : SM unit :=
  let backwardLET := mkBackwardLET blockID (bl_PreviousDepositCount backwardLET) (bl_PreviousRoot backwardLET)
                       (bl_NewDepositCount backwardLET) (bl_NewRoot backwardLET) in
  checkLET blockNumber (bl_PreviousRoot backwardLET) (bl_PreviousDepositCount backwardLET)
    "networkID: %d, error processing BackwardLET. PreviousRoot or PreviousDepositCount do not match" tx;;
  or_rollback tx (on_db (ResetDeposits (bl_NewDepositCount backwardLET) networkID tx));;
  or_rollback tx (on_ctrl (ReorgMT (bl_NewDepositCount backwardLET) networkID tx));;
  checkLET blockNumber (bl_NewRoot backwardLET) (bl_NewDepositCount backwardLET)
    "networkID: %d, error processing BackwardLET. NewRoot or NewDepositCount do not match" tx;;
  or_rollback tx (on_db (AddBackwardLET backwardLET tx)).

Definition deposit_of_leaf (forwardLET : ForwardLET) (blockNumber initialDepositCount : Z) (i : nat)
    (l : LeafData) : Deposit :=
  mkDeposit 0 (l_LeafType l) (l_OriginNetwork l) (l_OriginAddress l) (l_Amount l) (l_DestinationNetwork l)
    (l_DestinationAddress l) (u32 (initialDepositCount + u32 (Z.of_nat i))) (fl_BlockID forwardLET)
    blockNumber networkID (fl_TxHash forwardLET) (l_Metadata l) false.

Definition processForwardLETSovereign (forwardLET : ForwardLET) (blockID blockNumber : Z) (tx : dbTx) : SM unit :=
  let forwardLET := mkForwardLET blockID (fl_PreviousDepositCount forwardLET) (fl_PreviousRoot forwardLET)
                      (fl_NewDepositCount forwardLET) (fl_NewRoot forwardLET) (fl_NewRawLeaves forwardLET)
                      (fl_NewLeaves forwardLET) (fl_TxHash forwardLET) in
  checkLET blockNumber (fl_PreviousRoot forwardLET) (fl_PreviousDepositCount forwardLET)
    "networkID: %d, error processing forwardLET. PreviousRoot or PreviousDepositCount do not match" tx;;
  initialDepositCount ← or_rollback tx (on_db (GetNumberDeposits networkID blockNumber tx));
  forM_ (imap (deposit_of_leaf forwardLET blockNumber initialDepositCount) (fl_NewLeaves forwardLET))
    (λ deposit, storeDeposit deposit tx);;
  checkLET blockNumber (fl_NewRoot forwardLET) (fl_NewDepositCount forwardLET)
    "networkID: %d, error processing forwardLET. NewRoot or NewDepositCount do not match" tx;;
  or_rollback tx (on_db (AddForwardLET forwardLET tx)).

Definition processUnsetClaimSovereign (unsetClaim : UnsetClaim) (blockID blockNumber : Z) (tx : dbTx) : SM unit :=
  let unsetClaim := mkUnsetClaim blockID (uc_MainnetFlag unsetClaim) (uc_RollupIndex unsetClaim)
                      (uc_Index unsetClaim) (uc_GlobalIndex unsetClaim) in
  or_rollback tx (on_db (AddUnsetClaim unsetClaim tx));;
  or_rollback tx (on_db (DeleteClaimByGlobalIndex (uc_GlobalIndex unsetClaim) networkID tx)).

Definition processSetClaimSovereign (setClaim : SetClaim) (blockID blockNumber : Z) (tx : dbTx) : SM unit :=
  let setClaim := mkSetClaim blockID (sc_MainnetFlag setClaim) (sc_RollupIndex setClaim) (sc_Index setClaim)
                    (sc_GlobalIndex setClaim) (sc_TxHash setClaim) in
  or_rollback tx (on_db (AddSetClaim setClaim tx));;
  let depositNetwork := if sc_MainnetFlag setClaim then 0 else u32 (sc_RollupIndex setClaim + 1) in
  deposit ← or_rollback tx (on_db (GetDeposit (sc_Index setClaim) depositNetwork tx));
  if decide (networkID ≠ d_DestinationNetwork deposit)
  then rollback (Errorf "networkID: %d, error processing SetClaim. Deposit destination network (%d) does not match") tx
  else
  let claim := mkClaim (sc_MainnetFlag setClaim) (sc_RollupIndex setClaim) (sc_Index setClaim)
                 (d_OriginalNetwork deposit) (d_OriginalAddress deposit) (d_Amount deposit)
                 (d_DestinationAddress deposit) (sc_BlockID setClaim) blockNumber networkID
                 (sc_TxHash setClaim) (pretty (sc_GlobalIndex setClaim)) in
  or_rollback tx (on_db (AddClaim claim tx)).

(** ** Blocks *)

(** [if len(l) < element.Pos+1 { return fmt.Errorf(...) }], without a rollback, then
    [l[element.Pos]]. *)
Definition event_at {A} (l : list A) (pos : Z) : SM A :=
  if decide (Z.of_nat (length l) < pos + 1)
  then throw (Errorf "invalid data received from the RPC. Probably, messy events were received from the RPC")
  else lift (at_index l pos).

(** The flags isNewL1Ger and isNewL2Ger after the event. *)
Definition ger_flags (flags : bool * bool) (g : GlobalExitRoot) : bool * bool :=
  if decide (length (g_ExitRoots g) = 2%nat) then (true, flags.2)
  else if decide (length (g_ExitRoots g) = 0%nat) then (flags.1, true)
  else flags.

Definition processOrder (block : Block) (blockID : Z) (tx : dbTx) (flags : bool * bool) (element : Order)
    : SM (bool * bool) :=
  match o_Name element with
  | GlobalExitRootsOrder =>
      g ← event_at (b_GlobalExitRoots block) (o_Pos element);
      processGlobalExitRoot g blockID tx;; mret (ger_flags flags g)
  | RemoveL2GEROrder =>
      g ← event_at (b_RemoveL2GER block) (o_Pos element);
      processRemoveL2GlobalExitRoot g blockID tx;; mret flags
  | DepositsOrder =>
      d ← event_at (b_Deposits block) (o_Pos element);
      processDeposit d blockID tx;; mret flags
  | ClaimsOrder =>
      c ← event_at (b_Claims block) (o_Pos element);
      processClaim c blockID tx;; mret flags
  | TokensOrder =>
      t ← event_at (b_Tokens block) (o_Pos element);
      processTokenWrapped t blockID tx;; mret flags
  | VerifyBatchOrder =>
      v ← event_at (b_VerifiedBatches block) (o_Pos element);
      processVerifyBatch v blockID tx;; mret flags
  | BackwardLETOrder =>
      l ← event_at (b_BackwardLETs block) (o_Pos element);
      processBackwardLETSovereign l blockID (b_BlockNumber block) tx;; mret flags
  | UnsetClaimOrder =>
      u ← event_at (b_UnsetClaims block) (o_Pos element);
      processUnsetClaimSovereign u blockID (b_BlockNumber block) tx;; mret flags
  | SetClaimOrder =>
      c ← event_at (b_SetClaims block) (o_Pos element);
      processSetClaimSovereign c blockID (b_BlockNumber block) tx;; mret flags
  | ForwardLETOrder =>
      l ← event_at (b_ForwardLETs block) (o_Pos element);
      processForwardLETSovereign l blockID (b_BlockNumber block) tx;; mret flags
  end.

Fixpoint processOrders (block : Block) (blockID : Z) (tx : dbTx) (flags : bool * bool) (elements : list Order)
    : SM (bool * bool) :=
  match elements with
  | [] => mret flags
  | element :: elements =>
      flags ← processOrder block blockID tx flags element;
      processOrders block blockID tx flags elements
  end.

Definition set_b_NetworkID (n : Z) (b : Block) : Block :=
  mkBlock (b_ID b) (b_BlockNumber b) (b_BlockHash b) n (b_GlobalExitRoots b) (b_RemoveL2GER b) (b_Deposits b)
    (b_Claims b) (b_Tokens b) (b_VerifiedBatches b) (b_UnsetClaims b) (b_SetClaims b) (b_BackwardLETs b)
    (b_ForwardLETs b).

(** One turn of the loop of [processBlockRange]: one block, one transaction. *)
Definition processBlock (order : gmap Hash (list Order)) (flags : bool * bool) (block : Block)
    : SM (bool * bool) :=
  tx ← on_db BeginDBTransaction;
  let block := set_b_NetworkID networkID block in
  blockID ← or_rollback tx (on_db (AddBlock block tx));
  flags ← processOrders block blockID tx flags (default [] (order !! b_BlockHash block));
  or_rollback tx (on_db (Commit tx));;
  mret flags.

Fixpoint processBlocks (order : gmap Hash (list Order)) (flags : bool * bool) (blocks : list Block)
    : SM (bool * bool) :=
  match blocks with
  | [] => mret flags
  | block :: blocks =>
      flags ← processBlock order flags block;
      processBlocks order flags blocks
  end.

(** Tell the claim transaction managers about the new exit roots. *)
Definition notifyL1 : SM unit :=
  ger ← on_db (GetLatestL1SyncedExitRoot NoTx);
  root ← lift (at_index (g_ExitRoots ger) 1);
  y ← get;
  if decide (y_l1RollupExitRoot y ≠ root) then modify (send_L1 root ger) else mret tt.

Definition notifyL2 : SM unit :=
  r ← attempt (on_db (GetLatestTrustedExitRoot networkID NoTx));
  match r with
  | inr ger => modify (send_L2 ger)
  | inl e => if errors_Is e ErrL1GERNotFound then mret tt else throw e
  end.

Definition processBlockRange (blocks : list Block) (order : gmap Hash (list Order)) : SM unit :=
  '(isNewL1Ger, isNewL2Ger) ← processBlocks order (false, false) blocks;
  (if isNewL1Ger : bool then notifyL1 else mret tt);;
  (if isNewL2Ger : bool then notifyL2 else mret tt).

(** ** Reorganisations *)

Definition resetState (blockNumber : Z) : SM unit :=
  tx ← on_db BeginDBTransaction;
  or_rollback tx (on_db (Reset blockNumber networkID tx));;
  depositCnt ← or_rollback tx (on_db (GetNumberDeposits networkID blockNumber tx));
  or_rollback tx (on_ctrl (ReorgMT depositCnt networkID tx));;
  or_rollback tx (on_db (Commit tx)).

(** The block of the chain to compare with: the one received, or the header. *)
Definition chainBlock (reorgedBlock : Block) (block : option Block) : SM Block :=
  match block with
  | Some b => mret b
  | None =>
      hd ← on_world (HeaderByNumber (Some (b_BlockNumber reorgedBlock)));
      if decide (hd_Number hd ≠ b_BlockNumber reorgedBlock)
      then throw (Errorf "networkID: %d, wrong ethereum block retrieved from blockchain. Block numbers don't match")
      else mret (emptyBlock (hd_Number hd) (hd_Hash hd))
  end.

(** [inl b]: the early return of the genesis block; [inr b]: the loop ended with
    reorgedBlock = b. *)
Fixpoint checkReorg_loop (n : nat) (reorgedBlock : Block) (depth : Z) (block : option Block) : SM (Block + Block) :=
  match n with
  | O => λ y, (OutOfFuel, y)
  | S n =>
      b ← chainBlock reorgedBlock block;
      if decide (b_BlockHash b ≠ b_BlockHash reorgedBlock ∧ cf_genBlockNumber cfg < b_BlockNumber reorgedBlock) then
        let depth := u64 (depth + 1) in
        lb ← attempt (on_db (GetPreviousBlock networkID depth NoTx));
        match lb with
        | inl e => if errors_Is e ErrStorageNotFound then mret (inl (emptyBlock (cf_genBlockNumber cfg) 0)) else throw e
        | inr lb => checkReorg_loop n lb depth None
        end
      else mret (inr reorgedBlock)
  end.

Definition checkReorg (latestStoredBlock : Block) (syncedBlock : option Block) : SM (option Block) :=
  r ← checkReorg_loop fuel latestStoredBlock 0 syncedBlock;
  match r with
  | inl genesis => mret (Some genesis)
  | inr reorgedBlock =>
      if decide (b_BlockHash latestStoredBlock ≠ b_BlockHash reorgedBlock) then mret (Some reorgedBlock)
      else mret None
  end.

(** ** Following the chain *)

(** err = s.storage.AddSyncStatus(...): an error is only logged. *)
Definition storeStatus (percentage remainingBlocks : Z) (synced : bool) : SM unit :=
  attempt (on_db (AddSyncStatus (mkSyncStatus networkID percentage remainingBlocks synced) NoTx));; mret tt.

(** [big.Int.Div]: Euclidean division, which panics when the divisor is zero. *)
Definition big_Div (x y : Z) : result Z :=
  if decide (y = 0) then Panic else Ok (Z.sgn y * (x / Z.abs y)).

(** The progress stored while the synchronization is behind; [Uint64] takes the low
    bits of the absolute value. *)
Definition syncProgress (initialRemainingBlocks lastKnownBlock toBlock : Z) : result (Z * Z) :=
  let remainingBlocks := lastKnownBlock - toBlock in
  percentage ← big_Div ((initialRemainingBlocks - remainingBlocks) * 100) initialRemainingBlocks;
  Ok (u32 (u64 (Z.abs percentage)), u64 (Z.abs remainingBlocks)).

Definition removeBlockElement (slice : list Block) (s : nat) : list Block :=
  take s slice ++ drop (S s) slice.

(** The variables of the loop of [syncBlocks]. *)
Record SyncLoop := mkSyncLoop {
  lp_fromBlock : Z;
  lp_toBlock : Z;
  lp_lastKnownBlock : Z;
  lp_lastBlockSynced : Block
}.

(** The top of the loop: the end of the range against the last known block. *)
Definition clampRange (lp : SyncLoop) : SM SyncLoop :=
  if decide (lp_lastKnownBlock lp < lp_toBlock lp) then
    header ← on_world (HeaderByNumber None);
    let known := hd_Number header in
    if decide (known < lp_toBlock lp) then
      y ← get;
      if y_synced y then mret (mkSyncLoop (lp_fromBlock lp) known known (lp_lastBlockSynced lp))
      else
        let from := if cf_forceSyncChunk cfg then lp_fromBlock lp else b_BlockNumber (lp_lastBlockSynced lp) in
        modify mark_synced;; storeStatus 100 0 true;;
        mret (mkSyncLoop from known known (lp_lastBlockSynced lp))
    else mret (mkSyncLoop (lp_fromBlock lp) (lp_toBlock lp) known (lp_lastBlockSynced lp))
  else mret lp.

(** The reset after a reorganisation; its error is replaced. *)
Definition resetTo (b : Block) : SM Block :=
  r ← attempt (resetState (b_BlockNumber b));
  match r with
  | inl _ => throw (Errorf "error resetting the state to a previous block")
  | inr _ => mret b
  end.

(** The checks of a synced node on the blocks received: [inl b] returns from
    [syncBlocks] with b, [inr blocks] are the blocks left to store. *)
Definition checkReceived (lp : SyncLoop) (blocks : list Block) : SM (Block + list Block) :=
  y ← get;
  if negb (y_synced y) then mret (inr blocks) else
  if decide (blocks = [] ∧ cf_forceSyncChunk cfg = false) then
    prev ← attempt (on_db (GetPreviousBlock networkID 1 NoTx));
    prevBlock ← match prev with
                | inr b => mret b
                | inl e => if errors_Is e ErrStorageNotFound then mret (emptyBlock 0 0) else throw e
                end;
    blockReorged ← checkReorg prevBlock None;
    b ← resetTo (default prevBlock blockReorged);
    mret (inl b)
  else
    let initBlockReceived := if cf_forceSyncChunk cfg then None else head blocks in
    let blocks := if cf_forceSyncChunk cfg then blocks else removeBlockElement blocks 0 in
    r ← attempt (checkReorg (lp_lastBlockSynced lp) initBlockReceived);
    match r with
    | inl _ => throw (Errorf "networkID: %d, error checking reorgs")
    | inr (Some block) => b ← resetTo block; mret (inl b)
    | inr None => mret (inr blocks)
    end.

(** The bottom of the loop: stop, or the next range. *)
Definition nextRange (lp : SyncLoop) : SM (SyncLoop + Block) :=
  y ← get;
  if decide (lp_lastKnownBlock lp ≤ lp_toBlock lp) then
    (if y_synced y then mret tt else modify mark_synced;; storeStatus 100 0 true);;
    mret (inr (lp_lastBlockSynced lp))
  else
    let lp' :=
      if negb (y_synced y) || cf_forceSyncChunk cfg then
        let from := u64 (lp_toBlock lp + 1) in
        mkSyncLoop from (u64 (from + cf_SyncChunkSize cfg)) (lp_lastKnownBlock lp) (lp_lastBlockSynced lp)
      else
        mkSyncLoop (b_BlockNumber (lp_lastBlockSynced lp)) (u64 (lp_toBlock lp + cf_SyncChunkSize cfg))
          (lp_lastKnownBlock lp) (lp_lastBlockSynced lp) in
    (if y_synced y then mret tt
     else p ← lift (syncProgress (y_initialRemainingBlocks y) (lp_lastKnownBlock lp) (lp_toBlock lp));
          storeStatus p.1 p.2 false);;
    mret (inl lp').

Definition syncBlocks_step (lp : SyncLoop) : SM (SyncLoop + Block) :=
  lp ← clampRange lp;
  if decide (lp_toBlock lp < lp_fromBlock lp) then mret (inr (lp_lastBlockSynced lp)) else
  '(blocks, order) ← on_world (GetRollupInfoByBlockRange (lp_fromBlock lp) (lp_toBlock lp));
  blocks ← (if decide (lp_fromBlock lp = cf_genBlockNumber cfg ∧ cf_forceSyncChunk cfg = false) then
              mret (match blocks with
                    | b :: _ => if decide (b_BlockNumber b ≠ cf_genBlockNumber cfg) then emptyBlock 0 0 :: blocks else blocks
                    | [] => [emptyBlock 0 0]
                    end)
            else if decide (lp_fromBlock lp < cf_genBlockNumber cfg)
            then throw (Errorf "networkID: %d. fromBlock %d is lower than the genesisBlockNumber %d")
            else mret blocks);
  received ← checkReceived lp blocks;
  match received with
  | inl b => mret (inr b)
  | inr blocks =>
      processBlockRange blocks order;;
      lastBlockSynced ←
        (if cf_forceSyncChunk cfg then
           fb ← on_world (HeaderByNumber (Some (lp_toBlock lp)));
           mret (emptyBlock (hd_Number fb) (hd_Hash fb))
         else mret (default (lp_lastBlockSynced lp) (set_b_NetworkID networkID <$> last blocks)));
      nextRange (mkSyncLoop (lp_fromBlock lp) (lp_toBlock lp) (lp_lastKnownBlock lp) lastBlockSynced)
  end.

Fixpoint syncBlocks_loop (n : nat) (lp : SyncLoop) : SM Block :=
  match n with
  | O => λ y, (OutOfFuel, y)
  | S n =>
      r ← syncBlocks_step lp;
      match r with
      | inl lp => syncBlocks_loop n lp
      | inr b => mret b
      end
  end.

(** The block that goes with an error is not returned: [Sync] reads the last block
    from the storage then. *)
Definition syncBlocks (lastBlockSynced : Block) : SM Block :=
  header ← on_world (HeaderByNumber None);
  r ← attempt (checkReorg lastBlockSynced None);
  match r with
  | inl _ => throw (Errorf "networkID: %d, error checking reorgs")
  | inr (Some block) => resetTo block
  | inr None =>
      y ← get;
      let fromBlock := if y_synced y && negb (cf_forceSyncChunk cfg) then b_BlockNumber lastBlockSynced
                       else u64 (b_BlockNumber lastBlockSynced + 1) in
      syncBlocks_loop fuel
        (mkSyncLoop fromBlock (u64 (fromBlock + cf_SyncChunkSize cfg)) (hd_Number header) lastBlockSynced)
  end.

Definition syncTrustedState : SM unit :=
  lastGER ← on_world GetLatestGlobalExitRoot;
  if decide (lastGER = 0) then mret tt else
  exitRoots ← on_world (ExitRootsByGER lastGER);
  match exitRoots with
  | None => mret tt
  | Some (mainnet, rollup) =>
      let ger := mkGlobalExitRoot 0 0 [mainnet; rollup] lastGER networkID 0 in
      isUpdated ← on_db (AddTrustedGlobalExitRoot ger NoTx);
      if isUpdated : bool then modify (send_L2 ger) else mret tt
  end.

Definition genesisBlock : Block := set_b_NetworkID networkID (emptyBlock (cf_genBlockNumber cfg) 0).

(** GetLastBlock, or the genesis block when there is none. *)
Definition lastBlockOrGenesis : SM Block :=
  r ← attempt (on_db (GetLastBlock networkID NoTx));
  match r with
  | inr b => mret b
  | inl e => if decide (e = ErrStorageNotFound) then mret genesisBlock else throw e
  end.

(** One turn of the loop of [Sync]; it returns the block to go on from. *)
Definition Sync_iteration (lastBlockSynced : Block) : SM Block :=
  r ← attempt (syncBlocks lastBlockSynced);
  lastBlockSynced ← match r with inr b => mret b | inl _ => lastBlockOrGenesis end;
  y ← get;
  if negb (y_synced y) then
    header ← attempt (on_world (HeaderByNumber None));
    match header with
    | inl _ => mret lastBlockSynced
    | inr header =>
        (if decide (b_BlockNumber lastBlockSynced = hd_Number header) then modify mark_synced else mret tt);;
        if decide (hd_Number header < b_BlockNumber lastBlockSynced) then
          if decide (networkID = 0)
          then throw (Errorf "networkID: %d, error: latest Synced BlockNumber (%d) is higher than the latest Proposed block (%d) in the network")
          else attempt (resetState (hd_Number header));; mret lastBlockSynced
        else mret lastBlockSynced
    end
  else if decide (networkID = 0 ∨ cf_sovereignChain cfg = true) then mret lastBlockSynced
  else attempt syncTrustedState;; mret lastBlockSynced.

Fixpoint Sync_loop (n : nat) (lastBlockSynced : Block) : SM unit :=
  match n with
  | O => mret tt
  | S n => b ← Sync_iteration lastBlockSynced; Sync_loop n b
  end.

(** [Sync] until the context ends after [n] turns of its loop. *)
Definition Sync (n : nat) : SM unit :=
  lastBlockSynced ← lastBlockOrGenesis;
  header ← on_world (HeaderByNumber None);
  let remainingBlocks := u64 (hd_Number header - b_BlockNumber lastBlockSynced) in
  on_db (AddSyncStatus (mkSyncStatus networkID 0 remainingBlocks false) NoTx);;
  modify (put_initialRemainingBlocks remainingBlocks);;
  Sync_loop n lastBlockSynced.

End Synchronizer.

(** [NewSynchronizer]: the exit root the L1 synchronizer starts from is read from the
    storage; on another network the roots are read as well and dropped. *)
Definition NewSynchronizer {W : Type} (networkID : Z) (world : W) (ctrl : BridgeController) : M DB (SyncState W) :=
  r ← attempt (GetLatestL1SyncedExitRoot NoTx);
  roots ← match r with
          | inr ger => mret (g_ExitRoots ger)
          | inl e => if decide (e = ErrStorageNotFound) then mret [0; 0] else throw e
          end;
  root ← lift (if decide (networkID = 0) then at_index roots 1 else Ok 0);
  db ← get;
  mret (mkSyncState world db ctrl false root 0 0 [] [] []).
