(* ===== verification/Invariants.v ===== *)
(** * Invariants of computations

    [keeps I c]: whatever the outcome of [c], the state satisfies [I] afterwards when
    it did before.  The hint database [bridge] knows the combinators, so that an
    invariant of a method follows from the invariants of the statements it runs. *)
From S2P Require Import Prelude.

Definition keeps {S A} (I : S → Prop) (c : M S A) : Prop := ∀ s, I s → I (snd (c s)).

Section Keeps.
Context {S : Type} (I : S → Prop).

Lemma keeps_mret {A} (a : A) : keeps I (mret a).
Proof. intros s Hs. done. Qed.
Lemma keeps_throw {A} e : keeps I (throw (A := A) e).
Proof. intros s Hs. done. Qed.
Lemma keeps_lift {A} (r : result A) : keeps I (lift r).
Proof. intros s Hs. done. Qed.
Lemma keeps_get : keeps I get.
Proof. intros s Hs. done. Qed.
Lemma keeps_gets {A} (f : S → A) : keeps I (gets f).
Proof. intros s Hs. done. Qed.
Lemma keeps_fuel {A} : keeps I (λ s, (OutOfFuel (A := A), s)).
Proof. intros s Hs. done. Qed.
Lemma keeps_modify f : (∀ s, I s → I (f s)) → keeps I (modify f).
Proof. intros Hf s Hs. by apply Hf. Qed.

Lemma keeps_bind {A B} (m : M S A) (f : A → M S B) :
  keeps I m → (∀ a, keeps I (f a)) → keeps I (m ≫= f).
Proof.
  intros Hm Hf s Hs. specialize (Hm s Hs). unfold mbind, M_bind.
  destruct (m s) as [[a|e| |] s'] eqn:E; simpl in *; [by apply Hf|done..].
Qed.

Lemma keeps_attempt {A} (m : M S A) : keeps I m → keeps I (attempt m).
Proof.
  intros Hm s Hs. specialize (Hm s Hs). unfold attempt. by destruct (m s) as [[] s'].
Qed.

Lemma keeps_forM {A} (l : list A) body : (∀ a, keeps I (body a)) → keeps I (forM_ l body).
Proof. intros Hb. induction l as [|x l IH]; [apply keeps_mret|]. apply keeps_bind; auto. Qed.

End Keeps.

Lemma keeps_zoom {W S A} (I : W → Prop) (J : S → Prop) g p (c : M S A) :
  (∀ w, I w → J (g w)) → (∀ w s, I w → J s → I (p s w)) → keeps J c → keeps I (zoom g p c).
Proof.
  intros Hg Hp Hc w Hw. unfold zoom. specialize (Hc (g w) (Hg w Hw)).
  destruct (c (g w)) as [r s']. simpl in *. by apply Hp.
Qed.

#[export] Hint Resolve keeps_mret keeps_throw keeps_lift keeps_get keeps_gets keeps_fuel keeps_attempt
  keeps_forM : bridge.

(** Decompose a computation along its binds, conditionals and matches. *)
Ltac keeps_step :=
  match goal with
  | |- ∀ _, _ => intro
  | |- keeps _ (_ ≫= _) => apply keeps_bind
  | |- keeps _ (attempt _) => apply keeps_attempt
  | |- keeps _ (forM_ _ _) => apply keeps_forM
  | |- keeps _ (if _ then _ else _) => case_match
  | |- keeps _ (match _ with _ => _ end) => case_match
  | |- keeps _ (let '(_, _) := ?x in _) => destruct x
  | _ => progress eauto 6 with bridge
  end.
Ltac keeps_auto := repeat keeps_step.

(** [keeps_err I c]: the same when [c] does not return a value. *)
Definition keeps_err {S A} (I : S → Prop) (c : M S A) : Prop :=
  ∀ s, I s → (∀ a, fst (c s) ≠ Ok a) → I (snd (c s)).

Lemma keeps_keeps_err {S A} (I : S → Prop) (c : M S A) : keeps I c → keeps_err I c.
Proof. intros Hc s Hs _. by apply Hc. Qed.

Lemma keeps_err_bind {S A B} (I : S → Prop) (m : M S A) (f : A → M S B) :
  keeps I m → (∀ a, keeps_err I (f a)) → keeps_err I (m ≫= f).
Proof.
  intros Hm Hf s Hs. specialize (Hm s Hs). unfold mbind, M_bind.
  destruct (m s) as [[a|e| |] s'] eqn:E; simpl in *; [by apply Hf|done..].
Qed.

Lemma keeps_err_ret {S A B} (I : S → Prop) (m : M S A) (b : A → B) :
  keeps_err I m → keeps_err I (m ≫= λ a, mret (b a)).
Proof.
  intros Hm s Hs. specialize (Hm s Hs). unfold mbind, M_bind.
  destruct (m s) as [[a|e| |] s'] eqn:E; simpl in *; intros Hn; [by destruct (Hn (b a))|apply Hm; congruence..].
Qed.

(** [hoare P c Q R]: from a state in [P], a value is returned in a state of [Q], and every
    other outcome leaves a state of [R]. *)
Definition hoare {S A} (P : S → Prop) (c : M S A) (Q : A → S → Prop) (R : S → Prop) : Prop :=
  ∀ s, P s → match c s with (Ok a, s') => Q a s' | (_, s') => R s' end.

Section Hoare.
Context {S : Type} (R : S → Prop).

Lemma hoare_ret {A} (P : S → Prop) (a : A) (Q : A → S → Prop) : (∀ s, P s → Q a s) → hoare P (mret a) Q R.
Proof. intros HQ s Hs. by apply HQ. Qed.

Lemma hoare_throw {A} (P : S → Prop) e (Q : A → S → Prop) : (∀ s, P s → R s) → hoare P (throw e) Q R.
Proof. intros HR s Hs. by apply HR. Qed.

Lemma hoare_lift_Ok {A} (a : A) (P : S → Prop) : hoare P (lift (Ok a)) (λ b s, b = a ∧ P s) R.
Proof. intros s Hs. done. Qed.

Lemma hoare_bind {A B} (P : S → Prop) (m : M S A) (f : A → M S B) Q1 Q :
  hoare P m Q1 R → (∀ a, hoare (Q1 a) (f a) Q R) → hoare P (m ≫= f) Q R.
Proof.
  intros Hm Hf s Hs. specialize (Hm s Hs). unfold mbind, M_bind.
  destruct (m s) as [[a|e| |] s'] eqn:E; [by apply Hf|done..].
Qed.

Lemma hoare_conseq {A} (P P' : S → Prop) (c : M S A) (Q Q' : A → S → Prop) :
  hoare P c Q R → (∀ s, P' s → P s) → (∀ a s, Q a s → Q' a s) → hoare P' c Q' R.
Proof. intros Hc HP HQ s Hs. specialize (Hc s (HP s Hs)). destruct (c s) as [[] ?]; auto. Qed.

Lemma hoare_pure {A} (φ : Prop) (P : S → Prop) (c : M S A) Q :
  (φ → hoare P c Q R) → hoare (λ s, φ ∧ P s) c Q R.
Proof. intros Hc s [Hφ Hs]. by apply Hc. Qed.

(** An invariant that implies [R]. *)
Lemma hoare_keeps {A} (I : S → Prop) (c : M S A) : keeps I c → (∀ s, I s → R s) → hoare I c (λ _, I) R.
Proof. intros Hc HR s Hs. specialize (Hc s Hs). destruct (c s) as [[] ?]; simpl in *; auto. Qed.

(** With [attempt] an error is a value; [Q] must hold in both cases. *)
Lemma hoare_attempt {A} (P : S → Prop) (c : M S A) (Q : error + A → S → Prop) :
  (∀ s, P s → match c s with (Ok a, s') => Q (inr a) s' | (Err e, s') => Q (inl e) s' | (_, s') => R s' end) →
  hoare P (attempt c) Q R.
Proof. intros Hc s Hs. specialize (Hc s Hs). unfold attempt. by destruct (c s) as [[] ?]. Qed.

Lemma hoare_forM {A} (I : S → Prop) (l : list A) body :
  (∀ a, a ∈ l → hoare I (body a) (λ _, I) R) → hoare I (forM_ l body) (λ _, I) R.
Proof.
  induction l as [|x l IH]; intros Hb; [by apply hoare_ret|]. cbn [forM_].
  apply hoare_bind with (λ _, I); [apply Hb; left|]. intros _. apply IH. intros a Ha. apply Hb. by right.
Qed.

End Hoare.

Lemma hoare_weaken {S A} (R R' : S → Prop) (P : S → Prop) (c : M S A) Q :
  hoare P c Q R → (∀ s, R s → R' s) → hoare P c Q R'.
Proof. intros Hc HR s Hs. specialize (Hc s Hs). destruct (c s) as [[] ?]; auto. Qed.
