(* ===== verification/StorageFacts.v ===== *)
(** * Facts about the storage

    Isolation: a method that runs in a transaction leaves the committed tables alone,
    whatever failures are scheduled; a query outside of it changes nothing. *)
From S2P Require Import Prelude Types ClaimTypes Schema Storage Invariants.

(** The committed tables are [c0]; with [nf] no failure is scheduled. *)
Definition isolated (c0 : Tables) (nf : bool) (db : DB) : Prop :=
  db_committed db = c0 ∧ (nf = true → db_faults db = []).

Section Isolation.
Context (c0 : Tables) (nf : bool).

Lemma isolated_next db : isolated c0 nf db → isolated c0 nf (snd (next_fault db)).
Proof.
  intros [Hc Hf]. unfold next_fault. destruct (db_faults db) eqn:E; [done|].
  split; [done|]. intros Hnf. specialize (Hf Hnf). congruence.
Qed.

Lemma next_fault_parts db b db1 :
  next_fault db = (b, db1) → db_committed db1 = db_committed db ∧ db_tx db1 = db_tx db ∧ db_seqs db1 = db_seqs db.
Proof. unfold next_fault. destruct (db_faults db); intros; by simplify_eq. Qed.

Lemma keeps_run_tx {A} (q : stmt A) : keeps (isolated c0 nf) (run InTx q).
Proof.
  intros db Hdb%isolated_next. unfold run. destruct (next_fault db) as [b db1]. simpl in Hdb.
  destruct Hdb as [Hc Hf]. destruct b; [done|].
  destruct (db_tx db1) as [[t|]|]; [|done..]. destruct (q t (db_seqs db1)) as [[e|[a t']] s]; done.
Qed.

Lemma keeps_run_query {A} h (f : Tables → A) : keeps (isolated c0 nf) (run h (sql_query f)).
Proof.
  destruct h; [|apply keeps_run_tx]. intros db Hdb%isolated_next. unfold run.
  destruct (next_fault db) as [b db1]. simpl in Hdb. by destruct b.
Qed.

Lemma keeps_Rollback h : keeps (isolated c0 nf) (Rollback h).
Proof.
  intros db Hdb. destruct h; [done|]. apply isolated_next in Hdb. unfold Rollback.
  destruct (next_fault db) as [b db1]. simpl in Hdb. by destruct (db_tx db1), b.
Qed.

Lemma keeps_Begin : keeps (isolated c0 nf) BeginDBTransaction.
Proof.
  intros db Hdb%isolated_next. unfold BeginDBTransaction. destruct (next_fault db) as [[] db1]; done.
Qed.

(** A commit that does not succeed commits nothing. *)
Lemma Commit_fails h db r db' :
  Commit h db = (r, db') → r ≠ Ok tt → isolated c0 nf db → isolated c0 nf db'.
Proof.
  intros E Hr Hdb. destruct h; simpl in E; [by simplify_eq|]. apply isolated_next in Hdb.
  destruct (next_fault db) as [b db1]. simpl in Hdb.
  destruct (db_tx db1) as [[t|]|]; [destruct b|..]; simplify_eq; done.
Qed.

Hint Resolve keeps_run_tx keeps_run_query keeps_Rollback keeps_Begin : bridge.

Lemma keeps_bind_bigint v : keeps (isolated c0 nf) (bind_bigint v).
Proof. unfold bind_bigint. keeps_auto. Qed.
Hint Resolve keeps_bind_bigint : bridge.

Lemma keeps_GetPreviousBlock n o h : keeps (isolated c0 nf) (GetPreviousBlock n o h).
Proof. unfold GetPreviousBlock. keeps_auto. Qed.
Lemma keeps_GetLastBlock n h : keeps (isolated c0 nf) (GetLastBlock n h).
Proof. unfold GetLastBlock. keeps_auto. Qed.
Lemma keeps_AddBlock b : keeps (isolated c0 nf) (AddBlock b InTx).
Proof. apply keeps_run_tx. Qed.
Lemma keeps_Reset b n : keeps (isolated c0 nf) (Reset b n InTx).
Proof. apply keeps_run_tx. Qed.
Lemma keeps_AddDeposit d : keeps (isolated c0 nf) (AddDeposit d InTx).
Proof. apply keeps_run_tx. Qed.
Lemma keeps_GetDeposit a b h : keeps (isolated c0 nf) (GetDeposit a b h).
Proof. unfold GetDeposit. keeps_auto. Qed.
Lemma keeps_GetNumberDeposits a b h : keeps (isolated c0 nf) (GetNumberDeposits a b h).
Proof. unfold GetNumberDeposits. keeps_auto. Qed.
Lemma keeps_ResetDeposits a b : keeps (isolated c0 nf) (ResetDeposits a b InTx).
Proof. unfold ResetDeposits. keeps_auto. Qed.
Lemma keeps_AddClaim c : keeps (isolated c0 nf) (AddClaim c InTx).
Proof. apply keeps_run_tx. Qed.
Lemma keeps_DeleteClaim g n : keeps (isolated c0 nf) (DeleteClaimByGlobalIndex g n InTx).
Proof. apply keeps_run_tx. Qed.
Lemma keeps_AddGlobalExitRoot g : keeps (isolated c0 nf) (AddGlobalExitRoot g InTx).
Proof. unfold AddGlobalExitRoot. keeps_auto. Qed.
Lemma keeps_GetL2ExitRootsByGER g h : keeps (isolated c0 nf) (GetL2ExitRootsByGER g h).
Proof. unfold GetL2ExitRootsByGER. keeps_auto. Qed.
Lemma keeps_GetL1ExitRootByGER g h : keeps (isolated c0 nf) (GetL1ExitRootByGER g h).
Proof. unfold GetL1ExitRootByGER. keeps_auto. Qed.
Hint Resolve keeps_GetL1ExitRootByGER : bridge.
Lemma keeps_GetLatestL1SyncedExitRoot h : keeps (isolated c0 nf) (GetLatestL1SyncedExitRoot h).
Proof. unfold GetLatestL1SyncedExitRoot. keeps_auto. Qed.
Lemma keeps_GetLatestTrustedExitRoot n h : keeps (isolated c0 nf) (GetLatestTrustedExitRoot n h).
Proof. unfold GetLatestTrustedExitRoot. keeps_auto. Qed.
Lemma keeps_UpdateL2GER g : keeps (isolated c0 nf) (UpdateL2GER g InTx).
Proof. unfold UpdateL2GER. keeps_auto. Qed.
Lemma keeps_GetDepositCountByGER g n r h : keeps (isolated c0 nf) (GetDepositCountByGER g n r h).
Proof. unfold GetDepositCountByGER. keeps_auto. Qed.
Hint Resolve keeps_GetDepositCountByGER : bridge.
Lemma keeps_AddRemoveL2GER g : keeps (isolated c0 nf) (AddRemoveL2GER g InTx).
Proof. unfold AddRemoveL2GER, found_or. keeps_auto. Qed.
Lemma keeps_GetTokenMetadata a b c h : keeps (isolated c0 nf) (GetTokenMetadata a b c h).
Proof. unfold GetTokenMetadata. keeps_auto. Qed.
Hint Resolve keeps_GetTokenMetadata : bridge.
Lemma keeps_AddTokenWrapped `{AbiToken} t : keeps (isolated c0 nf) (AddTokenWrapped t InTx).
Proof. unfold AddTokenWrapped. keeps_auto. Qed.
Lemma keeps_CheckIfRootExists r n h : keeps (isolated c0 nf) (CheckIfRootExists r n h).
Proof. unfold CheckIfRootExists. keeps_auto. Qed.
Lemma keeps_GetRoot c n h : keeps (isolated c0 nf) (GetRoot c n h).
Proof. unfold GetRoot. keeps_auto. Qed.
Lemma keeps_SetRoot r d n : keeps (isolated c0 nf) (SetRoot r d n InTx).
Proof. apply keeps_run_tx. Qed.
Lemma keeps_Get k h : keeps (isolated c0 nf) (Get k h).
Proof. unfold Get. keeps_auto. Qed.
Lemma keeps_BulkSet rows : keeps (isolated c0 nf) (BulkSet rows InTx).
Proof. apply keeps_run_tx. Qed.
Lemma keeps_AddRollupExitLeaves rows : keeps (isolated c0 nf) (AddRollupExitLeaves rows InTx).
Proof. apply keeps_run_tx. Qed.
Lemma keeps_GetLatestRollupExitLeaves h : keeps (isolated c0 nf) (GetLatestRollupExitLeaves h).
Proof. unfold GetLatestRollupExitLeaves. keeps_auto. Qed.
Lemma keeps_IsRollupExitRoot r h : keeps (isolated c0 nf) (IsRollupExitRoot r h).
Proof. unfold IsRollupExitRoot. keeps_auto. Qed.
Lemma keeps_GetLastDepositCount n h : keeps (isolated c0 nf) (GetLastDepositCount n h).
Proof. unfold GetLastDepositCount. keeps_auto. Qed.
Lemma keeps_AddBackwardLET l : keeps (isolated c0 nf) (AddBackwardLET l InTx).
Proof. apply keeps_run_tx. Qed.
Lemma keeps_AddForwardLET l : keeps (isolated c0 nf) (AddForwardLET l InTx).
Proof. apply keeps_run_tx. Qed.
Lemma keeps_AddSetClaim l : keeps (isolated c0 nf) (AddSetClaim l InTx).
Proof. apply keeps_run_tx. Qed.
Lemma keeps_AddUnsetClaim l : keeps (isolated c0 nf) (AddUnsetClaim l InTx).
Proof. apply keeps_run_tx. Qed.

End Isolation.

#[export] Hint Resolve keeps_run_tx keeps_run_query keeps_Rollback keeps_Begin keeps_GetPreviousBlock
  keeps_GetLastBlock keeps_AddBlock keeps_Reset keeps_AddDeposit keeps_GetDeposit keeps_GetNumberDeposits
  keeps_ResetDeposits keeps_AddClaim keeps_DeleteClaim keeps_AddGlobalExitRoot keeps_GetL2ExitRootsByGER
  keeps_GetL1ExitRootByGER keeps_GetLatestL1SyncedExitRoot keeps_GetLatestTrustedExitRoot keeps_UpdateL2GER
  keeps_AddRemoveL2GER keeps_AddTokenWrapped keeps_CheckIfRootExists keeps_GetRoot keeps_SetRoot keeps_Get
  keeps_BulkSet keeps_AddRollupExitLeaves keeps_GetLatestRollupExitLeaves keeps_IsRollupExitRoot
  keeps_GetLastDepositCount keeps_AddBackwardLET keeps_AddForwardLET keeps_AddSetClaim keeps_AddUnsetClaim
  : bridge.
