(* ===== verification/SyncFacts.v ===== *)
(** * Invariants of the synchronizer

    What every event handler keeps: the committed tables, which only a commit
    changes, and the shape of the bridge controller, which nothing changes. *)
From S2P Require Import Prelude Types Bytes Hash MerkleSpec ClaimTypes Schema MerkleStore Storage.
From S2P Require Import PgMerkleStore MerkleTree BridgeCtrl Synchronizer Invariants StorageFacts.

(** The parts of a tree and of the controller that no operation assigns. *)
Definition tree_shape (mt : MerkleTree) : Z * Z := (mt_networkID mt, mt_height mt).
Definition shape (bt : BridgeController) : gmap Z Z * MerkleTree * list (Z * Z) :=
  (bc_merkleTreeIDs bt, bc_rollupsTree bt, tree_shape <$> bc_exitTrees bt).

Section Trees.
Context `{K : Keccak256} (c0 : Tables) (nf : bool).

Definition tree_inv (sh : Z * Z) (w : DB * MerkleTree) : Prop :=
  isolated c0 nf (fst w) ∧ tree_shape (snd w) = sh.

Lemma keeps_on_store {A} sh (c : M DB A) :
  keeps (isolated c0 nf) c → keeps (tree_inv sh) (on_store c).
Proof.
  apply keeps_zoom; [by intros w []|]. by intros [s mt] s' [_ Hsh] Hs.
Qed.
Lemma keeps_the_tree sh : keeps (tree_inv sh) the_tree.
Proof. apply keeps_gets. Qed.
Lemma keeps_set_siblings sh l : keeps (tree_inv sh) (set_tree (set_siblings l)).
Proof. apply keeps_modify. by intros [s mt] []. Qed.
Lemma keeps_set_count sh c : keeps (tree_inv sh) (set_tree (set_count c)).
Proof. apply keeps_modify. by intros [s mt] []. Qed.
Hint Resolve keeps_on_store keeps_the_tree keeps_set_siblings keeps_set_count : bridge.

Lemma keeps_getRoot sh h : keeps (tree_inv sh) (getRoot h).
Proof. unfold getRoot. keeps_auto. Qed.
Hint Resolve keeps_getRoot : bridge.

Lemma keeps_initSiblings_loop sh k index cur siblings h :
  keeps (tree_inv sh) (initSiblings_loop k index cur siblings h).
Proof.
  revert cur siblings. induction k as [|k IH]; intros cur siblings; cbn [initSiblings_loop]; keeps_auto.
Qed.
Hint Resolve keeps_initSiblings_loop : bridge.

Lemma keeps_initSiblings sh h : keeps (tree_inv sh) (initSiblings h).
Proof. unfold initSiblings. keeps_auto. Qed.
Hint Resolve keeps_initSiblings : bridge.

Lemma keeps_assignSiblings sh h : keeps (tree_inv sh) (assignSiblings h).
Proof. unfold assignSiblings. keeps_auto. Qed.
Hint Resolve keeps_assignSiblings : bridge.

Lemma keeps_resetLeaf sh c h : keeps (tree_inv sh) (resetLeaf c h).
Proof. unfold resetLeaf. keeps_auto. Qed.

Lemma keeps_rollbackMT sh n h : keeps (tree_inv sh) (rollbackMT n h).
Proof.
  unfold rollbackMT, nextDepositCount. keeps_auto. apply keeps_on_store. keeps_auto.
Qed.

Lemma keeps_addLeaf sh id leaf index : keeps (tree_inv sh) (addLeaf id leaf index InTx).
Proof.
  unfold addLeaf. keeps_auto.
Qed.
End Trees.

Section Controller.
Context `{K : Keccak256} (c0 : Tables) (nf : bool).

Definition ctrl_inv (sh : gmap Z Z * MerkleTree * list (Z * Z)) (w : DB * BridgeController) : Prop :=
  isolated c0 nf (fst w) ∧ shape (snd w) = sh.

Lemma keeps_on_tree {A} sh tID (c : M (DB * MerkleTree) A) :
  (∀ sh, keeps (tree_inv c0 nf sh) c) → keeps (ctrl_inv sh) (on_tree tID c).
Proof.
  intros Hc [s bt] [Hs Hsh]. unfold on_tree. destruct (at_index (bc_exitTrees bt) tID) as [mt| | |] eqn:E; [|done..].
  specialize (Hc (tree_shape mt) (s, mt) (conj Hs eq_refl)).
  destruct (c (s, mt)) as [r [s' mt']]. destruct Hc as [Hs' Hmt]. split; [done|]. simpl in *.
  apply at_index_Ok in E as [_ E]. rewrite <- Hsh. unfold shape. f_equal. cbn [bc_exitTrees set_exitTrees].
  rewrite list_fmap_insert. apply list_insert_id. rewrite list_lookup_fmap, E. simpl. by rewrite Hmt.
Qed.

Lemma keeps_GetMerkleTreeID sh n : keeps (ctrl_inv sh) (GetMerkleTreeID n).
Proof. unfold GetMerkleTreeID. keeps_auto. Qed.
Hint Resolve keeps_GetMerkleTreeID keeps_on_tree keeps_resetLeaf keeps_rollbackMT keeps_addLeaf keeps_getRoot : bridge.

Lemma keeps_ctrl_AddDeposit sh d : keeps (ctrl_inv sh) (BridgeCtrl.AddDeposit d InTx).
Proof. unfold BridgeCtrl.AddDeposit. keeps_auto. Qed.
Lemma keeps_ReorgMT sh c n h : keeps (ctrl_inv sh) (ReorgMT c n h).
Proof. unfold ReorgMT. keeps_auto. Qed.
Lemma keeps_RollbackMT sh n h : keeps (ctrl_inv sh) (RollbackMT n h).
Proof. unfold RollbackMT. keeps_auto. Qed.
Lemma keeps_GetExitRoot sh n h : keeps (ctrl_inv sh) (GetExitRoot n h).
Proof. unfold GetExitRoot. keeps_auto. Qed.
Lemma keeps_AddRollupExitLeaf sh l : keeps (ctrl_inv sh) (AddRollupExitLeaf l InTx).
Proof.
  unfold AddRollupExitLeaf. keeps_auto. eapply (keeps_zoom _ (isolated c0 nf)).
  - by intros w [].
  - by intros [s bt] s' [_ Hsh] Hs.
  - unfold addRollupExitLeaf, storeLeaves. keeps_auto.
Qed.
End Controller.

#[export] Hint Resolve keeps_ctrl_AddDeposit keeps_ReorgMT keeps_RollbackMT keeps_GetExitRoot
  keeps_AddRollupExitLeaf : bridge.

Section Sync.
Context `{K : Keccak256} `{AbiToken} {W : Type} `{ethermanInterface W} `{zkEVMClientInterface W}.
Context (cfg : SyncConfig) (fuel : nat) (c0 : Tables) (nf : bool).

Definition sync_inv (sh : gmap Z Z * MerkleTree * list (Z * Z)) (y : SyncState W) : Prop :=
  isolated c0 nf (y_db y) ∧ shape (y_ctrl y) = sh.

Lemma keeps_on_db {A} sh (c : M DB A) : keeps (isolated c0 nf) c → keeps (sync_inv sh) (on_db c).
Proof. apply keeps_zoom; [by intros y []|]. by intros y db [_ Hsh] Hdb. Qed.
Lemma keeps_on_ctrl {A} sh (c : M (DB * BridgeController) A) :
  keeps (ctrl_inv c0 nf sh) c → keeps (sync_inv sh) (on_ctrl c).
Proof. apply keeps_zoom; [by intros y []|]. by intros y p _ []. Qed.
Lemma keeps_on_world {A} sh (c : M W A) : keeps (sync_inv sh) (on_world c).
Proof. apply (keeps_zoom _ (λ _, True)); [done| |by intros w _]. by intros y w []. Qed.
Hint Resolve keeps_on_db keeps_on_ctrl keeps_on_world : bridge.

Lemma keeps_rollbackMT_loop sh n : keeps (sync_inv sh) (rollbackMT_loop cfg n).
Proof. induction n as [|n IH]; cbn [rollbackMT_loop]; keeps_auto. Qed.
Hint Resolve keeps_rollbackMT_loop : bridge.
Lemma keeps_rollback {A} sh e tx : keeps (sync_inv sh) (rollback (A := A) cfg fuel e tx).
Proof. unfold rollback. keeps_auto. Qed.
Hint Resolve keeps_rollback : bridge.
Lemma keeps_or_rollback {A} sh tx (c : M (SyncState W) A) :
  keeps (sync_inv sh) c → keeps (sync_inv sh) (or_rollback cfg fuel tx c).
Proof. intros Hc. unfold or_rollback. keeps_auto. Qed.
Hint Resolve keeps_or_rollback : bridge.

(** The handlers, in the transaction of the block. *)
Lemma keeps_processVerifyBatch sh v b : keeps (sync_inv sh) (processVerifyBatch cfg fuel v b InTx).
Proof. unfold processVerifyBatch. keeps_auto. Qed.
Lemma keeps_processGlobalExitRoot sh g b : keeps (sync_inv sh) (processGlobalExitRoot cfg fuel g b InTx).
Proof. unfold processGlobalExitRoot. keeps_auto. Qed.
Lemma keeps_storeDeposit sh d : keeps (sync_inv sh) (storeDeposit cfg fuel d InTx).
Proof. unfold storeDeposit. keeps_auto. Qed.
Hint Resolve keeps_storeDeposit : bridge.
Lemma keeps_processDeposit sh d b : keeps (sync_inv sh) (processDeposit cfg fuel d b InTx).
Proof. apply keeps_storeDeposit. Qed.
Lemma keeps_processClaim sh c b : keeps (sync_inv sh) (processClaim cfg fuel c b InTx).
Proof. unfold processClaim. keeps_auto. Qed.
Lemma keeps_processTokenWrapped sh t b : keeps (sync_inv sh) (processTokenWrapped cfg fuel t b InTx).
Proof. unfold processTokenWrapped. keeps_auto. Qed.
Lemma keeps_processRemove sh g b : keeps (sync_inv sh) (processRemoveL2GlobalExitRoot cfg fuel g b InTx).
Proof. unfold processRemoveL2GlobalExitRoot. keeps_auto. Qed.
Lemma keeps_checkLET sh n r c m : keeps (sync_inv sh) (checkLET cfg fuel n r c m InTx).
Proof. unfold checkLET. keeps_auto. Qed.
Hint Resolve keeps_checkLET : bridge.
Lemma keeps_processBackwardLET sh l b n : keeps (sync_inv sh) (processBackwardLETSovereign cfg fuel l b n InTx).
Proof. unfold processBackwardLETSovereign. keeps_auto. Qed.
Lemma keeps_processForwardLET sh l b n : keeps (sync_inv sh) (processForwardLETSovereign cfg fuel l b n InTx).
Proof. unfold processForwardLETSovereign. keeps_auto. Qed.
Lemma keeps_processUnsetClaim sh u b n : keeps (sync_inv sh) (processUnsetClaimSovereign cfg fuel u b n InTx).
Proof. unfold processUnsetClaimSovereign. keeps_auto. Qed.
Lemma keeps_processSetClaim sh c b n : keeps (sync_inv sh) (processSetClaimSovereign cfg fuel c b n InTx).
Proof. unfold processSetClaimSovereign. keeps_auto. Qed.
Hint Resolve keeps_processVerifyBatch keeps_processGlobalExitRoot keeps_processDeposit keeps_processClaim
  keeps_processTokenWrapped keeps_processRemove keeps_processBackwardLET keeps_processForwardLET
  keeps_processUnsetClaim keeps_processSetClaim : bridge.

Lemma keeps_event_at {A} sh (l : list A) pos : keeps (sync_inv sh) (event_at l pos).
Proof. unfold event_at. keeps_auto. Qed.
Hint Resolve keeps_event_at : bridge.

Lemma keeps_processOrder sh block b flags el : keeps (sync_inv sh) (processOrder cfg fuel block b InTx flags el).
Proof. unfold processOrder. keeps_auto. Qed.
Hint Resolve keeps_processOrder : bridge.

Lemma keeps_processOrders sh block b flags els : keeps (sync_inv sh) (processOrders cfg fuel block b InTx flags els).
Proof. revert flags. induction els as [|el els IH]; intros flags; cbn [processOrders]; keeps_auto. Qed.

Lemma keeps_notifyL1 sh : keeps (sync_inv sh) (notifyL1 cfg).
Proof. unfold notifyL1. keeps_auto. Qed.
Lemma keeps_notifyL2 sh : keeps (sync_inv sh) (notifyL2 cfg).
Proof. unfold notifyL2. keeps_auto. Qed.

End Sync.

#[export] Hint Resolve keeps_on_db keeps_on_ctrl keeps_on_world keeps_rollback keeps_or_rollback keeps_storeDeposit
  keeps_checkLET keeps_processVerifyBatch keeps_processGlobalExitRoot keeps_processDeposit keeps_processClaim
  keeps_processTokenWrapped keeps_processRemove keeps_processBackwardLET keeps_processForwardLET
  keeps_processUnsetClaim keeps_processSetClaim keeps_event_at keeps_processOrder keeps_processOrders
  keeps_notifyL1 keeps_notifyL2 : bridge.
