(* ===== verification/ReorgFacts.v ===== *)
(** * Deleting the end of an exit tree

    What the cascades of a reorganisation and of a backward update of the local exit
    tree leave in the store: exactly the tree of the first leaves. *)
From S2P Require Import Prelude Types Bytes Hash MerkleSpec ClaimTypes Schema MerkleStore Storage.
From S2P Require Import PgMerkleStore MerkleTree MerkleTreeFacts.

Section Delete.
Context `{K : Keccak256}.

Lemma stored_ext Ht net lds v v' :
  mv_rht v' = mv_rht v → mv_root v' = mv_root v → mv_dep v' = mv_dep v →
  stored Ht net lds v → stored Ht net lds v'.
Proof. intros E1 E2 E3 []. constructor; by rewrite ?E1, ?E2, ?E3. Qed.

Lemma filter_swap {A} (P Q : A → Prop) `{∀ x, Decision (P x), ∀ x, Decision (Q x)} (l : list A) :
  filter P (filter Q l) = filter Q (filter P l).
Proof. rewrite !list_filter_filter. apply list_filter_iff. tauto. Qed.

(** A filter that keeps exactly the first [c] elements. *)
Lemma filter_imap_take {A B} (f : nat → A → B) (P : B → Prop) `{∀ x, Decision (P x)} (l : list A) (k c : nat) :
  (∀ i x, l !! i = Some x → P (f (k + i)%nat x) ↔ (k + i < c)%nat) →
  filter P (imap (λ i, f (k + i)%nat) l) = imap (λ i, f (k + i)%nat) (take (c - k) l).
Proof.
  revert k. induction l as [|x l IH]; intros k HP; [by rewrite take_nil|].
  rewrite imap_cons, filter_cons. pose proof (HP 0%nat x eq_refl) as H0. rewrite Nat.add_0_r in *.
  assert (filter P (imap ((λ i, f (k + i)%nat) ∘ S) l) = imap (λ i, f (S k + i)%nat) (take (c - S k) l)) as IH'.
  { rewrite <- IH; [|intros i a Hi; rewrite Nat.add_succ_comm; by apply (HP (S i))].
    f_equal. apply imap_ext. intros i a _. simpl. by rewrite Nat.add_succ_r. }
  destruct (decide (k < c)%nat) as [Hk|Hk].
  - rewrite decide_True by (by apply H0). replace (c - k)%nat with (S (c - S k)) by lia.
    cbn [take]. rewrite imap_cons, Nat.add_0_r, IH'. f_equal. apply imap_ext. intros i a _. simpl. by rewrite Nat.add_succ_r.
  - rewrite decide_False by (by rewrite H0). replace (c - k)%nat with 0%nat by lia.
    rewrite IH'. by replace (c - S k)%nat with 0%nat by lia.
Qed.

(** The ids of the deposits that a deletion removes. *)
Definition gone_ids (P : deposit_row → Prop) `{∀ r, Decision (P r)} (t : Tables) : list Z :=
  dr_id <$> filter P (t_deposit t).

Lemma stored_delete Ht net lds t s (P : deposit_row → Prop) `{∀ r, Decision (P r)} (c : nat) :
  stored Ht net lds (tables_view t s) → NoDup (dr_id <$> t_deposit t) →
  (∀ i p, lds !! i = Some p → (snd p ∉ gone_ids P t) ↔ (i < c)%nat) →
  stored Ht net (take c lds) (tables_view (delete_deposits P t) s).
Proof.
  intros Hst Hnd Hgone.
  assert (∀ i p, take c lds !! i = Some p → lds !! i = Some p ∧ (i < c)%nat ∧ (snd p ∉ gone_ids P t)) as Htk.
  { intros i p Hi. apply lookup_take_Some in Hi as [Hi Hc]. repeat split; [done..|]. by eapply Hgone. }
  assert (∀ i, (i < c)%nat → take (S i) (fst <$> take c lds) = take (S i) (fst <$> lds)) as Hpre.
  { intros i Hi. rewrite fmap_take, take_take. f_equal. lia. }
  assert (∀ d, d ∈ t_deposit t → dr_id d ∉ gone_ids P t → ¬ P d) as HnP.
  { intros d Hd Hn HP. apply Hn. apply list_elem_of_fmap. exists d. split; [done|]. by apply list_elem_of_filter. }
  constructor; cbn [tables_view mv_root mv_rht mv_dep delete_deposits on_deposit on_root on_rht t_root t_rht t_deposit].
  - pose proof (st_roots _ _ _ _ Hst) as Hr. cbn in Hr. rewrite filter_swap, Hr.
    pose proof (filter_imap_take (λ i p, mk_root_row (mroot Ht (take (S i) (fst <$> lds))) (snd p) net)
      (λ r, rr_deposit_id r ∉ gone_ids P t) lds 0 c) as E.
    cbn [Nat.add] in E. rewrite Nat.sub_0_r in E. unfold gone_ids in E. rewrite E by (simpl; apply Hgone).
    apply imap_ext. intros i p Hi. apply Htk in Hi as (_ & Hi & _). by rewrite Hpre.
  - intros i p Hi. apply Htk in Hi as (Hi & Hic & Hng).
    pose proof (st_deps _ _ _ _ Hst i p Hi) as Hd. cbn in Hd. rewrite <- Hd.
    rewrite !(filter_fmap_swap _ _ (λ d, dr_id d = snd p)) by done. f_equal. rewrite filter_swap.
    apply filter_all. intros d [Hid Hin]%list_elem_of_filter. apply HnP; [done|]. by rewrite Hid.
  - intros i p k x d Hi Hin. apply Htk in Hi as (Hi & Hic & Hng). rewrite Hpre in Hin by done.
    apply list_elem_of_filter. split.
    + apply list_elem_of_fmap in Hin as (h & E & _). unfold node_triple in E. simplify_eq. done.
    + by apply (st_nodes _ _ _ _ Hst i p).
  - intros i j p q Hi Hj. apply Htk in Hi as (Hi & _), Hj as (Hj & _). by apply (st_sorted _ _ _ _ Hst).
  - intros d (r & -> & [_ Hr]%list_elem_of_filter)%list_elem_of_fmap. apply (st_pos _ _ _ _ Hst).
    cbn. by apply (list_elem_of_fmap_2 (λ d, (dr_id d, dr_deposit_cnt d))).
Qed.

(** The reverse hash table only loses rows. *)
Lemma functional_delete t s (P : deposit_row → Prop) `{∀ r, Decision (P r)} :
  rht_functional (tables_view t s) → rht_functional (tables_view (delete_deposits P t) s).
Proof.
  intros Hf r1 r2 H1 H2. cbn in H1, H2.
  apply list_elem_of_filter in H1 as [_ H1], H2 as [_ H2]. by apply Hf.
Qed.

End Delete.

(** ** A consistent log of deposits *)

(** Every deposit of the network has its leaf, in a block of the network, and the
    block numbers follow the counts. *)
Record deposit_log (net : Z) (lds : list (Hash * Z)) (t : Tables) : Prop := {
  dl_dep_ids : NoDup (dr_id <$> t_deposit t);
  dl_block_ids : NoDup (br_id <$> t_block t);
  dl_leaf : ∀ d, d ∈ t_deposit t → dr_network_id d = net →
    ∃ i p, lds !! i = Some p ∧ dr_id d = snd p ∧ dr_deposit_cnt d = Z.of_nat i;
  dl_row : ∀ i p, lds !! i = Some p →
    ∃ d, d ∈ t_deposit t ∧ dr_id d = snd p ∧ dr_deposit_cnt d = Z.of_nat i ∧ dr_network_id d = net;
  dl_block : ∀ d, d ∈ t_deposit t → dr_network_id d = net →
    ∃ b, b ∈ t_block t ∧ br_id b = dr_block_id d ∧ br_network_id b = net;
  dl_mono : ∀ d1 d2 b1 b2, d1 ∈ t_deposit t → d2 ∈ t_deposit t → b1 ∈ t_block t → b2 ∈ t_block t →
    dr_network_id d1 = net → dr_network_id d2 = net → br_id b1 = dr_block_id d1 → br_id b2 = dr_block_id d2 →
    dr_deposit_cnt d1 ≤ dr_deposit_cnt d2 → br_block_num b1 ≤ br_block_num b2
}.

Lemma NoDup_fmap_inj {A B} (f : A → B) (l : list A) x y :
  NoDup (f <$> l) → x ∈ l → y ∈ l → f x = f y → x = y.
Proof.
  intros Hnd [i Hi]%list_elem_of_lookup [j Hj]%list_elem_of_lookup E.
  assert (i = j) as <-; [|congruence].
  eapply (NoDup_lookup (f <$> l)); [done|by rewrite list_lookup_fmap, Hi|by rewrite list_lookup_fmap, Hj, E].
Qed.

Section Log.
Context (net : Z) (lds : list (Hash * Z)) (t : Tables) (Hlog : deposit_log net lds t) (bound : Z).

(** DELETE FROM sync.block WHERE block_num > bound AND network_id = net. *)
Definition late_block (r : block_row) : Prop := bound < br_block_num r ∧ br_network_id r = net.
#[global] Instance late_block_dec r : Decision (late_block r).
Proof. unfold late_block. apply _. Defined.
Definition in_late_block (d : deposit_row) : Prop := dr_block_id d ∈ (br_id <$> filter late_block (t_block t)).
#[global] Instance in_late_block_dec d : Decision (in_late_block d).
Proof. unfold in_late_block. apply _. Defined.

Lemma late_iff d b :
  d ∈ t_deposit t → b ∈ t_block t → dr_network_id d = net → br_id b = dr_block_id d → br_network_id b = net →
  in_late_block d ↔ bound < br_block_num b.
Proof.
  intros Hd Hb Hn Hid Hbn. unfold in_late_block. rewrite list_elem_of_fmap. split.
  - intros (b' & E & [[Hlt _] Hb']%list_elem_of_filter).
    assert (b' = b) as ->; [|done].
    eapply (NoDup_fmap_inj br_id); [apply Hlog|done..|congruence].
  - intros Hlt. exists b. split; [done|]. by apply list_elem_of_filter.
Qed.

(** The deposits in the deleted blocks are the last ones. *)
Lemma late_suffix :
  ∃ c, (c ≤ length lds)%nat ∧ ∀ i p, lds !! i = Some p → (snd p ∉ gone_ids in_late_block t) ↔ (i < c)%nat.
Proof.
  assert (∀ i p, lds !! i = Some p → ∃ d b, d ∈ t_deposit t ∧ b ∈ t_block t ∧ dr_id d = snd p ∧
            dr_deposit_cnt d = Z.of_nat i ∧ dr_network_id d = net ∧ br_id b = dr_block_id d ∧ br_network_id b = net ∧
            (snd p ∉ gone_ids in_late_block t ↔ br_block_num b ≤ bound)) as Hrow.
  { intros i p Hi. destruct (dl_row _ _ _ Hlog i p Hi) as (d & Hd & Eid & Ecnt & En).
    destruct (dl_block _ _ _ Hlog d Hd En) as (b & Hb & Eb & Ebn). exists d, b. do 7 (split; [done|]).
    rewrite <- Z.nlt_ge, <- (late_iff d b) by done. apply not_iff_compat. unfold gone_ids.
    rewrite list_elem_of_fmap. split.
    - intros (d' & E & [Hl Hd']%list_elem_of_filter).
      assert (d' = d) as ->; [|done]. eapply (NoDup_fmap_inj dr_id); [apply Hlog|done..|congruence].
    - intros Hl. exists d. split; [done|]. by apply list_elem_of_filter. }
  assert (∀ i j p q, lds !! i = Some p → lds !! j = Some q → (i < j)%nat →
            snd q ∉ gone_ids in_late_block t → snd p ∉ gone_ids in_late_block t) as Hmono.
  { intros i j p q Hi Hj Hij.
    destruct (Hrow i p Hi) as (d1 & b1 & ? & ? & ? & E1 & ? & ? & ? & ->).
    destruct (Hrow j q Hj) as (d2 & b2 & ? & ? & ? & E2 & ? & ? & ? & ->). intros Hle.
    assert (br_block_num b1 ≤ br_block_num b2); [|lia].
    apply (dl_mono _ _ _ Hlog d1 d2 b1 b2); (done || lia). }
  clear Hrow Hlog. induction lds as [|p l IH] using rev_ind.
  { exists 0%nat. split; [simpl; lia|]. intros i p Hi. by rewrite lookup_nil in Hi. }
  assert ((l ++ [p]) !! length l = Some p) as Hlast by (by apply list_lookup_middle).
  destruct (decide (snd p ∈ gone_ids in_late_block t)) as [Hg|Hg].
  - destruct IH as (c & Hc & Hi).
    { intros i j a b Ha Hb Hij. apply (Hmono i j); [by apply lookup_app_l_Some..|done]. }
    exists c. split; [rewrite length_app; simpl; lia|]. intros i q Hq.
    destruct (decide (i < length l)%nat) as [Hlt|Hge].
    + rewrite lookup_app_l in Hq by done. by apply Hi.
    + pose proof (lookup_lt_Some _ _ _ Hq) as Hq'. rewrite length_app in Hq'. simpl in Hq'.
      assert (i = length l) as -> by lia. simplify_eq. split; [done|lia].
  - exists (S (length l)). split; [rewrite length_app; simpl; lia|]. intros i q Hq.
    pose proof (lookup_lt_Some _ _ _ Hq) as Hq'. rewrite length_app in Hq'. simpl in Hq'.
    split; [lia|]. intros _. destruct (decide (i = length l)) as [->|]; [by simplify_eq|].
    eapply (Hmono i (length l)); [done..|lia|done].
Qed.

End Log.

Section Count.
Context (net : Z) (lds : list (Hash * Z)) (t : Tables) (Hlog : deposit_log net lds t) (bound : Z) (c : nat).
Context (Hc : (c ≤ length lds)%nat).
Context (Hgone : ∀ i p, lds !! i = Some p → (snd p ∉ gone_ids (in_late_block net t bound) t) ↔ (i < c)%nat).

(** The tables after the deletion. *)
Definition after_reset : Tables := delete_blocks (late_block net bound) t.

Lemma after_deposits d :
  d ∈ t_deposit after_reset ↔ d ∈ t_deposit t ∧ ¬ in_late_block net t bound d.
Proof. cbn. rewrite list_elem_of_filter. unfold in_late_block. tauto. Qed.

Lemma after_blocks b : b ∈ t_block after_reset ↔ b ∈ t_block t ∧ ¬ late_block net bound b.
Proof. cbn. rewrite list_elem_of_filter. tauto. Qed.

Lemma not_late_index d i p :
  d ∈ t_deposit t → lds !! i = Some p → dr_id d = snd p → ¬ in_late_block net t bound d → (i < c)%nat.
Proof.
  intros Hd Hi Eid Hnl. apply (Hgone i p Hi). intros (d' & E & [Hl Hd']%list_elem_of_filter)%list_elem_of_fmap.
  apply Hnl. assert (d' = d) as <-; [|done].
  eapply (NoDup_fmap_inj dr_id); [apply Hlog|done..|congruence].
Qed.

(** The query of [GetNumberDeposits] after the deletion. *)
Lemma count_after_reset :
  max_or_neg1 ((λ p, dr_deposit_cnt p.1) <$>
    filter (λ p, dr_network_id p.1 = net ∧ br_block_num p.2 ≤ bound) (deposit_join_block after_reset)) =
  Z.of_nat c - 1.
Proof.
  assert (∀ d b, (d, b) ∈ deposit_join_block after_reset ↔
    (d ∈ t_deposit after_reset ∧ b ∈ t_block after_reset ∧ dr_network_id d = br_network_id b ∧ dr_block_id d = br_id b)) as Hjoin.
  { intros d b. unfold deposit_join_block. rewrite list_elem_of_bind. split.
    - intros (d' & Hin & Hd'). apply list_elem_of_bind in Hin as (b' & Hin & [[? ?] ?]%list_elem_of_filter).
      apply list_elem_of_singleton in Hin. by simplify_eq.
    - intros (Hd & Hb & ? & ?). exists d. split; [|done]. apply list_elem_of_bind. exists b.
      split; [by apply list_elem_of_singleton|]. by apply list_elem_of_filter. }
  assert (∀ x, x ∈ ((λ p, dr_deposit_cnt p.1) <$>
    filter (λ p, dr_network_id p.1 = net ∧ br_block_num p.2 ≤ bound) (deposit_join_block after_reset)) → x < Z.of_nat c) as Hub.
  { intros x ([d b] & -> & [[Hn _] Hin]%list_elem_of_filter)%list_elem_of_fmap. simpl in *.
    apply Hjoin in Hin as (Hd & _). apply after_deposits in Hd as [Hd Hnl].
    destruct (dl_leaf _ _ _ Hlog d Hd Hn) as (i & p & Hi & Eid & ->).
    pose proof (not_late_index d i p Hd Hi Eid Hnl). lia. }
  destruct (decide (c = 0%nat)) as [->|Hc0].
  - destruct (_ <$> _) as [|x l] eqn:E; [done|]. exfalso.
    assert (x ∈ x :: l) as Hx by left. specialize (Hub x Hx).
    rewrite <- E in Hx. apply list_elem_of_fmap in Hx as ([d b] & -> & [[Hn _] Hin]%list_elem_of_filter).
    apply Hjoin in Hin as (Hd & _). apply after_deposits in Hd as [Hd _].
    destruct (dl_leaf _ _ _ Hlog d Hd Hn) as (i & p & _ & _ & Ecnt). simpl in Hub. lia.
  - apply max_or_neg1_spec; [|intros x Hx; specialize (Hub x Hx); lia|lia].
    destruct (lookup_lt_is_Some_2 lds (c - 1)) as [p Hp]; [lia|].
    destruct (dl_row _ _ _ Hlog _ _ Hp) as (d & Hd & Eid & Ecnt & En).
    destruct (dl_block _ _ _ Hlog d Hd En) as (b & Hb & Eb & Ebn).
    assert (¬ in_late_block net t bound d) as Hnl.
    { intros Hl. apply (Hgone _ _ Hp); [lia|]. unfold gone_ids. rewrite <- Eid. apply list_elem_of_fmap_2.
      by apply list_elem_of_filter. }
    assert (br_block_num b ≤ bound) as Hle.
    { apply Z.nlt_ge. rewrite <- (late_iff net lds t Hlog bound d b) by done. done. }
    apply list_elem_of_fmap. exists (d, b). split; [simpl; lia|]. apply list_elem_of_filter.
    split; [done|]. apply Hjoin. rewrite after_deposits, after_blocks. unfold late_block.
    repeat split; (done || congruence || (intros [? ?]; lia)).
Qed.

End Count.
