(* ===== verification/SyncTheorems.v ===== *)
(** * The theorems of the synchronizer

    Atomicity of a block, consistency of the committed state after a failure, and the
    recovery of the in-memory trees. *)
From S2P Require Import Prelude Types Bytes Hash MerkleSpec ClaimTypes Schema MerkleStore Storage.
From S2P Require Import PgMerkleStore MerkleTree MerkleTreeFacts BridgeCtrl Synchronizer Invariants.
From S2P Require Import StorageFacts SyncFacts ReorgFacts Toy.

Section Atomicity.
Context `{K : Keccak256} `{AbiToken} {W : Type}.
Context (cfg : SyncConfig) (fuel : nat) (c0 : Tables) (nf : bool).

Lemma Commit_keeps_err sh tx :
  keeps_err (sync_inv (W := W) c0 nf sh) (or_rollback cfg fuel tx (on_db (Commit tx))).
Proof.
  intros y [Hdb Hsh]. unfold or_rollback, mbind, M_bind, attempt, on_db, zoom.
  destruct (Commit tx (y_db y)) as [r db'] eqn:E.
  pose proof (λ Hr, Commit_fails c0 nf tx (y_db y) r db' E Hr Hdb) as Hfail.
  destruct r as [[]|e| |]; intros Hn; [by destruct (Hn tt)| |..].
  - apply keeps_rollback. split; [|done]. by apply Hfail.
  - split; [|done]. by apply Hfail.
  - split; [|done]. by apply Hfail.
Qed.

Lemma Begin_handle db tx db' : BeginDBTransaction db = (Ok tx, db') → tx = InTx.
Proof. unfold BeginDBTransaction. destruct (next_fault db) as [[] db1]; intros; by simplify_eq. Qed.

Lemma keeps_err_begin {A} sh (f : dbTx → M (SyncState W) A) :
  keeps_err (sync_inv c0 nf sh) (f InTx) → keeps_err (sync_inv c0 nf sh) (on_db BeginDBTransaction ≫= f).
Proof.
  intros Hf y Hy. pose proof (keeps_on_db c0 nf sh BeginDBTransaction (keeps_Begin c0 nf) y Hy) as Hk.
  unfold mbind, M_bind. destruct (on_db BeginDBTransaction y) as [[tx|e| |] y'] eqn:E; [|done..].
  replace tx with InTx; [by apply Hf|].
  unfold on_db, zoom in E. destruct (BeginDBTransaction (y_db y)) as [r db'] eqn:E'. simplify_eq.
  symmetry. by eapply Begin_handle.
Qed.

(** A block that is not stored leaves the committed tables as they were. *)
Lemma processBlock_keeps_err sh order flags block :
  keeps_err (sync_inv (W := W) c0 nf sh) (processBlock cfg fuel order flags block).
Proof.
  unfold processBlock. apply keeps_err_begin. apply keeps_err_bind.
  { apply keeps_or_rollback, keeps_on_db, keeps_AddBlock. }
  intros blockID. apply keeps_err_bind; [apply keeps_processOrders|]. intros fl.
  apply (keeps_err_ret _ _ (λ _, fl)), Commit_keeps_err.
Qed.

End Atomicity.

Section Prefix.
Context `{K : Keccak256} `{AbiToken} {W : Type}.
Context (cfg : SyncConfig) (fuel : nat).

Lemma processBlocks_prefix order blocks : ∀ flags (y y' : SyncState W) r,
  processBlocks cfg fuel order flags blocks y = (r, y') →
  ∃ k flags' y'', (k ≤ length blocks)%nat ∧
    processBlocks cfg fuel order flags (take k blocks) y = (Ok flags', y'') ∧
    db_committed (y_db y') = db_committed (y_db y'').
Proof.
  induction blocks as [|block blocks IH]; intros flags y y' r E; cbn [processBlocks] in E.
  - unfold mret, M_ret in E. simplify_eq. exists 0%nat, flags, y'. split; [simpl; lia|done].
  - unfold mbind, M_bind in E. destruct (processBlock cfg fuel order flags block y) as [r1 y1] eqn:E1.
    destruct r1 as [flags1|e| |].
    { destruct (IH flags1 y1 y' r E) as (k & flags' & y'' & Hk & Ek & Hc).
      exists (S k), flags', y''. split; [simpl; lia|]. split; [|done].
      cbn [take processBlocks]. unfold mbind, M_bind. by rewrite E1. }
    all: exists 0%nat, flags, y; split; [lia|]; split; [done|]; simplify_eq;
      pose proof (processBlock_keeps_err cfg fuel (db_committed (y_db y)) false (shape (y_ctrl y)) order flags block y)
        as Hk; rewrite E1 in Hk; by destruct Hk as [[Hk _] _].
Qed.

End Prefix.

(** C11: crash consistency: however [processBlockRange] ends, with an error, a panic or
    without end, and whatever failures of the database are scheduled, the committed
    tables are those after a run that stored some first blocks of the range
    completely: a block is stored with all its events or not at all. *)
Theorem processBlockRange_prefix `{K : Keccak256} `{AbiToken} {W : Type} (cfg : SyncConfig) (fuel : nat) (blocks : list Block)
    (order : gmap Hash (list Order)) (y y' : SyncState W) (r : result unit) :
  processBlockRange cfg fuel blocks order y = (r, y') →
  ∃ k flags y'', (k ≤ length blocks)%nat ∧
    processBlocks cfg fuel order (false, false) (take k blocks) y = (Ok flags, y'') ∧
    db_committed (y_db y') = db_committed (y_db y'').
Proof.
  unfold processBlockRange, mbind at 1, M_bind. intros E.
  destruct (processBlocks cfg fuel order (false, false) blocks y) as [r1 y1] eqn:E1.
  destruct (processBlocks_prefix cfg fuel order blocks _ _ _ _ E1) as (k & flags & y'' & Hk & Ek & Hc).
  exists k, flags, y''. split; [done|]. split; [done|]. rewrite <- Hc. clear Hc Ek.
  destruct r1 as [[l1 l2]|e| |]; [|by simplify_eq..].
  cbn beta iota in E.
  match type of E with ?c _ = _ =>
    assert (keeps (sync_inv (db_committed (y_db y1)) false (shape (y_ctrl y1))) c) as Hkeep end.
  { keeps_auto; (apply keeps_notifyL1 || apply keeps_notifyL2). }
  specialize (Hkeep y1). rewrite E in Hkeep.
  destruct Hkeep as [[? _] _]; [|done]. by split.
Qed.

(** ** Recovery after a failed block *)

(** [stored] and [rht_functional] do not look at the sequences. *)
Lemma stored_seqs `{K : Keccak256} Ht net lds t s s' :
  stored Ht net lds (tables_view t s) → stored Ht net lds (tables_view t s').
Proof. by intros []. Qed.

(** The elements of the order of a block point into its lists, and a global exit root
    event has no exit root or two: what [readEvents] produces from contiguous logs. *)
Definition order_ok (block : Block) (el : Order) : Prop :=
  let below n := 0 ≤ o_Pos el < Z.of_nat n in
  match o_Name el with
  | GlobalExitRootsOrder =>
      below (length (b_GlobalExitRoots block)) ∧
      Forall (λ g, length (g_ExitRoots g) = 0%nat ∨ length (g_ExitRoots g) = 2%nat) (b_GlobalExitRoots block)
  | RemoveL2GEROrder => below (length (b_RemoveL2GER block))
  | DepositsOrder => below (length (b_Deposits block))
  | ClaimsOrder => below (length (b_Claims block))
  | TokensOrder => below (length (b_Tokens block))
  | VerifyBatchOrder => below (length (b_VerifiedBatches block))
  | UnsetClaimOrder => below (length (b_UnsetClaims block))
  | BackwardLETOrder => below (length (b_BackwardLETs block))
  | ForwardLETOrder => below (length (b_ForwardLETs block))
  | SetClaimOrder => below (length (b_SetClaims block))
  end.

Section Recovery.
Context `{K : Keccak256} `{AbiToken} {W : Type}.
Context (cfg : SyncConfig) (fuel : nat) (c0 : Tables) (sh : gmap Z Z * MerkleTree * list (Z * Z)).
Context (Ht : nat) (lds : list (Hash * Z)) (tID : nat) (s0 : Seqs).
Context (Hfuel : (0 < fuel)%nat).
Context (Hst : stored Ht (cf_networkID cfg) lds (tables_view c0 s0)).
Context (Hfun : rht_functional (tables_view c0 s0)).
Context (Hht : (0 < Ht ≤ 64)%nat) (Hlen : Z.of_nat (length lds) < 2 ^ 32) (HlenH : (length lds ≤ 2 ^ Ht)%nat).
Context (Hid : sh.1.1 !! cf_networkID cfg = Some (Z.of_nat tID)).
Context (Hshape : sh.2 !! tID = Some (cf_networkID cfg, Z.of_nat Ht)).

(** What a clean failure leaves: nothing committed, no transaction open, and the tree
    of the network as it is stored. *)
Definition recovered (y : SyncState W) : Prop :=
  db_committed (y_db y) = c0 ∧ db_tx (y_db y) = None ∧
  ∃ mt, bc_exitTrees (y_ctrl y) !! tID = Some mt ∧ tree_ok Ht (cf_networkID cfg) (fst <$> lds) mt.

Definition clean {A} (c : M (SyncState W) A) : Prop :=
  ∀ y, sync_inv c0 true sh y → match c y with (Err _, y') => recovered y' | _ => True end.

Lemma inv_tree y :
  sync_inv (W := W) c0 true sh y →
  ∃ mt, bc_exitTrees (y_ctrl y) !! tID = Some mt ∧ tree_shape mt = (cf_networkID cfg, Z.of_nat Ht) ∧
        bc_merkleTreeIDs (y_ctrl y) !! cf_networkID cfg = Some (Z.of_nat tID).
Proof.
  intros [_ Hsh]. rewrite <- Hsh in Hid, Hshape. simpl in Hid, Hshape.
  rewrite list_lookup_fmap in Hshape. apply fmap_Some in Hshape as (mt & Hmt & E). eauto.
Qed.

Lemma RollbackMT_recovers y :
  sync_inv (W := W) c0 true sh y →
  ∃ mt', on_ctrl (RollbackMT (cf_networkID cfg) NoTx) y =
    (Ok tt, put_ctrl (y_db y, set_exitTrees (<[tID := mt']> (bc_exitTrees (y_ctrl y))) (y_ctrl y)) y) ∧
    (tID < length (bc_exitTrees (y_ctrl y)))%nat ∧ tree_ok Ht (cf_networkID cfg) (fst <$> lds) mt'.
Proof.
  intros Hy. destruct (inv_tree y Hy) as (mt & Hmt & Esh & Hids). unfold tree_shape in Esh. simplify_eq.
  destruct Hy as [[Hc Hf] _]. specialize (Hf eq_refl).
  assert (mview NoTx (y_db y) = Some (tables_view c0 (db_seqs (y_db y)))) as Hv.
  { cbn. unfold pg_mview. rewrite Hf. cbn. by rewrite Hc. }
  assert (stored Ht (cf_networkID cfg) lds (tables_view c0 (db_seqs (y_db y)))) as Hst' by (by eapply stored_seqs).
  pose proof (nextDepositCount_Ok Ht (cf_networkID cfg) lds _ (y_db y) Hst' Hv Hlen) as Hnext.
  destruct (assignSiblings_Ok Ht (cf_networkID cfg) lds _ NoTx (y_db y) (set_count (Z.of_nat (length lds)) mt) (length lds)
              Hst' Hfun Hv) as (mt' & Ea & Hok); [done..|].
  exists mt'. split; [|split].
  - unfold on_ctrl, zoom, RollbackMT, GetMerkleTreeID. erewrite M_bind_Ok.
    2: { erewrite M_bind_Ok by reflexivity. cbn [snd]. rewrite Hids. reflexivity. }
    unfold on_tree. rewrite (at_index_nat _ _ _ Hmt). rewrite Nat2Z.id.
    unfold rollbackMT. erewrite M_bind_Ok by (apply on_store_eq, Hnext).
    erewrite M_bind_Ok by reflexivity. cbn [fst snd]. by rewrite Ea.
  - by eapply lookup_lt_Some.
  - by rewrite take_ge in Hok by (by rewrite length_fmap).
Qed.

Lemma rollback_recovers {A} e y :
  sync_inv (W := W) c0 true sh y →
  ∃ e' y', rollback (A := A) cfg fuel e InTx y = (Err e', y') ∧ recovered y' ∧
           (db_tx (y_db y) ≠ None → e' = e).
Proof.
  intros Hy. destruct (RollbackMT_recovers y Hy) as (mt' & E & Htid & Hok).
  destruct Hy as [[Hc Hf] _]. specialize (Hf eq_refl).
  unfold rollback. destruct fuel as [|n]; [lia|].
  erewrite M_bind_Ok by (cbn [rollbackMT_loop]; erewrite M_bind_Ok by (apply attempt_Ok, E); reflexivity).
  unfold attempt, on_db, zoom, mbind, M_bind, Rollback, next_fault. cbn [y_db put_ctrl fst snd]. rewrite Hf.
  destruct (db_tx (y_db y)) as [tx|] eqn:Etx; eexists _, _; (split; [reflexivity|]);
    (split; [|done]); (split; [done|]); (split; [done|]); exists mt'; (split; [|done]); cbn;
    rewrite list_lookup_insert_eq by done; done.
Qed.

Lemma clean_mret {A} (a : A) : clean (mret a).
Proof. done. Qed.
Lemma clean_rollback {A} e : clean (rollback (A := A) cfg fuel e InTx).
Proof. intros y Hy. by destruct (rollback_recovers (A := A) e y Hy) as (e' & y' & -> & ? & _). Qed.
Lemma clean_or_rollback {A} (c : M (SyncState W) A) :
  keeps (sync_inv c0 true sh) c → clean (or_rollback cfg fuel InTx c).
Proof.
  intros Hc y Hy. specialize (Hc y Hy). unfold or_rollback, mbind, M_bind, attempt.
  destruct (c y) as [[a|e| |] y']; try done. by apply clean_rollback.
Qed.
Lemma clean_attempt {A} (c : M (SyncState W) A) : clean (attempt c).
Proof. intros y _. unfold attempt. by destruct (c y) as [[] ?]. Qed.
Lemma clean_bind {A B} (m : M (SyncState W) A) (f : A → M (SyncState W) B) :
  clean m → keeps (sync_inv c0 true sh) m → (∀ a, clean (f a)) → clean (m ≫= f).
Proof.
  intros Hm Hk Hf y Hy. specialize (Hm y Hy). specialize (Hk y Hy). unfold mbind, M_bind.
  destruct (m y) as [[a|e| |] y']; try done. by apply Hf.
Qed.
Lemma clean_forM {A} (l : list A) body :
  (∀ a, clean (body a)) → (∀ a, keeps (sync_inv c0 true sh) (body a)) → clean (forM_ l body).
Proof. intros Hb Hk. induction l as [|x l IH]; [apply clean_mret|]. by apply clean_bind. Qed.
Lemma clean_event_at {A} (l : list A) pos : 0 ≤ pos < Z.of_nat (length l) → clean (event_at l pos).
Proof.
  intros Hp y Hy. unfold event_at. rewrite decide_False by lia. unfold lift, at_index.
  rewrite decide_True by lia. by destruct (l !! _).
Qed.

Ltac clean_step :=
  match goal with
  | |- ∀ _, _ => intro
  | |- clean (mret _) => apply clean_mret
  | |- clean (_ ≫= _) => apply clean_bind
  | |- clean (or_rollback _ _ _ _) => apply clean_or_rollback
  | |- clean (rollback _ _ _ _) => apply clean_rollback
  | |- clean (attempt _) => apply clean_attempt
  | |- clean (forM_ _ _) => apply clean_forM
  | |- clean (if _ then _ else _) => case_match
  | |- clean (match _ with _ => _ end) => case_match
  | |- keeps _ _ => solve [keeps_auto]
  | _ => progress eauto 3 with bridge
  end.
Ltac clean_auto := repeat clean_step.

Lemma clean_processVerifyBatch v b : clean (processVerifyBatch cfg fuel v b InTx).
Proof. unfold processVerifyBatch. clean_auto. Qed.
Lemma clean_processGlobalExitRoot g b :
  length (g_ExitRoots g) = 0%nat ∨ length (g_ExitRoots g) = 2%nat → clean (processGlobalExitRoot cfg fuel g b InTx).
Proof.
  intros Hl. unfold processGlobalExitRoot. cbn zeta.
  change (length (g_ExitRoots (place_ger cfg b g))) with (length (g_ExitRoots g)).
  case_decide; [clean_auto|]. rewrite decide_True by lia. clean_auto.
Qed.
Lemma clean_storeDeposit d : clean (storeDeposit cfg fuel d InTx).
Proof. unfold storeDeposit. clean_auto. Qed.
Hint Resolve clean_storeDeposit : bridge.
Lemma clean_processDeposit d b : clean (processDeposit cfg fuel d b InTx).
Proof. apply clean_storeDeposit. Qed.
Lemma clean_processClaim c b : clean (processClaim cfg fuel c b InTx).
Proof. unfold processClaim. clean_auto. Qed.
Lemma clean_processTokenWrapped t b : clean (processTokenWrapped cfg fuel t b InTx).
Proof. unfold processTokenWrapped. clean_auto. Qed.
Lemma clean_processRemove g b : clean (processRemoveL2GlobalExitRoot cfg fuel g b InTx).
Proof. unfold processRemoveL2GlobalExitRoot. clean_auto. Qed.
Lemma clean_checkLET n r c m : clean (checkLET cfg fuel n r c m InTx).
Proof. unfold checkLET. clean_auto. Qed.
Hint Resolve clean_checkLET : bridge.
Lemma clean_processBackwardLET l b n : clean (processBackwardLETSovereign cfg fuel l b n InTx).
Proof. unfold processBackwardLETSovereign. clean_auto. Qed.
Lemma clean_processForwardLET l b n : clean (processForwardLETSovereign cfg fuel l b n InTx).
Proof. unfold processForwardLETSovereign. clean_auto. Qed.
Lemma clean_processUnsetClaim u b n : clean (processUnsetClaimSovereign cfg fuel u b n InTx).
Proof. unfold processUnsetClaimSovereign. clean_auto. Qed.
Lemma clean_processSetClaim c b n : clean (processSetClaimSovereign cfg fuel c b n InTx).
Proof. unfold processSetClaimSovereign. clean_auto. Qed.

Lemma clean_bind_at {A B} (m : M (SyncState W) A) (f : A → M (SyncState W) B) (P : A → Prop) :
  clean m → keeps (sync_inv c0 true sh) m → (∀ y a y', m y = (Ok a, y') → P a) → (∀ a, P a → clean (f a)) →
  clean (m ≫= f).
Proof.
  intros Hm Hk HP Hf y Hy. specialize (Hm y Hy). specialize (Hk y Hy). unfold mbind, M_bind.
  destruct (m y) as [[a|e| |] y'] eqn:E; try done. apply Hf; [by eapply HP|done].
Qed.

Lemma event_at_elem {A} (l : list A) pos (y : SyncState W) a y' : event_at l pos y = (Ok a, y') → a ∈ l.
Proof.
  unfold event_at. case_decide; [done|]. intros [= E _]. apply at_index_Ok in E as [_ E].
  by eapply list_elem_of_lookup_2.
Qed.

Lemma clean_processOrder block b flags el :
  order_ok block el → clean (processOrder cfg fuel block b InTx flags el).
Proof.
  unfold order_ok, processOrder. destruct (o_Name el); intros Hok.
  { destruct Hok as [Hp Hl]. eapply (clean_bind_at _ _ (λ g, g ∈ b_GlobalExitRoots block)).
    - by apply clean_event_at.
    - keeps_auto.
    - intros y a y'. apply event_at_elem.
    - intros g Hg. rewrite Forall_forall in Hl. specialize (Hl g Hg).
      apply clean_bind; [by apply clean_processGlobalExitRoot|keeps_auto|intros; apply clean_mret]. }
  all: apply clean_bind; [by apply clean_event_at|keeps_auto|intros x];
    apply clean_bind; [|keeps_auto|intros; apply clean_mret];
    first [apply clean_processRemove|apply clean_processDeposit|apply clean_processClaim
          |apply clean_processTokenWrapped|apply clean_processVerifyBatch|apply clean_processUnsetClaim
          |apply clean_processBackwardLET|apply clean_processForwardLET|apply clean_processSetClaim].
Qed.

Lemma clean_processOrders block b els : ∀ flags,
  Forall (order_ok block) els → clean (processOrders cfg fuel block b InTx flags els).
Proof.
  induction els as [|el els IH]; intros flags Hok; [apply clean_mret|]. inversion Hok; subst.
  cbn [processOrders]. apply clean_bind; [by apply clean_processOrder|keeps_auto|]. intros fl. by apply IH.
Qed.

Lemma clean_commit : clean (or_rollback cfg fuel InTx (on_db (Commit InTx))).
Proof.
  intros y [Hdb Hsh]. unfold or_rollback, mbind, M_bind, attempt, on_db, zoom.
  destruct (Commit InTx (y_db y)) as [r db'] eqn:E. destruct r as [[]|e| |]; try done.
  apply clean_rollback. split; [|done]. eapply Commit_fails; done.
Qed.

Lemma clean_processBlock order flags block :
  Forall (order_ok block) (default [] (order !! b_BlockHash block)) →
  clean (processBlock cfg fuel order flags block).
Proof.
  intros Hok y Hy. unfold processBlock.
  assert (∃ y1, on_db BeginDBTransaction y = (Ok InTx, y1) ∧ sync_inv c0 true sh y1) as (y1 & E & Hy1).
  { destruct Hy as [[Hc Hf] Hsh]. unfold on_db, zoom, BeginDBTransaction, next_fault. rewrite (Hf eq_refl).
    eexists. split; [reflexivity|]. split; [|done]. split; [done|]. intros _. by apply Hf. }
  erewrite M_bind_Ok by exact E. clear E. revert y1 Hy1. apply clean_bind.
  { apply clean_or_rollback. keeps_auto. }
  { keeps_auto. }
  intros blockID. apply clean_bind.
  { apply clean_processOrders. by eapply Forall_impl. }
  { keeps_auto. }
  intros fl y1 Hy1. pose proof (clean_commit y1 Hy1) as Hcm. unfold mbind, M_bind.
  by destruct (or_rollback cfg fuel InTx (on_db (Commit InTx)) y1) as [[] ?].
Qed.

End Recovery.

(** C9: when the processing of a block returns an error, nothing is committed, whatever the
    block and whatever calls of the database fail.  When moreover no call of the database
    fails, and the block is one as the event reader returns it (its order points into its
    lists, and an exit root comes with no roots or with two), the handlers have rolled
    everything back: the transaction is closed, and the in-memory exit tree of the network
    is again the tree that is stored, although earlier events of the block may have appended
    leaves to it.  Without these conditions this is not so: a failing call of the database
    can leave another tree, and a block that is not as expected an open transaction. *)
Theorem processBlock_failure_recovers `{K : Keccak256} `{AbiToken} {W : Type} (cfg : SyncConfig) (fuel Ht tID : nat) (lds : list (Hash * Z))
    (order : gmap Hash (list Order)) (flags : bool * bool) (block : Block) (y y' : SyncState W) (e : error) (mt : MerkleTree) :
  (0 < fuel)%nat →
  stored Ht (cf_networkID cfg) lds (tables_view (db_committed (y_db y)) (db_seqs (y_db y))) →
  rht_functional (tables_view (db_committed (y_db y)) (db_seqs (y_db y))) →
  (0 < Ht ≤ 64)%nat → Z.of_nat (length lds) < 2 ^ 32 → (length lds ≤ 2 ^ Ht)%nat →
  bc_merkleTreeIDs (y_ctrl y) !! cf_networkID cfg = Some (Z.of_nat tID) →
  bc_exitTrees (y_ctrl y) !! tID = Some mt → mt_networkID mt = cf_networkID cfg → mt_height mt = Z.of_nat Ht →
  processBlock cfg fuel order flags block y = (Err e, y') →
  db_committed (y_db y') = db_committed (y_db y) ∧
  (db_faults (y_db y) = [] → Forall (order_ok block) (default [] (order !! b_BlockHash block)) →
   db_tx (y_db y') = None ∧
   ∃ mt', bc_exitTrees (y_ctrl y') !! tID = Some mt' ∧ tree_ok Ht (cf_networkID cfg) (fst <$> lds) mt').
Proof.
  intros Hfuel Hst Hfun Hht Hlen HlenH Hid Hmt Hnet Hh E. split.
  { pose proof (processBlock_keeps_err cfg fuel (db_committed (y_db y)) false (shape (y_ctrl y)) order flags block y) as Hk.
    rewrite E in Hk. by destruct Hk as [[Hk _] _]. }
  intros Hf Hok.
  pose proof (clean_processBlock (W := W) cfg fuel (db_committed (y_db y)) (shape (y_ctrl y)) Ht lds tID (db_seqs (y_db y))
                Hfuel Hst Hfun Hht Hlen HlenH Hid) as Hcl.
  assert ((shape (y_ctrl y)).2 !! tID = Some (cf_networkID cfg, Z.of_nat Ht)) as Hs.
  { simpl. rewrite list_lookup_fmap, Hmt. simpl. unfold tree_shape. by rewrite Hnet, Hh. }
  specialize (Hcl Hs order flags block Hok y). rewrite E in Hcl. apply Hcl. by split.
Qed.

(** A synchronizer of network 1 over the two leaves, and a block with two deposits
    that both claim to be the third: the first is appended, the second is refused. *)
Definition toy_abi : AbiToken := λ _, inr ("Token", "TOK", 18)%string.
Definition toy_cfg : SyncConfig := mkSyncConfig 1 0 100 1 [0; 1] false false 1.
Definition toy_ctrl : BridgeController :=
  mkBridgeController [toy_w2.2] (mkMerkleTree MaxInt32 3 0 []) {[1 := 0]}.
Definition toy_sync : SyncState unit := mkSyncState tt toy_w2.1 toy_ctrl false 0 0 0 [] [] [].
Definition toy_deposit (cnt : Z) : Deposit := mkDeposit 0 0 0 100 5 0 200 cnt 0 13 0 55 [1] false.
Definition toy_block : Block :=
  mkBlock 0 13 5005 0 [] [] [toy_deposit 2; toy_deposit 2] [] [] [] [] [] [] [].
Definition toy_order : gmap Hash (list Order) := {[5005 := [mkOrder DepositsOrder 0; mkOrder DepositsOrder 1]]}.

Lemma toy_sync_view :
  tables_view (db_committed (y_db toy_sync)) (db_seqs (y_db toy_sync)) = toy_view2.
Proof. by vm_compute. Qed.

Lemma processBlock_failure_recovers_witness :
  let r := processBlock (K := toy_keccak) (H := toy_abi) toy_cfg 1 toy_order (false, false) toy_block toy_sync in
  fst r = Err (Errorf "mismatched deposit count: %d, expected: %d") ∧
  db_committed (y_db (snd r)) = db_committed (y_db toy_sync) ∧ db_tx (y_db (snd r)) = None ∧
  ∃ mt', bc_exitTrees (y_ctrl (snd r)) !! 0%nat = Some mt' ∧
         tree_ok (K := toy_keccak) 3 (cf_networkID toy_cfg) (fst <$> toy_leaves) mt'.
Proof.
  intros r. split; [by vm_compute|].
  destruct (processBlock_failure_recovers (K := toy_keccak) (H := toy_abi) toy_cfg 1 3 0 toy_leaves toy_order (false, false)
    toy_block toy_sync (snd r) (Errorf "mismatched deposit count: %d, expected: %d") toy_w2.2) as [Hc Hr].
  - lia.
  - rewrite toy_sync_view. exact toy_stored2.
  - rewrite toy_sync_view. exact toy_functional2.
  - lia.
  - by vm_compute.
  - simpl. lia.
  - done.
  - done.
  - done.
  - done.
  - by vm_compute.
  - split; [exact Hc|]. apply Hr; [done|]. repeat constructor; simpl; lia.
Defined.

Lemma processBlockRange_prefix_witness :
  let r := processBlockRange (K := toy_keccak) (H := toy_abi) toy_cfg 1 [toy_block] toy_order toy_sync in
  ∃ k flags y'', (k ≤ 1)%nat ∧
    processBlocks (K := toy_keccak) (H := toy_abi) toy_cfg 1 toy_order (false, false) (take k [toy_block]) toy_sync
      = (Ok flags, y'') ∧
    db_committed (y_db (snd r)) = db_committed (y_db y'').
Proof.
  intros r. apply (processBlockRange_prefix (K := toy_keccak) (H := toy_abi) toy_cfg 1 [toy_block] toy_order toy_sync
                     (snd r) (fst r)). apply surjective_pairing.
Defined.

(** ** Reorganisations *)

Section Reorg.
Context {W : Type} `{ethermanInterface W} (cfg : SyncConfig).

(** The stored blocks of the network, newest first, as [GetPreviousBlock] returns them. *)
Definition stored_blocks (t : Tables) : list Block :=
  (λ r, mkBlock 0 (br_block_num r) (br_block_hash r) (br_network_id r) [] [] [] [] [] [] [] [] [] []) <$>
  sort_desc br_block_num (filter (λ r, br_network_id r = cf_networkID cfg) (t_block t)).

(** A block that needs no rollback: on the chain, or not above the genesis block. *)
Definition on_chain (chain : Z → Hash) (b : Block) : Prop :=
  chain (b_BlockNumber b) = b_BlockHash b ∨ b_BlockNumber b ≤ cf_genBlockNumber cfg.
#[global] Instance on_chain_dec chain b : Decision (on_chain chain b).
Proof. unfold on_chain. apply _. Defined.

(** The first block of the list that is on the chain, or the genesis block. *)
Definition first_on_chain (chain : Z → Hash) (l : list Block) : Block + Block :=
  match list_find (on_chain chain) l with
  | Some (_, b) => inr b
  | None => inl (emptyBlock (cf_genBlockNumber cfg) 0)
  end.

(** What the check answers when the last block is [latest]. *)
Definition reorg_answer (chain : Z → Hash) (latest : Block) (older : list Block) : option Block :=
  match first_on_chain chain (latest :: older) with
  | inl genesis => Some genesis
  | inr b => if decide (b_BlockHash latest ≠ b_BlockHash b) then Some b else None
  end.

Lemma GetPreviousBlock_lookup o (y : SyncState W) :
  db_faults (y_db y) = [] →
  attempt (on_db (GetPreviousBlock (cf_networkID cfg) (Z.of_nat o) NoTx)) y =
    (Ok (match stored_blocks (db_committed (y_db y)) !! o with
         | Some b => inr b | None => inl ErrStorageNotFound end), y).
Proof.
  intros Hf. unfold attempt, on_db, zoom, GetPreviousBlock, mbind, M_bind.
  rewrite (run_query_live NoTx _ (y_db y) (db_committed (y_db y))) by done.
  unfold stored_blocks, limit_offset. rewrite list_lookup_fmap. change (Z.to_nat 1) with 1%nat. rewrite Nat2Z.id.
  set (l := sort_desc _ _). rewrite <- (Nat.add_0_r o) at 2. rewrite <- lookup_drop.
  destruct (drop o l) as [|r l']; by destruct y.
Qed.

Lemma checkReorg_loop_spec (chain : Z → Hash) (y : SyncState W) :
  db_faults (y_db y) = [] →
  Z.of_nat (length (stored_blocks (db_committed (y_db y)))) < 2 ^ 63 →
  (∀ n w, HeaderByNumber (Some n) w = (Ok (mkHeader n (chain n)), w)) →
  ∀ n d b, (length (drop (S d) (stored_blocks (db_committed (y_db y)))) < n)%nat →
    Z.of_nat d ≤ Z.of_nat (length (stored_blocks (db_committed (y_db y)))) →
    checkReorg_loop cfg n b (Z.of_nat d) None y =
      (Ok (first_on_chain chain (b :: drop (S d) (stored_blocks (db_committed (y_db y))))), y).
Proof.
  intros Hf Hlen Hch. set (bs := stored_blocks (db_committed (y_db y))) in *.
  induction n as [|n IH]; intros d b Hn Hd; [lia|]. cbn [checkReorg_loop].
  erewrite (M_bind_Ok _ _ _ (emptyBlock (b_BlockNumber b) (chain (b_BlockNumber b))) y).
  2: { unfold chainBlock. erewrite M_bind_Ok by (unfold on_world, zoom; rewrite Hch; reflexivity).
       cbn [hd_Number]. rewrite decide_False by auto. unfold mret, M_ret. by destruct y. }
  cbn [b_BlockHash emptyBlock hd_Hash]. unfold first_on_chain. cbn [list_find].
  destruct (decide (on_chain chain b)) as [Hok|Hok].
  - rewrite decide_False; [done|]. unfold on_chain in Hok. lia.
  - rewrite decide_True by (unfold on_chain in Hok; lia).
    rewrite u64_id by lia. replace (Z.of_nat d + 1) with (Z.of_nat (S d)) by lia.
    erewrite M_bind_Ok by (by apply GetPreviousBlock_lookup). fold bs.
    destruct (bs !! S d) as [b'|] eqn:Eb.
    + pose proof (lookup_lt_Some _ _ _ Eb). rewrite (drop_S _ _ _ Eb) in Hn |- *. simpl in Hn.
      rewrite IH by lia. unfold first_on_chain. cbn [list_find].
      destruct (decide (on_chain chain b')); [done|]. by destruct (list_find _ (drop (S (S d)) bs)) as [[]|].
    + cbn [errors_Is]. rewrite bool_decide_eq_true_2 by done. cbn [orb].
      rewrite drop_ge by (by apply lookup_ge_None). done.
Qed.

End Reorg.

(** C12: against a chain that answers with the block [chain n] for every number, and
    with fuel for the blocks stored, [checkReorg] terminates and finds exactly the
    newest block that is still on the chain: it returns nothing when that is the last
    block, that block when it is an older one, and the genesis block when none is. *)
Theorem checkReorg_correct {W : Type} `{ethermanInterface W} (cfg : SyncConfig) (fuel : nat) (chain : Z → Hash)
    (latest : Block) (y : SyncState W) :
  db_faults (y_db y) = [] →
  Z.of_nat (length (stored_blocks cfg (db_committed (y_db y)))) < 2 ^ 63 →
  (length (stored_blocks cfg (db_committed (y_db y))) < fuel)%nat →
  (∀ n w, HeaderByNumber (Some n) w = (Ok (mkHeader n (chain n)), w)) →
  checkReorg cfg fuel latest None y =
    (Ok (reorg_answer cfg chain latest (drop 1 (stored_blocks cfg (db_committed (y_db y))))), y).
Proof.
  intros Hf Hlen Hfu Hch. unfold checkReorg, reorg_answer.
  erewrite M_bind_Ok by (apply (checkReorg_loop_spec cfg chain y Hf Hlen Hch fuel 0); [rewrite length_drop; lia|lia]).
  destruct (first_on_chain _ _ _); [done|]. by case_decide.
Qed.

(** The block 12 of network 1 was reorganised, block 11 was not. *)
Definition toy_chain (n : Z) : Hash := if decide (n = 12) then 9999 else 991 + n.
Definition toy_etherman : ethermanInterface unit := {|
  HeaderByNumber o := λ w, (Ok (mkHeader (default 12 o) (toy_chain (default 12 o))), w);
  GetRollupInfoByBlockRange _ _ := λ w, (Ok ([], ∅), w)
|}.

Lemma checkReorg_correct_witness :
  @checkReorg unit toy_etherman toy_cfg 5 (emptyBlock 12 1003) None toy_sync =
    (Ok (Some (mkBlock 0 11 1002 1 [] [] [] [] [] [] [] [] [] [])), toy_sync).
Proof.
  apply (@checkReorg_correct unit toy_etherman toy_cfg 5 toy_chain (emptyBlock 12 1003) toy_sync).
  - done.
  - by vm_compute.
  - vm_compute. lia.
  - by intros n [].
Defined.

(** ** Resetting to an earlier block *)

Section Steps.
Context {W : Type}.

Lemma on_db_eq {A} (c : M DB A) (y : SyncState W) r db' :
  c (y_db y) = (r, db') → on_db c y = (r, put_db db' y).
Proof. intros E. unfold on_db, zoom. by rewrite E. Qed.

Lemma or_rollback_Ok `{K : Keccak256} {A} cfg fuel tx (c : M (SyncState W) A) y a y' :
  c y = (Ok a, y') → or_rollback cfg fuel tx c y = (Ok a, y').
Proof. intros E. unfold or_rollback. by erewrite M_bind_Ok by (apply attempt_Ok, E). Qed.

(** A method of the tree of a network, through the controller. *)
Lemma on_ctrl_tree {A} net (tID : nat) (f : Z → M (DB * BridgeController) A) (g : M (DB * MerkleTree) A)
    (y : SyncState W) mt r db' mt' :
  (∀ w, f net w = (GetMerkleTreeID net ≫= λ i, on_tree i g) w) →
  bc_merkleTreeIDs (y_ctrl y) !! net = Some (Z.of_nat tID) → bc_exitTrees (y_ctrl y) !! tID = Some mt →
  g (y_db y, mt) = (r, (db', mt')) →
  on_ctrl (f net) y = (r, put_ctrl (db', set_exitTrees (<[tID := mt']> (bc_exitTrees (y_ctrl y))) (y_ctrl y)) y).
Proof.
  intros Ef Hid Hmt Eg. unfold on_ctrl, zoom. rewrite Ef. erewrite M_bind_Ok.
  2: { unfold GetMerkleTreeID. erewrite M_bind_Ok by reflexivity. cbn [snd]. rewrite Hid. reflexivity. }
  unfold on_tree. rewrite (at_index_nat _ _ _ Hmt), Nat2Z.id, Eg. done.
Qed.

End Steps.

(** C10: a reset to block [bound] deletes the newer blocks of the network with everything
    that hangs on them, and the exit tree, stored and in memory, becomes the tree of
    exactly the deposits in the blocks that stay. *)
Theorem resetState_correct `{K : Keccak256} {W : Type} (cfg : SyncConfig) (fuel Ht tID : nat)
    (lds : list (Hash * Z)) (bound : Z) (y : SyncState W) (mt : MerkleTree) :
  db_faults (y_db y) = [] →
  stored Ht (cf_networkID cfg) lds (tables_view (db_committed (y_db y)) (db_seqs (y_db y))) →
  rht_functional (tables_view (db_committed (y_db y)) (db_seqs (y_db y))) →
  deposit_log (cf_networkID cfg) lds (db_committed (y_db y)) →
  (0 < Ht ≤ 64)%nat → Z.of_nat (length lds) < 2 ^ 32 → (length lds ≤ 2 ^ Ht)%nat →
  bc_merkleTreeIDs (y_ctrl y) !! cf_networkID cfg = Some (Z.of_nat tID) →
  bc_exitTrees (y_ctrl y) !! tID = Some mt → mt_networkID mt = cf_networkID cfg → mt_height mt = Z.of_nat Ht →
  let t' := delete_blocks (late_block (cf_networkID cfg) bound) (db_committed (y_db y)) in
  ∃ c y' mt', resetState cfg fuel bound y = (Ok tt, y') ∧
    db_committed (y_db y') = t' ∧ db_tx (y_db y') = None ∧
    bc_exitTrees (y_ctrl y') !! tID = Some mt' ∧
    tree_ok Ht (cf_networkID cfg) (take c (fst <$> lds)) mt' ∧
    stored Ht (cf_networkID cfg) (take c lds) (tables_view t' (db_seqs (y_db y'))) ∧
    (∀ d, d ∈ t_deposit t' → dr_network_id d = cf_networkID cfg → 0 ≤ dr_deposit_cnt d < Z.of_nat c).
Proof.
  intros Hf Hst Hfun Hlog Hht Hlen HlenH Hid Hmt Hnet Hh t'.
  set (net := cf_networkID cfg) in *. set (c0 := db_committed (y_db y)) in *. set (sq := db_seqs (y_db y)) in *.
  destruct (late_suffix net lds c0 Hlog bound) as (c & Hc & Hgone).
  assert (stored Ht net (take c lds) (tables_view t' sq)) as Hst'.
  { apply (stored_ext _ _ _ (tables_view (delete_deposits (in_late_block net c0 bound) c0) sq)); [done..|].
    apply stored_delete; [done|apply Hlog|done]. }
  assert (rht_functional (tables_view t' sq)) as Hfun'.
  { pose proof (functional_delete c0 sq (in_late_block net c0 bound) Hfun) as Hfd. exact Hfd. }
  set (dbt := mkDB c0 (Some (TxActive t')) sq []).
  destruct (assignSiblings_Ok Ht net (take c lds) (tables_view t' sq) InTx dbt (set_count (Z.of_nat c) mt) c)
    as (mt' & Ea & Hok); [done|done|done|done|rewrite length_take; lia|lia|lia|done..|].
  rewrite fmap_take, take_take, Nat.min_id in Hok.
  set (y1 := put_db (set_tx (Some (TxActive c0)) (y_db y)) y).
  set (y2 := put_db dbt y1).
  set (y3 := put_ctrl (dbt, set_exitTrees (<[tID := mt']> (bc_exitTrees (y_ctrl y))) (y_ctrl y)) y2).
  exists c, (put_db (mkDB t' None sq []) y3), mt'. split; [|split; [|split; [|split; [|split; [|split]]]]].
  - unfold resetState. erewrite (M_bind_Ok _ _ _ InTx y1).
    2: { apply on_db_eq. unfold BeginDBTransaction, next_fault. by rewrite Hf. }
    erewrite (M_bind_Ok _ _ _ tt y2).
    2: { apply or_rollback_Ok. rewrite (on_db_eq _ _ (Ok tt) dbt); [done|]. unfold Reset.
         rewrite (run_live InTx _ _ c0 tt t' sq); [|done|done|done]. unfold with_tables, dbt. cbn. by rewrite Hf. }
    erewrite (M_bind_Ok _ _ _ (Z.of_nat c) y2).
    2: { apply or_rollback_Ok. rewrite (on_db_eq _ _ (Ok (Z.of_nat c)) dbt); [done|]. unfold GetNumberDeposits.
         erewrite M_bind_Ok by (apply (run_query_live InTx _ dbt t'); done).
         pose proof (count_after_reset net lds c0 Hlog bound c Hc Hgone) as Hcnt.
         change (after_reset net c0 bound) with t' in Hcnt. fold net. rewrite Hcnt.
         unfold mret, M_ret. rewrite u32_id by lia. do 2 f_equal. lia. }
    erewrite (M_bind_Ok _ _ _ tt y3).
    2: { apply or_rollback_Ok.
         apply (on_ctrl_tree net tID (λ n, ReorgMT (Z.of_nat c) n InTx) (resetLeaf (Z.of_nat c) InTx) y2 mt (Ok tt) dbt mt');
           [done..|]. unfold resetLeaf. erewrite M_bind_Ok by reflexivity. exact Ea. }
    apply or_rollback_Ok. by rewrite (on_db_eq _ _ (Ok tt) (mkDB t' None sq [])).
  - done.
  - done.
  - cbn. rewrite list_lookup_insert_eq; [done|]. by eapply lookup_lt_Some.
  - done.
  - done.
  - intros d Hd Hn. apply after_deposits in Hd as [Hd Hnl].
    destruct (dl_leaf _ _ _ Hlog d Hd Hn) as (i & p & Hi & Eid & ->).
    pose proof (not_late_index net lds c0 Hlog bound c Hgone d i p Hd Hi Eid Hnl). lia.
Qed.

(** Three leaves in the blocks 10, 11 and 12, reset to block 10. *)
Definition toy_sync3 : SyncState unit :=
  mkSyncState tt toy_w3.1 (mkBridgeController [toy_w3.2] (mkMerkleTree MaxInt32 3 0 []) {[1 := 0]}) false 0 0 0 [] [] [].

Lemma toy_log : deposit_log 1 toy_leaves3 toy_tables.
Proof.
  assert (∀ d, d ∈ t_deposit toy_tables →
    (d = toy_deposit_row 1 0 1 ∨ d = toy_deposit_row 2 1 2 ∨ d = toy_deposit_row 3 2 3)) as Hd.
  { intros d. change (t_deposit toy_tables) with [toy_deposit_row 1 0 1; toy_deposit_row 2 1 2; toy_deposit_row 3 2 3].
    rewrite !elem_of_cons, elem_of_nil. tauto. }
  assert (∀ b, b ∈ t_block toy_tables → b ∈ toy_blocks) as Hb by done.
  assert (∀ b, b ∈ toy_blocks → br_block_num b = br_id b + 9) as Hnum.
  { intros b. unfold toy_blocks. rewrite !elem_of_cons, elem_of_nil. intros [-> | [-> | [-> | []]]]; done. }
  constructor.
  - apply (bool_decide_unpack _). by vm_compute.
  - apply (bool_decide_unpack _). by vm_compute.
  - intros d [-> | [-> | ->]]%Hd _; [by exists 0%nat, (111, 1)|by exists 1%nat, (222, 2)|by exists 2%nat, (333, 3)].
  - intros i p Hi. destruct i as [|[|[|i]]]; simpl in Hi; simplify_eq.
    + exists (toy_deposit_row 1 0 1). split; [left|done].
    + exists (toy_deposit_row 2 1 2). split; [right; left|done].
    + exists (toy_deposit_row 3 2 3). split; [right; right; left|done].
  - intros d [-> | [-> | ->]]%Hd _.
    + exists (mk_block_row 1 10 1001 1). split; [left|done].
    + exists (mk_block_row 2 11 1002 1). split; [right; left|done].
    + exists (mk_block_row 3 12 1003 1). split; [right; right; left|done].
  - intros d1 d2 b1 b2 Hd1%Hd Hd2%Hd Hb1%Hb%Hnum Hb2%Hb%Hnum _ _ E1 E2 Hle. rewrite Hb1, Hb2, E1, E2.
    destruct Hd1 as [-> | [-> | ->]], Hd2 as [-> | [-> | ->]]; simpl in *; lia.
Qed.

Lemma resetState_correct_witness :
  let t' := delete_blocks (late_block 1 10) (db_committed (y_db toy_sync3)) in
  ∃ c y' mt', resetState (K := toy_keccak) toy_cfg 1 10 toy_sync3 = (Ok tt, y') ∧
    db_committed (y_db y') = t' ∧ db_tx (y_db y') = None ∧
    bc_exitTrees (y_ctrl y') !! 0%nat = Some mt' ∧
    tree_ok (K := toy_keccak) 3 1 (take c (fst <$> toy_leaves3)) mt' ∧
    stored (K := toy_keccak) 3 1 (take c toy_leaves3) (tables_view t' (db_seqs (y_db y'))) ∧
    (∀ d, d ∈ t_deposit t' → dr_network_id d = 1 → 0 ≤ dr_deposit_cnt d < Z.of_nat c).
Proof.
  apply (resetState_correct (K := toy_keccak) toy_cfg 1 3 0 toy_leaves3 10 toy_sync3 toy_w3.2).
  - done.
  - change (stored (K := toy_keccak) 3 1 toy_leaves3 (tables_view (db_committed toy_w3.1) (db_seqs toy_w3.1))).
    rewrite toy_view3_eq. exact toy_stored3.
  - change (rht_functional (tables_view (db_committed toy_w3.1) (db_seqs toy_w3.1))).
    rewrite toy_view3_eq. exact toy_functional3.
  - destruct toy_log. by constructor.
  - lia.
  - by vm_compute.
  - simpl. lia.
  - done.
  - done.
  - done.
  - done.
Defined.
