(* ===== verification/Etherman.v ===== *)
(** * The events of the contracts (etherman/etherman.go)

    [readEvents] turns the logs of a block range into blocks with lists of events, one
    list per kind, and an order per block that says in which sequence the events
    happened.  The node ([ethClienter]) and the decoding of logs by the generated
    contract bindings and by the ABI package ([Bindings]) are parameters. *)
From S2P Require Import Prelude Types Bytes Hash GlobalIndex MerkleSpec ClaimTypes Schema MerkleStore.
From S2P Require Import Storage PgMerkleStore MerkleTree BridgeCtrl Synchronizer.

(** The fields of go-ethereum's [types.Log] that the source reads. *)
Record Log := mkLog {
  lg_Topics : list Hash;
  lg_Data : bytes;
  lg_BlockNumber : Z;
  lg_BlockHash : Hash;
  lg_TxHash : Hash
}.

(** ** The generated bindings *)

Record BridgeEvent := mkBridgeEvent {
  be_LeafType : Z; be_OriginNetwork : Z; be_OriginAddress : Address; be_DestinationNetwork : Z;
  be_DestinationAddress : Address; be_Amount : Z; be_Metadata : bytes; be_DepositCount : Z }.
Record OldClaimEvent := mkOldClaimEvent {
  oc_Index : Z; oc_OriginNetwork : Z; oc_OriginAddress : Address; oc_DestinationAddress : Address; oc_Amount : Z }.
Record NewClaimEvent := mkNewClaimEvent {
  nc_GlobalIndex : Z; nc_OriginNetwork : Z; nc_OriginAddress : Address; nc_DestinationAddress : Address; nc_Amount : Z }.
Record NewWrappedToken := mkNewWrappedToken {
  nw_OriginNetwork : Z; nw_OriginTokenAddress : Address; nw_WrappedTokenAddress : Address }.
Record VerifyBatches := mkVerifyBatches {
  vb_RollupID : Z; vb_NumBatch : Z; vb_StateRoot : Hash; vb_ExitRoot : Hash; vb_Aggregator : Address }.
Record LETEvent := mkLETEvent {
  le_PreviousDepositCount : Z; le_PreviousRoot : Hash; le_NewDepositCount : Z; le_NewRoot : Hash; le_NewLeaves : bytes }.

(** What the ABI package unpacks: a slice, here of leaves that [abi.ConvertType] turns
    into [LeafData], or a value of another kind. *)
Inductive abi_value :=
| AbiSlice (leaves : list LeafData)
| AbiOther.

Class Bindings := {
  ParseUpdateRemovalHashChainValue : Log → result Hash;
  ParseUpdateHashChainValue : Log → result Hash;
  ParseUpdateL1InfoTree : Log → result (Hash * Hash);
  ParseBridgeEvent : Log → result BridgeEvent;
  ParseClaimEventOld : Log → result OldClaimEvent;
  ParseClaimEvent : Log → result NewClaimEvent;
  ParseNewWrappedToken : Log → result NewWrappedToken;
  ParseVerifyBatchesTrustedAggregator : Log → result VerifyBatches;
  ParseVerifyBatches : Log → result VerifyBatches;
  ParseUpdatedUnsetGlobalIndexHashChain : Log → result bytes;
  ParseSetClaim : Log → result bytes;
  ParseBackwardLET : Log → result LETEvent;
  ParseForwardLET : Log → result LETEvent;
  (** [abi.NewType] and [abi.Arguments.UnpackValues] at the type of the leaves, one
      [tuple[]] with the fields of [LeafData]. *)
  NewTypeLeaves : result ();
  UnpackValues : bytes → result (list abi_value)
}.

(** The node: [FilterLogs] with the bounds of the range, the contracts and the topics. *)
Record FilterQuery := mkFilterQuery {
  fq_FromBlock : Z; fq_ToBlock : option Z; fq_Addresses : list Address; fq_Topics : list Hash }.
Class ethClienter (W : Type) := {
  FilterLogs : FilterQuery → M W (list Log);
  ClientHeaderByNumber : option Z → M W Header
}.

(** ** Events *)

Inductive Event :=
| EvGlobalExitRoot (g : GlobalExitRoot)
| EvRemoveL2GER (g : GlobalExitRoot)
| EvDeposit (d : Deposit)
| EvClaim (c : Claim)
| EvToken (t : TokenWrapped)
| EvVerifiedBatch (v : VerifiedBatch)
| EvUnsetClaim (u : UnsetClaim)
| EvSetClaim (c : SetClaim)
| EvBackwardLET (l : BackwardLET)
| EvForwardLET (l : ForwardLET).

Definition event_name (e : Event) : EventOrder :=
  match e with
  | EvGlobalExitRoot _ => GlobalExitRootsOrder
  | EvRemoveL2GER _ => RemoveL2GEROrder
  | EvDeposit _ => DepositsOrder
  | EvClaim _ => ClaimsOrder
  | EvToken _ => TokensOrder
  | EvVerifiedBatch _ => VerifyBatchOrder
  | EvUnsetClaim _ => UnsetClaimOrder
  | EvSetClaim _ => SetClaimOrder
  | EvBackwardLET _ => BackwardLETOrder
  | EvForwardLET _ => ForwardLETOrder
  end.

(** The length of the list of a block that holds the events with this name. *)
Definition event_count (n : EventOrder) (b : Block) : nat :=
  match n with
  | GlobalExitRootsOrder => length (b_GlobalExitRoots b)
  | RemoveL2GEROrder => length (b_RemoveL2GER b)
  | DepositsOrder => length (b_Deposits b)
  | ClaimsOrder => length (b_Claims b)
  | TokensOrder => length (b_Tokens b)
  | VerifyBatchOrder => length (b_VerifiedBatches b)
  | UnsetClaimOrder => length (b_UnsetClaims b)
  | SetClaimOrder => length (b_SetClaims b)
  | BackwardLETOrder => length (b_BackwardLETs b)
  | ForwardLETOrder => length (b_ForwardLETs b)
  end.

(** [block.Xs = append(block.Xs, x)]. *)
Definition put_event (e : Event) (b : Block) : Block :=
  let '(mkBlock id n h net ger rem dep cl tok vb uc sc bl fl) := b in
  match e with
  | EvGlobalExitRoot g => mkBlock id n h net (ger ++ [g]) rem dep cl tok vb uc sc bl fl
  | EvRemoveL2GER g => mkBlock id n h net ger (rem ++ [g]) dep cl tok vb uc sc bl fl
  | EvDeposit d => mkBlock id n h net ger rem (dep ++ [d]) cl tok vb uc sc bl fl
  | EvClaim c => mkBlock id n h net ger rem dep (cl ++ [c]) tok vb uc sc bl fl
  | EvToken t => mkBlock id n h net ger rem dep cl (tok ++ [t]) vb uc sc bl fl
  | EvVerifiedBatch v => mkBlock id n h net ger rem dep cl tok (vb ++ [v]) uc sc bl fl
  | EvUnsetClaim u => mkBlock id n h net ger rem dep cl tok vb (uc ++ [u]) sc bl fl
  | EvSetClaim c => mkBlock id n h net ger rem dep cl tok vb uc (sc ++ [c]) bl fl
  | EvBackwardLET l => mkBlock id n h net ger rem dep cl tok vb uc sc (bl ++ [l]) fl
  | EvForwardLET l => mkBlock id n h net ger rem dep cl tok vb uc sc bl (fl ++ [l])
  end.

(** The variables [blocks] and [blocksOrder]. *)
Definition Events : Type := list Block * gmap Hash (list Order).

(** The second half of every handler: the event goes into the last block when that is
    the block of the log and into a new block otherwise, and its position is appended to
    the order of the block.  (The last [else] of the source cannot be reached.) *)
Definition appendEvent (e : Event) (vLog : Log) (st : Events) : Events :=
  let '(blocks, blocksOrder) := st in
  let new := put_event e (emptyBlock (lg_BlockNumber vLog) (lg_BlockHash vLog)) in
  let blocks :=
    match last blocks with
    | None => blocks ++ [new]
    | Some b =>
        if decide (b_BlockHash b ≠ lg_BlockHash vLog ∨ b_BlockNumber b ≠ lg_BlockNumber vLog) then blocks ++ [new]
        else take (length blocks - 1) blocks ++ [put_event e b]
    end in
  match last blocks with
  | None => (blocks, blocksOrder)
  | Some b =>
      let or := mkOrder (event_name e) (Z.of_nat (event_count (event_name e) b) - 1) in
      (blocks, <[b_BlockHash b := default [] (blocksOrder !! b_BlockHash b) ++ [or]]> blocksOrder)
  end.

Section Etherman.
Context `{K : Keccak256} {HB : Bindings}.

(** ** The handlers *)

Definition handler : Type := Log → Events → result Events.

Definition removeL2GER (removedGlobalExitRoot : Hash) (vLog : Log) (st : Events) : result Events :=
  Ok (appendEvent (EvRemoveL2GER (mkGlobalExitRoot 0 (lg_BlockNumber vLog) [] removedGlobalExitRoot 0 0)) vLog st).
Definition updateRemovalHashSovereignChainValue : handler := λ vLog st,
  removed ← ParseUpdateRemovalHashChainValue vLog; removeL2GER removed vLog st.

Definition addSovereignChainL2GER (newGlobalExitRoot : Hash) (vLog : Log) (st : Events) : result Events :=
  Ok (appendEvent (EvGlobalExitRoot (mkGlobalExitRoot 0 (lg_BlockNumber vLog) [] newGlobalExitRoot 0 0)) vLog st).
Definition updateHashSovereignChainValue : handler := λ vLog st,
  new ← ParseUpdateHashChainValue vLog; addSovereignChainL2GER new vLog st.

Definition processUpdateGlobalExitRootEvent (mainnetExitRoot rollupExitRoot : Hash) (vLog : Log) (st : Events) : result Events :=
  Ok (appendEvent (EvGlobalExitRoot (mkGlobalExitRoot 0 (lg_BlockNumber vLog) [mainnetExitRoot; rollupExitRoot]
        (HashN [mainnetExitRoot; rollupExitRoot]) 0 0)) vLog st).
Definition updateGlobalExitRootEvent : handler := λ vLog st,
  mainnet ← at_index (lg_Topics vLog) 1;
  rollup ← at_index (lg_Topics vLog) 2;
  processUpdateGlobalExitRootEvent mainnet rollup vLog st.
Definition updateL1InfoTreeEvent : handler := λ vLog st,
  '(mainnet, rollup) ← ParseUpdateL1InfoTree vLog;
  processUpdateGlobalExitRootEvent mainnet rollup vLog st.

Definition depositEvent : handler := λ vLog st,
  d ← ParseBridgeEvent vLog;
  Ok (appendEvent (EvDeposit (mkDeposit 0 (be_LeafType d) (be_OriginNetwork d) (be_OriginAddress d) (be_Amount d)
        (be_DestinationNetwork d) (be_DestinationAddress d) (be_DepositCount d) 0 (lg_BlockNumber vLog) 0
        (lg_TxHash vLog) (be_Metadata d) false)) vLog st).

Definition claimEvent (vLog : Log) (amount : Z) (destinationAddress originAddress : Address)
    (Index originNetwork rollupIndex : Z) (mainnetFlag : bool) (globalIndex : string) (st : Events) : result Events :=
  Ok (appendEvent (EvClaim (mkClaim mainnetFlag rollupIndex Index originNetwork originAddress amount destinationAddress 0
        (lg_BlockNumber vLog) 0 (lg_TxHash vLog) globalIndex)) vLog st).
Definition oldClaimEvent : handler := λ vLog st,
  c ← ParseClaimEventOld vLog;
  claimEvent vLog (oc_Amount c) (oc_DestinationAddress c) (oc_OriginAddress c) (oc_Index c) (oc_OriginNetwork c) 0 false "" st.
Definition newClaimEvent : handler := λ vLog st,
  c ← ParseClaimEvent vLog;
  '(mainnetFlag, rollupIndex, localExitRootIndex) ← DecodeGlobalIndex (nc_GlobalIndex c);
  claimEvent vLog (nc_Amount c) (nc_DestinationAddress c) (nc_OriginAddress c) localExitRootIndex (nc_OriginNetwork c)
    rollupIndex mainnetFlag (pretty (nc_GlobalIndex c)) st.

Definition tokenWrappedEvent : handler := λ vLog st,
  tw ← ParseNewWrappedToken vLog;
  Ok (appendEvent (EvToken (mkTokenWrapped (mkTokenMetadata "" "" 0) (nw_OriginNetwork tw) (nw_OriginTokenAddress tw)
        (nw_WrappedTokenAddress tw) 0 (lg_BlockNumber vLog) 0)) vLog st).

Definition verifyBatches (vLog : Log) (rollupID batchNum : Z) (stateRoot localExitRoot : Hash) (aggregator : Address)
    (st : Events) : result Events :=
  Ok (appendEvent (EvVerifiedBatch (mkVerifiedBatch (lg_BlockNumber vLog) batchNum rollupID localExitRoot (lg_TxHash vLog) stateRoot
        aggregator)) vLog st).
Definition verifyBatchesTrustedAggregatorEvent : handler := λ vLog st,
  vb ← ParseVerifyBatchesTrustedAggregator vLog;
  verifyBatches vLog (vb_RollupID vb) (vb_NumBatch vb) (vb_StateRoot vb) (vb_ExitRoot vb) (vb_Aggregator vb) st.
Definition verifyBatchesEvent : handler := λ vLog st,
  vb ← ParseVerifyBatches vLog;
  verifyBatches vLog (vb_RollupID vb) (vb_NumBatch vb) (vb_StateRoot vb) (vb_ExitRoot vb) (vb_Aggregator vb) st.

Definition unsetClaimSovereignEvent : handler := λ vLog st,
  unsetGlobalIndex ← ParseUpdatedUnsetGlobalIndexHashChain vLog;
  let globalIndex := SetBytes unsetGlobalIndex in
  '(mainnetFlag, rollupIndex, localRootIndex) ← DecodeGlobalIndex globalIndex;
  Ok (appendEvent (EvUnsetClaim (mkUnsetClaim 0 mainnetFlag rollupIndex localRootIndex globalIndex)) vLog st).

Definition setClaimSovereignEvent : handler := λ vLog st,
  setGlobalIndex ← ParseSetClaim vLog;
  let globalIndex := SetBytes setGlobalIndex in
  '(mainnetFlag, rollupIndex, localRootIndex) ← DecodeGlobalIndex globalIndex;
  Ok (appendEvent (EvSetClaim (mkSetClaim 0 mainnetFlag rollupIndex localRootIndex globalIndex (lg_TxHash vLog))) vLog st).

(** [uint32(x.Uint64())] keeps the low bits. *)
Definition backwardLETSovereignEvent : handler := λ vLog st,
  l ← ParseBackwardLET vLog;
  Ok (appendEvent (EvBackwardLET (mkBackwardLET 0 (u32 (u64 (le_PreviousDepositCount l))) (le_PreviousRoot l)
        (u32 (u64 (le_NewDepositCount l))) (le_NewRoot l))) vLog st).

Definition wrap_error {A} (msg : string) (r : result A) : result A :=
  match r with Err e => Err (Wrapf msg e) | _ => r end.
Definition decodeForwardLETLeaves (rawLeaves : bytes) : result (list LeafData) :=
  _ ← wrap_error "NewType: %w" NewTypeLeaves;
  decoded ← wrap_error "UnpackValues: %w" (UnpackValues rawLeaves);
  if negb (Nat.eqb (length decoded) 1) then Err (Errorf "esperado 1 valor top-level, tengo %d") else
  match decoded with
  | AbiSlice leaves :: _ => Ok leaves
  | _ => Err (Errorf "esperaba slice, tengo %T (kind %s)")
  end.
Definition forwardLETSovereignEvent : handler := λ vLog st,
  l ← ParseForwardLET vLog;
  newLeaves ← decodeForwardLETLeaves (le_NewLeaves l);
  Ok (appendEvent (EvForwardLET (mkForwardLET 0 (u32 (u64 (le_PreviousDepositCount l))) (le_PreviousRoot l)
        (u32 (u64 (le_NewDepositCount l))) (le_NewRoot l) (le_NewLeaves l) newLeaves (lg_TxHash vLog))) vLog st).

(** ** Dispatch *)

(** [crypto.Keccak256Hash([]byte(s))]. *)
Definition signatureHash (s : string) : Hash := keccak256 ((λ a, Z.of_nat (Ascii.nat_of_ascii a)) <$> String.list_ascii_of_string s).

(** The cases of the switch in their order, with their handlers; the others are ignored. *)
Definition eventCases : list (string * option handler) :=
  [("UpdateGlobalExitRoot(bytes32,bytes32)", Some updateGlobalExitRootEvent);
   ("UpdateL1InfoTree(bytes32,bytes32)", Some updateL1InfoTreeEvent);
   ("BridgeEvent(uint8,uint32,address,uint32,address,uint256,bytes,uint32)", Some depositEvent);
   ("ClaimEvent(uint256,uint32,address,address,uint256)", Some newClaimEvent);
   ("ClaimEvent(uint32,uint32,address,address,uint256)", Some oldClaimEvent);
   ("NewWrappedToken(uint32,address,address,bytes)", Some tokenWrappedEvent);
   ("Initialized(uint8)", None);
   ("AdminChanged(address,address)", None);
   ("BeaconUpgraded(address)", None);
   ("Upgraded(address)", None);
   ("OwnershipTransferred(address,address)", None);
   ("SetBatchFee(uint256)", None);
   ("SetTrustedAggregator(address)", None);
   ("SetVerifyBatchTimeTarget(uint64)", None);
   ("SetMultiplierBatchFee(uint16)", None);
   ("SetPendingStateTimeout(uint64)", None);
   ("SetTrustedAggregatorTimeout(uint64)", None);
   ("OverridePendingState(uint32,uint64,bytes32,bytes32,address)", None);
   ("ProveNonDeterministicPendingState(bytes32,bytes32)", None);
   ("ConsolidatePendingState(uint32,uint64,bytes32,bytes32,uint64)", None);
   ("VerifyBatchesTrustedAggregator(uint32,uint64,bytes32,bytes32,address)", Some verifyBatchesTrustedAggregatorEvent);
   ("VerifyBatches(uint32,uint64,bytes32,bytes32,address)", Some verifyBatchesEvent);
   ("OnSequenceBatches(uint32,uint64)", None);
   ("UpdateRollup(uint32,uint32,uint64)", None);
   ("AddExistingRollup(uint32,uint64,address,uint64,uint8,uint64)", None);
   ("CreateNewRollup(uint32,uint32,address,uint64,address)", None);
   ("ObsoleteRollupType(uint32)", None);
   ("AddNewRollupType(uint32,address,address,uint64,uint8,bytes32,string)", None);
   ("Initialized(uint64)", None);
   ("RoleAdminChanged(bytes32,bytes32,bytes32)", None);
   ("RoleGranted(bytes32,address,address)", None);
   ("RoleRevoked(bytes32,address,address)", None);
   ("EmergencyStateActivated()", None);
   ("EmergencyStateDeactivated()", None);
   ("VerifyBatchesTrustedAggregator(uint64,bytes32,address)", None);
   ("UpdateZkEVMVersion(uint64,uint64,string)", None);
   ("ConsolidatePendingState(uint64,bytes32,uint64)", None);
   ("OverridePendingState(uint64,bytes32,address)", None);
   ("SequenceBatches(uint64)", None);
   ("SetForceBatchTimeout(uint64)", None);
   ("SetTrustedSequencerURL(string)", None);
   ("SetTrustedSequencer(address)", None);
   ("VerifyBatches(uint64,bytes32,address)", None);
   ("SequenceForceBatches(uint64)", None);
   ("ForceBatch(uint64,bytes32,address,bytes)", None);
   ("SequenceBatches(uint64,bytes32)", None);
   ("AcceptAdminRole(address)", None);
   ("TransferAdminRole(address)", None);
   ("UpdateHashChainValue(bytes32,bytes32)", Some updateHashSovereignChainValue);
   ("UpdateRemovalHashChainValue(bytes32,bytes32)", Some updateRemovalHashSovereignChainValue);
   ("SetBridgeManager(address)", None);
   ("SetSovereignTokenAddress(uint32,address,address,bool)", None);
   ("MigrateLegacyToken(address,address,address,uint256)", None);
   ("RemoveLegacySovereignTokenAddress(address)", None);
   ("SetSovereignWETHAddress(address,bool)", None);
   ("AcceptGlobalExitRootUpdater(address,address)", None);
   ("AcceptGlobalExitRootRemover(address,address)", None);
   ("TransferGlobalExitRootRemover(address,address)", None);
   ("TransferGlobalExitRootUpdater(address,address)", None);
   ("AcceptEmergencyBridgePauserRole(address,address)", None);
   ("AcceptEmergencyBridgeUnpauserRole(address,address)", None);
   ("BackwardLET(uint256,bytes32,uint256,bytes32)", Some backwardLETSovereignEvent);
   ("DetailedClaimEventDetailedClaimEvent(bytes32[32],bytes32[32],uint256,bytes32,bytes32,uint8,uint32,address,uint32,address,uint256,bytes)", None);
   ("ForwardLET(uint256,bytes32,uint256,bytes32,bytes)", Some forwardLETSovereignEvent);
   ("SetClaim(bytes32)", Some setClaimSovereignEvent);
   ("SetLocalBalanceTree(uint32,address,uint256)", None);
   ("TransferEmergencyBridgePauserRole(address,address)", None);
   ("TransferEmergencyBridgeUnpauserRole(address,address)", None);
   ("UpdatedClaimedGlobalIndexHashChain(bytes32,bytes32)", None);
   ("UpdatedUnsetGlobalIndexHashChain(bytes32,bytes32)", Some unsetClaimSovereignEvent);
   ("AcceptProxiedTokensManagerRole(address,address)", None);
   ("TransferProxiedTokensManagerRole(address,address)", None);
   ("SetGlobalExitRootRemover(address)", None);
   ("SetGlobalExitRootUpdater(address)", None);
   ("UnsetClaim(uint32,uint32)", None)].

(** The first case of the switch that matches; an unknown event is ignored too. *)
Definition processEvent (vLog : Log) (st : Events) : result Events :=
  topic ← at_index (lg_Topics vLog) 0;
  match list_find (λ c, signatureHash c.1 = topic) eventCases with
  | Some (_, (_, Some h)) => h vLog st
  | _ => Ok st
  end.

Definition readEvents {W} `{ethClienter W} (query : FilterQuery) : M W Events :=
  logs ← FilterLogs query;
  lift (fold_result (λ st vLog, processEvent vLog st) ([], ∅) logs).

(** The topics the source asks for. *)
Definition queryTopics : list Hash :=
  signatureHash <$>
    ["UpdateGlobalExitRoot(bytes32,bytes32)";
     "UpdateL1InfoTree(bytes32,bytes32)";
     "BridgeEvent(uint8,uint32,address,uint32,address,uint256,bytes,uint32)";
     "ClaimEvent(uint256,uint32,address,address,uint256)";
     "ClaimEvent(uint32,uint32,address,address,uint256)";
     "NewWrappedToken(uint32,address,address,bytes)";
     "VerifyBatchesTrustedAggregator(uint32,uint64,bytes32,bytes32,address)";
     "VerifyBatches(uint32,uint64,bytes32,bytes32,address)";
     "UpdateHashChainValue(bytes32,bytes32)";
     "UpdateRemovalHashChainValue(bytes32,bytes32)";
     "BackwardLET(uint256,bytes32,uint256,bytes32)";
     "ForwardLET(uint256,bytes32,uint256,bytes32,bytes)";
     "SetClaim(bytes32)";
     "UpdatedUnsetGlobalIndexHashChain(bytes32,bytes32)"]%string.

Definition Client_GetRollupInfoByBlockRange {W} `{ethClienter W} (SCAddresses : list Address) (fromBlock : Z)
    (toBlock : option Z) : M W Events :=
  readEvents (mkFilterQuery fromBlock toBlock SCAddresses queryTopics).

(** The client is what the synchronizer needs of the chain. *)
Definition etherman_Client {W} `{ethClienter W} (SCAddresses : list Address) : ethermanInterface W := {|
  HeaderByNumber := ClientHeaderByNumber;
  GetRollupInfoByBlockRange fromBlock toBlock := Client_GetRollupInfoByBlockRange SCAddresses fromBlock (Some toBlock)
|}.

End Etherman.
