(* ===== verification/EthermanTheorems.v ===== *)
(** * The theorems of the event reader

    For logs that come block by block, the blocks and their orders replay the events of
    the logs in their order; the order of every block points into its lists. *)
From S2P Require Import Prelude Types Bytes Hash GlobalIndex MerkleSpec ClaimTypes Schema MerkleStore.
From S2P Require Import Storage PgMerkleStore MerkleTree BridgeCtrl Synchronizer Etherman.
From S2P Require Import SyncTheorems Toy.

Definition at_pos {A} (pos : Z) (l : list A) : option A := if decide (0 ≤ pos) then l !! Z.to_nat pos else None.

(** The event an element of an order stands for. *)
Definition event_lookup (b : Block) (el : Order) : option Event :=
  match o_Name el with
  | GlobalExitRootsOrder => EvGlobalExitRoot <$> at_pos (o_Pos el) (b_GlobalExitRoots b)
  | RemoveL2GEROrder => EvRemoveL2GER <$> at_pos (o_Pos el) (b_RemoveL2GER b)
  | DepositsOrder => EvDeposit <$> at_pos (o_Pos el) (b_Deposits b)
  | ClaimsOrder => EvClaim <$> at_pos (o_Pos el) (b_Claims b)
  | TokensOrder => EvToken <$> at_pos (o_Pos el) (b_Tokens b)
  | VerifyBatchOrder => EvVerifiedBatch <$> at_pos (o_Pos el) (b_VerifiedBatches b)
  | UnsetClaimOrder => EvUnsetClaim <$> at_pos (o_Pos el) (b_UnsetClaims b)
  | SetClaimOrder => EvSetClaim <$> at_pos (o_Pos el) (b_SetClaims b)
  | BackwardLETOrder => EvBackwardLET <$> at_pos (o_Pos el) (b_BackwardLETs b)
  | ForwardLETOrder => EvForwardLET <$> at_pos (o_Pos el) (b_ForwardLETs b)
  end.

(** The events of a block in the order the synchronizer processes them. *)
Definition replay (order : gmap Hash (list Order)) (b : Block) : option (list Event) :=
  mapM (event_lookup b) (default [] (order !! b_BlockHash b)).

(** A global exit root event carries no exit root or both. *)
Definition event_wf (e : Event) : Prop :=
  match e with
  | EvGlobalExitRoot g => length (g_ExitRoots g) = 0%nat ∨ length (g_ExitRoots g) = 2%nat
  | _ => True
  end.
Definition block_wf (b : Block) : Prop :=
  Forall (λ g, length (g_ExitRoots g) = 0%nat ∨ length (g_ExitRoots g) = 2%nat) (b_GlobalExitRoots b).

Lemma put_event_id e b : b_BlockHash (put_event e b) = b_BlockHash b ∧ b_BlockNumber (put_event e b) = b_BlockNumber b.
Proof. by destruct b, e. Qed.

Lemma put_event_wf e b : event_wf e → block_wf b → block_wf (put_event e b).
Proof. destruct b, e; unfold block_wf; simpl; try done. intros He Hb. apply Forall_app. eauto using Forall_cons, Forall_nil. Qed.

(** The last event of a list is found at its new position ... *)
Lemma event_lookup_put e b :
  event_lookup (put_event e b)
    (mkOrder (event_name e) (Z.of_nat (event_count (event_name e) (put_event e b)) - 1)) = Some e.
Proof.
  assert (∀ {A} (l : list A) x, at_pos (Z.of_nat (length (l ++ [x])) - 1) (l ++ [x]) = Some x) as Hl.
  { intros A l x. unfold at_pos. rewrite length_app. simpl length. rewrite decide_True by lia.
    replace (Z.to_nat _) with (length l) by lia. by apply list_lookup_middle. }
  destruct b, e; cbn; unfold event_lookup; cbn; by rewrite Hl.
Qed.

(** ... and the others stay where they are. *)
Lemma event_lookup_keep e b el x : event_lookup b el = Some x → event_lookup (put_event e b) el = Some x.
Proof.
  assert (∀ {A} (l k : list A) pos y, at_pos pos l = Some y → at_pos pos (l ++ k) = Some y) as Hl.
  { intros A l k pos y. unfold at_pos. case_decide; [|done]. apply lookup_app_l_Some. }
  destruct b. unfold event_lookup. destruct (o_Name el), e; cbn; try done;
    intros (y & Hy & ->)%fmap_Some; by rewrite (Hl _ _ _ _ _ Hy).
Qed.

Lemma replay_keep e b els xs : mapM (event_lookup b) els = Some xs → mapM (event_lookup (put_event e b)) els = Some xs.
Proof.
  rewrite !mapM_Some. induction 1; constructor; [by apply event_lookup_keep|done].
Qed.

Lemma event_lookup_ok b el x : block_wf b → event_lookup b el = Some x → order_ok b el.
Proof.
  intros Hb. unfold event_lookup, order_ok.
  destruct (o_Name el); intros (y & Hy & _)%fmap_Some; unfold at_pos in Hy; case_decide; try done;
    apply lookup_lt_Some in Hy; (split; [lia|done]) || lia.
Qed.

(** ** Grouping *)

Definition log_id (l : Log) : Hash * Z := (lg_BlockHash l, lg_BlockNumber l).
Definition block_id (b : Block) : Hash * Z := (b_BlockHash b, b_BlockNumber b).

(** The logs of a block come one after the other, with the same number. *)
Definition grouped (ids : list (Hash * Z)) : Prop :=
  ∀ l1 x l2 z l3, ids = l1 ++ x :: l2 ++ z :: l3 → x.1 = z.1 → z = x ∧ Forall (λ y, y = x) l2.

Lemma grouped_sublist ids ids' : ids' `sublist_of` ids → grouped ids → grouped ids'.
Proof.
  intros Hs Hg l1 x l2 z l3 -> E.
  apply sublist_app_l in Hs as (k1 & k2 & -> & _ & Hs).
  apply sublist_cons_l in Hs as (k3 & k4 & -> & Hs).
  apply sublist_app_l in Hs as (k5 & k6 & -> & Hs5 & Hs).
  apply sublist_cons_l in Hs as (k7 & k8 & -> & _).
  destruct (Hg (k1 ++ k3) x (k5 ++ k7) z k8) as [-> Hall]; [by rewrite <- !app_assoc|done|].
  split; [done|]. apply Forall_app in Hall as [Hall _]. rewrite Forall_forall in *.
  intros y Hy. eapply Hall, elem_of_sublist; done.
Qed.

Lemma appendEvent_same e l bs b order :
  block_id b = log_id l →
  appendEvent e l (bs ++ [b], order) =
    (bs ++ [put_event e b],
     <[b_BlockHash b := default [] (order !! b_BlockHash b) ++
        [mkOrder (event_name e) (Z.of_nat (event_count (event_name e) (put_event e b)) - 1)]]> order).
Proof.
  unfold block_id, log_id. intros [= Eh En]. unfold appendEvent. rewrite last_snoc, decide_False by tauto.
  rewrite length_app. simpl length. rewrite Nat.add_sub, take_app_length, last_snoc.
  by rewrite (proj1 (put_event_id e b)).
Qed.

Lemma appendEvent_new e l bs order :
  block_id <$> last bs ≠ Some (log_id l) →
  appendEvent e l (bs, order) =
    let b := put_event e (emptyBlock (lg_BlockNumber l) (lg_BlockHash l)) in
    (bs ++ [b],
     <[lg_BlockHash l := default [] (order !! lg_BlockHash l) ++
        [mkOrder (event_name e) (Z.of_nat (event_count (event_name e) b) - 1)]]> order).
Proof.
  intros Hne. unfold appendEvent.
  assert (match last bs with
    | None => bs ++ [put_event e (emptyBlock (lg_BlockNumber l) (lg_BlockHash l))]
    | Some b => if decide (b_BlockHash b ≠ lg_BlockHash l ∨ b_BlockNumber b ≠ lg_BlockNumber l)
                then bs ++ [put_event e (emptyBlock (lg_BlockNumber l) (lg_BlockHash l))]
                else take (length bs - 1) bs ++ [put_event e b]
    end = bs ++ [put_event e (emptyBlock (lg_BlockNumber l) (lg_BlockHash l))]) as ->.
  { destruct (last bs) as [b|]; [|done]. rewrite decide_True; [done|].
    destruct (decide (b_BlockHash b = lg_BlockHash l)); [|by left].
    destruct (decide (b_BlockNumber b = lg_BlockNumber l)); [|by right].
    exfalso. apply Hne. cbn. unfold block_id, log_id. by do 2 f_equal. }
  rewrite last_snoc. cbn zeta. by rewrite (proj1 (put_event_id e _)).
Qed.

(** What the blocks and the orders are after the events [evs] of logs with these ids. *)
Record reads (ids : list (Hash * Z)) (evs : list Event) (st : Events) : Prop := {
  rd_ids : ∀ id, id ∈ (block_id <$> st.1) ↔ id ∈ ids;
  rd_sub : (block_id <$> st.1) `sublist_of` ids;
  rd_last : block_id <$> last st.1 = last ids;
  rd_nodup : NoDup (b_BlockHash <$> st.1);
  rd_order : ∀ h, is_Some (st.2 !! h) → h ∈ b_BlockHash <$> st.1;
  rd_wf : Forall block_wf st.1;
  rd_replay : ∃ xss, Forall2 (λ b xs, replay st.2 b = Some xs) st.1 xss ∧ concat xss = evs
}.

Lemma reads_nil : reads [] [] ([], ∅).
Proof.
  constructor; cbn; try done; [constructor| |].
  - intros h. rewrite lookup_empty. by intros [].
  - exists []. split; [constructor|done].
Qed.

(** The replay of the other blocks does not see the new order. *)
Lemma replay_other (order : gmap Hash (list Order)) h els bs xss :
  h ∉ (b_BlockHash <$> bs) → Forall2 (λ b xs, replay order b = Some xs) bs xss →
  Forall2 (λ b xs, replay (<[h := els]> order) b = Some xs) bs xss.
Proof.
  intros Hh. induction 1 as [|b xs bs xss Hb Hbs IH]; constructor.
  - unfold replay in *. rewrite lookup_insert_ne; [done|]. intros ->. apply Hh. left.
  - apply IH. intros Hin. apply Hh. by right.
Qed.

Lemma reads_same e l ids evs bs b order :
  reads ids evs (bs ++ [b], order) → event_wf e → block_id b = log_id l →
  reads (ids ++ [log_id l]) (evs ++ [e]) (appendEvent e l (bs ++ [b], order)).
Proof.
  intros [Hids Hsub Hlast Hnd Hord Hwf (xss & Hrep & Hevs)] He Hid. rewrite appendEvent_same by done. cbn in *.
  rewrite fmap_app in *. rewrite last_snoc in Hlast. cbn in Hlast.
  assert (b_BlockHash b ∉ (b_BlockHash <$> bs)) as Hb.
  { apply NoDup_app in Hnd as (_ & Hd & _). intros Hin. apply (Hd _ Hin). left. }
  apply Forall2_app_inv_l in Hrep as (xss1 & xss2 & H1 & H2 & ->).
  apply Forall2_cons_inv_l in H2 as (xs & ? & Hxs & ->%Forall2_nil_inv_l & ->).
  constructor; cbn; rewrite ?fmap_app.
  - intros id. rewrite (elem_of_app ids), list_elem_of_singleton, <- Hids, fmap_app, !elem_of_app, <- Hid. cbn.
    assert (block_id (put_event e b) = block_id b) as ->.
    { unfold block_id. by destruct (put_event_id e b) as [-> ->]. }
    rewrite !list_elem_of_singleton. tauto.
  - rewrite fmap_app in Hsub. cbn in *.
    assert (block_id (put_event e b) = block_id b) as -> by (unfold block_id; by destruct (put_event_id e b) as [-> ->]).
    by apply sublist_inserts_r.
  - rewrite !last_snoc. cbn. unfold block_id. destruct (put_event_id e b) as [-> ->]. f_equal. exact Hid.
  - cbn. by rewrite (proj1 (put_event_id e b)).
  - intros h. cbn. rewrite (proj1 (put_event_id e b)). destruct (decide (h = b_BlockHash b)) as [->|Hne].
    + intros _. apply elem_of_app. right. left.
    + rewrite lookup_insert_ne by done. apply Hord.
  - apply Forall_app in Hwf as [? Hw]. apply Forall_app. split; [done|]. constructor; [|done].
    apply put_event_wf; [done|]. by inversion Hw.
  - exists (xss1 ++ [xs ++ [e]]). split.
    + apply Forall2_app; [by apply replay_other|]. constructor; [|constructor].
      unfold replay in *. rewrite (proj1 (put_event_id e b)), lookup_insert_eq. cbn [default from_option].
      apply mapM_Some. apply mapM_Some in Hxs. apply Forall2_app.
      * apply mapM_Some, replay_keep, mapM_Some, Hxs.
      * constructor; [apply event_lookup_put|constructor].
    + rewrite <- Hevs, !concat_app. cbn. by rewrite !app_nil_r, app_assoc.
Qed.

Lemma reads_new e l ids evs bs order :
  reads ids evs (bs, order) → event_wf e → lg_BlockHash l ∉ (b_BlockHash <$> bs) →
  reads (ids ++ [log_id l]) (evs ++ [e]) (appendEvent e l (bs, order)).
Proof.
  intros [Hids Hsub Hlast Hnd Hord Hwf (xss & Hrep & Hevs)] He Hnew. cbn [fst snd] in *.
  assert (block_id <$> last bs ≠ Some (log_id l)) as Hl.
  { intros (b & Hb & E)%fmap_Some. apply Hnew. unfold block_id, log_id in E. injection E as -> _.
    apply list_elem_of_fmap_2. by apply last_Some_elem_of. }
  assert (order !! lg_BlockHash l = None) as Hnone.
  { apply eq_None_not_Some. intros Hs. by apply Hnew, Hord. }
  rewrite appendEvent_new by done. cbn zeta. set (b := put_event e (emptyBlock (lg_BlockNumber l) (lg_BlockHash l))).
  assert (block_id b = log_id l ∧ b_BlockHash b = lg_BlockHash l) as [Hid Hh].
  { unfold block_id, b. by destruct (put_event_id e (emptyBlock (lg_BlockNumber l) (lg_BlockHash l))) as [-> ->]. }
  assert (block_wf b) as Hbwf by (by apply put_event_wf; [|apply Forall_nil]).
  pose proof (event_lookup_put e (emptyBlock (lg_BlockNumber l) (lg_BlockHash l)) : event_lookup b _ = Some e) as Hput.
  fold b in Hput. clearbody b. constructor; cbn [fst snd]; rewrite ?fmap_app.
  - intros id. rewrite !elem_of_app, Hids, list_fmap_singleton. by rewrite Hid.
  - rewrite list_fmap_singleton, Hid. by apply sublist_app.
  - rewrite !last_snoc. cbn [fmap option_fmap option_map]. by rewrite Hid.
  - apply NoDup_app. split; [done|]. cbn. rewrite Hh. split; [|apply NoDup_singleton].
    intros x Hx ->%list_elem_of_singleton. done.
  - intros h. cbn. rewrite Hh, elem_of_app. destruct (decide (h = lg_BlockHash l)) as [->|Hne]; [right; left|].
    rewrite lookup_insert_ne by done. left. by apply Hord.
  - apply Forall_app. split; [done|]. by constructor.
  - exists (xss ++ [[e]]). split.
    + apply Forall2_app; [by apply replay_other|]. constructor; [|constructor].
      unfold replay. rewrite Hh, lookup_insert_eq, Hnone. cbn [default from_option app].
      apply mapM_Some. by constructor.
    + rewrite <- Hevs, concat_app. done.
Qed.

Lemma reads_step e l ids evs st :
  reads ids evs st → event_wf e → grouped (ids ++ [log_id l]) →
  reads (ids ++ [log_id l]) (evs ++ [e]) (appendEvent e l st).
Proof.
  destruct st as [bs order]. intros Hr He Hg.
  destruct (decide (block_id <$> last bs = Some (log_id l))) as [E|E].
  - apply fmap_Some in E as (b & Hb & Hid). apply last_Some in Hb as [bs' ->]. by apply reads_same.
  - apply reads_new; [done..|]. intros (b & Eh & Hb)%list_elem_of_fmap.
    assert (block_id b ∈ ids) as (l1 & l2 & ->)%list_elem_of_split
      by (apply (rd_ids _ _ _ Hr); by apply list_elem_of_fmap_2).
    destruct (Hg l1 (block_id b) l2 (log_id l) []) as [Hz Hall]; [by rewrite <- app_assoc|done|].
    apply E. pose proof (rd_last _ _ _ Hr) as Hl. cbn [fst] in Hl. rewrite Hl, Hz.
    rewrite last_app_cons. destruct l2 as [|y l2 _] using rev_ind; [done|].
    rewrite app_comm_cons, last_snoc. apply Forall_app in Hall as [_ Hy]. by inversion Hy; subst.
Qed.

(** ** Every log either stands for an event, is ignored, or fails *)

Section Read.
Context `{K : Keccak256} {HB : Bindings}.

(** The log stands for this event, or for none. *)
Definition emits (vLog : Log) (o : option Event) : Prop :=
  ∀ st, processEvent vLog st = Ok (match o with Some e => appendEvent e vLog st | None => st end).
Definition fails (vLog : Log) (r : result Events) : Prop :=
  (∀ st, r ≠ Ok st) ∧ ∀ st, processEvent vLog st = r.
Definition decodes (vLog : Log) : Prop :=
  (∃ o, emits vLog o ∧ match o with Some e => event_wf e | None => True end) ∨ ∃ r, fails vLog r.

(** The same of a handler at a log. *)
Definition uniform (vLog : Log) (h : Events → result Events) : Prop :=
  (∃ e, event_wf e ∧ ∀ st, h st = Ok (appendEvent e vLog st)) ∨
  (∃ r, (∀ st, r ≠ Ok st) ∧ ∀ st, h st = r).

Lemma uniform_emit vLog e : event_wf e → uniform vLog (λ st, Ok (appendEvent e vLog st)).
Proof. intros He. left. by exists e. Qed.
Lemma uniform_bind {A} vLog (r : result A) (h : A → Events → result Events) :
  (∀ a, uniform vLog (h a)) → uniform vLog (λ st, a ← r; h a st).
Proof.
  intros Hh. destruct r as [a|e| |]; [apply Hh|right..].
  - by exists (Err e).
  - by exists Panic.
  - by exists OutOfFuel.
Qed.

(** The proof of a handler: decode, then emit. *)
Ltac uniform_auto := cbn [snd]; repeat (apply uniform_bind; intros; repeat case_match); apply uniform_emit; cbn; auto.

Lemma uniform_cases vLog :
  Forall (λ c : string * option handler, match c.2 with Some h => uniform vLog (h vLog) | None => True end) eventCases.
Proof. unfold eventCases. repeat apply Forall_cons_2; try apply Forall_nil_2; try exact I; uniform_auto. Qed.

(** The outcome of a log does not depend on the logs before it. *)
Lemma processEvent_decodes vLog : decodes vLog.
Proof.
  unfold decodes, emits, fails, processEvent.
  destruct (at_index (lg_Topics vLog) 0) as [topic|e| |]; [|right; eexists (Err e); done|right; by exists Panic|right; by exists OutOfFuel].
  cbn [mbind result_bind].
  destruct (list_find _ eventCases) as [[i [s [h|]]]|] eqn:E; [|left; by exists None..].
  apply list_find_Some in E as (Hi & _).
  pose proof (Forall_lookup_1 _ _ _ _ (uniform_cases vLog) Hi) as [(e & He & Hh)|(r & Hr & Hh)]; cbn [snd] in Hh.
  - left. exists (Some e). split; [|done]. exact Hh.
  - right. by exists r.
Qed.

(** A log stands for one event. *)
Lemma emits_inj vLog o1 o2 : emits vLog o1 → emits vLog o2 → o1 = o2.
Proof.
  intros H1 H2. specialize (H1 ([], ∅)). specialize (H2 ([], ∅)). rewrite H1 in H2. injection H2 as E.
  assert (∀ e, appendEvent e vLog ([], ∅) =
    ([put_event e (emptyBlock (lg_BlockNumber vLog) (lg_BlockHash vLog))],
     <[lg_BlockHash vLog := [mkOrder (event_name e) (Z.of_nat (event_count (event_name e) (put_event e (emptyBlock (lg_BlockNumber vLog) (lg_BlockHash vLog)))) - 1)]]> ∅)) as Ha
    by (intros e; by rewrite appendEvent_new).
  destruct o1 as [e1|], o2 as [e2|]; rewrite ?Ha in E; try done. f_equal. injection E as Eb _.
  destruct e1, e2; unfold emptyBlock in Eb; cbn in Eb; congruence.
Qed.

Lemma read_logs logs : ∀ ids evs st,
  reads ids evs st → grouped (ids ++ (log_id <$> logs)) →
  (∃ os st' ids', Forall2 emits logs os ∧ reads ids' (evs ++ omap id os) st' ∧ ids' `sublist_of` ids ++ (log_id <$> logs) ∧
     fold_result (λ st vLog, processEvent vLog st) st logs = Ok st') ∨
  (∃ i vLog r, logs !! i = Some vLog ∧ Forall (λ l, ∃ o, emits l o) (take i logs) ∧ fails vLog r ∧
     fold_result (λ st vLog, processEvent vLog st) st logs = r).
Proof.
  induction logs as [|l logs IH]; intros ids evs st Hr Hg.
  { left. exists [], st, ids. split; [constructor|]. cbn. by rewrite !app_nil_r. }
  destruct (processEvent_decodes l) as [(o & Ho & Hwf)|(r & Hf)].
  - set (st1 := match o with Some e => appendEvent e l st | None => st end).
    assert (∃ ids1, reads ids1 (evs ++ omap id [o]) st1 ∧ grouped (ids1 ++ (log_id <$> logs)) ∧
      ids1 ++ (log_id <$> logs) `sublist_of` ids ++ (log_id <$> l :: logs)) as (ids1 & Hr1 & Hg1 & Hs1).
    { destruct o as [e|]; cbn.
      - exists (ids ++ [log_id l]). rewrite <- app_assoc. split; [|done]. apply reads_step; [done..|].
        eapply grouped_sublist, Hg. rewrite fmap_cons. apply sublist_app; [done|]. apply sublist_skip, sublist_nil_l.
      - exists ids. rewrite app_nil_r. split; [done|].
        assert (ids ++ (log_id <$> logs) `sublist_of` ids ++ (log_id <$> l :: logs)) as Hs by (apply sublist_app; [done|by apply sublist_cons]).
        split; [by eapply grouped_sublist|done]. }
    cbn [fold_result]. rewrite (Ho st). cbn [mbind result_bind]. fold st1.
    destruct (IH ids1 _ st1 Hr1 Hg1) as [(os & st' & ids' & H2 & Hr' & Hs' & ->)|(i & v & r & Hi & Ht & Hf & ->)].
    + left. exists (o :: os), st', ids'. split; [by constructor|]. split; [|split; [by etrans|done]].
      rewrite <- app_assoc in Hr'. by destruct o.
    + right. exists (S i), v, r. split; [done|]. split; [|by split].
      cbn. constructor; [by exists o|done].
  - right. exists 0%nat, l, r. split; [done|]. split; [constructor|]. split; [done|].
    cbn [fold_result]. rewrite (proj2 Hf st). destruct Hf as [Hne _]. destruct r; [by destruct (Hne a)|done..].
Qed.

End Read.

(** ** The reader *)

Lemma reads_order_ok ids evs blocks order :
  reads ids evs (blocks, order) →
  Forall (λ b, Forall (order_ok b) (default [] (order !! b_BlockHash b))) blocks.
Proof.
  intros [_ _ _ _ _ Hwf (xss & Hrep & _)]. cbn in *. revert Hwf.
  induction Hrep as [|b xs bs xss Hb _ IH]; inversion 1; subst; constructor; [|by apply IH].
  unfold replay in Hb. apply mapM_Some in Hb. clear IH.
  induction Hb; constructor; [by eapply event_lookup_ok|done].
Qed.

(** When every log decodes, the blocks come in the order of the logs. *)
Lemma Client_reads `{K : Keccak256} {HB : Bindings} {W} `{C : !ethClienter W} (SCAddresses : list Address) (fromBlock : Z)
    (toBlock : option Z) (w w' : W) (logs : list Log) (os : list (option Event)) :
  FilterLogs (mkFilterQuery fromBlock toBlock SCAddresses queryTopics) w = (Ok logs, w') →
  grouped (log_id <$> logs) → Forall2 emits logs os →
  ∃ ids blocks order, Client_GetRollupInfoByBlockRange SCAddresses fromBlock toBlock w = (Ok (blocks, order), w') ∧
    reads ids (omap id os) (blocks, order) ∧ (block_id <$> blocks) `sublist_of` (log_id <$> logs).
Proof.
  intros Hf Hg Hos. unfold Client_GetRollupInfoByBlockRange, readEvents. rewrite (M_bind_Ok _ _ _ _ _ Hf).
  destruct (read_logs logs [] [] _ reads_nil Hg) as [(os' & [bs order] & ids & H2 & Hr & Hs & E)|(i & v & r & Hi & _ & [Hne Hv] & _)].
  - assert (os' = os) as ->.
    { apply list_eq_same_length with (n := length logs); [by symmetry; eapply Forall2_length|by symmetry; eapply Forall2_length|].
      intros i o1 o2 _ H1 Ho2. destruct (Forall2_lookup_r _ _ _ _ _ H2 H1) as (l & Hl & He1).
      destruct (Forall2_lookup_l _ _ _ _ _ Hos Hl) as (o & Ho & He2). simplify_eq. by eapply emits_inj. }
    exists ids, bs, order. split; [unfold lift; by rewrite E|]. split; [done|]. etrans; [apply (rd_sub _ _ _ Hr)|done].
  - destruct (Forall2_lookup_l _ _ _ _ _ Hos Hi) as (o & _ & He). destruct (Hne (match o with Some e => appendEvent e v ([], ∅) | None => ([], ∅) end)).
    rewrite <- (Hv ([], ∅)). apply He.
Qed.

(** C18: [GetRollupInfoByBlockRange] loses, invents and reorders nothing: when the node
    returns the logs of each block one after the other, either every log decodes, the
    blocks have pairwise different hashes and replaying the order of each block, block
    after block, yields the events of the logs in the order of the logs, with every
    position inside its list; or the call ends with the failure of the first log that
    does not decode. *)
Theorem GetRollupInfoByBlockRange_replays `{K : Keccak256} {HB : Bindings} {W} `{C : !ethClienter W}
    (SCAddresses : list Address) (fromBlock : Z) (toBlock : option Z) (w w' : W) (logs : list Log) :
  FilterLogs (mkFilterQuery fromBlock toBlock SCAddresses queryTopics) w = (Ok logs, w') →
  grouped (log_id <$> logs) →
  (∃ os blocks order, Forall2 emits logs os ∧
     Client_GetRollupInfoByBlockRange SCAddresses fromBlock toBlock w = (Ok (blocks, order), w') ∧
     NoDup (b_BlockHash <$> blocks) ∧
     (∀ h, is_Some (order !! h) → h ∈ b_BlockHash <$> blocks) ∧
     (∃ xss, Forall2 (λ b xs, replay order b = Some xs) blocks xss ∧ concat xss = omap id os) ∧
     Forall (λ b, Forall (order_ok b) (default [] (order !! b_BlockHash b))) blocks) ∨
  (∃ i vLog r, logs !! i = Some vLog ∧ Forall (λ l, ∃ o, emits l o) (take i logs) ∧ fails vLog r ∧
     Client_GetRollupInfoByBlockRange SCAddresses fromBlock toBlock w = (r, w')).
Proof.
  intros Hf Hg. unfold Client_GetRollupInfoByBlockRange, readEvents. rewrite (M_bind_Ok _ _ _ _ _ Hf).
  destruct (read_logs logs [] [] _ reads_nil Hg) as [(os & [bs order] & ids & H2 & Hr & _ & E)|(i & v & r & Hi & Ht & Hv & E)].
  - left. exists os, bs, order. split; [done|]. split; [unfold lift; by rewrite E|].
    split; [apply Hr|]. split; [apply Hr|]. split; [apply Hr|]. by eapply reads_order_ok.
  - right. exists i, v, r. unfold lift. by rewrite E.
Qed.

(** Two logs of one block and one of the next, on bindings that decode deposits. *)
Definition toy_bindings : Bindings := {|
  ParseUpdateRemovalHashChainValue _ := Err (Errorf "no event");
  ParseUpdateHashChainValue _ := Ok 9;
  ParseUpdateL1InfoTree _ := Err (Errorf "no event");
  ParseBridgeEvent l := Ok (mkBridgeEvent 0 0 100 1 200 5 (lg_Data l) 0);
  ParseClaimEventOld _ := Err (Errorf "no event");
  ParseClaimEvent _ := Ok (mkNewClaimEvent (2 ^ 64 + 5) 0 100 200 7);
  ParseNewWrappedToken _ := Err (Errorf "no event");
  ParseVerifyBatchesTrustedAggregator _ := Err (Errorf "no event");
  ParseVerifyBatches _ := Err (Errorf "no event");
  ParseUpdatedUnsetGlobalIndexHashChain _ := Err (Errorf "no event");
  ParseSetClaim _ := Err (Errorf "no event");
  ParseBackwardLET _ := Err (Errorf "no event");
  ParseForwardLET _ := Err (Errorf "no event");
  NewTypeLeaves := Ok tt;
  UnpackValues _ := Ok [AbiSlice []]
|}.
Definition toy_logs : list Log :=
  [mkLog [signatureHash (K := toy_keccak) "BridgeEvent(uint8,uint32,address,uint32,address,uint256,bytes,uint32)"] [1] 10 1001 71;
   mkLog [signatureHash (K := toy_keccak) "ClaimEvent(uint256,uint32,address,address,uint256)"] [] 10 1001 72;
   mkLog [signatureHash (K := toy_keccak) "BridgeEvent(uint8,uint32,address,uint32,address,uint256,bytes,uint32)"] [2] 11 1002 73].
Definition toy_client : ethClienter () := {|
  FilterLogs _ := mret toy_logs;
  ClientHeaderByNumber _ := throw (Errorf "no header")
|}.

Lemma toy_grouped : grouped (log_id <$> toy_logs).
Proof.
  replace (log_id <$> toy_logs) with [(1001, 10); (1001, 10); (1002, 11)] by reflexivity.
  intros l1 x l2 z l3 E.
  destruct l1 as [|? [|? [|? ?]]], l2 as [|? [|? ?]]; simplify_eq/=; done || discriminate_list.
Qed.

Lemma GetRollupInfoByBlockRange_replays_witness :
  (∃ os blocks order, Forall2 (emits (K := toy_keccak) (HB := toy_bindings)) toy_logs os ∧
     Client_GetRollupInfoByBlockRange (K := toy_keccak) (HB := toy_bindings) (H := toy_client) [1] 10 (Some 11) tt =
       (Ok (blocks, order), tt) ∧
     NoDup (b_BlockHash <$> blocks) ∧
     (∀ h, is_Some (order !! h) → h ∈ b_BlockHash <$> blocks) ∧
     (∃ xss, Forall2 (λ b xs, replay order b = Some xs) blocks xss ∧ concat xss = omap id os) ∧
     Forall (λ b, Forall (order_ok b) (default [] (order !! b_BlockHash b))) blocks) ∨
  (∃ i vLog r, toy_logs !! i = Some vLog ∧
     Forall (λ l, ∃ o, emits (K := toy_keccak) (HB := toy_bindings) l o) (take i toy_logs) ∧
     fails (K := toy_keccak) (HB := toy_bindings) vLog r ∧
     Client_GetRollupInfoByBlockRange (K := toy_keccak) (HB := toy_bindings) (H := toy_client) [1] 10 (Some 11) tt = (r, tt)).
Proof.
  apply (GetRollupInfoByBlockRange_replays (K := toy_keccak) (HB := toy_bindings) (C := toy_client) [1] 10 (Some 11) tt tt).
  - reflexivity.
  - apply toy_grouped.
Defined.

(** On these logs the reader returns two blocks, a deposit and a claim and a deposit. *)
Example toy_logs_read :
  (let '(r, _) := Client_GetRollupInfoByBlockRange (K := toy_keccak) (HB := toy_bindings) (H := toy_client) [1] 10 (Some 11) tt in
   match r with Ok (bs, order) => (λ b, replay order b) <$> bs | _ => [] end) =
  [Some [EvDeposit (mkDeposit 0 0 0 100 5 1 200 0 0 10 0 71 [1] false);
         EvClaim (mkClaim true 0 5 0 100 7 200 0 10 0 72 "18446744073709551621")];
   Some [EvDeposit (mkDeposit 0 0 0 100 5 1 200 0 0 11 0 73 [2] false)]].
Proof. vm_compute. reflexivity. Qed.

(** ** Dispatch *)

Lemma list_find_unique {A} (f : A → Hash) (l : list A) i c :
  NoDup (f <$> l) → l !! i = Some c → list_find (λ c', f c' = f c) l = Some (i, c).
Proof.
  intros Hnd Hi. apply list_find_Some. split; [done|]. split; [done|]. intros j y Hj Hlt E.
  assert (j = i); [|lia]. eapply (NoDup_lookup _ _ _ (f c)); [done| |]; rewrite list_lookup_fmap.
  - rewrite Hj. cbn. by f_equal.
  - by rewrite Hi.
Qed.

(** No two signatures of the switch have the same hash. *)
Definition signatures_distinct `{Keccak256} {HB : Bindings} : Prop := NoDup ((λ c, signatureHash c.1) <$> eventCases).

Lemma processEvent_dispatch `{K : Keccak256} {HB : Bindings} i s h vLog topics :
  signatures_distinct → eventCases !! i = Some (s, Some h) → lg_Topics vLog = signatureHash s :: topics →
  ∀ st, processEvent vLog st = h vLog st.
Proof.
  intros Hnd Hi Ht st. unfold processEvent. rewrite Ht, (at_index_nat (_ :: _) 0 (signatureHash s) eq_refl).
  cbn [mbind result_bind].
  pose proof (list_find_unique (λ c, signatureHash c.1) eventCases i (s, Some h) Hnd Hi) as E.
  cbn [fst] in E. by rewrite E.
Qed.

(** C23: the claim of a deposit is read with the position of the deposit: a ClaimEvent
    log whose global index is the one generated for the flag, the rollup and the
    deposit count stands for a claim with these, the amount and the addresses of the
    event, and the text of the global index, provided the signatures of the switch have
    different hashes. *)
Theorem processEvent_claim `{K : Keccak256} {HB : Bindings} (vLog : Log) (topics : list Hash) (c : NewClaimEvent)
    (m : bool) (r l : Z) :
  signatures_distinct →
  lg_Topics vLog = signatureHash "ClaimEvent(uint256,uint32,address,address,uint256)" :: topics →
  ParseClaimEvent vLog = Ok c →
  0 ≤ r < 2 ^ 32 → 0 ≤ l < 2 ^ 32 →
  GenerateGlobalIndex m r l = Ok (nc_GlobalIndex c) →
  emits vLog (Some (EvClaim (mkClaim m (if m then 0 else r) l (nc_OriginNetwork c) (nc_OriginAddress c) (nc_Amount c)
    (nc_DestinationAddress c) 0 (lg_BlockNumber vLog) 0 (lg_TxHash vLog) (pretty (nc_GlobalIndex c))))).
Proof.
  intros Hnd Ht Hp Hr Hl Hg st. rewrite (processEvent_dispatch 3 _ _ _ _ Hnd eq_refl Ht). unfold newClaimEvent.
  rewrite Hp. cbn [mbind result_bind].
  pose proof (DecodeGlobalIndex_generated m r l Hr Hl) as E. rewrite Hg in E. cbn [mbind result_bind] in E. by rewrite E.
Qed.

Definition toy_claim_log : Log :=
  mkLog [signatureHash (K := toy_keccak) "ClaimEvent(uint256,uint32,address,address,uint256)"] [] 10 1001 72.

Lemma processEvent_claim_witness :
  emits (K := toy_keccak) (HB := toy_bindings) toy_claim_log
    (Some (EvClaim (mkClaim true 0 5 0 100 7 200 0 10 0 72 "18446744073709551621"))).
Proof.
  apply (processEvent_claim (K := toy_keccak) (HB := toy_bindings) toy_claim_log []
    (mkNewClaimEvent (2 ^ 64 + 5) 0 100 200 7) true 0 5).
  - apply (bool_decide_unpack _). vm_compute. exact I.
  - reflexivity.
  - reflexivity.
  - lia.
  - lia.
  - reflexivity.
Defined.
