(* ===== verification/SyncDeposits.v ===== *)
(** * Deposits and local exit tree updates

    What storing a deposit does to the tables and to the tree of the network, in the
    transaction of a block, and the checks of a local exit tree update. *)
From S2P Require Import Prelude Types Bytes Hash MerkleSpec ClaimTypes Schema MerkleStore Storage.
From S2P Require Import PgMerkleStore MerkleTree MerkleTreeFacts BridgeCtrl Synchronizer Invariants.
From S2P Require Import StorageFacts SyncFacts ReorgFacts Toy SyncTheorems.

(** Without a block above [bound], the query of [GetNumberDeposits] counts every leaf. *)
Lemma count_log net lds t :
  deposit_log net lds t → ∀ bound, (∀ b, b ∈ t_block t → br_network_id b = net → br_block_num b ≤ bound) →
  max_or_neg1 ((λ p, dr_deposit_cnt p.1) <$>
    filter (λ p, dr_network_id p.1 = net ∧ br_block_num p.2 ≤ bound) (deposit_join_block t)) =
  Z.of_nat (length lds) - 1.
Proof.
  intros Hlog bound Htop.
  assert (filter (late_block net bound) (t_block t) = []) as Hnone.
  { apply filter_none. intros b Hb [Hlt Hn]. specialize (Htop b Hb Hn). lia. }
  rewrite <- (count_after_reset net lds t Hlog bound (length lds)); [|done|].
  - unfold deposit_join_block, after_reset, delete_blocks. cbn. rewrite Hnone. cbn.
    rewrite (filter_all _ (t_deposit t)) by (intros; apply not_elem_of_nil).
    rewrite (filter_all _ (t_block t)); [done|]. intros b Hb [Hlt Hn]. specialize (Htop b Hb Hn). lia.
  - intros i p Hi. pose proof (lookup_lt_Some _ _ _ Hi). unfold gone_ids.
    rewrite filter_none; [split; [done|]; intros _; apply not_elem_of_nil|].
    intros d _. unfold in_late_block. rewrite Hnone. apply not_elem_of_nil.
Qed.

(** A deposit in the newest block extends the log. *)
Lemma deposit_log_append net lds t row t' leaf b :
  deposit_log net lds t → (∀ d, d ∈ t_deposit t → dr_id d < dr_id row) →
  t_deposit t' = t_deposit t ++ [row] → t_block t' = t_block t →
  dr_network_id row = net → dr_deposit_cnt row = Z.of_nat (length lds) →
  b ∈ t_block t → br_id b = dr_block_id row → br_network_id b = net →
  (∀ b', b' ∈ t_block t → br_network_id b' = net → br_block_num b' ≤ br_block_num b) →
  deposit_log net (lds ++ [(leaf, dr_id row)]) t'.
Proof.
  intros Hlog Hfresh Ed Eb Hn Hcnt Hb Hbid Hbn Htop.
  assert (∀ d, d ∈ t_deposit t' ↔ d ∈ t_deposit t ∨ d = row) as Hin.
  { intros d. by rewrite Ed, elem_of_app, list_elem_of_singleton. }
  assert (∀ i p, lds !! i = Some p → (lds ++ [(leaf, dr_id row)]) !! i = Some p) as Hl by (intros; by apply lookup_app_l_Some).
  assert (∀ b', b' ∈ t_block t → br_id b' = dr_block_id row → b' = b) as Hub.
  { intros b' Hb' E. eapply (NoDup_fmap_inj br_id); [apply Hlog|done..|congruence]. }
  constructor.
  - rewrite Ed, fmap_app. apply NoDup_app. split; [apply Hlog|]. split; [|apply NoDup_singleton].
    intros x (d & -> & Hd)%list_elem_of_fmap E%list_elem_of_singleton. specialize (Hfresh d Hd). lia.
  - rewrite Eb. apply Hlog.
  - intros d [Hd| ->]%Hin Hdn.
    + destruct (dl_leaf _ _ _ Hlog d Hd Hdn) as (i & p & Hi & ?). exists i, p. eauto.
    + exists (length lds), (leaf, dr_id row). split; [by apply list_lookup_middle|done].
  - intros i p [Hi|[E Hi]]%lookup_app_Some.
    + destruct (dl_row _ _ _ Hlog i p Hi) as (d & Hd & ?). exists d. rewrite Hin. eauto.
    + apply list_lookup_singleton_Some in Hi as [Ei <-]. exists row. rewrite Hin.
      split; [by right|]. split; [done|]. split; [lia|done].
  - intros d [Hd| ->]%Hin Hdn; rewrite Eb; [by apply (dl_block _ _ _ Hlog)|eauto].
  - intros d1 d2 b1 b2 Hd1%Hin Hd2%Hin. rewrite Eb. intros Hb1 Hb2 Hn1 Hn2 E1 E2 Hle.
    assert (∀ d b', d ∈ t_deposit t → dr_network_id d = net → b' ∈ t_block t → br_id b' = dr_block_id d →
              br_block_num b' ≤ br_block_num b ∧ dr_deposit_cnt d < Z.of_nat (length lds)) as Hold.
    { intros d b' Hd Hdn Hb' E. destruct (dl_block _ _ _ Hlog d Hd Hdn) as (b0 & Hb0 & E0 & Hbn0).
      assert (b' = b0) as -> by (eapply (NoDup_fmap_inj br_id); [apply Hlog|done..|congruence]).
      destruct (dl_leaf _ _ _ Hlog d Hd Hdn) as (i & p & Hi & _ & ->). apply lookup_lt_Some in Hi.
      split; [by apply Htop|lia]. }
    destruct Hd1 as [Hd1| ->], Hd2 as [Hd2| ->].
    + by apply (dl_mono _ _ _ Hlog d1 d2).
    + rewrite (Hub b2) by done. by apply (Hold d1).
    + destruct (Hold d2 b2) as [_ ?]; [done..|]. lia.
    + by rewrite (Hub b1), (Hub b2).
Qed.

(** The ids in use are below the sequence of sync.deposit. *)
Definition ids_below (t : Tables) (s : Seqs) : Prop :=
  (∀ d, d ∈ t_deposit t → 0 ≤ dr_id d < sq_deposit s) ∧
  (∀ r, r ∈ t_root t → rr_deposit_id r < sq_deposit s) ∧
  (∀ r, r ∈ t_rht t → rh_deposit_id r < sq_deposit s) ∧ 0 ≤ sq_deposit s.

(** The row AddDeposit inserts. *)
Definition row_of_deposit (id : Z) (d : Deposit) : deposit_row :=
  mk_deposit_row id (d_LeafType d) (d_NetworkID d) (d_OriginalNetwork d) (d_OriginalAddress d) (d_Amount d)
    (d_DestinationNetwork d) (d_DestinationAddress d) (d_BlockID d) (d_DepositCount d) (d_TxHash d) (d_Metadata d)
    false false.

(** The open transaction has these deposits and blocks, and this next deposit id: what
    the statements on the tables of the trees leave alone. *)
Definition log_frame (ds : list deposit_row) (bs : list block_row) (next : Z) (db : DB) : Prop :=
  (∀ t, db_tx db = Some (TxActive t) → t_deposit t = ds ∧ t_block t = bs) ∧ sq_deposit (db_seqs db) = next.

Lemma keeps_log_frame ds bs next (f : Tables → sqlerr + Tables) :
  (∀ t t', f t = inr t' → t_deposit t' = t_deposit t ∧ t_block t' = t_block t) →
  keeps (log_frame ds bs next) (run InTx (sql_exec f)).
Proof.
  intros Hf db [Ht Hn]. unfold run. destruct (next_fault db) as [b db1] eqn:E.
  apply next_fault_parts in E as (_ & Etx & Es). rewrite <- Etx in Ht. rewrite <- Es in Hn.
  destruct b; [split; [|done]; simpl; by destruct (db_tx db1)|].
  destruct (db_tx db1) as [[t|]|] eqn:E1; [|split; [simpl; congruence|done]..].
  destruct (Ht t eq_refl) as [Hd Hb]. unfold sql_exec. destruct (f t) as [e|t'] eqn:Ef; (split; [|done]); [done|].
  intros t0 [= <-]. destruct (Hf t t' Ef) as [-> ->]. done.
Qed.

Lemma copy_rht_frame rows : ∀ t t', copy_rht rows t = inr t' → t_deposit t' = t_deposit t ∧ t_block t' = t_block t.
Proof.
  induction rows as [|row rows IH]; intros t t' E; simpl in E; [by simplify_eq|].
  unfold insert_rht in E. repeat case_decide; [done..|]. by apply IH in E.
Qed.

Lemma keeps_frame_SetRoot ds bs next r d n : keeps (log_frame ds bs next) (SetRoot r d n InTx).
Proof. apply keeps_log_frame. intros t t' E. repeat case_decide; by simplify_eq. Qed.
Lemma keeps_frame_BulkSet ds bs next rows : keeps (log_frame ds bs next) (BulkSet rows InTx).
Proof. apply keeps_log_frame, copy_rht_frame. Qed.

Lemma keeps_frame_addLeaf `{K : Keccak256} ds bs next id leaf index :
  keeps (λ w : DB * MerkleTree, log_frame ds bs next (fst w)) (addLeaf id leaf index InTx).
Proof.
  assert (∀ A (c : M DB A), keeps (log_frame ds bs next) c →
    keeps (λ w : DB * MerkleTree, log_frame ds bs next (fst w)) (on_store c)) as Hst
    by (intros; eapply keeps_zoom; eauto).
  unfold addLeaf. keeps_auto; (apply keeps_gets || (by apply keeps_modify) || apply Hst);
    [apply keeps_frame_SetRoot|apply keeps_frame_BulkSet].
Qed.

Section Deposit.
Context `{K : Keccak256} {W : Type} (cfg : SyncConfig) (fuel Ht tID : nat).

Local Abbreviation net := (cf_networkID cfg).

(** The state in the middle of a block: the open transaction sees the tables [t], in
    which the tree of the network has the leaves [lds], and the object agrees. *)
Record tree_state (lds : list (Hash * Z)) (t : Tables) (y : SyncState W) : Prop := {
  ts_faults : db_faults (y_db y) = [];
  ts_tx : db_tx (y_db y) = Some (TxActive t);
  ts_stored : stored Ht net lds (tables_view t (db_seqs (y_db y)));
  ts_ids : ids_below t (db_seqs (y_db y));
  ts_tid : bc_merkleTreeIDs (y_ctrl y) !! net = Some (Z.of_nat tID);
  ts_tree : ∃ mt, bc_exitTrees (y_ctrl y) !! tID = Some mt ∧ tree_ok Ht net (fst <$> lds) mt
}.

Lemma stored_add_deposit lds t s row :
  stored Ht net lds (tables_view t s) → ids_below t s → dr_id row = sq_deposit s →
  dr_deposit_cnt row = Z.of_nat (length lds) →
  let v1 := tables_view (on_deposit (λ l, l ++ [row]) t) (bump_deposit s) in
  stored Ht net lds v1 ∧ fresh_deposit v1 (dr_id row) ∧ next_deposit lds (dr_id row) v1.
Proof.
  intros Hst (Hd & Hr & Hh & Hpos) Eid Ecnt v1.
  assert (∀ i p, lds !! i = Some p → snd p < sq_deposit s) as Hlt.
  { intros i p Hi. pose proof (st_deps _ _ _ _ Hst i p Hi) as E.
    assert ((snd p, Z.of_nat i) ∈ filter (λ d, d.1 = snd p) (mv_dep (tables_view t s))) as Hin by (rewrite E; left).
    apply list_elem_of_filter in Hin as [_ Hin]. cbn in Hin.
    apply list_elem_of_fmap in Hin as (d & [= -> _] & Hin). by apply Hd. }
  split; [|split].
  - constructor; unfold v1; cbn [tables_view mv_root mv_rht mv_dep on_deposit t_root t_rht t_deposit].
    + apply (st_roots _ _ _ _ Hst).
    + intros i p Hi. rewrite fmap_app, filter_app. pose proof (st_deps _ _ _ _ Hst i p Hi) as E. cbn in E. rewrite E.
      rewrite filter_none; [done|]. cbn [fmap list_fmap]. intros x ->%list_elem_of_singleton. simpl.
      specialize (Hlt i p Hi). lia.
    + apply (st_nodes _ _ _ _ Hst).
    + apply (st_sorted _ _ _ _ Hst).
    + intros d. rewrite fmap_app, elem_of_app. cbn [fmap list_fmap]. rewrite list_elem_of_singleton.
      intros [Hin|E]; [by apply (st_pos _ _ _ _ Hst)|subst d; simpl; lia].
  - split; [|split].
    + unfold v1. cbn. rewrite <- list_fmap_compose, fmap_app, elem_of_app. right. by left.
    + unfold v1. cbn. intros (r & E & Hin)%list_elem_of_fmap. specialize (Hr r Hin). lia.
    + unfold v1. cbn. intros (r & E & Hin)%list_elem_of_fmap. specialize (Hh r Hin). lia.
  - split; [|intros i p Hi; rewrite Eid; by eapply Hlt].
    unfold v1. cbn. rewrite fmap_app, filter_app, filter_none.
    + cbn. rewrite decide_True by done. by rewrite Ecnt.
    + intros x (d & -> & Hin)%list_elem_of_fmap. simpl. specialize (Hd d Hin). lia.
Qed.

(** The rows the leaf brings carry the id of the deposit. *)
Lemma ids_below_append t row t2 s s2 H n ls leaf :
  ids_below t s → dr_id row = sq_deposit s → t_deposit t2 = t_deposit t ++ [row] → sq_deposit s2 = sq_deposit s + 1 →
  v_append H n ls leaf (dr_id row) (tables_view (on_deposit (λ l, l ++ [row]) t) (bump_deposit s)) = tables_view t2 s2 →
  ids_below t2 s2.
Proof.
  intros (Hd & Hr & Hh & Hpos) Eid Ed Es Ev. unfold v_append, v_add_nodes, v_add_root, tables_view in Ev. cbn in Ev.
  injection Ev as Erht Eroot _ _ _ _. split; [|split; [|split; [|lia]]]; rewrite ?Ed, <- ?Erht, <- ?Eroot, Es.
  - intros d [Hin| ->%list_elem_of_singleton]%elem_of_app; [specialize (Hd d Hin)|]; lia.
  - intros r [Hin| ->%list_elem_of_singleton]%elem_of_app; [specialize (Hr r Hin)|simpl]; lia.
  - intros r [Hin|Hin]%elem_of_app; [specialize (Hh r Hin); lia|].
    apply list_elem_of_fmap in Hin as ([[k x] d] & -> & Hin). unfold path_rows in Hin.
    apply list_elem_of_fmap in Hin as (lvl & E & _). unfold node_triple in E. simplify_eq. simpl. lia.
Qed.

(** The node rows of the tables [t'] are those of [t] and those of the paths of [leaves],
    appended to [ls] one after the other. *)
Definition nodes_from (ls leaves : list Hash) (t t' : Tables) : Prop :=
  ∀ r, r ∈ t_rht t' → r ∈ t_rht t ∨ ∃ i id, (i < length leaves)%nat ∧
    (rh_key r, rh_value r, rh_deposit_id r) ∈ path_rows Ht (length ls + i) (ls ++ take (S i) leaves) id.

(** A deposit that comes next is stored and becomes the last leaf. *)
Lemma storeDeposit_nodes lds t y d leaf :
  tree_state lds t y → block_exists t (d_BlockID d) → d_NetworkID d = net →
  d_DepositCount d = Z.of_nat (length lds) →
  HashDeposit d = Ok leaf → NoDup (path_hashes Ht (length lds) ((fst <$> lds) ++ [leaf])) →
  (Ht ≤ 64)%nat → Z.of_nat (length lds) < 2 ^ 32 - 1 → (length lds < 2 ^ Ht)%nat →
  ∃ t' y', storeDeposit cfg fuel d InTx y = (Ok tt, y') ∧
    tree_state (lds ++ [(leaf, sq_deposit (db_seqs (y_db y)))]) t' y' ∧
    t_deposit t' = t_deposit t ++ [row_of_deposit (sq_deposit (db_seqs (y_db y))) d] ∧
    t_block t' = t_block t ∧ db_committed (y_db y') = db_committed (y_db y) ∧
    nodes_from (fst <$> lds) [leaf] t t'.
Proof.
  intros [Hf Htx Hst Hids Htid (mt & Hmt & Hok)] Hb Hnet Hcnt Hleaf Hnd Hht Hlen HlenH.
  set (id := sq_deposit (db_seqs (y_db y))).
  set (row := row_of_deposit id d). set (t1 := on_deposit (λ l, l ++ [row]) t).
  set (s1 := bump_deposit (db_seqs (y_db y))).
  destruct (stored_add_deposit lds t (db_seqs (y_db y)) row Hst Hids eq_refl Hcnt) as (Hst1 & Hfr & Hnx).
  fold t1 s1 in Hst1, Hfr, Hnx.
  set (db1 := mkDB (db_committed (y_db y)) (Some (TxActive t1)) s1 []).
  assert (mview InTx db1 = Some (tables_view t1 s1)) as Hv1 by done.
  destruct (addLeaf_Ok Ht net (fst <$> lds) leaf id InTx db1 mt (tables_view t1 s1)) as (db2 & mt' & Eadd & Hok' & Hv2);
    [done|done|done|by rewrite length_fmap|done|by rewrite length_fmap|by rewrite length_fmap|].
  pose proof (stored_append Ht net lds leaf id (tables_view t1 s1) Hst1 Hnx) as Hst2.
  apply pg_mview_inv in Hv2 as (t2 & Hview2 & Hf2 & Ev2).
  assert (isolated (db_committed (y_db y)) true db2) as [Hc2 _].
  { pose proof (keeps_addLeaf (db_committed (y_db y)) true (tree_shape mt) id leaf (Z.of_nat (length (fst <$> lds))) (db1, mt)) as Hk.
    rewrite Eadd in Hk. by destruct Hk as [? _]. }
  assert (db_tx db2 = Some (TxActive t2)) as Htx2.
  { simpl in Hview2. destruct (db_tx db2) as [[]|]; by simplify_eq. }
  assert (t_deposit t2 = t_deposit t1 ∧ t_block t2 = t_block t ∧ sq_deposit (db_seqs db2) = id + 1) as (Ed2 & Eb2 & Es2).
  { pose proof (keeps_frame_addLeaf (t_deposit t1) (t_block t) (id + 1) id leaf (Z.of_nat (length (fst <$> lds))) (db1, mt))
      as Hk. rewrite Eadd in Hk. destruct Hk as [Hk Hs]; [split; [by intros ? [= <-]|done]|].
    destruct (Hk t2 Htx2). done. }
  set (y2 := put_ctrl (db2, set_exitTrees (<[tID := mt']> (bc_exitTrees (y_ctrl y))) (y_ctrl y)) (put_db db1 y)).
  assert (stored Ht net (lds ++ [(leaf, id)]) (tables_view t2 (db_seqs db2))) as Hst2' by (rewrite <- Ev2; apply Hst2).
  assert (ids_below t2 (db_seqs db2)) as Hids2 by (by apply (ids_below_append t row t2 (db_seqs (y_db y)) (db_seqs db2) Ht net (fst <$> lds) leaf)).
  exists t2, y2. split; [|split; [|split; [|split; [|split]]]].
  - unfold storeDeposit. erewrite (M_bind_Ok _ _ _ id (put_db db1 y)).
    2: { apply or_rollback_Ok, on_db_eq. unfold Storage.AddDeposit.
         rewrite (run_live InTx _ (y_db y) t id t1 s1).
         - unfold with_tables, db1. by rewrite Hf.
         - simpl. by rewrite Htx.
         - done.
         - by rewrite decide_True by done. }
    apply or_rollback_Ok.
    apply (on_ctrl_tree net tID (λ _, BridgeCtrl.AddDeposit (set_d_Id id d) InTx)
             (addLeaf id leaf (Z.of_nat (length (fst <$> lds))) InTx) (put_db db1 y) mt (Ok tt) db2 mt'); [|done..].
    intros w. unfold BridgeCtrl.AddDeposit.
    assert (HashDeposit (set_d_Id id d) = Ok leaf) as -> by (rewrite <- Hleaf; done).
    erewrite M_bind_Ok by reflexivity. cbn [d_NetworkID d_Id d_DepositCount set_d_Id].
    by rewrite Hnet, Hcnt, length_fmap.
  - constructor; [done..|]. exists mt'. split; [|by rewrite fmap_app].
    apply list_lookup_insert_eq. by eapply lookup_lt_Some.
  - done.
  - done.
  - done.
  - apply (f_equal mv_rht) in Ev2. cbn in Ev2. intros r Hr. rewrite <- Ev2 in Hr. apply elem_of_app in Hr as [Hr|Hr]; [by left|].
    right. apply list_elem_of_fmap in Hr as ([[k x] dd] & -> & Hr). exists 0%nat, id. split; [simpl; lia|].
    by rewrite Nat.add_0_r, length_fmap in *.
Qed.

(** The transaction of the block [b], the newest block of the network. *)
Record block_state (b : block_row) (lds : list (Hash * Z)) (t : Tables) (y : SyncState W) : Prop := {
  bs_tree : tree_state lds t y;
  bs_log : deposit_log net lds t;
  bs_block : b ∈ t_block t;
  bs_net : br_network_id b = net;
  bs_top : ∀ b', b' ∈ t_block t → br_network_id b' = net → br_block_num b' ≤ br_block_num b
}.

Lemma put_db_same (y : SyncState W) : put_db (y_db y) y = y.
Proof. by destruct y. Qed.

Lemma put_ctrl_same (y : SyncState W) mt :
  bc_exitTrees (y_ctrl y) !! tID = Some mt →
  put_ctrl (y_db y, set_exitTrees (<[tID := mt]> (bc_exitTrees (y_ctrl y))) (y_ctrl y)) y = y.
Proof. intros Hmt. rewrite list_insert_id by done. destruct y as [? ? [] ? ? ? ? ? ? ?]. done. Qed.

(** The number of deposits is the number of leaves. *)
Lemma GetNumberDeposits_Ok b lds t y :
  block_state b lds t y → Z.of_nat (length lds) < 2 ^ 32 →
  on_db (GetNumberDeposits net (br_block_num b) InTx) y = (Ok (Z.of_nat (length lds)), y).
Proof.
  intros [[Hf Htx _ _ _ _] Hlog Hb Hbn Htop] Hlen. rewrite <- (put_db_same y) at 2. apply on_db_eq.
  unfold GetNumberDeposits. erewrite M_bind_Ok by (apply (run_query_live InTx _ _ t); [simpl; by rewrite Htx|done]).
  rewrite (count_log net lds t Hlog) by done. unfold mret, M_ret. rewrite u32_id by lia. do 2 f_equal. lia.
Qed.

(** The exit root is the root of the reference tree, in the transaction or outside. *)
Lemma GetExitRoot_view lds h v (y : SyncState W) :
  pg_mview h (y_db y) = Some v → stored Ht net lds v → bc_merkleTreeIDs (y_ctrl y) !! net = Some (Z.of_nat tID) →
  (∃ mt, bc_exitTrees (y_ctrl y) !! tID = Some mt ∧ tree_ok Ht net (fst <$> lds) mt) →
  (Ht ≤ 64)%nat → Z.of_nat (length lds) < 2 ^ 32 →
  on_ctrl (GetExitRoot net h) y = (Ok (mroot Ht (fst <$> lds)), y).
Proof.
  intros Hv Hst Htid (mt & Hmt & Hnet & Hh & Hcnt & _) Hht Hlen. rewrite length_fmap in Hcnt.
  rewrite <- (put_ctrl_same y mt Hmt) at 2.
  apply (on_ctrl_tree net tID (λ n, GetExitRoot n h) (getRoot h) y mt); [done..|].
  unfold getRoot. erewrite M_bind_Ok by reflexivity. cbn [snd]. rewrite Hcnt. case_decide as Hc.
  - assert (lds = []) as -> by (destruct lds; [done|simpl in *; lia]).
    rewrite Hh, (at_index_nat _ _ (zero_hash Ht)) by (apply zeroHashes_lookup; lia).
    unfold lift, mroot. rewrite node_zero by (simpl; lia). done.
  - apply on_store_eq. destruct (lookup_lt_is_Some_2 lds (length lds - 1)) as [p Hp]; [lia|].
    rewrite u32_id, Hnet by lia.
    assert (mview h (y_db y) = Some v) as Hv' by exact Hv. rewrite (law_GetRoot _ _ _ _ _ Hv').
    replace (Z.of_nat (length lds) - 1) with (Z.of_nat (length lds - 1)) by lia.
    rewrite (stored_root Ht net lds _ _ p Hst Hp). cbn. rewrite take_ge; [done|]. rewrite length_fmap. lia.
Qed.

Lemma GetExitRoot_Ok lds t y :
  tree_state lds t y → (Ht ≤ 64)%nat → Z.of_nat (length lds) < 2 ^ 32 →
  on_ctrl (GetExitRoot net InTx) y = (Ok (mroot Ht (fst <$> lds)), y).
Proof.
  intros [Hf Htx Hst _ Htid Htree]. apply (GetExitRoot_view lds InTx (tables_view t (db_seqs (y_db y)))); [|done..].
  unfold pg_mview. rewrite Hf. simpl. by rewrite Htx.
Qed.

(** The check of a local exit tree update passes when the event agrees with the tree. *)
Lemma checkLET_Ok b lds t y msg :
  block_state b lds t y → (Ht ≤ 64)%nat → Z.of_nat (length lds) < 2 ^ 32 →
  checkLET cfg fuel (br_block_num b) (mroot Ht (fst <$> lds)) (Z.of_nat (length lds)) msg InTx y = (Ok tt, y).
Proof.
  intros Hbs Hht Hlen. unfold checkLET.
  erewrite M_bind_Ok by (apply or_rollback_Ok; by eapply GetNumberDeposits_Ok). cbn beta.
  erewrite M_bind_Ok by (apply or_rollback_Ok; eapply GetExitRoot_Ok; [apply Hbs|done..]). cbn beta.
  rewrite decide_False by (by intros [?|?]). done.
Qed.

(** A deposit of the block is stored and becomes the last leaf. *)
Lemma storeDeposit_block b lds t y d leaf :
  block_state b lds t y → d_BlockID d = br_id b → d_NetworkID d = net →
  d_DepositCount d = Z.of_nat (length lds) →
  HashDeposit d = Ok leaf → NoDup (path_hashes Ht (length lds) ((fst <$> lds) ++ [leaf])) →
  (Ht ≤ 64)%nat → Z.of_nat (length lds) < 2 ^ 32 - 1 → (length lds < 2 ^ Ht)%nat →
  ∃ id t' y', storeDeposit cfg fuel d InTx y = (Ok tt, y') ∧
    block_state b (lds ++ [(leaf, id)]) t' y' ∧ t_deposit t' = t_deposit t ++ [row_of_deposit id d] ∧
    db_committed (y_db y') = db_committed (y_db y) ∧ nodes_from (fst <$> lds) [leaf] t t'.
Proof.
  intros [Hts Hlog Hb Hbn Htop] Hbid Hn Hcnt Hleaf Hnd Hht Hlen HlenH.
  destruct (storeDeposit_nodes lds t y d leaf) as (t' & y' & E & Hts' & Ed & Eb & Ec & Hnodes); [done| |done..|].
  { right. rewrite Hbid. by apply list_elem_of_fmap_2. }
  exists (sq_deposit (db_seqs (y_db y))), t', y'. split; [done|]. split; [|done]. constructor; rewrite ?Eb; [done| |done..].
  eapply (deposit_log_append net lds t (row_of_deposit _ d)); [done| |done..].
  intros x Hx. destruct Hts as [_ _ _ (Hids & _) _ _]. by apply Hids.
Qed.

(** The deposits of a list, one after the other. *)
Lemma storeDeposits_block b ds : ∀ leaves lds t y,
  block_state b lds t y →
  Forall2 (λ d leaf, HashDeposit d = Ok leaf ∧ d_BlockID d = br_id b ∧ d_NetworkID d = net) ds leaves →
  (∀ i d, ds !! i = Some d → d_DepositCount d = Z.of_nat (length lds + i)) →
  (∀ i, (i < length leaves)%nat → NoDup (path_hashes Ht (length lds + i) ((fst <$> lds) ++ take (S i) leaves))) →
  (Ht ≤ 64)%nat → Z.of_nat (length lds + length ds) < 2 ^ 32 → (length lds + length ds ≤ 2 ^ Ht)%nat →
  ∃ ids t' y', forM_ ds (λ d, storeDeposit cfg fuel d InTx) y = (Ok tt, y') ∧ length ids = length ds ∧
    block_state b (lds ++ zip leaves ids) t' y' ∧ t_deposit t' = t_deposit t ++ zip_with row_of_deposit ids ds ∧
    db_committed (y_db y') = db_committed (y_db y) ∧ nodes_from (fst <$> lds) leaves t t'.
Proof.
  induction ds as [|d ds IH]; intros leaves lds t y Hbs Hall Hcnt Hnd Hht Hlen HlenH.
  { apply Forall2_nil_inv_l in Hall as ->. exists [], t, y. rewrite !app_nil_r. do 5 (split; [done|]). intros r Hr. by left. }
  apply Forall2_cons_inv_l in Hall as (leaf & leaves' & (Hleaf & Hbid & Hn) & Hall & ->). simpl in Hlen, HlenH.
  destruct (storeDeposit_block b lds t y d leaf) as (id & t1 & y1 & E1 & Hbs1 & Ed1 & Ec1 & Hn1); [done|done|done| |done| |done|lia|lia|].
  { rewrite (Hcnt 0%nat d) by done. f_equal. lia. }
  { specialize (Hnd 0%nat). rewrite Nat.add_0_r in Hnd. apply Hnd. simpl. lia. }
  destruct (IH leaves' (lds ++ [(leaf, id)]) t1 y1) as (ids & t' & y' & E & Hids & Hbs' & Ed & Ec & Hn');
    [done|done| | |done|rewrite length_app; simpl; lia..|].
  { intros i d' Hi. rewrite (Hcnt (S i) d') by done. rewrite length_app. f_equal. simpl. lia. }
  { intros i Hi. specialize (Hnd (S i)). rewrite length_app, fmap_app, <- app_assoc. simpl in *.
    replace (length lds + 1 + i)%nat with (length lds + S i)%nat by lia. apply Hnd. lia. }
  exists (id :: ids), t', y'. cbn [forM_]. rewrite (M_bind_Ok _ _ _ _ _ E1). split; [done|]. split; [simpl; lia|].
  rewrite <- app_assoc in Hbs'. split; [done|]. rewrite Ed, Ed1, <- app_assoc, Ec. split; [done|]. split; [done|].
  rewrite fmap_app in Hn'. intros r [Hr|(i & rid & Hi & Hr)]%Hn'.
  - apply Hn1 in Hr as [Hr|(i & rid & Hi & Hr)]; [by left|right]. exists 0%nat, rid. simpl in Hi.
    assert (i = 0%nat) as -> by lia. split; [simpl; lia|done].
  - right. exists (S i), rid. rewrite length_app, <- app_assoc in Hr. split; [simpl; lia|]. cbn [take fmap list_fmap length app] in *.
    by replace (length (fst <$> lds) + 1 + i)%nat with (length (fst <$> lds) + S i)%nat in Hr by lia.
Qed.

(** Statements on other tables keep the state of the block. *)
Lemma block_state_ext b lds t y t' s' :
  block_state b lds t y → t_deposit t' = t_deposit t → t_block t' = t_block t → t_root t' = t_root t →
  t_rht t' = t_rht t → sq_deposit s' = sq_deposit (db_seqs (y_db y)) →
  block_state b lds t' (put_db (with_tables InTx t' s' (y_db y)) y).
Proof.
  intros [[Hf Htx Hst (Hd & Hr & Hh & Hp) Htid Htree] [] Hb Hbn Htop] Ed Eb Er Eh Es.
  constructor; rewrite ?Eb; [|constructor; by rewrite ?Ed, ?Eb|done..].
  constructor; [done..| | |done|done].
  - eapply stored_ext; [..|exact Hst]; cbn; by rewrite ?Eh, ?Er, ?Ed.
  - unfold ids_below. cbn. rewrite Ed, Er, Eh, Es. done.
Qed.

End Deposit.
