(* ===== verification/SyncLET.v ===== *)
(** * The handlers that change an exit tree

    The success paths of the handlers of deposits and of the forward and backward
    updates of the local exit tree of a sovereign chain. *)
From S2P Require Import Prelude Types Bytes Hash MerkleSpec ClaimTypes Schema MerkleStore Storage.
From S2P Require Import PgMerkleStore MerkleTree MerkleTreeFacts BridgeCtrl Synchronizer Invariants.
From S2P Require Import StorageFacts SyncFacts ReorgFacts Toy SyncTheorems SyncDeposits.

(** A deposit whose count is the number of leaves is stored with the network and
    the block of the handler, and the exit tree, stored and in memory, becomes the tree
    with its leaf appended; nothing is committed yet. *)
Theorem processDeposit_correct `{K : Keccak256} {W : Type} (cfg : SyncConfig) (fuel Ht tID : nat) (b : block_row)
    (lds : list (Hash * Z)) (t : Tables) (y : SyncState W) (d : Deposit) (leaf : Hash) :
  block_state cfg Ht tID b lds t y →
  d_DepositCount d = Z.of_nat (length lds) → HashDeposit d = Ok leaf →
  NoDup (path_hashes Ht (length lds) ((fst <$> lds) ++ [leaf])) →
  (Ht ≤ 64)%nat → Z.of_nat (length lds) < 2 ^ 32 - 1 → (length lds < 2 ^ Ht)%nat →
  ∃ id t' y', processDeposit cfg fuel d (br_id b) InTx y = (Ok tt, y') ∧
    block_state cfg Ht tID b (lds ++ [(leaf, id)]) t' y' ∧
    t_deposit t' = t_deposit t ++ [row_of_deposit id (place_deposit cfg (br_id b) d)] ∧
    db_committed (y_db y') = db_committed (y_db y).
Proof.
  intros. edestruct (storeDeposit_block cfg fuel Ht tID b lds t y (place_deposit cfg (br_id b) d) leaf)
    as (id & t' & y' & E & Hbs & Ed & Ec & _); [done..|]. by exists id, t', y'.
Qed.

(** The announced leaves of a forward update, as the deposits the handler makes. *)
Definition forward_deposits (cfg : SyncConfig) (fl : ForwardLET) (b : block_row) (n : nat) : list Deposit :=
  imap (deposit_of_leaf cfg (mkForwardLET (br_id b) (fl_PreviousDepositCount fl) (fl_PreviousRoot fl)
          (fl_NewDepositCount fl) (fl_NewRoot fl) (fl_NewRawLeaves fl) (fl_NewLeaves fl) (fl_TxHash fl))
          (br_block_num b) (Z.of_nat n)) (fl_NewLeaves fl).

Lemma forward_deposits_lookup cfg fl b n i d :
  forward_deposits cfg fl b n !! i = Some d → Z.of_nat (n + length (fl_NewLeaves fl)) < 2 ^ 32 →
  d_DepositCount d = Z.of_nat (n + i) ∧ d_BlockID d = br_id b ∧ d_NetworkID d = cf_networkID cfg.
Proof.
  unfold forward_deposits. rewrite list_lookup_imap. intros (l & Hl & ->)%fmap_Some Hlen.
  apply lookup_lt_Some in Hl. cbn. rewrite (u32_id (Z.of_nat i)), u32_id by lia. split; [lia|done].
Qed.

(** A forward update that agrees with the tree, with the nodes it writes. *)
Lemma processForwardLET_block `{K : Keccak256} {W : Type} (cfg : SyncConfig) (fuel Ht tID : nat) (b : block_row)
    (lds : list (Hash * Z)) (t : Tables) (y : SyncState W) (fl : ForwardLET) (leaves : list Hash) :
  block_state cfg Ht tID b lds t y →
  fl_PreviousRoot fl = mroot Ht (fst <$> lds) → fl_PreviousDepositCount fl = Z.of_nat (length lds) →
  Forall2 (λ d leaf, HashDeposit d = Ok leaf) (forward_deposits cfg fl b (length lds)) leaves →
  fl_NewRoot fl = mroot Ht ((fst <$> lds) ++ leaves) →
  fl_NewDepositCount fl = Z.of_nat (length lds + length leaves) →
  (∀ i, (i < length leaves)%nat → NoDup (path_hashes Ht (length lds + i) ((fst <$> lds) ++ take (S i) leaves))) →
  (Ht ≤ 64)%nat → Z.of_nat (length lds + length leaves) < 2 ^ 32 → (length lds + length leaves ≤ 2 ^ Ht)%nat →
  ∃ ids rid t' y', processForwardLETSovereign cfg fuel fl (br_id b) (br_block_num b) InTx y = (Ok tt, y') ∧
    length ids = length leaves ∧ block_state cfg Ht tID b (lds ++ zip leaves ids) t' y' ∧
    t_deposit t' = t_deposit t ++ zip_with row_of_deposit ids (forward_deposits cfg fl b (length lds)) ∧
    last (t_forward_let t') =
      Some (mk_forward_let_row rid (br_id b) (fl_PreviousDepositCount fl) (fl_PreviousRoot fl)
              (fl_NewDepositCount fl) (fl_NewRoot fl) (fl_NewRawLeaves fl)) ∧
    db_committed (y_db y') = db_committed (y_db y) ∧ nodes_from Ht (fst <$> lds) leaves t t'.
Proof.
  intros Hbs Eroot Ecnt Hleaves Enew Enewc Hnd Hht Hlen HlenH.
  set (ds := forward_deposits cfg fl b (length lds)) in *.
  assert (length (fl_NewLeaves fl) = length leaves) as Hll.
  { apply Forall2_length in Hleaves. unfold ds, forward_deposits in Hleaves. by rewrite length_imap in Hleaves. }
  assert (length ds = length leaves) as Hdl by (by apply Forall2_length in Hleaves).
  destruct (storeDeposits_block cfg fuel Ht tID b ds leaves lds t y) as (ids & t1 & y1 & E & Hids & Hbs1 & Ed & Ec & Hnodes);
    [done| | |done|done|rewrite Hdl; lia..|].
  { apply Forall2_same_length_lookup. split; [done|]. intros i d leaf Hd Hleaf.
    destruct (forward_deposits_lookup _ _ _ _ _ _ Hd) as (_ & ? & ?); [lia|].
    by eapply Forall2_lookup_lr in Hleaves. }
  { intros i d Hd. apply (forward_deposits_lookup _ _ _ _ _ _ Hd). lia. }
  assert (fst <$> lds ++ zip leaves ids = (fst <$> lds) ++ leaves) as Efst.
  { rewrite fmap_app. f_equal. apply fst_zip. lia. }
  assert (length (lds ++ zip leaves ids) = length lds + length leaves)%nat as Elen.
  { rewrite length_app, length_zip_with. lia. }
  assert (∀ msg, checkLET cfg fuel (br_block_num b) (mroot Ht ((fst <$> lds) ++ leaves))
            (Z.of_nat (length lds + length leaves)) msg InTx y1 = (Ok tt, y1)) as Hchk.
  { intros msg. pose proof (checkLET_Ok cfg fuel Ht tID b _ _ _ msg Hbs1 Hht) as Hc. rewrite Efst, Elen in Hc. by apply Hc. }
  set (s2 := db_seqs (y_db y1)).
  set (row := mk_forward_let_row (sq_forward_let s2) (br_id b) (fl_PreviousDepositCount fl) (fl_PreviousRoot fl)
              (fl_NewDepositCount fl) (fl_NewRoot fl) (fl_NewRawLeaves fl)).
  set (t2 := on_forward_let (λ l, l ++ [row]) t1).
  exists ids, (sq_forward_let s2), t2, (put_db (with_tables InTx t2 (bump_forward_let s2) (y_db y1)) y1).
  split; [|split; [lia|split; [by eapply block_state_ext|split; [done|split; [apply last_snoc|split; [done|exact Hnodes]]]]]].
  unfold processForwardLETSovereign. cbn [fl_PreviousRoot fl_PreviousDepositCount fl_NewLeaves fl_NewRoot fl_NewDepositCount].
  rewrite Eroot, Ecnt, Enew, Enewc.
  erewrite M_bind_Ok by (eapply checkLET_Ok; [done..|lia]).
  erewrite M_bind_Ok by (apply or_rollback_Ok; eapply GetNumberDeposits_Ok; [done|lia]). cbn beta.
  erewrite M_bind_Ok.
  2: { rewrite <- E. unfold ds, forward_deposits. by rewrite Eroot, Ecnt, Enew, Enewc. }
  erewrite M_bind_Ok by apply Hchk.
  apply or_rollback_Ok, on_db_eq. apply (run_live InTx _ _ t1).
  - cbn. by rewrite (ts_tx _ _ _ _ _ _ (bs_tree _ _ _ _ _ _ _ Hbs1)).
  - apply (ts_faults _ _ _ _ _ _ (bs_tree _ _ _ _ _ _ _ Hbs1)).
  - cbn [fl_BlockID fl_PreviousDepositCount fl_PreviousRoot fl_NewDepositCount fl_NewRoot fl_NewRawLeaves].
    rewrite decide_True; [by unfold t2, row; rewrite Eroot, Ecnt, Enew, Enewc|].
    right. apply list_elem_of_fmap_2, (bs_block _ _ _ _ _ _ _ Hbs1).
Qed.

(** A forward update that starts from the tree of the network and announces the
    count and the root of the tree with the new leaves appended is applied: its leaves
    become deposits with the next counts, the exit tree is the longer tree, stored and
    in memory, and the event is recorded. *)
Theorem processForwardLET_correct `{K : Keccak256} {W : Type} (cfg : SyncConfig) (fuel Ht tID : nat) (b : block_row)
    (lds : list (Hash * Z)) (t : Tables) (y : SyncState W) (fl : ForwardLET) (leaves : list Hash) :
  block_state cfg Ht tID b lds t y →
  fl_PreviousRoot fl = mroot Ht (fst <$> lds) → fl_PreviousDepositCount fl = Z.of_nat (length lds) →
  Forall2 (λ d leaf, HashDeposit d = Ok leaf) (forward_deposits cfg fl b (length lds)) leaves →
  fl_NewRoot fl = mroot Ht ((fst <$> lds) ++ leaves) →
  fl_NewDepositCount fl = Z.of_nat (length lds + length leaves) →
  (∀ i, (i < length leaves)%nat → NoDup (path_hashes Ht (length lds + i) ((fst <$> lds) ++ take (S i) leaves))) →
  (Ht ≤ 64)%nat → Z.of_nat (length lds + length leaves) < 2 ^ 32 → (length lds + length leaves ≤ 2 ^ Ht)%nat →
  ∃ ids rid t' y', processForwardLETSovereign cfg fuel fl (br_id b) (br_block_num b) InTx y = (Ok tt, y') ∧
    length ids = length leaves ∧ block_state cfg Ht tID b (lds ++ zip leaves ids) t' y' ∧
    t_deposit t' = t_deposit t ++ zip_with row_of_deposit ids (forward_deposits cfg fl b (length lds)) ∧
    last (t_forward_let t') =
      Some (mk_forward_let_row rid (br_id b) (fl_PreviousDepositCount fl) (fl_PreviousRoot fl)
              (fl_NewDepositCount fl) (fl_NewRoot fl) (fl_NewRawLeaves fl)) ∧
    db_committed (y_db y') = db_committed (y_db y).
Proof.
  intros. edestruct (processForwardLET_block cfg fuel Ht tID b lds t y fl leaves)
    as (ids & rid & t' & y' & E & Hl & Hbs & Ed & Elast & Ec & _); [done..|]. by exists ids, rid, t', y'.
Qed.

(** ** Backward updates *)

(** DELETE FROM sync.deposit WHERE deposit_cnt >= c AND network_id = net. *)
Definition from_count (net : Z) (c : nat) (r : deposit_row) : Prop :=
  Z.of_nat c ≤ dr_deposit_cnt r ∧ dr_network_id r = net.
#[global] Instance from_count_dec net c r : Decision (from_count net c r).
Proof. unfold from_count. apply _. Defined.

Section Backward.
Context (net : Z) (lds : list (Hash * Z)) (t : Tables) (c : nat) (Hlog : deposit_log net lds t).

Local Abbreviation t' := (delete_deposits (from_count net c) t).

Lemma from_count_gone i p : lds !! i = Some p → (snd p ∉ gone_ids (from_count net c) t) ↔ (i < c)%nat.
Proof.
  intros Hi. destruct (dl_row _ _ _ Hlog i p Hi) as (d & Hd & Eid & Ecnt & En).
  assert (snd p ∈ gone_ids (from_count net c) t ↔ (c ≤ i)%nat) as Hg; [|rewrite Hg; lia].
  unfold gone_ids. rewrite list_elem_of_fmap. split.
  - intros (d' & E & [[Hc _] Hd']%list_elem_of_filter).
    assert (d' = d) as -> by (eapply (NoDup_fmap_inj dr_id); [apply Hlog|done..|congruence]). lia.
  - intros Hc. exists d. split; [done|]. apply list_elem_of_filter. split; [split; [lia|done]|done].
Qed.

Lemma deposit_log_delete : deposit_log net (take c lds) t'.
Proof.
  assert (∀ d, d ∈ t_deposit t' ↔ ¬ from_count net c d ∧ d ∈ t_deposit t) as Hin
    by (intros d; cbn; by rewrite list_elem_of_filter).
  constructor.
  - eapply sublist_NoDup; [apply (dl_dep_ids _ _ _ Hlog)|]. apply fmap_sublist, sublist_filter.
  - apply Hlog.
  - intros d [Hn Hd]%Hin En. destruct (dl_leaf _ _ _ Hlog d Hd En) as (i & p & Hi & Eid & Ecnt). exists i, p.
    split; [|done]. rewrite lookup_take_lt; [done|]. unfold from_count in Hn. lia.
  - intros i p [Hi Hc]%lookup_take_Some. destruct (dl_row _ _ _ Hlog i p Hi) as (d & Hd & ? & ? & ?). exists d.
    rewrite Hin. split; [split; [|done]; intros [? _]; lia|done].
  - intros d [_ Hd]%Hin. apply (dl_block _ _ _ Hlog d Hd).
  - intros d1 d2 b1 b2 [_ Hd1]%Hin [_ Hd2]%Hin. by apply (dl_mono _ _ _ Hlog).
Qed.

Lemma ids_below_delete s : ids_below t s → ids_below t' s.
Proof.
  intros (Hd & Hr & Hh & Hp). split; [|split; [|split; [|done]]]; cbn.
  - intros d [_ ?]%list_elem_of_filter. by apply Hd.
  - intros d [_ ?]%list_elem_of_filter. by apply Hr.
  - intros d [_ ?]%list_elem_of_filter. by apply Hh.
Qed.

End Backward.

(** A backward update that agrees with the tree; nodes are only deleted. *)
Lemma processBackwardLET_block `{K : Keccak256} {W : Type} (cfg : SyncConfig) (fuel Ht tID : nat) (b : block_row)
    (lds : list (Hash * Z)) (t : Tables) (y : SyncState W) (bl : BackwardLET) (c : nat) :
  block_state cfg Ht tID b lds t y → rht_functional (tables_view t (db_seqs (y_db y))) →
  cf_networkID cfg ≠ 0 → (c ≤ length lds)%nat →
  bl_PreviousRoot bl = mroot Ht (fst <$> lds) → bl_PreviousDepositCount bl = Z.of_nat (length lds) →
  bl_NewRoot bl = mroot Ht (take c (fst <$> lds)) → bl_NewDepositCount bl = Z.of_nat c →
  (0 < Ht ≤ 64)%nat → Z.of_nat (length lds) < 2 ^ 32 → (length lds ≤ 2 ^ Ht)%nat →
  ∃ rid t' y', processBackwardLETSovereign cfg fuel bl (br_id b) (br_block_num b) InTx y = (Ok tt, y') ∧
    block_state cfg Ht tID b (take c lds) t' y' ∧
    t_deposit t' = filter (λ r, ¬ from_count (cf_networkID cfg) c r) (t_deposit t) ∧
    t_backward_let t' = t_backward_let t ++
      [mk_backward_let_row rid (br_id b) (bl_PreviousDepositCount bl) (bl_PreviousRoot bl) (bl_NewDepositCount bl)
         (bl_NewRoot bl)] ∧
    db_committed (y_db y') = db_committed (y_db y) ∧ (∀ r, r ∈ t_rht t' → r ∈ t_rht t).
Proof.
  intros Hbs Hfun Hnet Hc Eroot Ecnt Enew Enewc Hht Hlen HlenH.
  pose proof Hbs as [[Hf Htx Hst Hids Htid (mt & Hmt & Hok)] Hlog Hb Hbn Htop].
  set (net := cf_networkID cfg) in *. set (t1 := delete_deposits (from_count net c) t).
  set (sq := db_seqs (y_db y)) in *. set (db1 := mkDB (db_committed (y_db y)) (Some (TxActive t1)) sq []).
  assert (stored Ht net (take c lds) (tables_view t1 sq)) as Hst1.
  { apply stored_delete; [done|apply Hlog|]. by apply from_count_gone. }
  destruct (assignSiblings_Ok Ht net (take c lds) (tables_view t1 sq) InTx db1 (set_count (Z.of_nat c) mt) c)
    as (mt' & Ea & Hok'); [done|by apply functional_delete|done|done|rewrite length_take; lia|lia|lia|apply Hok|apply Hok|done|].
  rewrite fmap_take, take_take, Nat.min_id in Hok'.
  set (y1 := put_db db1 y).
  set (y2 := put_ctrl (db1, set_exitTrees (<[tID := mt']> (bc_exitTrees (y_ctrl y))) (y_ctrl y)) y1).
  assert (block_state cfg Ht tID b (take c lds) t1 y2) as Hbs2.
  { constructor; [|by apply deposit_log_delete|done..]. constructor; [done..|by apply ids_below_delete|done|].
    exists mt'. rewrite fmap_take. split; [|done]. apply list_lookup_insert_eq. by eapply lookup_lt_Some. }
  assert (∀ msg, checkLET cfg fuel (br_block_num b) (mroot Ht (take c (fst <$> lds))) (Z.of_nat c) msg InTx y2
            = (Ok tt, y2)) as Hchk.
  { intros msg. pose proof (checkLET_Ok cfg fuel Ht tID b _ _ _ msg Hbs2) as Hk.
    rewrite fmap_take, length_take, Nat.min_l in Hk by done. apply Hk; lia. }
  set (row := mk_backward_let_row (sq_backward_let sq) (br_id b) (bl_PreviousDepositCount bl) (bl_PreviousRoot bl)
                (bl_NewDepositCount bl) (bl_NewRoot bl)).
  set (t2 := on_backward_let (λ l, l ++ [row]) t1).
  exists (sq_backward_let sq), t2, (put_db (with_tables InTx t2 (bump_backward_let sq) db1) y2).
  split; [|split; [by eapply (block_state_ext _ _ _ _ _ t1 y2)|]].
  2: { do 3 (split; [done|]). by intros r [_ Hr]%list_elem_of_filter. }
  unfold processBackwardLETSovereign. cbn [bl_PreviousRoot bl_PreviousDepositCount bl_NewRoot bl_NewDepositCount].
  rewrite Eroot, Ecnt, Enew, Enewc.
  erewrite M_bind_Ok by (eapply checkLET_Ok; [done|lia|lia]).
  erewrite (M_bind_Ok _ _ _ tt y1).
  2: { apply or_rollback_Ok, on_db_eq. unfold ResetDeposits. fold net. rewrite decide_False by done.
       rewrite (run_live InTx _ _ t tt t1 sq); [|simpl; by rewrite Htx|done|done].
       unfold with_tables, db1. by rewrite Hf. }
  erewrite (M_bind_Ok _ _ _ tt y2).
  2: { apply or_rollback_Ok.
       apply (on_ctrl_tree net tID (λ n, ReorgMT (Z.of_nat c) n InTx) (resetLeaf (Z.of_nat c) InTx) y1 mt (Ok tt) db1 mt');
         [done..|]. unfold resetLeaf. erewrite M_bind_Ok by reflexivity. exact Ea. }
  erewrite M_bind_Ok by apply Hchk.
  apply or_rollback_Ok, on_db_eq. apply (run_live InTx _ _ t1); [done..|].
  cbn [bl_BlockID bl_PreviousDepositCount bl_PreviousRoot bl_NewDepositCount bl_NewRoot].
  rewrite decide_True; [by unfold t2, row; rewrite Eroot, Ecnt, Enew, Enewc|].
  right. by apply list_elem_of_fmap_2.
Qed.

(** A backward update that starts from the tree of the network and announces the
    count [c] and the root of its first [c] leaves is applied: the deposits from [c] on
    are deleted with their nodes and roots, the exit tree is the shorter tree, stored
    and in memory, and the event is recorded. *)
Theorem processBackwardLET_correct `{K : Keccak256} {W : Type} (cfg : SyncConfig) (fuel Ht tID : nat) (b : block_row)
    (lds : list (Hash * Z)) (t : Tables) (y : SyncState W) (bl : BackwardLET) (c : nat) :
  block_state cfg Ht tID b lds t y → rht_functional (tables_view t (db_seqs (y_db y))) →
  cf_networkID cfg ≠ 0 → (c ≤ length lds)%nat →
  bl_PreviousRoot bl = mroot Ht (fst <$> lds) → bl_PreviousDepositCount bl = Z.of_nat (length lds) →
  bl_NewRoot bl = mroot Ht (take c (fst <$> lds)) → bl_NewDepositCount bl = Z.of_nat c →
  (0 < Ht ≤ 64)%nat → Z.of_nat (length lds) < 2 ^ 32 → (length lds ≤ 2 ^ Ht)%nat →
  ∃ rid t' y', processBackwardLETSovereign cfg fuel bl (br_id b) (br_block_num b) InTx y = (Ok tt, y') ∧
    block_state cfg Ht tID b (take c lds) t' y' ∧
    t_deposit t' = filter (λ r, ¬ from_count (cf_networkID cfg) c r) (t_deposit t) ∧
    t_backward_let t' = t_backward_let t ++
      [mk_backward_let_row rid (br_id b) (bl_PreviousDepositCount bl) (bl_PreviousRoot bl) (bl_NewDepositCount bl)
         (bl_NewRoot bl)] ∧
    db_committed (y_db y') = db_committed (y_db y).
Proof.
  intros. edestruct (processBackwardLET_block cfg fuel Ht tID b lds t y bl c)
    as (rid & t' & y' & E & Hbs & Ed & El & Ec & _); [done..|]. by exists rid, t', y'.
Qed.

(** ** Concrete inputs *)

(** Three leaves, in the transaction of the block 12. *)
Definition toy_top : block_row := mk_block_row 3 12 1003 1.
Definition toy_bstate : SyncState unit :=
  mkSyncState tt (mkDB (db_committed toy_w3.1) (Some (TxActive (db_committed toy_w3.1))) (db_seqs toy_w3.1) [])
    (mkBridgeController [toy_w3.2] (mkMerkleTree MaxInt32 3 0 []) {[1 := 0]}) false 0 0 0 [] [] [].

Lemma toy_block_state :
  block_state (K := toy_keccak) toy_cfg 3 0 toy_top toy_leaves3 (db_committed toy_w3.1) toy_bstate.
Proof.
  constructor.
  - constructor; [done..| | |done|].
    + change (stored (K := toy_keccak) 3 1 toy_leaves3 (tables_view (db_committed toy_w3.1) (db_seqs toy_w3.1))).
      rewrite toy_view3_eq. exact toy_stored3.
    + unfold ids_below. change (sq_deposit (db_seqs (y_db toy_bstate))) with 4. rewrite <- !Forall_forall.
      apply (bool_decide_unpack _). by vm_compute.
    + exists toy_w3.2. split; [done|]. do 3 (split; [done|]). split; [done|]. intros h Hh.
      do 3 (destruct h as [|h]; [by vm_compute|]). lia.
  - destruct toy_log. by constructor.
  - change (toy_top ∈ toy_blocks). right. right. left.
  - done.
  - change (∀ b', b' ∈ toy_blocks → br_network_id b' = 1 → br_block_num b' ≤ 12). unfold toy_blocks.
    intros b'. rewrite !elem_of_cons, elem_of_nil. intros [-> | [-> | [-> | []]]] _; simpl; lia.
Qed.

Definition toy_leaf_of (d : Deposit) : Hash := match HashDeposit (K := toy_keccak) d with Ok l => l | _ => 0 end.

Lemma processDeposit_correct_witness :
  ∃ id t' y', processDeposit (K := toy_keccak) toy_cfg 1 (toy_deposit 3) (br_id toy_top) InTx toy_bstate = (Ok tt, y') ∧
    block_state (K := toy_keccak) toy_cfg 3 0 toy_top (toy_leaves3 ++ [(toy_leaf_of (toy_deposit 3), id)]) t' y' ∧
    t_deposit t' = t_deposit (db_committed toy_w3.1) ++
      [row_of_deposit id (place_deposit toy_cfg (br_id toy_top) (toy_deposit 3))] ∧
    db_committed (y_db y') = db_committed (y_db toy_bstate).
Proof.
  apply (processDeposit_correct (K := toy_keccak) toy_cfg 1 3 0 toy_top toy_leaves3 (db_committed toy_w3.1) toy_bstate
           (toy_deposit 3) (toy_leaf_of (toy_deposit 3)) toy_block_state).
  - done.
  - by vm_compute.
  - apply (bool_decide_unpack _). by vm_compute.
  - lia.
  - by vm_compute.
  - simpl. lia.
Defined.

Definition toy_leafdata (a : Z) : LeafData := mkLeafData 0 0 100 1 200 a [1].
Definition toy_forward (leaves : list Hash) : ForwardLET :=
  mkForwardLET 0 3 (mroot (K := toy_keccak) 3 [111; 222; 333]) 5 (mroot (K := toy_keccak) 3 ([111; 222; 333] ++ leaves))
    [9] [toy_leafdata 7; toy_leafdata 8] 66.
Definition toy_new_leaves : list Hash := toy_leaf_of <$> forward_deposits toy_cfg (toy_forward []) toy_top 3.

Lemma processForwardLET_correct_witness :
  let fl := toy_forward toy_new_leaves in
  ∃ ids rid t' y', processForwardLETSovereign (K := toy_keccak) toy_cfg 1 fl (br_id toy_top) (br_block_num toy_top) InTx
      toy_bstate = (Ok tt, y') ∧
    length ids = length toy_new_leaves ∧
    block_state (K := toy_keccak) toy_cfg 3 0 toy_top (toy_leaves3 ++ zip toy_new_leaves ids) t' y' ∧
    t_deposit t' = t_deposit (db_committed toy_w3.1) ++ zip_with row_of_deposit ids (forward_deposits toy_cfg fl toy_top 3) ∧
    last (t_forward_let t') =
      Some (mk_forward_let_row rid (br_id toy_top) (fl_PreviousDepositCount fl) (fl_PreviousRoot fl)
              (fl_NewDepositCount fl) (fl_NewRoot fl) (fl_NewRawLeaves fl)) ∧
    db_committed (y_db y') = db_committed (y_db toy_bstate).
Proof.
  apply (processForwardLET_correct (K := toy_keccak) toy_cfg 1 3 0 toy_top toy_leaves3 (db_committed toy_w3.1) toy_bstate
           (toy_forward toy_new_leaves) toy_new_leaves toy_block_state).
  - done.
  - done.
  - apply Forall2_fmap_r. apply Forall_Forall2_diag. repeat constructor.
  - done.
  - done.
  - intros i Hi. change (i < 2)%nat in Hi.
    do 2 (destruct i as [|i]; [apply (bool_decide_unpack _); by vm_compute|]). lia.
  - lia.
  - by vm_compute.
  - simpl. lia.
Defined.

Lemma processBackwardLET_correct_witness :
  let bl := mkBackwardLET 0 3 (mroot (K := toy_keccak) 3 [111; 222; 333]) 1 (mroot (K := toy_keccak) 3 [111]) in
  ∃ rid t' y', processBackwardLETSovereign (K := toy_keccak) toy_cfg 1 bl (br_id toy_top) (br_block_num toy_top) InTx
      toy_bstate = (Ok tt, y') ∧
    block_state (K := toy_keccak) toy_cfg 3 0 toy_top (take 1 toy_leaves3) t' y' ∧
    t_deposit t' = filter (λ r, ¬ from_count 1 1 r) (t_deposit (db_committed toy_w3.1)) ∧
    t_backward_let t' = t_backward_let (db_committed toy_w3.1) ++
      [mk_backward_let_row rid (br_id toy_top) (bl_PreviousDepositCount bl) (bl_PreviousRoot bl) (bl_NewDepositCount bl)
         (bl_NewRoot bl)] ∧
    db_committed (y_db y') = db_committed (y_db toy_bstate).
Proof.
  apply (processBackwardLET_correct (K := toy_keccak) toy_cfg 1 3 0 toy_top toy_leaves3 (db_committed toy_w3.1) toy_bstate
           _ 1 toy_block_state).
  - change (rht_functional (tables_view (db_committed toy_w3.1) (db_seqs toy_w3.1))).
    rewrite toy_view3_eq. exact toy_functional3.
  - done.
  - simpl. lia.
  - done.
  - done.
  - done.
  - done.
  - lia.
  - by vm_compute.
  - simpl. lia.
Defined.
