(* ===== verification/SyncClaims.v ===== *)
(** * Claims set and unset on a sovereign chain, and the progress of a synchronization *)
From S2P Require Import Prelude Types Bytes Hash MerkleSpec ClaimTypes Schema MerkleStore Storage.
From S2P Require Import PgMerkleStore MerkleTree MerkleTreeFacts BridgeCtrl Synchronizer Toy SyncTheorems.
From S2P Require Import SyncDeposits SyncLET.
From Stdlib Require Znumtheory.

(** The row of the claim that a SetClaim event stands for. *)
Definition set_claim_row (net blockID : Z) (sc : SetClaim) (d : deposit_row) : claim_row :=
  mk_claim_row net (sc_Index sc) (dr_orig_net d) (dr_orig_addr d) (dr_amount d) (dr_dest_addr d) blockID (sc_TxHash sc)
    (sc_RollupIndex sc) (sc_MainnetFlag sc) (pretty (sc_GlobalIndex sc)).

Section SetUnset.
Context `{K : Keccak256} {W : Type} (cfg : SyncConfig) (fuel : nat).

Local Abbreviation net := (cf_networkID cfg).

(** The open transaction sees [t], and no failure is scheduled. *)
Definition tx_sees (t : Tables) (y : SyncState W) : Prop :=
  db_faults (y_db y) = [] ∧ db_tx (y_db y) = Some (TxActive t).

Lemma tx_step {A} (q : stmt A) t y a t' s' :
  tx_sees t y → q t (db_seqs (y_db y)) = (inr (a, t'), s') →
  or_rollback cfg fuel InTx (on_db (run InTx q)) y =
    (Ok a, put_db (mkDB (db_committed (y_db y)) (Some (TxActive t')) s' []) y).
Proof.
  intros [Hf Htx] Hq. apply or_rollback_Ok, on_db_eq.
  rewrite (run_live InTx q _ t a t' s'); [|simpl; by rewrite Htx|done|done]. unfold with_tables. by rewrite Hf.
Qed.

Lemma tx_query {A} (f : Tables → A) t (y : SyncState W) :
  tx_sees t y → run InTx (sql_query f) (y_db y) = (Ok (f t), y_db y).
Proof. intros [Hf Htx]. apply run_query_live; [simpl; by rewrite Htx|done]. Qed.

End SetUnset.

(** C38: a SetClaim event records, for the deposit with the claimed index that is bound to
    this network, a claim with the data of the deposit; the UnsetClaim event with the same
    global index removes exactly that claim again, and both events stay on record. *)
Theorem setClaim_unsetClaim `{K : Keccak256} {W : Type} (cfg : SyncConfig) (fuel : nat) (t : Tables) (y : SyncState W)
    (sc : SetClaim) (uc : UnsetClaim) (blockID blockNumber : Z) (d : deposit_row) (b : block_row) :
  let net := cf_networkID cfg in
  let origin := if sc_MainnetFlag sc then 0 else u32 (sc_RollupIndex sc + 1) in
  tx_sees t y → block_exists t blockID →
  head (filter (λ p, dr_network_id p.1 = origin ∧ dr_deposit_cnt p.1 = sc_Index sc) (deposit_join_block t)) = Some (d, b) →
  dr_dest_net d = net →
  (∀ r, r ∈ t_claim t → cr_network_id r = net →
     cr_global_index r ≠ pretty (sc_GlobalIndex sc) ∧
     ¬ (cr_index r = sc_Index sc ∧ cr_rollup_index r = sc_RollupIndex sc ∧ cr_mainnet_flag r = sc_MainnetFlag sc)) →
  uc_GlobalIndex uc = sc_GlobalIndex sc →
  ∃ t1 y1 t2 y2 i j,
    processSetClaimSovereign cfg fuel sc blockID blockNumber InTx y = (Ok tt, y1) ∧ tx_sees t1 y1 ∧
    t_claim t1 = t_claim t ++ [set_claim_row net blockID sc d] ∧
    processUnsetClaimSovereign cfg fuel uc blockID blockNumber InTx y1 = (Ok tt, y2) ∧ tx_sees t2 y2 ∧
    t_claim t2 = t_claim t ∧
    t_set_unset_claim t2 = t_set_unset_claim t ++
      [mk_set_unset_claim_row i blockID (sc_MainnetFlag sc) (sc_RollupIndex sc) (sc_Index sc)
         (pretty (sc_GlobalIndex sc)) "SET";
       mk_set_unset_claim_row j blockID (uc_MainnetFlag uc) (uc_RollupIndex uc) (uc_Index uc)
         (pretty (sc_GlobalIndex sc)) "UNSET"].
Proof.
  intros net origin Htx Hb Hdep Hdest Hnew Huc.
  set (su s ty m r x := mk_set_unset_claim_row (sq_set_unset_claim s) blockID m r x (pretty (sc_GlobalIndex sc)) ty).
  set (s0 := db_seqs (y_db y)). set (c0 := db_committed (y_db y)).
  set (ta := on_set_unset_claim (λ l, l ++ [su s0 "SET" (sc_MainnetFlag sc) (sc_RollupIndex sc) (sc_Index sc)]) t).
  set (row := set_claim_row net blockID sc d). set (t1 := on_claim (λ l, l ++ [row]) ta).
  set (s1 := bump_set_unset_claim s0).
  set (tb := on_set_unset_claim (λ l, l ++ [su s1 "UNSET" (uc_MainnetFlag uc) (uc_RollupIndex uc) (uc_Index uc)]) t1).
  set (t2 := on_claim (filter (λ r, ¬ (cr_global_index r = pretty (sc_GlobalIndex sc) ∧ cr_network_id r = net))) tb).
  set (ya := put_db (mkDB c0 (Some (TxActive ta)) s1 []) y). set (y1 := put_db (mkDB c0 (Some (TxActive t1)) s1 []) ya).
  set (yb := put_db (mkDB c0 (Some (TxActive tb)) (bump_set_unset_claim s1) []) y1).
  set (y2 := put_db (mkDB c0 (Some (TxActive t2)) (bump_set_unset_claim s1) []) yb).
  exists t1, y1, t2, y2, (sq_set_unset_claim s0), (sq_set_unset_claim s1).
  split; [|split; [done|split; [done|split; [|split; [done|split; [|by cbn; rewrite <- app_assoc]]]]]].
  - unfold processSetClaimSovereign. cbn [sc_MainnetFlag sc_RollupIndex sc_Index sc_GlobalIndex sc_BlockID sc_TxHash].
    erewrite (M_bind_Ok _ _ _ tt ya).
    2: { apply (tx_step cfg fuel _ t); [done|]. by rewrite decide_True. }
    erewrite (M_bind_Ok _ _ _ (deposit_of_row d (br_block_num b)) ya).
    2: { apply or_rollback_Ok. apply (on_db_eq _ ya _ (y_db ya)). unfold GetDeposit.
         erewrite M_bind_Ok by (by apply (tx_query _ ta)). cbv beta. change (deposit_join_block ta) with (deposit_join_block t).
         unfold origin in Hdep. by rewrite Hdep. }
    cbn [d_DestinationNetwork deposit_of_row]. rewrite decide_False by (intros Hx; apply Hx; by rewrite Hdest).
    apply (tx_step cfg fuel _ ta); [done|]. unfold sql_exec.
    cbn [c_BlockID c_Index c_RollupIndex c_NetworkID c_MainnetFlag]. rewrite decide_False by tauto.
    rewrite decide_False; [done|]. intros (r & Hr & ? & ? & ? & ?)%Exists_exists.
    destruct (Hnew r Hr) as [_ Hn]; [done|]. by apply Hn.
  - unfold processUnsetClaimSovereign. cbn [uc_MainnetFlag uc_RollupIndex uc_Index uc_GlobalIndex uc_BlockID].
    rewrite Huc. erewrite (M_bind_Ok _ _ _ tt yb).
    2: { apply (tx_step cfg fuel _ t1); [done|]. by rewrite decide_True. }
    by apply (tx_step cfg fuel _ tb).
  - cbn. rewrite filter_app, filter_all, (filter_none _ [row]).
    + apply app_nil_r.
    + intros x ->%list_elem_of_singleton Hx. by apply Hx.
    + intros r Hr [Eg En]. by destruct (Hnew r Hr En).
Qed.

(** ** Progress *)

(** The quotient that becomes the percentage: [big.Int.Div] rounds down. *)
Lemma syncProgress_exact initial lastKnown toBlock :
  0 < initial → 0 ≤ lastKnown - toBlock < 2 ^ 64 →
  ∃ q, syncProgress initial lastKnown toBlock = Ok (u32 (Z.abs q), lastKnown - toBlock) ∧
    q * initial ≤ (initial - (lastKnown - toBlock)) * 100 < (q + 1) * initial.
Proof.
  intros Hi Hr. unfold syncProgress, big_Div. rewrite decide_False by lia. cbn.
  rewrite Z.sgn_pos, (Z.abs_eq initial), Z.mul_1_l by lia. set (r := lastKnown - toBlock) in *.
  exists ((initial - r) * 100 / initial). split.
  - rewrite (Z.abs_eq r), (u64_id r) by lia. f_equal. f_equal. unfold u32, u64.
    symmetry. apply Znumtheory.Zmod_div_mod; [done..|]. by exists (2 ^ 32).
  - pose proof (Z.mul_div_le ((initial - r) * 100) initial Hi).
    pose proof (Z.mul_succ_div_gt ((initial - r) * 100) initial Hi). lia.
Qed.

(** The row of a network in the table of the progress. *)
Definition network_status {W} (net : Z) (y : SyncState W) : option SyncStatus :=
  head (filter (λ s, s_NetworkID s = net) (t_status (db_committed (y_db y)))).

Lemma head_status_upsert net st l :
  s_NetworkID st = net →
  head (filter (λ s, s_NetworkID s = net)
    (if decide (net ∈ s_NetworkID <$> l) then (λ r, if decide (s_NetworkID r = net) then st else r) <$> l else l ++ [st])) = Some st.
Proof.
  intros Hst. case_decide as Hin.
  - induction l as [|r l IH]; [by apply elem_of_nil in Hin|]. cbn [fmap list_fmap]. destruct (decide (s_NetworkID r = net)) as [Hr|Hr].
    + by rewrite filter_cons_True.
    + rewrite filter_cons_False by done. apply IH. apply elem_of_cons in Hin as [Hx|Hin]; [by destruct Hr|done].
  - rewrite filter_app, filter_none; [by rewrite app_nil_l, filter_cons_True|].
    intros r Hr Heq. apply Hin. rewrite <- Heq. by apply list_elem_of_fmap_2.
Qed.

Lemma storeStatus_stored {W} (cfg : SyncConfig) (pct rem : Z) (synced : bool) (y : SyncState W) :
  db_faults (y_db y) = [] →
  ∃ y', storeStatus cfg pct rem synced y = (Ok tt, y') ∧ y_synced y' = y_synced y ∧
    network_status (cf_networkID cfg) y' = Some (mkSyncStatus (cf_networkID cfg) pct rem synced).
Proof.
  intros Hf. unfold storeStatus, AddSyncStatus. cbn [s_NetworkID]. eexists. split.
  - erewrite M_bind_Ok; [reflexivity|]. apply attempt_Ok, on_db_eq. by apply (run_live NoTx _ _ (db_committed (y_db y))).
  - split; [done|]. by apply head_status_upsert.
Qed.

(** C40: the progress that is stored at the end of a range while the network is not synced.
    When the range reaches the last known block, 100 percent and no remaining block are
    stored, and the network is synced.  Otherwise, with [remaining] blocks to go of the
    [initial] ones counted at the start: the division panics when [initial] is zero; the
    stored percentage is the share of the initial blocks that is done, rounded down, between
    0 and 99, as long as no more blocks remain than at the start; and when the chain has
    grown so that more remain, the quotient is negative and its absolute value is stored.
    The remaining blocks are stored as they are. *)
Theorem nextRange_progress {W} (cfg : SyncConfig) (lp : SyncLoop) (y : SyncState W) :
  let net := cf_networkID cfg in
  let initial := y_initialRemainingBlocks y in
  let remaining := lp_lastKnownBlock lp - lp_toBlock lp in
  y_synced y = false → db_faults (y_db y) = [] → 0 ≤ initial → remaining < 2 ^ 64 →
  (remaining ≤ 0 → ∃ y', nextRange cfg lp y = (Ok (inr (lp_lastBlockSynced lp)), y') ∧ y_synced y' = true ∧
     network_status net y' = Some (mkSyncStatus net 100 0 true)) ∧
  (0 < remaining → initial = 0 → nextRange cfg lp y = (Panic, y)) ∧
  (0 < remaining → 0 < initial →
     ∃ lp' q y', nextRange cfg lp y = (Ok (inl lp'), y') ∧ y_synced y' = false ∧
       network_status net y' = Some (mkSyncStatus net (u32 (Z.abs q)) remaining false) ∧
       q * initial ≤ (initial - remaining) * 100 < (q + 1) * initial ∧
       (remaining ≤ initial → u32 (Z.abs q) = q ∧ 0 ≤ q < 100) ∧ (initial < remaining → q < 0)).
Proof.
  intros net initial remaining Hs Hf Hi Hr. unfold nextRange. split; [|split].
  - intros H0. erewrite M_bind_Ok by reflexivity. rewrite decide_True, Hs by (unfold remaining in *; lia).
    destruct (storeStatus_stored cfg 100 0 true (mark_synced cfg y) Hf) as (y' & E & Hy & Hst).
    exists y'. split; [|by rewrite Hy]. erewrite M_bind_Ok; [reflexivity|]. by erewrite M_bind_Ok by reflexivity.
  - intros H0 E0. erewrite M_bind_Ok by reflexivity. rewrite decide_False, Hs by (unfold remaining in *; lia).
    unfold initial in E0. by rewrite E0.
  - intros H0 H1. destruct (syncProgress_exact initial (lp_lastKnownBlock lp) (lp_toBlock lp)) as (q & E & Hq); [lia..|].
    destruct (storeStatus_stored cfg (u32 (Z.abs q)) remaining false y Hf) as (y' & Est & Hy & Hst).
    eexists _, q, y'. split; [|split; [by rewrite Hy|split; [done|split; [done|split]]]].
    + erewrite M_bind_Ok by reflexivity. rewrite decide_False, Hs by (unfold remaining in *; lia).
      erewrite M_bind_Ok; [reflexivity|]. rewrite (M_bind_Ok _ _ _ (u32 (Z.abs q), remaining) y); [exact Est|]. unfold lift, initial in *. by rewrite E.
    + intros Hle. fold remaining in Hq. assert (0 ≤ q < 100) as Hb by nia. split; [|done]. by rewrite Z.abs_eq, u32_id by lia.
    + intros Hlt. fold remaining in Hq. nia.
Qed.

(** ** Concrete inputs *)

Definition toy_set_claim : SetClaim := mkSetClaim 0 false 0 1 18446744073709551617 77.
Definition toy_unset_claim : UnsetClaim := mkUnsetClaim 0 false 0 1 18446744073709551617.
Definition toy_cfg0 : SyncConfig := mkSyncConfig 0 0 100 1 [0; 1] false false 1.

Lemma setClaim_unsetClaim_witness :
  ∃ t1 y1 t2 y2 i j,
    processSetClaimSovereign (K := toy_keccak) toy_cfg0 1 toy_set_claim 3 12 InTx toy_bstate = (Ok tt, y1) ∧ tx_sees t1 y1 ∧
    t_claim t1 = [] ++ [set_claim_row 0 3 toy_set_claim (toy_deposit_row 2 1 2)] ∧
    processUnsetClaimSovereign (K := toy_keccak) toy_cfg0 1 toy_unset_claim 3 12 InTx y1 = (Ok tt, y2) ∧ tx_sees t2 y2 ∧
    t_claim t2 = [] ∧
    t_set_unset_claim t2 = [] ++
      [mk_set_unset_claim_row i 3 false 0 1 (pretty 18446744073709551617) "SET";
       mk_set_unset_claim_row j 3 false 0 1 (pretty 18446744073709551617) "UNSET"].
Proof.
  apply (setClaim_unsetClaim (K := toy_keccak) toy_cfg0 1 (db_committed toy_w3.1) toy_bstate toy_set_claim toy_unset_claim
           3 12 (toy_deposit_row 2 1 2) (mk_block_row 2 11 1002 1)).
  - done.
  - right. by right; right; left.
  - by vm_compute.
  - done.
  - intros r Hr. by apply elem_of_nil in Hr.
  - done.
Defined.

(** Of 200 blocks, 50 are left. *)
Definition toy_progress (initial : Z) : SyncState unit :=
  mkSyncState tt (mkDB emptyTables None (mkSeqs 1 1 1 1 1 1 1 1) []) (mkBridgeController [] (mkMerkleTree MaxInt32 3 0 []) ∅)
    false 0 0 initial [] [] [].
Definition toy_range : SyncLoop := mkSyncLoop 900 950 1000 (emptyBlock 900 0).
Lemma nextRange_progress_witness :
  ∃ lp' q y', nextRange toy_cfg0 toy_range (toy_progress 200) = (Ok (inl lp'), y') ∧ y_synced y' = false ∧
    network_status 0 y' = Some (mkSyncStatus 0 (u32 (Z.abs q)) 50 false) ∧
    q * 200 ≤ (200 - 50) * 100 < (q + 1) * 200 ∧ (50 ≤ 200 → u32 (Z.abs q) = q ∧ 0 ≤ q < 100) ∧ (200 < 50 → q < 0).
Proof.
  destruct (nextRange_progress toy_cfg0 toy_range (toy_progress 200)) as (_ & _ & H); [done..|cbn; lia|].
  apply H; cbn; lia.
Defined.

(** The chain has grown: 50 blocks are left of 10, and 400 percent are stored. *)
Example nextRange_grown : network_status 0 (nextRange toy_cfg0 toy_range (toy_progress 10)).2 = Some (mkSyncStatus 0 400 50 false).
Proof. vm_compute. reflexivity. Qed.
