(* ===== verification/Service.v ===== *)
(** * The bridge service (server/service.go)

    Merkle proofs for claims and the endpoints of the API.  A request runs on the
    database and the node cache; the metrics and the log of the handlers are left out.
    The cache (hashicorp/golang-lru) and the text of addresses (go-ethereum common) are
    parameters, with the documented behaviour of the cache as the laws
    [LruCacheLaws]. *)
From S2P Require Import Prelude Types Bytes Hash GlobalIndex MerkleSpec ClaimTypes Schema MerkleStore Storage.
From S2P Require Import PgMerkleStore MerkleTree.

(** The methods of [lru.Cache] that the service calls; [New] fails when the size is not
    positive. *)
Class LruCache (C : Type) := {
  cache_New : Z → error + C;
  cache_Get : Hash → C → option (list Hash) * C;
  cache_Add : Hash → list Hash → C → C
}.

(** A cache holds only entries that were added to it. *)
Class LruCacheLaws (C : Type) `{LruCache C} := {
  cached : C → Hash → list Hash → Prop;
  cache_New_empty : ∀ n c k x, cache_New n = inr c → ¬ cached c k x;
  cache_Get_cached : ∀ k c x, fst (cache_Get k c) = Some x → cached c k x;
  cache_Get_keeps : ∀ k c k' x, cached (snd (cache_Get k c)) k' x → cached c k' x;
  cache_Add_keeps : ∀ k v c k' x, cached (cache_Add k v c) k' x → (k' = k ∧ x = v) ∨ cached c k' x
}.

(** go-ethereum: [Address.Hex] (EIP-55), [HexToAddress], [HexToHash] and [FromHex]. *)
Class CommonHex := {
  Address_Hex : Address → string;
  HexToAddress : string → Address;
  HexToHash : string → Hash;
  FromHex : string → bytes
}.

(** Bytes as a parameter that is compared with a column of addresses: those of another
    length than 20 are the bytes of no address. *)
Definition addressParam (bs : bytes) : Address := if decide (length bs = 20%nat) then SetBytes bs else -1.

(** [hex.EncodeToString]. *)
Definition hexDigit (d : Z) : Ascii.ascii :=
  Ascii.ascii_of_nat (Z.to_nat (if decide (d < 10) then 48 + d else 87 + d)).
Fixpoint EncodeToString (bs : bytes) : string :=
  match bs with
  | [] => ""
  | b :: bs => String.String (hexDigit (b / 16)) (String.String (hexDigit (b mod 16)) (EncodeToString bs))
  end.

(** The range of a [common.Hash]. *)
Definition is_hash (h : Hash) : Prop := 0 ≤ h < 2 ^ 256.

(** [Hash.Hex] and [Hash.String]. *)
Definition Hash_Hex (h : Hash) : string := "0x" +:+ EncodeToString (be_bytes 32 h).

(** ** Messages (bridgectrl/pb) *)

Record pb_Deposit := mk_pb_Deposit {
  pd_LeafType : Z; pd_OrigNet : Z; pd_OrigAddr : string; pd_Amount : string; pd_DestNet : Z; pd_DestAddr : string;
  pd_BlockNum : Z; pd_DepositCnt : Z; pd_NetworkId : Z; pd_TxHash : string; pd_ClaimTxHash : string;
  pd_Metadata : string; pd_ReadyForClaim : bool; pd_GlobalIndex : string
}.
Record pb_Claim := mk_pb_Claim {
  pc_Index : Z; pc_OrigNet : Z; pc_OrigAddr : string; pc_Amount : string; pc_NetworkId : Z; pc_DestAddr : string;
  pc_BlockNum : Z; pc_TxHash : string; pc_RollupIndex : Z; pc_MainnetFlag : bool; pc_GlobalIndex : string
}.
Record pb_Proof := mk_pb_Proof {
  pp_RollupMerkleProof : list string; pp_MerkleProof : list string; pp_MainExitRoot : string; pp_RollupExitRoot : string
}.
Record pb_TokenWrapped := mk_pb_TokenWrapped {
  pt_OrigNet : Z; pt_OriginalTokenAddr : string; pt_WrappedTokenAddr : string; pt_NetworkId : Z;
  pt_Name : string; pt_Symbol : string; pt_Decimals : Z
}.
Record pb_BackwardLETData := mk_pb_BackwardLETData {
  pl_Root : string; pl_LeafHash : string; pl_RollupMerkleProof : list string; pl_Frontier : list string
}.

Record bridgeService := mkBridgeService {
  sv_networkIDs : gmap Z Z;
  sv_height : Z;
  sv_defaultPageLimit : Z;
  sv_maxPageLimit : Z;
  sv_version : string;
  sv_finalizedGER : bool
}.

(** The fields of server/config.go that the service reads. *)
Record ServiceConfig := mkServiceConfig {
  sc_CacheSize : Z;
  sc_DefaultPageLimit : Z;
  sc_MaxPageLimit : Z;
  sc_BridgeVersion : string;
  sc_FinalizedGEREnabled : bool
}.

(** [panic(err)] when the cache cannot be made; [uint8(i)] wraps. *)
Definition NewBridgeService {C} `{LruCache C} (cfg : ServiceConfig) (height : Z) (networks : list Z)
    : result (bridgeService * C) :=
  let networkIDs := foldl (λ m p, <[p.2 := u8 (Z.of_nat p.1)]> m) ∅ (imap pair networks) in
  match cache_New (sc_CacheSize cfg) with
  | inl _ => Panic
  | inr cache =>
      Ok (mkBridgeService networkIDs height (sc_DefaultPageLimit cfg) (sc_MaxPageLimit cfg) (sc_BridgeVersion cfg)
            (sc_FinalizedGEREnabled cfg), cache)
  end.

Section Service.
Context `{K : Keccak256} {C : Type} {HC : LruCache C} (s : bridgeService).

(** A method of the service: the database and the cache change. *)
Abbreviation SV := (M (DB * C)).
Definition sv_db {A} (c : M DB A) : SV A := zoom fst (λ db w, (db, snd w)) c.

(** ** Proofs *)

Definition getNode (parentHash : Hash) (h : dbTx) : SV (Hash * Hash) :=
  hit ← (λ w, let '(r, c) := cache_Get parentHash (snd w) in (Ok r, (fst w, c)));
  value ← match hit with
          | Some value => mret value
          | None =>
              r ← attempt (sv_db (Get parentHash h));
              match r with
              | inl _ => throw (Errorf "parentHash: %s, error: %v")
              | inr value => modify (λ w, (fst w, cache_Add parentHash value (snd w)));; mret value
              end
          end;
  l ← lift (at_index value 0);
  r ← lift (at_index value 1);
  mret (l, r).

(** The loop [for h := int(s.height - 1); h >= 0; h--]: level [k - 1] comes next. *)
Fixpoint getProof_loop (k : nat) (index : Z) (cur : Hash) (siblings : list Hash) (h : dbTx) : SV (list Hash) :=
  match k with
  | O => mret siblings
  | S lvl =>
      r ← attempt (getNode cur h);
      match r with
      | inl _ => throw (Errorf "height: %d, cur: %s, error: %v")
      | inr (l, r) =>
          if bit32 index (Z.of_nat lvl) then getProof_loop lvl index r (siblings ++ [l]) h
          else getProof_loop lvl index l (siblings ++ [r]) h
      end
  end.

Definition getProof (index : Z) (root : Hash) (h : dbTx) : SV (list Hash) :=
  siblings ← getProof_loop (Z.to_nat (u8 (sv_height s - 1)) + 1) index root [] h;
  mret (reverse siblings).

Definition getRollupExitProof (rollupIndex : Z) (root : Hash) (h : dbTx) : SV (list Hash * Hash) :=
  leaves ← attempt (sv_db (GetRollupExitLeavesByRoot root h));
  match leaves with
  | inl e => throw (Wrapf "error getting leaves by ger: %s, error: %w" e)
  | inr leaves =>
      let ls := r_Leaf <$> leaves in
      '(siblings, r) ← lift (ComputeSiblings rollupIndex ls (sv_height s));
      if decide (root ≠ r) then throw (Errorf "error checking calculated root: required:%s, calculated: %s") else
      if decide (siblings = [] ∨ ls = []) then throw (Errorf "no siblings found for root: %s") else
      if decide (Z.of_nat (length ls) ≤ rollupIndex) then throw (Errorf "error getting rollupLeaf. Not synced yet") else
      leaf ← lift (at_index ls rollupIndex);
      mret (siblings, leaf)
  end.

Definition emptyProof : list Hash := replicate 32 0.

(** [if err != nil { return nil, nil, nil, fmt.Errorf(msg, err, networkID) }]. *)
Definition orErrorf {A} (msg : string) (c : SV A) : SV A :=
  r ← attempt c;
  match r with
  | inl _ => throw (Errorf msg)
  | inr a => mret a
  end.

(** The second half of the three methods below: the proofs under a global exit root. *)
Definition claimProofs (mainnetMsg rollupMsg leafMsg : string) (depositCnt networkID : Z)
    (globalExitRoot : GlobalExitRoot) (h : dbTx) : SV (GlobalExitRoot * list Hash * list Hash) :=
  if decide (networkID = 0) then
    root ← lift (at_index (g_ExitRoots globalExitRoot) 0);
    merkleProof ← orErrorf mainnetMsg (getProof depositCnt root h);
    mret (globalExitRoot, merkleProof, emptyProof)
  else
    root ← lift (at_index (g_ExitRoots globalExitRoot) 1);
    '(rollupMerkleProof, rollupLeaf) ← orErrorf rollupMsg (getRollupExitProof (u32 (networkID - 1)) root h);
    merkleProof ← orErrorf leafMsg (getProof depositCnt rollupLeaf h);
    mret (globalExitRoot, merkleProof, rollupMerkleProof).

Definition GetClaimProof (depositCnt networkID : Z) (h : dbTx) : SV (GlobalExitRoot * list Hash * list Hash) :=
  deposit ← sv_db (GetDeposit depositCnt networkID h);
  if negb (d_ReadyForClaim deposit) then throw ErrDepositNotSynced else
  globalExitRoot ←
    (if decide (sv_finalizedGER s = true ∧ d_DestinationNetwork deposit ≠ 0 ∧ networkID ≠ 0)
     then sv_db (GetLatestTrustedExitRoot networkID h)
     else sv_db (GetLatestExitRoot networkID (d_DestinationNetwork deposit) h));
  claimProofs "getting the proof failed, error: %v, network: %d" "getting the rollup proof failed, error: %v, network: %d"
    "getting the proof failed, error: %v, network: %d" depositCnt networkID globalExitRoot h.

Definition GetClaimProofbyGER (depositCnt networkID : Z) (GER : Hash) (h : dbTx)
    : SV (GlobalExitRoot * list Hash * list Hash) :=
  (match h with
   | NoTx =>
       deposit ← attempt (sv_db (GetDeposit depositCnt networkID NoTx));
       match deposit with
       | inl e => throw (Wrapf "error getting deposit %d for network: %d. Err: %w" e)
       | inr _ => mret tt
       end
   | InTx => mret tt
   end);;
  ger ← attempt (sv_db (GetL1ExitRootByGER GER h));
  match ger with
  | inl e => throw (Wrapf "error getting GlobalExitRoot data for GER: %s. Err: %w" e)
  | inr globalExitRoot =>
      claimProofs "getting the proof failed (MAINNET), error: %v, network: %d"
        "getting the rollupexit proof failed, error: %v, network: %d"
        "getting the proof failed (ROLLUP), error: %v, network: %d" depositCnt networkID globalExitRoot h
  end.

Definition GetClaimProofForCompressed (ger : Hash) (depositCnt networkID : Z) (h : dbTx)
    : SV (GlobalExitRoot * list Hash * list Hash) :=
  (match h with
   | NoTx =>
       deposit ← sv_db (GetDeposit depositCnt networkID NoTx);
       if negb (d_ReadyForClaim deposit) then throw ErrDepositNotSynced else mret tt
   | InTx => mret tt
   end);;
  globalExitRoot ← sv_db (GetL1ExitRootByGER ger h);
  claimProofs "getting the proof failed, error: %v, network: %d" "getting the rollup proof failed, error: %v, network: %d"
    "getting the proof failed, error: %v, network: %d" depositCnt networkID globalExitRoot h.

(** ** Endpoints *)

(** [GetDepositStatus]: the empty string when the deposit is not claimed yet. *)
Definition GetDepositStatus (depositCount originNetworkID destNetworkID : Z) : SV string :=
  claim ← attempt (sv_db (GetClaim depositCount originNetworkID destNetworkID NoTx));
  match claim with
  | inl e => if decide (e ≠ ErrStorageNotFound) then throw e else mret ""%string
  | inr claim => mret (Hash_Hex (c_TxHash claim))
  end.

Definition CheckAPI : SV string := mret (sv_version s).

(** The page size of a request: the default for 0, and never above the maximum. *)
Definition pageLimit (limit : Z) : Z :=
  let limit := if decide (limit = 0) then sv_defaultPageLimit s else limit in
  if decide (sv_maxPageLimit s < limit) then sv_maxPageLimit s else limit.

Context {HX : CommonHex}.

Definition pbDeposit (deposit : Deposit) (claimTxHash : string) : result pb_Deposit :=
  let mainnetFlag := bool_decide (d_NetworkID deposit = 0) in
  let rollupIndex := if mainnetFlag then 0 else u32 (d_NetworkID deposit - 1) in
  let localExitRootIndex := d_DepositCount deposit in
  globalIndex ← GenerateGlobalIndex mainnetFlag rollupIndex localExitRootIndex;
  Ok (mk_pb_Deposit (u32 (d_LeafType deposit)) (d_OriginalNetwork deposit) (Address_Hex (d_OriginalAddress deposit))
        (pretty (d_Amount deposit)) (d_DestinationNetwork deposit) (Address_Hex (d_DestinationAddress deposit))
        (d_BlockNumber deposit) (d_DepositCount deposit) (d_NetworkID deposit) (Hash_Hex (d_TxHash deposit))
        claimTxHash ("0x" +:+ EncodeToString (d_Metadata deposit)) (d_ReadyForClaim deposit) (pretty globalIndex)).

(** [for _, x := range l { pbs = append(pbs, f(x)) }], with an early return. *)
Fixpoint appendEach {A B} (f : A → SV B) (l : list A) (acc : list B) : SV (list B) :=
  match l with
  | [] => mret acc
  | x :: l => b ← f x; appendEach f l (acc ++ [b])
  end.

Definition GetBridges (DestAddr : string) (NetId DestNet : option Z) (Limit Offset : Z) : SV (list pb_Deposit * Z) :=
  let limit := pageLimit Limit in
  totalCount ← sv_db (GetDepositCount (addressParam (FromHex DestAddr)) NetId DestNet NoTx);
  deposits ← sv_db (GetDeposits (addressParam (FromHex DestAddr)) NetId DestNet limit Offset NoTx);
  pbDeposits ← appendEach (λ deposit,
    claimTxHash ← GetDepositStatus (d_DepositCount deposit) (d_NetworkID deposit) (d_DestinationNetwork deposit);
    lift (pbDeposit deposit claimTxHash)) deposits [];
  mret (pbDeposits, totalCount).

Definition pbClaim (claim : Claim) : pb_Claim :=
  mk_pb_Claim (c_Index claim) (c_OriginalNetwork claim) (Address_Hex (c_OriginalAddress claim)) (pretty (c_Amount claim))
    (c_NetworkID claim) (Address_Hex (c_DestinationAddress claim)) (c_BlockNumber claim) (Hash_Hex (c_TxHash claim))
    (c_RollupIndex claim) (c_MainnetFlag claim) (c_GlobalIndex claim).

Definition GetClaims (DestAddr : string) (Limit Offset : Z) : SV (list pb_Claim * Z) :=
  let limit := pageLimit Limit in
  totalCount ← sv_db (GetClaimCount (addressParam (FromHex DestAddr)) NoTx);
  claims ← sv_db (Storage.GetClaims (addressParam (FromHex DestAddr)) limit Offset NoTx);
  mret (pbClaim <$> claims, totalCount).

(** The response of the three proof endpoints: the loop runs over the first proof, and
    indexes the second. *)
Definition proofResponse (globalExitRoot : GlobalExitRoot) (merkleProof rollupMerkleProof : list Hash) : result pb_Proof :=
  '(proof, rollupProof) ← fold_result (λ acc i,
      p ← at_index merkleProof (Z.of_nat i);
      r ← at_index rollupMerkleProof (Z.of_nat i);
      Ok (acc.1 ++ [Hash_Hex p], acc.2 ++ [Hash_Hex r])) ([], []) (seq 0 (length merkleProof));
  main ← at_index (g_ExitRoots globalExitRoot) 0;
  rollup ← at_index (g_ExitRoots globalExitRoot) 1;
  Ok (mk_pb_Proof rollupProof proof (Hash_Hex main) (Hash_Hex rollup)).

Definition GetProof (DepositCnt NetId : Z) : SV pb_Proof :=
  '(globalExitRoot, merkleProof, rollupMerkleProof) ← GetClaimProof DepositCnt NetId NoTx;
  lift (proofResponse globalExitRoot merkleProof rollupMerkleProof).

Definition GetProofByGER (DepositCnt NetId : Z) (Ger : string) : SV pb_Proof :=
  let ger := HexToHash Ger in
  '(globalExitRoot, merkleProof, rollupMerkleProof) ← GetClaimProofbyGER DepositCnt NetId ger NoTx;
  lift (proofResponse globalExitRoot merkleProof rollupMerkleProof).

Definition GetProofV2 (DepositCount NetworkId : Z) : SV pb_Proof :=
  '(globalExitRoot, merkleProof, rollupMerkleProof) ← GetClaimProof DepositCount NetworkId NoTx;
  lift (proofResponse globalExitRoot merkleProof rollupMerkleProof).

Definition GetBridge (DepositCnt NetId : Z) : SV pb_Deposit :=
  deposit ← sv_db (GetDeposit DepositCnt NetId NoTx);
  claimTxHash ← GetDepositStatus DepositCnt (d_NetworkID deposit) (d_DestinationNetwork deposit);
  lift (pbDeposit deposit claimTxHash).

Definition GetTokenWrapped {HA : AbiToken} (OrigNet : Z) (OrigTokenAddr : string) : SV pb_TokenWrapped :=
  tokenWrapped ← sv_db (Storage.GetTokenWrapped OrigNet (HexToAddress OrigTokenAddr) NoTx);
  mret (mk_pb_TokenWrapped (u32 (t_OriginalNetwork tokenWrapped)) (Address_Hex (t_OriginalTokenAddress tokenWrapped))
          (Address_Hex (t_WrappedTokenAddress tokenWrapped)) (u32 (t_NetworkID tokenWrapped))
          (tm_Name (t_TokenMetadata tokenWrapped)) (tm_Symbol (t_TokenMetadata tokenWrapped))
          (u32 (tm_Decimals (t_TokenMetadata tokenWrapped)))).

Definition GetPendingBridgesToClaim (DestAddr : string) (DestNet LeafType Limit Offset : Z)
    : SV (list pb_Deposit * Z) :=
  let limit := pageLimit Limit in
  let destAddr := HexToAddress DestAddr in
  '(deposits, totalDeposits) ← sv_db (GetPendingDepositsToClaim destAddr DestNet LeafType limit Offset (-1) NoTx);
  pbDeposits ← appendEach (λ deposit, lift (pbDeposit deposit "")) deposits [];
  mret (pbDeposits, totalDeposits).

Definition GetSyncStatus : SV (list SyncStatus) := sv_db (Storage.GetSyncStatus NoTx).

(** ** Data of a backward update *)

Definition computeFrontierFromProof (n : Z) (proof : list Hash) : result (list Hash) :=
  if decide (Z.of_nat (length proof) ≠ sv_height s)
  then Err (Errorf "proof length %d does not match tree height %d") else
  fold_result (λ frontier i,
    if decide (Z.land (Z.shiftr n (Z.of_nat i)) 1 = 1)
    then p ← at_index proof (Z.of_nat i); Ok (frontier ++ [p])
    else Ok (frontier ++ [0])) [] (seq 0 (Z.to_nat (sv_height s))).

Definition getLeaf (index networkID : Z) : SV Hash :=
  deposit ← attempt (sv_db (GetDeposit index networkID NoTx));
  match deposit with
  | inl e => if errors_Is e ErrStorageNotFound then mret 0 else throw e
  | inr deposit => lift (HashDeposit deposit)
  end.

Definition GetBackwardLETData (DepositCnt NetId : Z) : SV pb_BackwardLETData :=
  if decide (NetId = 0) then throw (Errorf "networkID cannot be 0 for backward LET") else
  leafHash ← getLeaf DepositCnt NetId;
  root ← sv_db (GetLastComputedRoot NetId NoTx);
  rollupMerkleProof ← getProof DepositCnt root NoTx;
  frontier ← lift (computeFrontierFromProof DepositCnt rollupMerkleProof);
  mret (mk_pb_BackwardLETData (Hash_Hex root) (Hash_Hex leafHash) (Hash_Hex <$> rollupMerkleProof) (Hash_Hex <$> frontier)).

End Service.
