(* ===== verification/ServiceTheorems.v ===== *)
(** * The theorems of the bridge service

    The proofs of the service are the sibling paths of the reference trees, whatever is
    in the node cache; the contract's verification accepts them. *)
From S2P Require Import Prelude Types Bytes Hash GlobalIndex MerkleSpec ClaimTypes Schema MerkleStore Storage.
From S2P Require Import PgMerkleStore MerkleTree MerkleTreeFacts RollupTreeFacts ReorgFacts Toy Service.

Section Nodes.
Context `{K : Keccak256}.

(** Every node above a leaf of the tree of the first [n] leaves is stored: it was
    written with the last leaf below it. *)
Lemma stored_node H net lds v n i lvl :
  stored H net lds v → rht_functional v → (i < n)%nat → (n ≤ length lds)%nat → (lvl < H)%nat →
  let ls := take n (fst <$> lds) in let j := (i / 2 ^ S lvl)%nat in
  v_node v (node (S lvl) j ls) = Some [node lvl (2 * j) ls; node lvl (2 * j + 1) ls].
Proof.
  intros Hst Hf Hi Hn Hlvl ls j. pose proof (div_pow2_bounds i (S lvl)) as Hb. fold j in Hb.
  set (m := Nat.min (n - 1) ((j + 1) * 2 ^ S lvl - 1)).
  assert (i ≤ m < n)%nat as Hm by lia.
  assert (m / 2 ^ S lvl = j)%nat as Ej by (apply div_pow2_unique; lia).
  destruct (lookup_lt_is_Some_2 lds m) as [p Hp]; [lia|].
  assert (∀ h q, ((q + 1) * 2 ^ h ≤ (j + 1) * 2 ^ S lvl)%nat → node h q (take (S m) (fst <$> lds)) = node h q ls) as Hnode.
  { intros h q Hq. apply node_take_take; [lia|]. destruct (decide (m = n - 1)%nat); [right; lia|left; lia]. }
  pose proof (v_node_functional v (mk_rht_row (node (S lvl) j ls) [node lvl (2 * j) ls; node lvl (2 * j + 1) ls] (snd p)) Hf)
    as Hv. apply Hv. eapply (st_nodes _ _ _ _ Hst m p); [done|]. unfold path_rows. apply list_elem_of_fmap. exists lvl.
  split; [|apply elem_of_seq; lia]. unfold node_triple. rewrite Ej. change (2 ^ S lvl)%nat with (2 * 2 ^ lvl)%nat in *.
  rewrite !Hnode by (simpl; lia). done.
Qed.

End Nodes.

Section Proofs.
Context `{K : Keccak256} {C : Type} {HC : LruCache C} {HCL : LruCacheLaws C} (s : bridgeService).

(** The cache agrees with the node table. *)
Definition cache_sound (c : C) (v : MTView) : Prop :=
  ∀ k x r, cached c k x → r ∈ mv_rht v → rh_key r = k → rh_value r = x.

Lemma v_node_row v k x : v_node v k = Some x → ∃ r, r ∈ mv_rht v ∧ rh_key r = k ∧ rh_value r = x.
Proof.
  unfold v_node. destruct (filter _ _) as [|r l] eqn:E; [done|]. intros [= <-]. exists r.
  assert (r ∈ filter (λ r, rh_key r = k) (mv_rht v)) as Hr by (rewrite E; left).
  apply list_elem_of_filter in Hr as [? ?]. done.
Qed.

Lemma sv_db_eq {A} (c : M DB A) db (ch : C) r db' : c db = (r, db') → sv_db c (db, ch) = (r, (db', ch)).
Proof. intros E. unfold sv_db, zoom. simpl. by rewrite E. Qed.

Lemma getNode_Ok k l r h db (c : C) v :
  cache_sound c v → rht_functional v → pg_mview h db = Some v → v_node v k = Some [l; r] →
  ∃ c', getNode k h (db, c) = (Ok (l, r), (db, c')) ∧ cache_sound c' v.
Proof.
  intros Hcs Hf Hv Hk. destruct (v_node_row v k _ Hk) as (row & Hrow & Ekey & Eval).
  destruct (cache_Get k c) as [hit c1] eqn:Eg.
  assert (cache_sound c1 v) as Hcs1.
  { intros k' x r' Hc. apply Hcs. apply (cache_Get_keeps k). by rewrite Eg. }
  unfold getNode. erewrite (M_bind_Ok _ _ _ hit (db, c1)) by (cbn; by rewrite Eg). destruct hit as [x|].
  - assert (x = [l; r]) as ->.
    { symmetry. rewrite <- Eval. apply (Hcs k x row); [|done..]. apply cache_Get_cached. by rewrite Eg. }
    exists c1. done.
  - exists (cache_Add k [l; r] c1). split.
    + erewrite M_bind_Ok.
      2: { erewrite M_bind_Ok by (apply attempt_Ok, sv_db_eq; pose proof (law_Get k h db v Hv) as E; rewrite Hk in E; exact E).
           reflexivity. }
      done.
    + intros k' x r' [[-> ->]|Hc]%cache_Add_keeps Hr' Ek'; [|by eapply Hcs1].
      rewrite <- Eval. apply Hf; [done..|]. by rewrite Ekey.
Qed.

Lemma getProof_loop_Ok H i ls h db v :
  rht_functional v → pg_mview h db = Some v → Z.of_nat i < 2 ^ 32 →
  (∀ lvl, (lvl < H)%nat → let j := (i / 2 ^ S lvl)%nat in
     v_node v (node (S lvl) j ls) = Some [node lvl (2 * j) ls; node lvl (2 * j + 1) ls]) →
  ∀ k c acc, (k ≤ H)%nat → cache_sound c v →
  ∃ c', getProof_loop k (Z.of_nat i) (node k (i / 2 ^ k) ls) acc h (db, c) =
    (Ok (acc ++ reverse (path_of k i ls)), (db, c')) ∧ cache_sound c' v.
Proof.
  intros Hf Hv Hi Hn. induction k as [|k IH]; intros c acc Hk Hcs.
  { exists c. rewrite app_nil_r. done. }
  destruct (getNode_Ok _ _ _ h db c v Hcs Hf Hv (Hn k ltac:(lia))) as (c1 & E1 & Hcs1).
  cbn [getProof_loop]. erewrite M_bind_Ok by (apply attempt_Ok, E1).
  rewrite bit32_testbit by done. pose proof (div_decomp i k) as E.
  assert (path_of (S k) i ls = path_of k i ls ++
    [let j := (i / 2 ^ k)%nat in node k (if Nat.odd j then j - 1 else j + 1)%nat ls]) as ->.
  { unfold path_of. by rewrite seq_S, fmap_app. }
  rewrite reverse_app. cbn [reverse rev_append]. rewrite <- testbit_odd.
  set (j := (i / 2 ^ S k)%nat) in *.
  destruct (Nat.testbit i k) eqn:Eb; rewrite E; simpl Nat.b2n.
  - replace (2 * j + 1 - 1)%nat with (2 * j)%nat by lia.
    destruct (IH c1 (acc ++ [node k (2 * j) ls])) as (c' & E' & Hc'); [lia|done|].
    rewrite E in E'. simpl Nat.b2n in E'. exists c'. rewrite E'. split; [|done]. do 2 f_equal. by rewrite <- app_assoc.
  - rewrite Nat.add_0_r.
    destruct (IH c1 (acc ++ [node k (2 * j + 1) ls])) as (c' & E' & Hc'); [lia|done|].
    rewrite E in E'. simpl Nat.b2n in E'. rewrite Nat.add_0_r in E'. exists c'. rewrite E'. split; [|done].
    do 2 f_equal. by rewrite <- app_assoc.
Qed.

Lemma getProof_Ok H net lds n i h db (c : C) v :
  stored H net lds v → rht_functional v → pg_mview h db = Some v → cache_sound c v →
  (i < n)%nat → (n ≤ length lds)%nat → (n ≤ 2 ^ H)%nat → Z.of_nat i < 2 ^ 32 →
  (0 < H < 256)%nat → sv_height s = Z.of_nat H →
  let ls := take n (fst <$> lds) in
  ∃ c', getProof s (Z.of_nat i) (mroot H ls) h (db, c) = (Ok (path_of H i ls), (db, c')) ∧ cache_sound c' v.
Proof.
  intros Hst Hf Hv Hcs Hi Hn HnH Hi32 HH Hht ls. unfold getProof. rewrite Hht, u8_id by lia.
  replace (Z.to_nat (Z.of_nat H - 1) + 1)%nat with H by lia.
  destruct (getProof_loop_Ok H i ls h db v Hf Hv Hi32) with (k := H) (c := c) (acc := @nil Hash) as (c' & E & Hc');
    [|done|done|].
  { intros lvl Hlvl. by eapply stored_node. }
  exists c'. split; [|done]. rewrite Nat.div_small, app_nil_l in E by lia. erewrite M_bind_Ok by exact E.
  unfold mret, M_ret. by rewrite reverse_involutive.
Qed.

End Proofs.

(** [calculateRoot] accepts the sibling path of a leaf in the tree of the first [n]. *)
Lemma path_accepted `{K : Keccak256} (H i n : nat) (ls : list Hash) :
  (i < n)%nat → (n ≤ 2 ^ H)%nat →
  calculateRoot (leaf_at ls i) (path_of H i (take n ls)) (Z.of_nat i) (Z.of_nat H) = Ok (mroot H (take n ls)).
Proof.
  intros Hi HnH. pose proof (calculateRoot_eq (leaf_at (take n ls) i) i (path_of H i (take n ls))) as Ec.
  rewrite path_of_length, path_of_verifies in Ec by lia. rewrite <- Ec. f_equal. unfold leaf_at.
  by rewrite lookup_take_lt.
Qed.

(** C3: the proof the service computes for a deposit under a root of its local exit tree
    is the sibling path of the leaf in the tree of that root, whether its nodes come from
    the cache or from the storage, for every earlier root too; [calculateRoot] accepts it,
    and the cache stays in agreement with the storage. *)
Theorem getProof_correct `{K : Keccak256} {C : Type} {HC : LruCache C} {HCL : LruCacheLaws C} (s : bridgeService)
    (H : nat) (net : Z) (lds : list (Hash * Z)) (n i : nat) (h : dbTx) (db : DB) (c : C) (v : MTView) :
  stored H net lds v → rht_functional v → pg_mview h db = Some v → cache_sound c v →
  (i < n)%nat → (n ≤ length lds)%nat → (n ≤ 2 ^ H)%nat → Z.of_nat i < 2 ^ 32 →
  (0 < H < 256)%nat → sv_height s = Z.of_nat H →
  let ls := take n (fst <$> lds) in
  ∃ c', getProof s (Z.of_nat i) (mroot H ls) h (db, c) = (Ok (path_of H i ls), (db, c')) ∧ cache_sound c' v ∧
        calculateRoot (leaf_at (fst <$> lds) i) (path_of H i ls) (Z.of_nat i) (Z.of_nat H) = Ok (mroot H ls).
Proof.
  intros Hst Hf Hv Hcs Hi Hn HnH Hi32 HH Hht ls.
  destruct (getProof_Ok s H net lds n i h db c v) as (c' & E & Hc'); [done..|].
  exists c'. split; [done|]. split; [done|]. apply path_accepted; lia.
Qed.

(** ** Claim proofs *)

Section ClaimProofs.
Context `{K : Keccak256} {C : Type} {HC : LruCache C} {HCL : LruCacheLaws C} (s : bridgeService).
Context (H : nat) (net : Z) (lds : list (Hash * Z)) (n i : nat) (h : dbTx) (db : DB) (c : C) (v : MTView).
Context (Hst : stored H net lds v) (Hf : rht_functional v) (Hv : pg_mview h db = Some v) (Hcs : cache_sound c v).
Context (Hi : (i < n)%nat) (Hn : (n ≤ length lds)%nat) (HnH : (n ≤ 2 ^ H)%nat) (Hi32 : Z.of_nat i < 2 ^ 32).
Context (HH : (0 < H ≤ 64)%nat) (Hht : sv_height s = Z.of_nat H).

Lemma getRollupExitProof_Ok idx root leaves db0 :
  GetRollupExitLeavesByRoot root h db0 = (Ok leaves, db0) → mroot H (r_Leaf <$> leaves) = root →
  (idx < length leaves)%nat → Z.of_nat idx < 2 ^ 32 → (length leaves ≤ 2 ^ H)%nat →
  getRollupExitProof s (Z.of_nat idx) root h (db0, c) =
    (Ok (path_of H idx (r_Leaf <$> leaves), leaf_at (r_Leaf <$> leaves) idx), (db0, c)).
Proof.
  intros El Er Hidx H32 HlH. unfold getRollupExitProof. erewrite M_bind_Ok by (apply attempt_Ok, sv_db_eq, El).
  cbn beta iota. rewrite Hht, ComputeSiblings_eq, length_fmap by done. rewrite !decide_True by lia.
  erewrite M_bind_Ok by reflexivity. cbn beta iota. rewrite Er, decide_False by (by intros []).
  rewrite decide_False.
  2: { intros [E|E]; apply (f_equal length) in E; [rewrite path_of_length in E|rewrite length_fmap in E]; simpl in E; lia. }
  rewrite decide_False by lia. destruct (lookup_lt_is_Some_2 (r_Leaf <$> leaves) idx) as [x Hx]; [by rewrite length_fmap|].
  rewrite (at_index_nat _ _ _ Hx). unfold leaf_at. by rewrite Hx.
Qed.

Lemma claimProofs_mainnet m1 m2 m3 ger r1 :
  g_ExitRoots ger = [mroot H (take n (fst <$> lds)); r1] →
  ∃ c', claimProofs s m1 m2 m3 (Z.of_nat i) 0 ger h (db, c) =
    (Ok (ger, path_of H i (take n (fst <$> lds)), emptyProof), (db, c')) ∧ cache_sound c' v.
Proof.
  intros Eg. destruct (getProof_Ok s H net lds n i h db c v) as (c' & E & Hc'); [done..|lia|done|].
  exists c'. split; [|done]. unfold claimProofs. rewrite decide_True by done. rewrite Eg.
  erewrite M_bind_Ok by reflexivity. unfold orErrorf.
  erewrite M_bind_Ok by (erewrite M_bind_Ok by (apply attempt_Ok, E); reflexivity). done.
Qed.

Lemma claimProofs_rollup m1 m2 m3 networkID ger r0 leaves :
  GetRollupExitLeavesByRoot (mroot H (r_Leaf <$> leaves)) h db = (Ok leaves, db) →
  g_ExitRoots ger = [r0; mroot H (r_Leaf <$> leaves)] →
  1 ≤ networkID ≤ Z.of_nat (length leaves) → networkID < 2 ^ 32 → (length leaves ≤ 2 ^ H)%nat →
  leaf_at (r_Leaf <$> leaves) (Z.to_nat (networkID - 1)) = mroot H (take n (fst <$> lds)) →
  ∃ c', claimProofs s m1 m2 m3 (Z.of_nat i) networkID ger h (db, c) =
    (Ok (ger, path_of H i (take n (fst <$> lds)), path_of H (Z.to_nat (networkID - 1)) (r_Leaf <$> leaves)), (db, c')) ∧
    cache_sound c' v.
Proof.
  intros El Eg Hnet H32 HlH Eleaf. destruct (getProof_Ok s H net lds n i h db c v) as (c' & E & Hc'); [done..|lia|done|].
  exists c'. split; [|done]. unfold claimProofs. rewrite decide_False by lia. rewrite Eg.
  erewrite M_bind_Ok by reflexivity. rewrite u32_id by lia.
  pose proof (getRollupExitProof_Ok (Z.to_nat (networkID - 1)) _ leaves db El eq_refl) as Er.
  rewrite Z2Nat.id, Eleaf in Er by lia. unfold orErrorf.
  erewrite M_bind_Ok by (erewrite M_bind_Ok by (apply attempt_Ok, Er; lia); reflexivity).
  cbn beta iota.
  erewrite M_bind_Ok by (erewrite M_bind_Ok by (apply attempt_Ok, E); reflexivity). done.
Qed.

End ClaimProofs.

(** The verification of a claim in the bridge contract: the leaf under the local exit
    root, and for a rollup the local exit root under the rollup exit root. *)
Definition claim_verifies `{K : Keccak256} (H : nat) (leaf : Hash) (depositCnt networkID : Z) (ger : GlobalExitRoot)
    (proof rollupProof : list Hash) : Prop :=
  match g_ExitRoots ger with
  | [main; rollup] =>
      if decide (networkID = 0) then calculateRoot leaf proof depositCnt (Z.of_nat H) = Ok main
      else ∃ local, calculateRoot leaf proof depositCnt (Z.of_nat H) = Ok local ∧
                    calculateRoot local rollupProof (networkID - 1) (Z.of_nat H) = Ok rollup
  | _ => False
  end.

Lemma path_verifies `{K : Keccak256} H i (ls : list Hash) :
  (i < 2 ^ H)%nat → calculateRoot (leaf_at ls i) (path_of H i ls) (Z.of_nat i) (Z.of_nat H) = Ok (mroot H ls).
Proof.
  intros Hi. pose proof (calculateRoot_eq (leaf_at ls i) i (path_of H i ls)) as E.
  rewrite path_of_length, path_of_verifies in E by done. done.
Qed.

(** The exit root that [GetClaimProof] selects for a deposit. *)
Definition selectedGER (s : bridgeService) (networkID : Z) (deposit : Deposit) (h : dbTx) : M DB GlobalExitRoot :=
  if decide (sv_finalizedGER s = true ∧ d_DestinationNetwork deposit ≠ 0 ∧ networkID ≠ 0)
  then GetLatestTrustedExitRoot networkID h
  else GetLatestExitRoot networkID (d_DestinationNetwork deposit) h.

Lemma GetClaimProof_eq `{K : Keccak256} {C : Type} {HC : LruCache C} (s : bridgeService) i net h db (c : C) d ger :
  GetDeposit i net h db = (Ok d, db) → d_ReadyForClaim d = true → selectedGER s net d h db = (Ok ger, db) →
  ∃ m1 m2 m3, GetClaimProof s i net h (db, c) = claimProofs s m1 m2 m3 i net ger h (db, c).
Proof.
  intros Ed Hr Eg. eexists _, _, _. unfold GetClaimProof. erewrite M_bind_Ok by (apply sv_db_eq, Ed).
  cbn beta. rewrite Hr. cbn [negb]. unfold selectedGER in Eg.
  erewrite M_bind_Ok; [reflexivity|]. case_decide; apply sv_db_eq, Eg.
Qed.

(** For a deposit on mainnet that is ready for claim, under an exit root whose mainnet
    root is a root of the mainnet tree with the deposit in it, [GetClaimProof] returns that
    exit root with the sibling path of the deposit, and the claim verifies. *)
Theorem GetClaimProof_mainnet `{K : Keccak256} {C : Type} {HC : LruCache C} {HCL : LruCacheLaws C} (s : bridgeService)
    (H : nat) (lds : list (Hash * Z)) (n i : nat) (h : dbTx) (db : DB) (c : C) (v : MTView) (d : Deposit)
    (ger : GlobalExitRoot) (r1 : Hash) :
  stored H 0 lds v → rht_functional v → pg_mview h db = Some v → cache_sound c v →
  (i < n)%nat → (n ≤ length lds)%nat → (n ≤ 2 ^ H)%nat → Z.of_nat i < 2 ^ 32 →
  (0 < H ≤ 64)%nat → sv_height s = Z.of_nat H →
  GetDeposit (Z.of_nat i) 0 h db = (Ok d, db) → d_ReadyForClaim d = true → selectedGER s 0 d h db = (Ok ger, db) →
  g_ExitRoots ger = [mroot H (take n (fst <$> lds)); r1] →
  ∃ proof c', GetClaimProof s (Z.of_nat i) 0 h (db, c) = (Ok (ger, proof, emptyProof), (db, c')) ∧ cache_sound c' v ∧
    claim_verifies H (leaf_at (fst <$> lds) i) (Z.of_nat i) 0 ger proof emptyProof.
Proof.
  intros Hst Hf Hv Hcs Hi Hn HnH Hi32 HH Hht Ed Hr Es Eg.
  destruct (GetClaimProof_eq s (Z.of_nat i) 0 h db c d ger Ed Hr Es) as (m1 & m2 & m3 & E).
  destruct (claimProofs_mainnet s H 0 lds n i h db c v Hst Hf Hv Hcs Hi Hn HnH Hi32 HH Hht m1 m2 m3 ger r1 Eg) as (c' & E' & Hc').
  eexists _, c'. rewrite E, E'. split; [done|]. split; [done|]. unfold claim_verifies. rewrite Eg, decide_True by done.
  pose proof (path_verifies H i (take n (fst <$> lds)) ltac:(lia)) as Hp. unfold leaf_at in Hp |- *.
  by rewrite lookup_take_lt in Hp.
Qed.

(** C13: for a deposit on a rollup that is ready for claim, under an exit root whose rollup
    root is the root of stored leaves with a local exit root of the rollup that contains the
    deposit, [GetClaimProof] returns that exit root with the two sibling paths, and the claim
    verifies in two levels. *)
Theorem GetClaimProof_rollup `{K : Keccak256} {C : Type} {HC : LruCache C} {HCL : LruCacheLaws C} (s : bridgeService)
    (H : nat) (net : Z) (lds : list (Hash * Z)) (n i : nat) (h : dbTx) (db : DB) (c : C) (v : MTView) (d : Deposit)
    (ger : GlobalExitRoot) (r0 : Hash) (leaves : list RollupExitLeaf) :
  stored H net lds v → rht_functional v → pg_mview h db = Some v → cache_sound c v →
  (i < n)%nat → (n ≤ length lds)%nat → (n ≤ 2 ^ H)%nat → Z.of_nat i < 2 ^ 32 →
  (0 < H ≤ 64)%nat → sv_height s = Z.of_nat H →
  GetDeposit (Z.of_nat i) net h db = (Ok d, db) → d_ReadyForClaim d = true → selectedGER s net d h db = (Ok ger, db) →
  GetRollupExitLeavesByRoot (mroot H (r_Leaf <$> leaves)) h db = (Ok leaves, db) →
  g_ExitRoots ger = [r0; mroot H (r_Leaf <$> leaves)] →
  1 ≤ net ≤ Z.of_nat (length leaves) → net < 2 ^ 32 → (length leaves ≤ 2 ^ H)%nat →
  leaf_at (r_Leaf <$> leaves) (Z.to_nat (net - 1)) = mroot H (take n (fst <$> lds)) →
  ∃ proof rollupProof c', GetClaimProof s (Z.of_nat i) net h (db, c) = (Ok (ger, proof, rollupProof), (db, c')) ∧
    cache_sound c' v ∧ claim_verifies H (leaf_at (fst <$> lds) i) (Z.of_nat i) net ger proof rollupProof.
Proof.
  intros Hst Hf Hv Hcs Hi Hn HnH Hi32 HH Hht Ed Hr Es El Eg Hnet H32 HlH Eleaf.
  destruct (GetClaimProof_eq s (Z.of_nat i) net h db c d ger Ed Hr Es) as (m1 & m2 & m3 & E).
  destruct (claimProofs_rollup s H net lds n i h db c v Hst Hf Hv Hcs Hi Hn HnH Hi32 HH Hht m1 m2 m3 net ger r0 leaves
              El Eg Hnet H32 HlH Eleaf) as (c' & E' & Hc').
  eexists _, _, c'. rewrite E, E'. split; [done|]. split; [done|]. unfold claim_verifies. rewrite Eg, decide_False by lia.
  exists (mroot H (take n (fst <$> lds))). split.
  - pose proof (path_verifies H i (take n (fst <$> lds)) ltac:(lia)) as Hp. unfold leaf_at in Hp |- *.
    by rewrite lookup_take_lt in Hp.
  - pose proof (path_verifies H (Z.to_nat (net - 1)) (r_Leaf <$> leaves) ltac:(lia)) as Hp.
    by rewrite Eleaf, Z2Nat.id in Hp by lia.
Qed.

(** ** The frontier of a backward update *)

(** From the sibling path of position [n] in the current tree the service computes the
    frontier of the tree of the first [n] leaves, the tree a backward update to [n] goes
    back to: the left neighbours where the bit of [n] is one and zeros elsewhere. *)
Theorem computeFrontierFromProof_correct `{K : Keccak256} (s : bridgeService) (H n : nat) (ls : list Hash) :
  sv_height s = Z.of_nat H → (n ≤ length ls)%nat →
  ∃ f, computeFrontierFromProof s (Z.of_nat n) (path_of H n ls) = Ok f ∧ frontier H (take n ls) f ∧
       ∀ h, (h < H)%nat → Nat.testbit n h = false → f !! h = Some 0.
Proof.
  intros Hht Hn.
  set (elem h := if Nat.testbit n h then node h (n / 2 ^ h - 1) ls else 0).
  exists (elem <$> seq 0 H). unfold computeFrontierFromProof. rewrite path_of_length, Hht, decide_False, Nat2Z.id by lia.
  split; [|split; [split; [by rewrite length_fmap, length_seq|]|]].
  - assert (∀ m, (m ≤ H)%nat → fold_result (λ frontier i,
        if decide (Z.land (Z.shiftr (Z.of_nat n) (Z.of_nat i)) 1 = 1)
        then p ← at_index (path_of H n ls) (Z.of_nat i); Ok (frontier ++ [p])
        else Ok (frontier ++ [0])) [] (seq 0 m) = Ok (elem <$> seq 0 m)) as Hm; [|by apply Hm].
    induction m as [|m IH]; intros Hm; [done|]. rewrite seq_S, fold_result_app, IH, fmap_app by lia.
    cbn [mbind result_bind fold_result fmap list_fmap]. simpl plus.
    assert (elem m = if Nat.testbit n m then node m (n / 2 ^ m - 1) ls else 0) as -> by done.
    rewrite (at_index_nat _ _ _ (path_of_lookup H n ls m ltac:(lia))). cbn zeta.
    pose proof (shifted_bit n m) as Hbit. rewrite <- testbit_odd in *.
    destruct (Nat.testbit n m); [rewrite decide_True by (by apply Hbit)|rewrite decide_False by (by rewrite Hbit)]; done.
  - intros h Hh. rewrite length_take, Nat.min_l by done. intros Hb. rewrite list_lookup_fmap, lookup_seq_lt by done.
    cbn. unfold elem. rewrite Hb. f_equal. symmetry. apply node_take. pose proof (div_pow2_bounds n h).
    rewrite testbit_odd in Hb. destruct (n / 2 ^ h)%nat; [done|]. lia.
  - intros h Hh Hb. rewrite list_lookup_fmap, lookup_seq_lt by done. cbn. unfold elem. by rewrite Hb.
Qed.

(** ** Concrete inputs *)

(** A cache of two entries, the least recently used one is dropped. *)
Definition toy_lru : LruCache (list (Hash * list Hash)) := {|
  cache_New n := if decide (n ≤ 0) then inl (Errorf "must provide a positive size") else inr [];
  cache_Get k c :=
    match filter (λ e, e.1 = k) c with
    | e :: _ => (Some e.2, e :: filter (λ e, e.1 ≠ k) c)
    | [] => (None, c)
    end;
  cache_Add k v c := take 2 ((k, v) :: filter (λ e, e.1 ≠ k) c)
|}.

Definition toy_lru_laws : @LruCacheLaws _ toy_lru.
Proof.
  assert (∀ k (c : list (Hash * list Hash)) e l, filter (λ e, e.1 = k) c = e :: l → e.1 = k ∧ e ∈ c) as Hhit.
  { intros k c e l E. assert (e ∈ filter (λ e, e.1 = k) c) as He by (rewrite E; left). by apply list_elem_of_filter in He. }
  refine (@Build_LruCacheLaws _ toy_lru (λ c k x, (k, x) ∈ c) _ _ _ _); cbn.
  - intros n c k x. case_decide; [done|]. intros [= <-]. apply not_elem_of_nil.
  - intros k c x. destruct (filter _ c) as [|e l] eqn:E; [done|]. intros [= <-].
    destruct (Hhit _ _ _ _ E) as [<- ?]. by destruct e.
  - intros k c k' x. destruct (filter (λ e, e.1 = k) c) as [|e l] eqn:E; [done|].
    intros [->|[_ ?]%list_elem_of_filter]%elem_of_cons; [|done]. by destruct (Hhit _ _ _ _ E).
  - intros k v c k' x Hin. change ((k', x) ∈ take 2 ((k, v) :: filter (λ e, e.1 ≠ k) c)) in Hin.
    apply elem_of_take in Hin as (i & Hi & _). apply list_elem_of_lookup_2, elem_of_cons in Hi.
    destruct Hi as [[= -> ->]|[_ ?]%list_elem_of_filter]; [by left|by right].
Defined.

Definition toy_service : bridgeService := mkBridgeService {[0 := 0; 1 := 1]} 3 25 100 "v1" false.

Lemma toy_cache_empty v : @cache_sound _ toy_lru toy_lru_laws [] v.
Proof. intros k x r Hc. by apply elem_of_nil in Hc. Qed.

Lemma toy_view3_live : pg_mview NoTx toy_w3.1 = Some toy_view3.
Proof. by vm_compute. Qed.

(** The second leaf under the root after two leaves, when three are stored. *)
Lemma getProof_correct_witness :
  ∃ c', getProof (HC := toy_lru) toy_service 1 (mroot (K := toy_keccak) 3 [111; 222]) NoTx (toy_w3.1, []) =
      (Ok (path_of (K := toy_keccak) 3 1 [111; 222]), (toy_w3.1, c')) ∧
    @cache_sound _ toy_lru toy_lru_laws c' toy_view3 ∧
    calculateRoot (K := toy_keccak) 222 (path_of (K := toy_keccak) 3 1 [111; 222]) 1 3 =
      Ok (mroot (K := toy_keccak) 3 [111; 222]).
Proof.
  apply (@getProof_correct toy_keccak _ toy_lru toy_lru_laws toy_service 3 1 toy_leaves3 2 1 NoTx toy_w3.1 [] toy_view3).
  - exact toy_stored3.
  - exact toy_functional3.
  - exact toy_view3_live.
  - apply toy_cache_empty.
  - lia.
  - simpl. lia.
  - simpl. lia.
  - by vm_compute.
  - lia.
  - done.
Defined.

(** One deposit on mainnet for network 1, claimable under a synced exit root. *)
Definition toy_main_tables : Tables :=
  on_exit_root (λ _, [mk_exit_root_row 1 1 900 [mroot (K := toy_keccak) 3 [444]; 5] 1 true])
    (on_block (λ _, [mk_block_row 1 10 1001 0])
      (on_deposit (λ _, [mk_deposit_row 1 0 0 0 100 5 1 200 1 0 77 [1] true false]) emptyTables)).
Definition toy_main_view0 : MTView := tables_view toy_main_tables toy_seqs.
Definition toy_main_db : DB := Eval vm_compute in
  (snd (addLeaf (K := toy_keccak) 1 444 0 NoTx (mkDB toy_main_tables None toy_seqs [], mkMerkleTree 0 3 0 (take 3 (zeroHashes (K := toy_keccak)))))).1.
Definition toy_main_view : MTView := v_append (K := toy_keccak) 3 0 [] 444 1 toy_main_view0.

Lemma toy_main_stored : stored (K := toy_keccak) 3 0 [(444, 1)] toy_main_view.
Proof.
  apply (stored_append 3 0 [] 444 1 toy_main_view0); [|split; [by vm_compute|done]].
  apply stored_nil; [done|]. intros d Hd. apply list_elem_of_singleton in Hd as ->. simpl. lia.
Qed.

Lemma GetClaimProof_mainnet_witness :
  let ger := mkGlobalExitRoot 1 0 [mroot (K := toy_keccak) 3 [444]; 5] 900 1 1 in
  ∃ proof c', GetClaimProof (K := toy_keccak) (HC := toy_lru) toy_service 0 0 NoTx (toy_main_db, []) =
      (Ok (ger, proof, emptyProof), (toy_main_db, c')) ∧ @cache_sound _ toy_lru toy_lru_laws c' toy_main_view ∧
    claim_verifies (K := toy_keccak) 3 444 0 0 ger proof emptyProof.
Proof.
  apply (@GetClaimProof_mainnet toy_keccak _ toy_lru toy_lru_laws toy_service 3 [(444, 1)] 1 0 NoTx toy_main_db [] toy_main_view
           (mkDeposit 1 0 0 100 5 1 200 0 1 10 0 77 [1] true) _ 5).
  - exact toy_main_stored.
  - apply (bool_decide_unpack _). by vm_compute.
  - by vm_compute.
  - apply toy_cache_empty.
  - lia.
  - simpl. lia.
  - simpl. lia.
  - by vm_compute.
  - lia.
  - done.
  - by vm_compute.
  - done.
  - by vm_compute.
  - done.
Defined.

(** The first deposit of network 1, under a rollup exit root that holds the local exit
    root after two deposits. *)
Definition toy_rollup_leaves : list RollupExitLeaf :=
  [mkRollupExitLeaf 1 1 (mroot (K := toy_keccak) 3 [111; 222]) 1 (mroot (K := toy_keccak) 3 [mroot (K := toy_keccak) 3 [111; 222]])].
Definition toy_rollup_tables : Tables :=
  on_exit_root (λ _, [mk_exit_root_row 1 1 901 [6; mroot (K := toy_keccak) 3 (r_Leaf <$> toy_rollup_leaves)] 0 true])
    (on_rollup_exit (λ _, [mk_rollup_exit_row 1 (mroot (K := toy_keccak) 3 [111; 222]) 1
                             (mroot (K := toy_keccak) 3 (r_Leaf <$> toy_rollup_leaves)) 1])
      (on_deposit (fmap (set_dr_ready true)) (db_committed toy_w3.1))).
Definition toy_rollup_db : DB := mkDB toy_rollup_tables None (db_seqs toy_w3.1) [].
Definition toy_rollup_view : MTView := tables_view toy_rollup_tables (db_seqs toy_w3.1).

Lemma GetClaimProof_rollup_witness :
  let ger := mkGlobalExitRoot 1 0 [6; mroot (K := toy_keccak) 3 (r_Leaf <$> toy_rollup_leaves)] 901 0 0 in
  ∃ proof rollupProof c', GetClaimProof (K := toy_keccak) (HC := toy_lru) toy_service 0 1 NoTx (toy_rollup_db, []) =
      (Ok (ger, proof, rollupProof), (toy_rollup_db, c')) ∧ @cache_sound _ toy_lru toy_lru_laws c' toy_rollup_view ∧
    claim_verifies (K := toy_keccak) 3 111 0 1 ger proof rollupProof.
Proof.
  apply (@GetClaimProof_rollup toy_keccak _ toy_lru toy_lru_laws toy_service 3 1 toy_leaves3 2 0 NoTx toy_rollup_db []
           toy_rollup_view (mkDeposit 1 0 0 100 5 0 200 0 1 10 1 77 [1; 2; 3] true) _ 6 toy_rollup_leaves).
  - apply (stored_ext 3 1 toy_leaves3 toy_view3); [by vm_compute..|exact toy_stored3].
  - apply (bool_decide_unpack _). by vm_compute.
  - done.
  - apply toy_cache_empty.
  - lia.
  - simpl. lia.
  - simpl. lia.
  - by vm_compute.
  - lia.
  - done.
  - by vm_compute.
  - done.
  - by vm_compute.
  - by vm_compute.
  - done.
  - simpl. lia.
  - lia.
  - simpl. lia.
  - done.
Defined.

Lemma computeFrontierFromProof_correct_witness :
  ∃ f, computeFrontierFromProof toy_service 2 (path_of (K := toy_keccak) 3 2 [5; 6; 7]) = Ok f ∧
       frontier (K := toy_keccak) 3 [5; 6] f ∧ ∀ h, (h < 3)%nat → Nat.testbit 2 h = false → f !! h = Some 0.
Proof. apply (computeFrontierFromProof_correct (K := toy_keccak) toy_service 3 2 [5; 6; 7]); [done|simpl; lia]. Defined.
