(* ===== verification/BackwardLET.v ===== *)
(** * The data of a backward update (server/service.go, GetBackwardLETData)

    The request that prepares a backward update of the local exit tree: composed of the
    last root of the storage, the proof of the service and the frontier computed from it. *)
From S2P Require Import Prelude Types Bytes Hash MerkleSpec ClaimTypes Schema MerkleStore Storage PgMerkleStore.
From S2P Require Import MerkleTree MerkleTreeFacts Service Toy ServiceTheorems.

(** The row with the greatest deposit is the root of all leaves. *)
Lemma GetLastComputedRoot_Ok `{K : Keccak256} H net lds db v :
  stored H net lds v → pg_mview NoTx db = Some v → lds ≠ [] →
  GetLastComputedRoot net NoTx db = (Ok (mroot H (fst <$> lds)), db).
Proof.
  intros Hst Hv Hne. apply pg_mview_inv in Hv as (t & Ht & Hf & ->). unfold GetLastComputedRoot.
  erewrite M_bind_Ok by (by apply attempt_Ok, (run_query_live NoTx _ _ t)).
  pose proof (st_roots _ _ _ _ Hst) as Er. cbn [mv_root tables_view] in Er. rewrite Er.
  set (row := λ i p, mk_root_row _ _ _) in *. destruct (sort_desc rr_deposit_id (imap row lds)) as [|x l] eqn:Es.
  { destruct lds as [|p lds]; [done|]. assert (row 0%nat p ∈ sort_desc rr_deposit_id (imap row (p :: lds))) as Hx.
    { apply sort_desc_elem. left. }
    rewrite Es in Hx. by apply elem_of_nil in Hx. }
  apply sort_desc_head in Es as [Hx Hmax]. cbn [head].
  apply elem_of_lookup_imap_1 in Hx as (i & p & -> & Hi). apply lookup_lt_Some in Hi as Hlt.
  destruct (decide (S i = length lds)) as [Hl|Hl].
  - cbn. rewrite take_ge by (rewrite length_fmap; lia). done.
  - destruct (lookup_lt_is_Some_2 lds (S i)) as [q Hq]; [lia|]. specialize (Hmax (row (S i) q)). cbn in Hmax.
    pose proof (st_sorted _ _ _ _ Hst i (S i) p q Hi Hq ltac:(lia)) as Hs. exfalso.
    assert (snd q ≤ snd p); [|lia]. apply Hmax, list_elem_of_lookup. exists (S i). by rewrite list_lookup_imap, Hq.
Qed.

(** The hash of the deposit at a position. *)
Lemma getLeaf_Ok `{K : Keccak256} {C : Type} {HC : LruCache C} i net db (c : C) d leaf :
  GetDeposit i net NoTx db = (Ok d, db) → HashDeposit d = Ok leaf → getLeaf i net (db, c) = (Ok leaf, (db, c)).
Proof.
  intros Ed Eh. unfold getLeaf. erewrite M_bind_Ok by (apply attempt_Ok, sv_db_eq, Ed). unfold lift. by rewrite Eh.
Qed.

(** C8: the data for a backward update of a rollup to [i] leaves.  The request answers with
    the last root of the stored local exit tree, the leaf at position [i], the first one to
    remove, its sibling path, which [calculateRoot] accepts for that root, and the frontier
    of the tree of the first [i] leaves, with zeros where this tree remembers nothing: what
    the contract needs to check the leaf and to go on from the shorter tree.  The tables are
    not changed and the cache stays in agreement with them.  Network 0 is refused. *)
Theorem GetBackwardLETData_correct `{K : Keccak256} {C : Type} {HC : LruCache C} {HCL : LruCacheLaws C} (s : bridgeService)
    (H : nat) (net : Z) (lds : list (Hash * Z)) (i : nat) (db : DB) (c : C) (v : MTView) (d : Deposit) :
  net ≠ 0 → stored H net lds v → rht_functional v → pg_mview NoTx db = Some v → cache_sound c v →
  (i < length lds)%nat → (length lds ≤ 2 ^ H)%nat → Z.of_nat i < 2 ^ 32 → (0 < H < 256)%nat → sv_height s = Z.of_nat H →
  GetDeposit (Z.of_nat i) net NoTx db = (Ok d, db) → HashDeposit d = Ok (leaf_at (fst <$> lds) i) →
  let ls := fst <$> lds in
  GetBackwardLETData s (Z.of_nat i) 0 (db, c) = (Err (Errorf "networkID cannot be 0 for backward LET"), (db, c)) ∧
  ∃ f c', GetBackwardLETData s (Z.of_nat i) net (db, c) =
      (Ok (mk_pb_BackwardLETData (Hash_Hex (mroot H ls)) (Hash_Hex (leaf_at ls i)) (Hash_Hex <$> path_of H i ls) (Hash_Hex <$> f)),
       (db, c')) ∧ cache_sound c' v ∧
    calculateRoot (leaf_at ls i) (path_of H i ls) (Z.of_nat i) (Z.of_nat H) = Ok (mroot H ls) ∧
    frontier H (take i ls) f ∧ ∀ h, (h < H)%nat → Nat.testbit i h = false → f !! h = Some 0.
Proof.
  intros Hnet Hst Hf Hv Hcs Hi HlH Hi32 HH Hht Ed Eh ls. split; [done|].
  assert (take (length lds) ls = ls) as Hall by (apply take_ge; unfold ls; by rewrite length_fmap).
  destruct (getProof_Ok s H net lds (length lds) i NoTx db c v) as (c' & Ep & Hc'); [done..|]. fold ls in Ep. rewrite Hall in Ep.
  destruct (computeFrontierFromProof_correct s H i ls) as (f & Ef & Hfr & Hz); [done|unfold ls; rewrite length_fmap; lia|].
  exists f, c'. split; [|split; [done|split; [|done]]].
  - unfold GetBackwardLETData. rewrite decide_False by done. erewrite M_bind_Ok by (by eapply getLeaf_Ok).
    erewrite M_bind_Ok by (by apply sv_db_eq, (GetLastComputedRoot_Ok H net lds db v); [..|intros ->; cbn in Hi; lia]).
    erewrite M_bind_Ok by exact Ep. erewrite M_bind_Ok; [reflexivity|]. unfold lift. by rewrite Ef.
  - rewrite <- Hall at 2 3. apply path_accepted; lia.
Qed.

(** ** A concrete input *)

(** Three leaves, the second one that of the stored deposit 1. *)
Definition toy_back_leaf : Hash := Eval vm_compute in
  match HashDeposit (K := toy_keccak) (deposit_of_row (toy_deposit_row 2 1 2) 11) with Ok h => h | _ => 0 end.
Definition toy_back_leaves : list (Hash * Z) := [(111, 1); (toy_back_leaf, 2); (333, 3)].
Definition toy_back_db : DB := Eval vm_compute in
  (toy_run (addLeaf (K := toy_keccak) 3 333 2 NoTx) (toy_run (addLeaf (K := toy_keccak) 2 toy_back_leaf 1 NoTx) toy_w1)).1.
Definition toy_back_view : MTView := tables_view (db_committed toy_back_db) (db_seqs toy_back_db).

(** Back to one leaf, the frontier is that leaf. *)
Lemma GetBackwardLETData_correct_witness :
  let ls := [111; toy_back_leaf; 333] in
  ∃ f c', GetBackwardLETData (K := toy_keccak) (HC := toy_lru) toy_service 1 1 (toy_back_db, []) =
      (Ok (mk_pb_BackwardLETData (Hash_Hex (mroot (K := toy_keccak) 3 ls)) (Hash_Hex toy_back_leaf)
             (Hash_Hex <$> path_of (K := toy_keccak) 3 1 ls) (Hash_Hex <$> f)), (toy_back_db, c')) ∧
    frontier (K := toy_keccak) 3 [111] f.
Proof.
  intros ls.
  destruct (@GetBackwardLETData_correct toy_keccak _ toy_lru toy_lru_laws toy_service 3 1 toy_back_leaves 1 toy_back_db []
    toy_back_view (deposit_of_row (toy_deposit_row 2 1 2) 11)) as (_ & f & c' & E & _ & _ & Hf & _).
  - done.
  - apply (bool_decide_unpack _). vm_compute. exact I.
  - apply (bool_decide_unpack _). vm_compute. exact I.
  - reflexivity.
  - apply toy_cache_empty.
  - cbn. lia.
  - cbn. lia.
  - done.
  - lia.
  - done.
  - vm_compute. reflexivity.
  - vm_compute. reflexivity.
  - exists f, c'. split; [exact E|exact Hf].
Defined.
