(* ===== verification/ServicePages.v ===== *)
(** * The pages of the bridge service

    What the list endpoints return: a page of the ordered rows, never longer than the
    configured maximum, each with its global index and its claim. *)
From S2P Require Import Prelude Types Bytes Hash GlobalIndex MerkleSpec ClaimTypes Schema MerkleStore Storage.
From S2P Require Import PgMerkleStore MerkleTree Toy Service ServiceTheorems.

(** A claim of the deposit is stored: by the network it goes to, with its index and
    origin. *)
Definition claim_of (d : Deposit) (r : claim_row) : Prop :=
  cr_index r = d_DepositCount d ∧ cr_network_id r = d_DestinationNetwork d ∧
  if decide (d_NetworkID d = 0) then cr_mainnet_flag r = true
  else cr_mainnet_flag r = false ∧ cr_rollup_index r + 1 = d_NetworkID d.

#[global] Instance claim_of_dec d r : Decision (claim_of d r).
Proof. unfold claim_of. case_decide; apply _. Defined.

(** The message shows the deposit, its global index, and whether it is claimed. *)
Definition bridge_shown (t : Tables) (d : Deposit) (p : pb_Deposit) : Prop :=
  pd_DepositCnt p = d_DepositCount d ∧ pd_NetworkId p = d_NetworkID d ∧ pd_DestNet p = d_DestinationNetwork d ∧
  pd_ReadyForClaim p = d_ReadyForClaim d ∧ pd_Amount p = pretty (d_Amount d) ∧
  pd_GlobalIndex p = pretty (globalIndexValue (bool_decide (d_NetworkID d = 0)) (d_NetworkID d - 1) (d_DepositCount d)) ∧
  (pd_ClaimTxHash p = ""%string ↔ ¬ Exists (claim_of d) (t_claim t)).

(** Every deposit is in one block of its network, with fields in their range. *)
Definition deposits_fit (t : Tables) : Prop :=
  Forall (λ d, 0 ≤ dr_network_id d < 2 ^ 32 ∧ 0 ≤ dr_deposit_cnt d < 2 ^ 32 ∧
    length (filter (λ b, dr_network_id d = br_network_id b ∧ dr_block_id d = br_id b) (t_block t)) = 1%nat) (t_deposit t).

Section Pages.
Context {C : Type} {HX : CommonHex} (s : bridgeService) (db : DB) (c : C).
Context (Hf : db_faults db = []).

Local Abbreviation t := (db_committed db).

Lemma query {A} (f : Tables → A) : run NoTx (sql_query f) db = (Ok (f t), db).
Proof. by apply run_query_live. Qed.

Lemma head_None_filter {A} (P : A → Prop) `{∀ x, Decision (P x)} (l : list A) :
  head (filter P l) = None ↔ ¬ Exists P l.
Proof.
  destruct (filter P l) as [|x l'] eqn:E; simpl; split; try done.
  - intros _ (x & Hx & HP)%Exists_exists. assert (x ∈ filter P l) as Hin by (by apply list_elem_of_filter).
    rewrite E in Hin. by apply elem_of_nil in Hin.
  - intros Hn. exfalso. apply Hn. apply Exists_exists. exists x.
    assert (x ∈ filter P l) as [? ?]%list_elem_of_filter by (rewrite E; left). done.
Qed.

Lemma GetDepositStatus_query d :
  ∃ hash, GetDepositStatus (d_DepositCount d) (d_NetworkID d) (d_DestinationNetwork d) (db, c) = (Ok hash, (db, c)) ∧
    (hash = ""%string ↔ ¬ Exists (claim_of d) (t_claim t)).
Proof.
  assert (∃ f, GetClaim (d_DepositCount d) (d_NetworkID d) (d_DestinationNetwork d) NoTx db =
    (match head (filter (claim_of d) (t_claim t)) with Some r => Ok (f r) | None => Err ErrStorageNotFound end, db)) as [f E].
  { eexists (λ r, _). unfold GetClaim. destruct (decide (d_NetworkID d = 0)) as [Hz|Hz];
      (erewrite M_bind_Ok by apply query); cbn beta; erewrite (list_filter_iff _ (claim_of d)).
    2, 4: intros r; unfold claim_of; destruct (decide (d_NetworkID d = 0)); tauto.
    all: destruct (head (filter (claim_of d) (t_claim t))); reflexivity. }
  unfold GetDepositStatus. pose proof (head_None_filter (claim_of d) (t_claim t)) as Hnone.
  destruct (head (filter (claim_of d) (t_claim t))) as [r|]; eexists.
  - erewrite M_bind_Ok by (apply attempt_Ok, sv_db_eq, E). split; [reflexivity|]. by rewrite <- Hnone.
  - erewrite M_bind_Ok by (apply attempt_Err, sv_db_eq, E). split; [reflexivity|]. by rewrite <- Hnone.
Qed.

Lemma pbDeposit_shown d hash :
  0 ≤ d_NetworkID d < 2 ^ 32 → 0 ≤ d_DepositCount d < 2 ^ 32 → (hash = ""%string ↔ ¬ Exists (claim_of d) (t_claim t)) →
  ∃ p, pbDeposit d hash = Ok p ∧ bridge_shown t d p.
Proof.
  intros Hn Hc Hh. unfold pbDeposit. case_bool_decide as Hz.
  - rewrite GenerateGlobalIndex_value by lia. eexists. split; [reflexivity|]. unfold bridge_shown. cbn.
    by rewrite bool_decide_true.
  - rewrite (u32_id (d_NetworkID d - 1)), GenerateGlobalIndex_value by lia. eexists. split; [reflexivity|]. unfold bridge_shown. cbn.
    by rewrite bool_decide_false.
Qed.

Lemma appendEach_shown (f : Deposit → M (DB * C) pb_Deposit) (P : Deposit → pb_Deposit → Prop) ds :
  Forall (λ d, ∃ p, f d (db, c) = (Ok p, (db, c)) ∧ P d p) ds →
  ∀ acc, ∃ ps, appendEach f ds acc (db, c) = (Ok (acc ++ ps), (db, c)) ∧ Forall2 P ds ps.
Proof.
  induction 1 as [|d ds (p & E & Hp) _ IH]; intros acc.
  - exists []. rewrite app_nil_r. done.
  - destruct (IH (acc ++ [p])) as (ps & E' & Hps). exists (p :: ps). cbn [appendEach]. erewrite M_bind_Ok by exact E.
    rewrite E', <- app_assoc. split; [done|by constructor].
Qed.

Lemma join_count (P : deposit_row → Prop) `{∀ d, Decision (P d)} (bs : list block_row) (l : list deposit_row) :
  Forall (λ d, length (filter (λ b, dr_network_id d = br_network_id b ∧ dr_block_id d = br_id b) bs) = 1%nat) l →
  length (filter (λ p : deposit_row * block_row, P p.1)
    (d ← l; b ← filter (λ b, dr_network_id d = br_network_id b ∧ dr_block_id d = br_id b) bs; [(d, b)])) =
  length (filter P l).
Proof.
  induction 1 as [|d l Hd _ IH]; [done|]. cbn [mbind list_bind]. rewrite filter_app, length_app, IH.
  destruct (filter _ bs) as [|b [|]]; [done| |done]. cbn. by destruct (decide (P d)).
Qed.

Lemma sort_desc_length {A} (key : A → Z) l : length (sort_desc key l) = length l.
Proof. unfold sort_desc. by rewrite sort_by_perm. Qed.

Lemma pageLimit_max limit : 0 ≤ sv_maxPageLimit s → pageLimit s limit ≤ sv_maxPageLimit s.
Proof. intros. unfold pageLimit. repeat case_decide; lia. Qed.

End Pages.

(** C37: without database failures [GetBridges] returns the requested page of all bridges of
    the address, newest first, and the number of all of them; every entry shows its deposit
    with its global index, and a claim hash exactly when a claim of it is stored; a page is
    never longer than the maximum. *)
Theorem GetBridges_correct {C : Type} {HX : CommonHex} (s : bridgeService) (db : DB) (c : C)
    (addr : string) (net dest : option Z) (limit offset : Z) :
  db_faults db = [] → deposits_fit (db_committed db) → 0 ≤ sv_maxPageLimit s →
  let rows := (λ p, deposit_of_row p.1 (br_block_num p.2)) <$> bridge_rows (addressParam (FromHex addr)) net dest (db_committed db) in
  ∃ page, GetBridges s addr net dest limit offset (db, c) = (Ok (page, Z.of_nat (length rows)), (db, c)) ∧
    Forall2 (bridge_shown (db_committed db)) (limit_offset (pageLimit s limit) offset rows) page ∧
    Z.of_nat (length page) ≤ sv_maxPageLimit s.
Proof.
  intros Hf Hfit Hmax rows. set (t := db_committed db) in *.
  assert (Forall (λ d, 0 ≤ d_NetworkID d < 2 ^ 32 ∧ 0 ≤ d_DepositCount d < 2 ^ 32) rows) as Hrows.
  { apply Forall_fmap, Forall_forall. intros [d b] Hin. unfold bridge_rows in Hin.
    rewrite !sort_desc_elem in Hin. apply list_elem_of_filter in Hin as [_ Hin]. unfold deposit_join_block in Hin.
    apply list_elem_of_bind in Hin as (d' & Hin & Hd'). apply list_elem_of_bind in Hin as (b' & Hin & _).
    apply list_elem_of_singleton in Hin as [= -> ->].
    unfold deposits_fit in Hfit. rewrite Forall_forall in Hfit. destruct (Hfit d' Hd') as (? & ? & _). done. }
  set (ds := limit_offset (pageLimit s limit) offset rows).
  assert (Forall (λ d, ∃ p, (claimTxHash ← GetDepositStatus (d_DepositCount d) (d_NetworkID d) (d_DestinationNetwork d);
            lift (pbDeposit d claimTxHash)) (db, c) = (Ok p, (db, c)) ∧ bridge_shown t d p) ds) as Hds.
  { apply Forall_take, Forall_drop. eapply Forall_impl; [exact Hrows|]. intros d [Hn Hc].
    destruct (GetDepositStatus_query db c Hf d) as (hash & E & Hh).
    destruct (pbDeposit_shown db d hash Hn Hc Hh) as (p & Ep & Hp). exists p. split; [|done].
    erewrite M_bind_Ok by exact E. unfold lift. by rewrite Ep. }
  destruct (appendEach_shown db c (λ d,
    claimTxHash ← GetDepositStatus (d_DepositCount d) (d_NetworkID d) (d_DestinationNetwork d);
    lift (pbDeposit d claimTxHash)) (bridge_shown t) ds Hds []) as (page & E & Hpage). exists page. split; [|split; [done|]].
  - unfold GetBridges. erewrite M_bind_Ok by (apply sv_db_eq, query, Hf). cbn beta.
    erewrite (M_bind_Ok _ _ _ ds).
    2: { apply sv_db_eq. unfold GetDeposits. erewrite M_bind_Ok by apply query, Hf. unfold mret, M_ret.
         unfold ds, rows, limit_offset. by rewrite fmap_take, fmap_drop. }
    erewrite M_bind_Ok by exact E. unfold mret, M_ret. unfold rows. rewrite length_fmap.
    unfold bridge_rows. rewrite !sort_desc_length. unfold deposit_join_block.
    match goal with |- (Ok (_, Z.of_nat ?x), _) = (Ok (_, Z.of_nat ?z), _) => assert (z = x) as Hxz; [|by rewrite Hxz] end.
    refine (join_count (λ d, dr_dest_addr d = addressParam (FromHex addr) ∧ opt_filter net (dr_network_id d) ∧ opt_filter dest (dr_dest_net d))
      (t_block t) (t_deposit t) _).
    eapply Forall_impl; [exact Hfit|]. by intros d (_ & _ & ?).
  - apply Forall2_length in Hpage. rewrite <- Hpage. unfold ds, limit_offset. rewrite length_take.
    pose proof (pageLimit_max s limit Hmax). lia.
Qed.

(** ** Concrete inputs *)

Definition toy_hex : CommonHex := {| Address_Hex _ := ""; HexToAddress _ := 200; HexToHash _ := 0; FromHex _ := replicate 19 0 ++ [200] |}.

(** The three deposits of [toy_w3], page size two. *)
Lemma GetBridges_correct_witness :
  let rows := (λ p, deposit_of_row p.1 (br_block_num p.2)) <$> bridge_rows 200 None (Some 0) (db_committed toy_w3.1) in
  ∃ page, GetBridges (HX := toy_hex) toy_service "0xc8" None (Some 0) 2 1 (toy_w3.1, tt) =
      (Ok (page, Z.of_nat (length rows)), (toy_w3.1, tt)) ∧
    Forall2 (bridge_shown (db_committed toy_w3.1)) (limit_offset 2 1 rows) page ∧
    Z.of_nat (length page) ≤ 100.
Proof.
  apply (@GetBridges_correct _ toy_hex toy_service toy_w3.1 tt "0xc8" None (Some 0) 2 1).
  - done.
  - apply (bool_decide_unpack _). by vm_compute.
  - done.
Defined.
