(* ===== verification/NonceCache.v ===== *)
(** * Nonces and the node of the claims (claimtxman/nonce_cache.go, utils/client.go)

    The nonce cache, the node that the claim transactions are sent to, and the texts of
    errors the claim transaction manager looks at.  The LRU cache and go-ethereum's
    client are parameters. *)
From S2P Require Import Prelude Types Bytes ClaimTypes Schema Storage.

(** golang-lru with the addresses as keys: the source uses [from.Hex()], which tells
    addresses apart. *)
Class NonceLru (C : Type) := {
  lru_Get : Address → C → option Z * C;
  lru_Add : Address → Z → C → C;
  lru_Remove : Address → C → C
}.

(** What its documentation says of a cache with room for one entry or more: the entry
    that was just added is there, and a lookup removes nothing and changes no value. *)
Class NonceLruLaws (C : Type) `{NonceLru C} := {
  lru_Get_Add : ∀ a v c, fst (lru_Get a (lru_Add a v c)) = Some v;
  lru_Get_Get : ∀ a b c, fst (lru_Get a (snd (lru_Get b c))) = fst (lru_Get a c);
  lru_Get_Remove : ∀ a c, fst (lru_Get a (lru_Remove a c)) = None
}.

(** The fields of [types.Receipt] and [types.LegacyTx] that the source uses, and a signed
    transaction. *)
Record Receipt := mkReceipt { rc_Status : Z; rc_NumLogs : Z }.
Record LegacyTx := mkLegacyTx {
  lt_To : option Address; lt_Nonce : Z; lt_Value : option Z; lt_Data : bytes; lt_Gas : Z; lt_GasPrice : option Z }.
Record SignedTx := mkSignedTx { stx_Hash : Hash; stx_Tx : LegacyTx }.

(** [ethclient.Client], the bridge contract, the signer and the clock; each call may
    change the world. *)
Class L2Node (W : Type) := {
  NonceAt : Address → M W Z;
  EstimateGas : Address → option Address → option Z → bytes → M W Z;
  SuggestGasPrice : M W Z;
  TransactionReceipt : Hash → M W (option Receipt);
  TransactionByHash : Hash → M W unit;
  SendTransaction : SignedTx → M W unit;
  BridgeIsClaimed : Z → Z → M W bool;
  Signer : Address → LegacyTx → M W SignedTx;
  Now : M W Z
}.

(** ** Error texts *)

(** [strings.ToLower] on ASCII and [strings.Contains]. *)
Definition lowerAscii (a : Ascii.ascii) : Ascii.ascii :=
  let n := Ascii.nat_of_ascii a in
  if ((65 <=? n)%nat && (n <=? 90)%nat)%bool then Ascii.ascii_of_nat (n + 32) else a.
Fixpoint ToLower (s : string) : string :=
  match s with
  | String.EmptyString => ""
  | String.String a s => String.String (lowerAscii a) (ToLower s)
  end.
Definition Contains (s sub : string) : bool :=
  match String.index 0 sub s with Some _ => true | None => false end.

(** [strings.Contains(strings.ToLower(err.Error()), sub)]: the text of an error of the
    node, or of an error that wraps one; the texts of the other errors contain none of
    the strings that are searched. *)
Fixpoint errorContains (err : error) (sub : string) : bool :=
  match err with
  | ErrRPC msg | ErrRPCError msg _ _ | Errorf msg => Contains (ToLower msg) sub
  | Wrapf msg cause => Contains (ToLower msg) sub || errorContains cause sub
  | _ => false
  end.

Definition isNonceError (err : error) : bool :=
  errorContains err "nonce too low" || errorContains err "invalid nonce" || errorContains err "txnonce".
Definition isExecutionReverted (err : error) : bool := errorContains err "execution reverted".

(** ** The state of the manager *)

Record ManState (W C : Type) := mkManState {
  ms_world : W;
  ms_db : DB;
  ms_nonceCache : C
}.
Arguments mkManState {_ _} _ _ _.
Arguments ms_world {_ _} _.
Arguments ms_db {_ _} _.
Arguments ms_nonceCache {_ _} _.

Section Nonces.
Context {W C : Type} `{NonceLru C} `{L2Node W}.

Abbreviation MM := (M (ManState W C)).

Definition at_node {A} (c : M W A) : MM A :=
  zoom ms_world (λ w m, mkManState w (ms_db m) (ms_nonceCache m)) c.
Definition at_db {A} (c : M DB A) : MM A :=
  zoom ms_db (λ db m, mkManState (ms_world m) db (ms_nonceCache m)) c.
Definition at_cache {A} (f : C → A * C) : MM A :=
  zoom ms_nonceCache (λ c m, mkManState (ms_world m) (ms_db m) c) (λ c, let '(a, c) := f c in (Ok a, c)).

(** ** nonce_cache.go *)

Definition GetNextNonce (from : Address) : MM Z :=
  nonce ← at_node (NonceAt from);
  temp ← at_cache (lru_Get from);
  let nonce := match temp with
               | Some tempNonce => if decide (nonce ≤ tempNonce) then u64 (tempNonce + 1) else nonce
               | None => nonce
               end in
  at_cache (λ c, (tt, lru_Add from nonce c));;
  mret nonce.

Definition NonceCache_Remove (from : Address) : MM unit := at_cache (λ c, (tt, lru_Remove from c)).

(** ** utils/client.go *)

Definition CheckTxWasMined (txHash : Hash) : MM (bool * option Receipt) :=
  r ← attempt (at_node (TransactionReceipt txHash));
  match r with
  | inl err => if errors_Is err ErrEthereumNotFound then mret (false, None) else throw err
  | inr receipt => mret (true, receipt)
  end.

Definition IsClaimed (leafIndex sourceBridgeNetwork : Z) : MM bool := at_node (BridgeIsClaimed leafIndex sourceBridgeNetwork).

End Nonces.
