(* ===== verification/MonitorTxs.v ===== *)
(** * The monitor of the claim transactions (claimtxman/monitortxs.go)

    [MonitorTxs] goes over the claim transactions that are not settled: it looks for
    the receipts of what was sent before, settles the transaction when it can, and
    otherwise sends it again.  The database, the nonce cache and the world behind the
    node are the state; log messages are left out. *)
From S2P Require Import Prelude Types Bytes ClaimTypes Schema Storage NonceCache.

Definition maxHistorySize : Z := 10.

(** Go ranges over a map in an order it does not specify. *)
Class MapRange := range_history : gset Hash → list Hash.
Class MapRangeLaws `{MapRange} := range_history_perm : ∀ s, range_history s ≡ₚ elements s.

(** ** Methods of claimtxman/types/monitoredtx.go *)

Definition MonitoredTx_Tx (mTx : MonitoredTx) : LegacyTx :=
  mkLegacyTx (m_To mTx) (m_Nonce mTx) (m_Value mTx) (m_Data mTx) (m_Gas mTx) (m_GasPrice mTx).
Definition AddHistory (tx : SignedTx) (mTx : MonitoredTx) : error + MonitoredTx :=
  if decide (stx_Hash tx ∈ m_History mTx) then inl ErrAlreadyExists
  else inr (set_m_History ({[stx_Hash tx]} ∪ m_History mTx) mTx).
Definition RemoveHistory (tx : SignedTx) (mTx : MonitoredTx) : MonitoredTx :=
  set_m_History (m_History mTx ∖ {[stx_Hash tx]}) mTx.

Section Monitor.
Context {W C : Type} `{NonceLru C} `{L2Node W} `{MapRange}.
Context (RetryNumber rollupID : Z).

Abbreviation MM := (M (ManState W C)).

Definition updateClaimTx (mTx : MonitoredTx) (tx : dbTx) : MM unit :=
  now ← at_node Now;
  at_db (UpdateClaimTx now mTx tx).

Definition commitOrRollback (tx : dbTx) : MM unit :=
  r ← attempt (at_db (Commit tx));
  match r with
  | inr _ => mret tt
  | inl err =>
      rollbackErr ← attempt (at_db (Rollback tx));
      match rollbackErr with
      | inl e => throw e
      | inr _ => throw err
      end
  end.

(** ** checkTxHistory *)

(** TransactionByHash, repeated up to [n] times while it fails. *)
Fixpoint byHash_retry (n : nat) (txHash : Hash) (err : option error) : MM (option error) :=
  match n, err with
  | S n, Some _ =>
      r ← attempt (at_node (TransactionByHash txHash));
      byHash_retry n txHash (match r with inl e => Some e | inr _ => None end)
  | _, _ => mret err
  end.
Definition findInPool (txHash : Hash) : MM (option error) :=
  r ← attempt (at_node (TransactionByHash txHash));
  match r with
  | inr _ => mret None
  | inl err => byHash_retry (Z.to_nat RetryNumber) txHash (Some err)
  end.

(** hasFailedReceipts, allHistoryTxMined, receiptSuccessful. *)
Fixpoint checkTxHistory_loop (hashes : list Hash) (hasFailedReceipts allHistoryTxMined : bool) : MM (bool * bool * bool) :=
  match hashes with
  | [] => mret (hasFailedReceipts, allHistoryTxMined, false)
  | txHash :: hashes =>
      r ← attempt (CheckTxWasMined txHash);
      match r with
      | inl _ => checkTxHistory_loop hashes hasFailedReceipts false
      | inr (true, Some receipt) =>
          if decide (rc_Status receipt = ReceiptStatusSuccessful)
          then mret (hasFailedReceipts, allHistoryTxMined, true)
          else checkTxHistory_loop hashes true allHistoryTxMined
      | inr _ =>
          err ← findInPool txHash;
          match err with
          | Some e => checkTxHistory_loop hashes (if errors_Is e ErrEthereumNotFound then true else hasFailedReceipts) false
          | None => checkTxHistory_loop hashes hasFailedReceipts false
          end
      end
  end.
Definition checkTxHistory (mTx : MonitoredTx) : MM (bool * bool * bool) :=
  checkTxHistory_loop (range_history (m_History mTx)) false true.

(** ** ReviewMonitoredTx *)

Fixpoint estimateGas_retry (n : nat) (mTx : MonitoredTx) (r : error + Z) : MM (error + Z) :=
  match n, r with
  | S n, inl err =>
      if isExecutionReverted err then mret r else
      r ← attempt (at_node (EstimateGas (m_From mTx) (m_To mTx) (m_Value mTx) (m_Data mTx)));
      estimateGas_retry n mTx r
  | _, _ => mret r
  end.

(** The transaction as it is left, and the error. *)
Definition ReviewMonitoredTx (mTx : MonitoredTx) (reviewNonce : bool) : MM (MonitoredTx * option error) :=
  r ← attempt (at_node (EstimateGas (m_From mTx) (m_To mTx) (m_Value mTx) (m_Data mTx)));
  r ← estimateGas_retry (Z.to_nat (RetryNumber - 1)) mTx r;
  match r with
  | inl err => mret (mTx, Some (Wrapf "failed to estimate gas. Error: %w, Data: %s" err))
  | inr gas =>
      let mTx := if decide (m_Gas mTx < gas) then set_m_Gas gas mTx else mTx in
      if reviewNonce then
        nonce ← attempt (GetNextNonce (m_From mTx));
        match nonce with
        | inl err => mret (mTx, Some err)
        | inr nonce => mret (if decide (m_Nonce mTx < nonce) then set_m_Nonce nonce mTx else mTx, None)
        end
      else mret (mTx, None)
  end.

Definition checkIfClaimed (mTx : MonitoredTx) (tx : dbTx) : MM unit :=
  deposit ← at_db (GetDepositByDepositID (m_DepositID mTx) tx);
  isClaimed ← IsClaimed (d_DepositCount deposit) (d_NetworkID deposit);
  updateClaimTx (set_m_Status (if isClaimed : bool then MonitoredTxStatusConfirmed else MonitoredTxStatusFailed) mTx) tx.

(** ** MonitorTxs *)

(** A review failed: a reverted transaction is settled. *)
Definition reviewFailed (mTx : MonitoredTx) (err : error) (tx : dbTx) : MM unit :=
  (if isExecutionReverted err then _ ← attempt (checkIfClaimed mTx tx); mret tt else mret tt);;
  commitOrRollback tx.

(** The last statements of the body: the transaction is stored whatever became of it. *)
Definition storeMonitoredTx (mTx : MonitoredTx) (tx : dbTx) : MM unit :=
  _ ← attempt (updateClaimTx mTx tx);
  commitOrRollback tx.

(** Set the gas price, sign, and send unless the network has it.  A failure to send
    takes the hash out of the history again.  (The variable isResetNonce is false
    whenever it is read.) *)
Definition sendMonitoredTx (mTx : MonitoredTx) (tx : dbTx) : MM unit :=
  r ← attempt (at_node SuggestGasPrice);
  match r with
  | inl _ => commitOrRollback tx
  | inr gasPrice =>
      let mTx := set_m_GasPrice (Some (gasPrice * 10)) mTx in
      r ← attempt (at_node (Signer (m_From mTx) (MonitoredTx_Tx mTx)));
      match r with
      | inl _ => commitOrRollback tx
      | inr signedTx =>
          let mTx := match AddHistory signedTx mTx with inl _ => mTx | inr mTx => mTx end in
          r ← attempt (at_node (TransactionByHash (stx_Hash signedTx)));
          match r with
          | inl err =>
              if errors_Is err ErrEthereumNotFound then
                r ← attempt (at_node (SendTransaction signedTx));
                match r with
                | inl err =>
                    let reviewNonce := isNonceError err in
                    (if reviewNonce then NonceCache_Remove (m_From mTx) else mret tt);;
                    r ← ReviewMonitoredTx (RemoveHistory signedTx mTx) reviewNonce;
                    match r with
                    | (mTx, Some err) => reviewFailed mTx err tx
                    | (mTx, None) => storeMonitoredTx mTx tx
                    end
                | inr _ => storeMonitoredTx mTx tx
                end
              else storeMonitoredTx mTx tx
          | inr _ => storeMonitoredTx mTx tx
          end
      end
  end.

(** The body of the loop. *)
Definition monitorTx (mTx : MonitoredTx) : MM unit :=
  tx ← at_db BeginDBTransaction;
  '(hasFailedReceipts, allHistoryTxMined, receiptSuccessful) ← checkTxHistory mTx;
  if receiptSuccessful : bool then storeMonitoredTx (set_m_Status MonitoredTxStatusConfirmed mTx) tx else
  if (allHistoryTxMined : bool) && bool_decide (maxHistorySize ≤ Z.of_nat (size (m_History mTx)))
  then storeMonitoredTx (set_m_Status MonitoredTxStatusFailed mTx) tx else
  if allHistoryTxMined : bool then
    r ← (if hasFailedReceipts : bool then ReviewMonitoredTx mTx true else mret (mTx, None));
    match r with
    | (mTx, Some err) => reviewFailed mTx err tx
    | (mTx, None) => sendMonitoredTx mTx tx
    end
  else commitOrRollback tx.

Definition MonitorTxs : MM unit :=
  tx ← at_db BeginDBTransaction;
  r ← attempt (at_db (GetClaimTxsByStatus [MonitoredTxStatusCreated] rollupID tx));
  match r with
  | inl err =>
      rollbackErr ← attempt (at_db (Rollback tx));
      match rollbackErr with
      | inl e => throw e
      | inr _ => throw (Errorf "rollupID: %d, failed to get created monitored txs: %v")
      end
  | inr mTxs =>
      commitOrRollback tx;;
      forM_ mTxs monitorTx
  end.

End Monitor.
