(* ===== verification/MonitorFacts.v ===== *)
(** * What the monitor may change

    Whatever the node answers and whichever calls of the database fail, the body of the
    monitor's loop commits nothing or one edit of its own row. *)
From S2P Require Import Prelude Types Bytes ClaimTypes Schema Storage Invariants StorageFacts.
From S2P Require Import NonceCache MonitorTxs.

(** ** Edits of a claim transaction *)

(** Nonce and gas do not decrease; the status stays or is settled; the history grows to
    at most [maxHistorySize] entries; the rest is kept. *)
Inductive edited (m : MonitoredTx) : MonitoredTx → Prop :=
| Edited nonce gas gp st hist upd :
    m_Nonce m ≤ nonce → m_Gas m ≤ gas →
    st = m_Status m ∨ st = MonitoredTxStatusConfirmed ∨ st = MonitoredTxStatusFailed →
    hist = m_History m ∨ Z.of_nat (size hist) ≤ maxHistorySize →
    edited m (mkMonitoredTx (m_DepositID m) (m_From m) (m_To m) nonce (m_Value m) (m_Data m) gas gp st hist
                (m_CreatedAt m) upd (m_GroupID m) (m_GlobalExitRoot m)).

Lemma edited_refl m : edited m m.
Proof. destruct m. apply (Edited (mkMonitoredTx _ _ _ _ _ _ _ _ _ _ _ _ _ _)); cbn; auto; lia. Qed.
Lemma edited_Status m m' st :
  edited m m' → st = MonitoredTxStatusConfirmed ∨ st = MonitoredTxStatusFailed → edited m (set_m_Status st m').
Proof. intros [] Hst. unfold set_m_Status. cbn. constructor; auto. Qed.
Lemma edited_Gas m m' g : edited m m' → m_Gas m' < g → edited m (set_m_Gas g m').
Proof. intros [] Hg. unfold set_m_Gas. cbn in *. constructor; auto. lia. Qed.
Lemma edited_Nonce m m' n : edited m m' → m_Nonce m' < n → edited m (set_m_Nonce n m').
Proof. intros [] Hn. unfold set_m_Nonce. cbn in *. constructor; auto. lia. Qed.
Lemma edited_GasPrice m m' p : edited m m' → edited m (set_m_GasPrice p m').
Proof. intros []. unfold set_m_GasPrice. cbn. by constructor. Qed.
Lemma edited_History m m' h : edited m m' → Z.of_nat (size h) ≤ maxHistorySize → edited m (set_m_History h m').
Proof. intros [] Hh. unfold set_m_History. cbn. constructor; auto. Qed.

(** The row that [UpdateClaimTx] writes. *)
Definition claim_row_update (now : Z) (mTx r : MonitoredTx) : MonitoredTx :=
  if decide (m_DepositID r = m_DepositID mTx) then
    mkMonitoredTx (m_DepositID r) (m_From mTx) (m_To mTx) (m_Nonce mTx) (m_Value mTx) (m_Data mTx)
      (m_Gas mTx) None (m_Status mTx) (m_History mTx) (m_CreatedAt r) now (m_GroupID mTx) (m_GlobalExitRoot r)
  else r.
Definition claim_update (now : Z) (mTx : MonitoredTx) (t : Tables) : Tables :=
  on_monitored_txs (fmap (claim_row_update now mTx)) t.

Section Edits.
Context {W C : Type} `{NonceLru C} `{L2Node W} `{MapRange}.
Context (RetryNumber : Z) (c0 : Tables) (m0 : MonitoredTx).

Abbreviation MS := (ManState W C).

(** Nothing is written yet; at most one edit is pending; at most one is committed. *)
Definition unwritten (y : MS) : Prop :=
  db_committed (ms_db y) = c0 ∧ ∀ t, db_tx (ms_db y) = Some (TxActive t) → t = c0.
Definition one_pending (y : MS) : Prop :=
  db_committed (ms_db y) = c0 ∧
  ∀ t, db_tx (ms_db y) = Some (TxActive t) → t = c0 ∨ ∃ now m, edited m0 m ∧ t = claim_update now m c0.
Definition one_committed (y : MS) : Prop :=
  db_committed (ms_db y) = c0 ∨ ∃ now m, edited m0 m ∧ db_committed (ms_db y) = claim_update now m c0.

Lemma unwritten_pending y : unwritten y → one_pending y.
Proof. intros [? Ht]. split; [done|]. intros t E. left. by apply Ht. Qed.
Lemma pending_committed y : one_pending y → one_committed y.
Proof. intros [? _]. by left. Qed.
Lemma unwritten_committed y : unwritten y → one_committed y.
Proof. intros [? _]. by left. Qed.
Hint Resolve unwritten_pending pending_committed unwritten_committed : bridge.

(** Calls that do not touch the database. *)
Lemma keeps_at_node {A} (c : M W A) : keeps unwritten (at_node c).
Proof. intros y Hy. unfold at_node, zoom. by destruct (c (ms_world y)). Qed.
Lemma keeps_at_cache {A} (f : C → A * C) : keeps unwritten (at_cache (W := W) f).
Proof. intros y Hy. unfold at_cache, zoom. by destruct (f (ms_nonceCache y)). Qed.
Hint Resolve keeps_at_node keeps_at_cache : bridge.

Lemma keeps_GetNextNonce a : keeps unwritten (GetNextNonce a).
Proof. unfold GetNextNonce. keeps_auto. Qed.
Lemma keeps_CheckTxWasMined h : keeps unwritten (CheckTxWasMined h).
Proof. unfold CheckTxWasMined. keeps_auto. Qed.
Hint Resolve keeps_GetNextNonce keeps_CheckTxWasMined : bridge.
Lemma keeps_byHash_retry n h e : keeps unwritten (byHash_retry n h e).
Proof. revert e. induction n as [|n IH]; intros [e|]; cbn [byHash_retry]; keeps_auto. Qed.
Hint Resolve keeps_byHash_retry : bridge.
Lemma keeps_findInPool h : keeps unwritten (findInPool RetryNumber h).
Proof. unfold findInPool. keeps_auto. Qed.
Hint Resolve keeps_findInPool : bridge.
Lemma keeps_checkTxHistory m : keeps unwritten (checkTxHistory RetryNumber m).
Proof.
  unfold checkTxHistory. generalize false, true. induction (range_history (m_History m)) as [|h hs IH]; intros b1 b2;
    cbn [checkTxHistory_loop]; keeps_auto.
Qed.
Lemma keeps_estimateGas_retry n m r : keeps unwritten (estimateGas_retry n m r).
Proof. revert r. induction n as [|n IH]; intros [e|g]; cbn [estimateGas_retry]; keeps_auto. Qed.
Hint Resolve keeps_checkTxHistory keeps_estimateGas_retry : bridge.

(** Queries of the transaction. *)
Lemma keeps_at_db_query {A} (f : Tables → A) : keeps unwritten (at_db (run InTx (sql_query f))).
Proof.
  intros y [Hc Ht]. unfold at_db, zoom, run. destruct (next_fault (ms_db y)) as [b db1] eqn:E.
  apply next_fault_parts in E as (E1 & E2 & _).
  destruct b; cbn; [|destruct (db_tx db1) as [[t|]|] eqn:E3]; cbn; split; cbn; try congruence.
  - intros t. destruct (db_tx db1) as [[|]|]; cbn; congruence.
  - intros t' [= <-]. apply Ht. congruence.
Qed.
Hint Resolve keeps_at_db_query : bridge.

Lemma at_db_bind {A B} (c : M DB A) (f : A → M DB B) y :
  at_db (C := C) (W := W) (c ≫= f) y = (at_db c ≫= λ a, at_db (f a)) y.
Proof.
  unfold at_db, zoom, mbind, M_bind. destruct (c (ms_db y)) as [[a|e| |] db]; cbn; done.
Qed.

Lemma keeps_GetDepositByDepositID i : keeps unwritten (at_db (GetDepositByDepositID i InTx)).
Proof.
  intros y Hy. unfold GetDepositByDepositID. rewrite at_db_bind. revert y Hy.
  apply (keeps_bind unwritten); [auto with bridge|]. intros [[d b]|] y Hy; unfold at_db, zoom; cbn; by destruct y.
Qed.
Hint Resolve keeps_GetDepositByDepositID : bridge.

Lemma hoare_Begin :
  hoare (λ y, db_committed (ms_db y) = c0) (at_db BeginDBTransaction) (λ tx y, tx = InTx ∧ unwritten y)
    (λ y, db_committed (ms_db y) = c0).
Proof.
  intros y Hy. unfold at_db, zoom, BeginDBTransaction. destruct (next_fault (ms_db y)) as [b db1] eqn:E.
  apply next_fault_parts in E as (E1 & E2 & _). destruct b; cbn.
  - congruence.
  - split; [done|]. split; cbn; [congruence|]. intros t [= <-]. congruence.
Qed.

Lemma hoare_updateClaimTx m :
  edited m0 m → hoare unwritten (attempt (updateClaimTx m InTx)) (λ _, one_pending) one_committed.
Proof.
  intros Hm. apply hoare_attempt. intros y Hy. unfold updateClaimTx.
  pose proof (keeps_at_node Now y Hy) as Hn. unfold mbind, M_bind.
  destruct (at_node Now y) as [[now|e| |] y1]; cbn in Hn; auto with bridge.
  destruct Hn as [Hc Ht]. unfold at_db, zoom, UpdateClaimTx, run.
  destruct (next_fault (ms_db y1)) as [b db1] eqn:E. apply next_fault_parts in E as (E1 & E2 & _).
  destruct b; cbn; [|destruct (db_tx db1) as [[t|]|] eqn:E3]; cbn; split; cbn; try congruence.
  - intros t. destruct (db_tx db1) as [[|]|]; cbn; congruence.
  - intros t' [= <-]. right. exists now, m. split; [done|]. rewrite (Ht t) by congruence. reflexivity.
Qed.

(** A commit leaves the committed or the pending tables. *)
Lemma hoare_commit (P : Tables → Prop) :
  hoare (λ y : MS, P (db_committed (ms_db y)) ∧ ∀ t, db_tx (ms_db y) = Some (TxActive t) → P t)
    (commitOrRollback InTx) (λ _ y, P (db_committed (ms_db y))) (λ y, P (db_committed (ms_db y))).
Proof.
  apply hoare_bind with (λ _ y, P (db_committed (ms_db y))).
  - apply hoare_attempt. intros y [Hc Ht]. unfold at_db, zoom, Commit.
    destruct (next_fault (ms_db y)) as [b db1] eqn:E. apply next_fault_parts in E as (E1 & E2 & _).
    rewrite <- E1 in Hc. rewrite <- E2 in Ht. destruct (db_tx db1) as [[t|]|]; [destruct b|..]; cbn; auto.
  - intros [e|u]; [|by apply hoare_ret].
    apply hoare_bind with (λ _ y, P (db_committed (ms_db y))).
    + apply hoare_attempt. intros y Hy. unfold at_db, zoom, Rollback.
      destruct (next_fault (ms_db y)) as [b db1] eqn:E. apply next_fault_parts in E as (E1 & E2 & _).
      rewrite <- E1 in Hy. by destruct (db_tx db1), b.
    + intros [e'|u]; by apply hoare_throw.
Qed.

Lemma hoare_commitOrRollback : hoare one_pending (commitOrRollback InTx) (λ _, one_committed) one_committed.
Proof.
  eapply hoare_conseq; [apply (hoare_commit (λ t, t = c0 ∨ ∃ now m, edited m0 m ∧ t = claim_update now m c0))| |done].
  intros y [Hc Ht]. split; [by left|done].
Qed.

Lemma hoare_storeMonitoredTx m :
  edited m0 m → hoare unwritten (storeMonitoredTx m InTx) (λ _, one_committed) one_committed.
Proof.
  intros Hm. apply hoare_bind with (λ _, one_pending); [by apply hoare_updateClaimTx|].
  intros _. apply hoare_commitOrRollback.
Qed.

Lemma hoare_unwritten {A} (c : M MS A) : keeps unwritten c → hoare unwritten c (λ _, unwritten) one_committed.
Proof. intros Hc. apply hoare_keeps; auto with bridge. Qed.

Lemma hoare_checkIfClaimed m :
  edited m0 m → hoare unwritten (attempt (checkIfClaimed m InTx)) (λ _, one_pending) one_committed.
Proof.
  intros Hm. apply hoare_attempt. intros y Hy. unfold checkIfClaimed.
  pose proof (keeps_GetDepositByDepositID (m_DepositID m) y Hy) as Hk1. unfold mbind at 1, M_bind at 1.
  destruct (at_db _ y) as [[d|e| |] y1]; cbn in Hk1; auto with bridge.
  pose proof (keeps_at_node (BridgeIsClaimed (d_DepositCount d) (d_NetworkID d)) y1 Hk1) as Hk2.
  unfold mbind at 1, M_bind at 1, IsClaimed.
  destruct (at_node _ y1) as [[b|e| |] y2]; cbn in Hk2; auto with bridge.
  pose proof (hoare_updateClaimTx (set_m_Status (if b then MonitoredTxStatusConfirmed else MonitoredTxStatusFailed) m)) as Hu.
  specialize (Hu ltac:(apply edited_Status; [done|destruct b; auto]) y2 Hk2). unfold attempt in Hu.
  by destruct (updateClaimTx _ InTx y2) as [[] ?].
Qed.

Lemma hoare_reviewFailed m e :
  edited m0 m → hoare unwritten (reviewFailed m e InTx) (λ _, one_committed) one_committed.
Proof.
  intros Hm. apply hoare_bind with (λ _, one_pending); [|intros _; apply hoare_commitOrRollback].
  destruct (isExecutionReverted e); [|apply hoare_ret; auto with bridge].
  apply hoare_bind with (λ _, one_pending); [by apply hoare_checkIfClaimed|].
  intros _. by apply hoare_ret.
Qed.

Lemma hoare_Review m b :
  edited m0 m → hoare unwritten (ReviewMonitoredTx RetryNumber m b) (λ r y, (edited m0 r.1 ∧ m_History r.1 = m_History m) ∧ unwritten y) one_committed.
Proof.
  intros Hm. unfold ReviewMonitoredTx.
  eapply hoare_bind; [apply hoare_unwritten; keeps_auto|]. intros r.
  eapply hoare_bind; [apply hoare_unwritten; keeps_auto|]. intros [e|gas]; [by apply hoare_ret|].
  assert (edited m0 (if decide (m_Gas m < gas) then set_m_Gas gas m else m) ∧
          m_History (if decide (m_Gas m < gas) then set_m_Gas gas m else m) = m_History m) as Hm1.
  { case_decide; [|done]. split; [by apply edited_Gas|done]. }
  revert Hm1. generalize (if decide (m_Gas m < gas) then set_m_Gas gas m else m). intros m1 [Hm1 Hh1].
  destruct b; [|by apply hoare_ret].
  eapply hoare_bind; [apply hoare_unwritten; keeps_auto|]. intros [e|nonce]; apply hoare_ret; [done|].
  intros y Hy. split; [|done]. cbn [fst]. case_decide; [|done]. split; [by apply edited_Nonce|done].
Qed.

Lemma hoare_send m :
  edited m0 m → Z.of_nat (size (m_History m)) < maxHistorySize →
  hoare unwritten (sendMonitoredTx RetryNumber m InTx) (λ _, one_committed) one_committed.
Proof.
  intros Hm Hsz. unfold sendMonitoredTx.
  eapply hoare_bind; [apply hoare_unwritten; keeps_auto|].
  intros [e|price]; [eapply hoare_conseq; [apply hoare_commitOrRollback|auto with bridge|done]|].
  eapply hoare_bind; [apply hoare_unwritten; keeps_auto|].
  intros [e|stx]; [eapply hoare_conseq; [apply hoare_commitOrRollback|auto with bridge|done]|].
  set (m1 := set_m_GasPrice (Some (price * 10)) m).
  set (m2 := match AddHistory stx m1 with inl _ => m1 | inr m' => m' end).
  assert (edited m0 m2 ∧ Z.of_nat (size (m_History m2)) ≤ maxHistorySize) as [Hm2 Hsz2].
  { assert (edited m0 m1) by (by apply edited_GasPrice). unfold m2, AddHistory.
    case_decide as Hin; [split; [done|]; cbn; lia|].
    assert (Z.of_nat (size ({[stx_Hash stx]} ∪ m_History m1)) ≤ maxHistorySize) as Hs.
    { rewrite size_union, size_singleton by set_solver. cbn. lia. }
    split; [by apply edited_History|done]. }
  assert (edited m0 (RemoveHistory stx m2)) as Hm3.
  { apply edited_History; [done|]. assert (size (m_History m2 ∖ {[stx_Hash stx]}) ≤ size (m_History m2))%nat; [|lia].
    apply subseteq_size. set_solver. }
  clearbody m2. cbn zeta.
  eapply hoare_bind; [apply hoare_unwritten; keeps_auto|]. intros [e|u]; [|by apply hoare_storeMonitoredTx].
  destruct (errors_Is e ErrEthereumNotFound); [|by apply hoare_storeMonitoredTx].
  eapply hoare_bind; [apply hoare_unwritten; keeps_auto|]. intros [e'|u]; [|by apply hoare_storeMonitoredTx].
  eapply hoare_bind; [apply hoare_unwritten; unfold NonceCache_Remove; keeps_auto|]. intros ?.
  eapply hoare_bind; [by apply hoare_Review|]. intros [m4 [err|]]; apply hoare_pure; intros [Hm4 _].
  - by apply hoare_reviewFailed.
  - by apply hoare_storeMonitoredTx.
Qed.

Lemma hoare_monitorTx :
  hoare (λ y, db_committed (ms_db y) = c0) (monitorTx RetryNumber m0) (λ _, one_committed) one_committed.
Proof.
  pose proof (edited_refl m0) as Hm. unfold monitorTx.
  eapply hoare_bind; [eapply hoare_weaken; [apply hoare_Begin|intros y Hy; by left]|]. intros tx. apply hoare_pure. intros ->.
  eapply hoare_bind; [apply hoare_unwritten; keeps_auto|]. intros [[failed mined] successful].
  destruct successful; [apply hoare_storeMonitoredTx, edited_Status; auto|].
  destruct mined; cbn [andb]; [|eapply hoare_conseq; [apply hoare_commitOrRollback|auto with bridge|done]].
  case_bool_decide; [apply hoare_storeMonitoredTx, edited_Status; auto|].
  apply hoare_bind with (λ r y, (edited m0 r.1 ∧ m_History r.1 = m_History m0) ∧ unwritten y).
  { destruct failed; [by apply hoare_Review|by apply hoare_ret]. }
  intros [m [err|]]; apply hoare_pure; cbn [fst]; intros [Hm1 Hh].
  - by apply hoare_reviewFailed.
  - apply hoare_send; [done|]. rewrite Hh. lia.
Qed.

End Edits.
