(* ===== verification/MonitorTheorems.v ===== *)
(** * The theorems of the claim transaction monitor

    What a pass may change, when a claim transaction is confirmed, when it is sent
    again, and the nonces it gets. *)
From S2P Require Import Prelude Types Bytes ClaimTypes Schema Storage Invariants StorageFacts.
From S2P Require Import NonceCache MonitorTxs MonitorFacts.

Section Pass.
Context (c0 : Tables).
Hypothesis Hkey : NoDup (m_DepositID <$> t_monitored_txs c0).

(** The rows of the deposits [D] are edited, the others are as they were. *)
Definition pass_inv (D : list Z) (t : Tables) : Prop :=
  ∃ rows, t = on_monitored_txs (λ _, rows) c0 ∧
    Forall2 (λ m m', m' = m ∨ (m_DepositID m ∈ D ∧ m_Status m = MonitoredTxStatusCreated ∧ edited m m'))
      (t_monitored_txs c0) rows.

Lemma pass_inv_start : pass_inv [] c0.
Proof.
  exists (t_monitored_txs c0). split; [by destruct c0|]. apply Forall_Forall2_diag, Forall_true. by left.
Qed.

Lemma edited_DepositID m m' : edited m m' → m_DepositID m' = m_DepositID m.
Proof. by intros []. Qed.

Lemma edited_write now m m' : edited m m' → edited m (claim_row_update now m' m).
Proof.
  intros He. unfold claim_row_update. rewrite (edited_DepositID _ _ He), decide_True by done.
  destruct He. cbn. by constructor.
Qed.

Lemma pass_inv_step D t now m m' :
  pass_inv D t → m ∈ t_monitored_txs c0 → m_Status m = MonitoredTxStatusCreated → m_DepositID m ∉ D → edited m m' →
  pass_inv (m_DepositID m :: D) (claim_update now m' t).
Proof.
  intros (rows & -> & Hrows) Hm Hst HD He. exists (claim_row_update now m' <$> rows). split; [done|].
  assert (∀ r, r ∈ t_monitored_txs c0 → m_DepositID r = m_DepositID m → r = m) as Huniq.
  { intros r (i & Hi)%list_elem_of_lookup E. apply list_elem_of_lookup in Hm as (j & Hj).
    assert (i = j) as ->; [|congruence].
    apply (NoDup_lookup _ _ _ (m_DepositID m) Hkey); rewrite list_lookup_fmap; [by rewrite Hi, <- E|by rewrite Hj]. }
  revert Hrows Huniq. generalize (t_monitored_txs c0) as l. intros l Hrows.
  induction Hrows as [|r r' l rows Hr Hrows IH]; intros Huniq; constructor.
  - assert (m_DepositID r' = m_DepositID r) as Eid.
    { destruct Hr as [-> |(_ & _ & Hr)]; [done|]. by apply edited_DepositID. }
    destruct (decide (m_DepositID r = m_DepositID m)) as [E|E].
    + assert (r = m) as -> by (apply Huniq; [left|done]).
      destruct Hr as [-> |(? & _)]; [|done]. right. split; [left|]. split; [done|]. by apply edited_write.
    + assert (claim_row_update now m' r' = r') as ->.
      { unfold claim_row_update. rewrite decide_False; [done|]. rewrite (edited_DepositID _ _ He). congruence. }
      destruct Hr as [-> |(? & ? & ?)]; [by left|]. right. split; [by right|done].
  - apply IH. intros r0 Hr0. apply Huniq. by right.
Qed.

(** The transactions that a pass fetches. *)
Definition fetched (rollupID : Z) : list MonitoredTx :=
  sort_by m_CreatedAt
    (m ← filter (λ m, m_Status m ∈ [MonitoredTxStatusCreated]) (t_monitored_txs c0);
     d ← filter (λ d, dr_id d = m_DepositID m ∧ dr_dest_net d = rollupID) (t_deposit c0);
     [m]).

Lemma fetched_elem rollupID m :
  m ∈ fetched rollupID → m ∈ t_monitored_txs c0 ∧ m_Status m = MonitoredTxStatusCreated.
Proof.
  unfold fetched. rewrite sort_by_elem. intros (x & Hx & [Hst Hm]%list_elem_of_filter)%list_elem_of_bind.
  apply list_elem_of_bind in Hx as (d & Hd & _). apply list_elem_of_singleton in Hd as ->.
  split; [done|]. by apply list_elem_of_singleton in Hst.
Qed.

Lemma fetched_nodup rollupID : NoDup (dr_id <$> t_deposit c0) → NoDup (m_DepositID <$> fetched rollupID).
Proof.
  intros Hd. unfold fetched. rewrite sort_by_perm.
  assert (∀ m, length (filter (λ d, dr_id d = m_DepositID m ∧ dr_dest_net d = rollupID) (t_deposit c0)) ≤ 1)%nat as Hone.
  { intros m. revert Hd. induction (t_deposit c0) as [|d l IH]; [simpl; lia|]. rewrite fmap_cons. intros [Hn Hl]%NoDup_cons.
    rewrite filter_cons. case_decide as Hp; [|by apply IH]. cbn [length].
    assert (filter (λ d, dr_id d = m_DepositID m ∧ dr_dest_net d = rollupID) l = []) as ->; [|done].
    apply elem_of_nil_inv. intros x [[Ex _] Hx]%list_elem_of_filter. apply Hn.
    rewrite (proj1 Hp), <- Ex. by apply list_elem_of_fmap_2. }
  revert Hkey. induction (t_monitored_txs c0) as [|m l IH]; [by constructor|].
  rewrite fmap_cons. intros [Hn Hl]%NoDup_cons. rewrite filter_cons. case_decide; [|by apply IH].
  cbn [mbind list_bind]. rewrite fmap_app. specialize (Hone m). specialize (IH Hl).
  destruct (filter (λ d, dr_id d = m_DepositID m ∧ dr_dest_net d = rollupID) (t_deposit c0)) as [|d [|? ?]]; cbn in *;
    [done| |lia].
  apply NoDup_cons. split; [|done]. intros (x & Ex & Hx)%list_elem_of_fmap. apply Hn. rewrite Ex.
  apply list_elem_of_fmap_2. apply list_elem_of_bind in Hx as (y & Hy & [_ Hl2]%list_elem_of_filter).
  apply list_elem_of_bind in Hy as (? & ->%list_elem_of_singleton & _). done.
Qed.

Section Monitor.
Context {W C : Type} `{NonceLru C} `{L2Node W} `{MapRange}.
Context (RetryNumber rollupID : Z).
Abbreviation MS := (ManState W C).

Lemma monitor_loop (l : list MonitoredTx) : ∀ D (y : MS),
  (∀ m, m ∈ l → m ∈ t_monitored_txs c0 ∧ m_Status m = MonitoredTxStatusCreated) →
  NoDup (m_DepositID <$> l) → (∀ m, m ∈ l → m_DepositID m ∉ D) → pass_inv D (db_committed (ms_db y)) →
  ∃ D', pass_inv D' (db_committed (ms_db (snd (forM_ l (monitorTx RetryNumber) y)))).
Proof.
  induction l as [|m l IH]; intros D y Hl Hnd HD Hinv; [by exists D|].
  rewrite fmap_cons in Hnd. apply NoDup_cons in Hnd as [Hm Hnd].
  destruct (Hl m) as [Hin Hst]; [left|].
  assert (∃ D', D' = m_DepositID m :: D ∧ pass_inv D' (db_committed (ms_db (snd (monitorTx RetryNumber m y)))))
    as (D' & -> & Hinv').
  { eexists. split; [done|].
    pose proof (hoare_monitorTx RetryNumber (db_committed (ms_db y)) m y eq_refl) as Hh.
    assert (one_committed (db_committed (ms_db y)) m (snd (monitorTx RetryNumber m y))) as [-> |(now & m' & He & ->)].
    { by destruct (monitorTx RetryNumber m y) as [[] ?]. }
    - destruct Hinv as (rows & E & Hrows). exists rows. split; [done|].
      eapply Forall2_impl; [apply Hrows|]. intros r r' [->|(? & ?)]; [by left|right]. split; [by right|done].
    - apply pass_inv_step; [done..|apply HD; left|done]. }
  cbn [forM_]. unfold mbind, M_bind. destruct (monitorTx RetryNumber m y) as [[u|e| |] y1]; cbn [snd] in *;
    [|by eexists..].
  eapply IH; [|done| |done].
  - intros x Hx. apply Hl. by right.
  - intros x Hx [E|E]%elem_of_cons; [|by eapply (HD x); [right|]]. apply Hm. rewrite <- E. by apply list_elem_of_fmap_2.
Qed.

Lemma hoare_query {A} (f : Tables → A) :
  hoare (unwritten c0) (attempt (at_db (run InTx (sql_query f))))
    (λ r y, match r with inr a => a = f c0 | inl _ => True end ∧ unwritten (W := W) (C := C) c0 y)
    (λ y, db_committed (ms_db y) = c0).
Proof.
  apply hoare_attempt. intros y Hy. pose proof (keeps_at_db_query c0 f y Hy) as Hk. destruct Hy as [Hc Ht].
  unfold at_db, zoom, run in *. destruct (next_fault (ms_db y)) as [b db1] eqn:E.
  apply next_fault_parts in E as (E1 & E2 & _). destruct b; [done|].
  destruct (db_tx db1) as [[t|]|] eqn:E3; cbn in *; [|done..]. split; [|done]. by rewrite (Ht t) by congruence.
Qed.

End Monitor.

End Pass.

(** C24: whatever the node answers and whichever calls of the database fail, a pass of
    the monitor changes only rows of transactions in the status created: deposit, sender,
    receiver, value, data, group and exit root are kept, nonce and gas do not decrease,
    the status stays or becomes confirmed or failed, and the history has at most ten
    entries unless it is the one it was.  A settled transaction is never touched again. *)
Theorem MonitorTxs_edits {W C : Type} `{NonceLru C} `{L2Node W} `{MapRange} (RetryNumber rollupID : Z)
    (y y' : ManState W C) (r : result unit) :
  NoDup (m_DepositID <$> t_monitored_txs (db_committed (ms_db y))) →
  NoDup (dr_id <$> t_deposit (db_committed (ms_db y))) →
  MonitorTxs RetryNumber rollupID y = (r, y') →
  ∃ rows, db_committed (ms_db y') = on_monitored_txs (λ _, rows) (db_committed (ms_db y)) ∧
    Forall2 (λ m m', m' = m ∨ (m_Status m = MonitoredTxStatusCreated ∧ edited m m'))
      (t_monitored_txs (db_committed (ms_db y))) rows.
Proof.
  intros Hkey Hdep E. set (c0 := db_committed (ms_db y)) in *.
  set (Fin := λ y1 : ManState W C, ∃ D, pass_inv c0 D (db_committed (ms_db y1))).
  assert (∀ y1 : ManState W C, db_committed (ms_db y1) = c0 → Fin y1) as Hc0.
  { intros y1 E1. exists []. rewrite E1. by apply pass_inv_start. }
  assert (hoare (λ y, db_committed (ms_db y) = c0) (MonitorTxs RetryNumber rollupID) (λ _, Fin) Fin) as Hh.
  { unfold MonitorTxs. eapply hoare_bind; [eapply hoare_weaken; [apply hoare_Begin|done]|].
    intros tx. apply hoare_pure. intros ->.
    eapply hoare_bind; [eapply hoare_weaken; [apply (hoare_query c0)|done]|].
    intros [e|l]; apply hoare_pure.
    - intros _. apply hoare_bind with (λ _ y, db_committed (ms_db y) = c0).
      + apply hoare_attempt. intros y1 [Hy1 _]. unfold at_db, zoom.
        assert (isolated c0 false (ms_db y1)) as Hi by done.
        destruct (keeps_Rollback c0 false InTx (ms_db y1) Hi) as [Hk _].
        destruct (Rollback InTx (ms_db y1)) as [[] ?]; cbn in *; auto.
      + intros [e'|u]; by apply hoare_throw.
    - intros ->. apply hoare_bind with (λ _ y, db_committed (ms_db y) = c0).
      + eapply hoare_weaken; [apply (hoare_commit (λ t, t = c0))|done].
      + intros _ y1 Hy1.
        destruct (monitor_loop c0 Hkey RetryNumber (fetched c0 rollupID) [] y1) as (D & HD).
        { intros m Hm. by apply (fetched_elem c0 rollupID). }
        { by apply fetched_nodup. }
        { intros m _. apply not_elem_of_nil. }
        { rewrite Hy1. by apply pass_inv_start. }
        unfold fetched in HD. unfold Fin. destruct (forM_ _ _ y1) as [[] ?]; by exists D. }
  specialize (Hh y eq_refl). rewrite E in Hh.
  assert (Fin y') as (D & rows & Erows & Hrows) by (by destruct r).
  exists rows. split; [done|]. eapply Forall2_impl; [apply Hrows|]. intros m m' [->|(_ & ?)]; auto.
Qed.

(** ** The decisions of the monitor *)

(** A node whose answers do not change meanwhile: the receipts, the pool, the clock. *)
Record node_answers {W} `{L2Node W} (receipt : Hash → option Receipt) (pool : Hash → bool) (now : Z) : Prop := {
  na_receipt : ∀ h w, TransactionReceipt h w =
    (match receipt h with Some rc => Ok (Some rc) | None => Err ErrEthereumNotFound end, w);
  na_pool : ∀ h w, TransactionByHash h w = (if pool h then Ok tt else Err ErrEthereumNotFound, w);
  na_now : ∀ w, Now w = (Ok now, w)
}.

Definition successful (receipt : Hash → option Receipt) (h : Hash) : Prop :=
  match receipt h with Some rc => rc_Status rc = ReceiptStatusSuccessful | None => False end.
#[global] Instance successful_dec receipt h : Decision (successful receipt h).
Proof. unfold successful. destruct (receipt h); apply _. Defined.

Section Decide.
Context {W C : Type} `{NonceLru C} `{L2Node W} `{MapRange}.
Context (RetryNumber : Z) (receipt : Hash → option Receipt) (pool : Hash → bool) (now : Z).
Hypothesis Hnode : node_answers receipt pool now.
Abbreviation MS := (ManState W C).

Lemma at_node_pure {A} (c : M W A) r (y : MS) : c (ms_world y) = (r, ms_world y) → at_node c y = (r, y).
Proof. intros E. unfold at_node, zoom. rewrite E. by destruct y. Qed.

Lemma CheckTxWasMined_pure h (y : MS) :
  CheckTxWasMined h y = (Ok (match receipt h with Some rc => (true, Some rc) | None => (false, None) end), y).
Proof.
  unfold CheckTxWasMined, mbind, M_bind, attempt.
  rewrite (at_node_pure _ _ y (na_receipt _ _ _ Hnode h (ms_world y))). by destruct (receipt h).
Qed.

Lemma findInPool_pure h (y : MS) : ∃ e, findInPool RetryNumber h y = (Ok e, y).
Proof.
  assert (∀ n e, byHash_retry n h e y = (Ok e, y) ∨ ∃ e', byHash_retry n h e y = (Ok e', y)) as Hretry.
  { induction n as [|n IH]; intros [e|]; [by left..| |by left]. right. cbn [byHash_retry]. unfold mbind, M_bind, attempt.
    rewrite (at_node_pure _ _ y (na_pool _ _ _ Hnode h (ms_world y))).
    destruct (pool h); cbn beta iota; edestruct IH as [E|[e' E]]; eexists; exact E. }
  unfold findInPool, mbind, M_bind, attempt.
  rewrite (at_node_pure _ _ y (na_pool _ _ _ Hnode h (ms_world y))).
  destruct (pool h); cbn beta iota; [by eexists|]. edestruct Hretry as [E|[e' E]]; eexists; exact E.
Qed.

(** What the history says. *)
Lemma checkTxHistory_loop_spec (hs : list Hash) (y : MS) : ∀ f a,
  ∃ f' a', checkTxHistory_loop RetryNumber hs f a y = (Ok (f', a', bool_decide (Exists (successful receipt) hs)), y) ∧
    (¬ Exists (successful receipt) hs → a' = a && bool_decide (Forall (λ h, is_Some (receipt h)) hs)).
Proof.
  induction hs as [|h hs IH]; intros f a.
  { exists f, a. split; [done|]. intros _. by destruct a. }
  cbn [checkTxHistory_loop]. unfold mbind at 1, M_bind at 1, attempt. rewrite CheckTxWasMined_pure. cbn beta iota.
  destruct (receipt h) as [rc|] eqn:E; cbn beta iota.
  - case_decide as Hs.
    + exists f, a. rewrite bool_decide_eq_true_2; [split; [done|]|]; [intros Hn; destruct Hn|]; left; unfold successful; by rewrite E.
    + destruct (IH true a) as (f' & a' & E' & Ha'). exists f', a'. rewrite E'.
      assert (Exists (successful receipt) (h :: hs) ↔ Exists (successful receipt) hs) as Hex.
      { rewrite Exists_cons. unfold successful at 1. rewrite E. tauto. }
      rewrite (bool_decide_ext _ _ Hex). split; [done|]. rewrite Hex. intros Hn. rewrite (Ha' Hn). f_equal.
      apply bool_decide_ext. rewrite Forall_cons, E. naive_solver.
  - destruct (findInPool_pure h y) as (e & Ee). unfold mbind at 1, M_bind at 1. rewrite Ee. cbn beta iota.
    assert (∃ f1, match e with
      | Some e => checkTxHistory_loop RetryNumber hs (if errors_Is e ErrEthereumNotFound then true else f) false
      | None => checkTxHistory_loop RetryNumber hs f false
      end y = checkTxHistory_loop RetryNumber hs f1 false y) as (f1 & ->) by (destruct e; by eexists).
    destruct (IH f1 false) as (f' & a' & E' & Ha'). exists f', a'. rewrite E'.
    assert (Exists (successful receipt) (h :: hs) ↔ Exists (successful receipt) hs) as Hex.
    { rewrite Exists_cons. unfold successful at 1. rewrite E. tauto. }
    rewrite (bool_decide_ext _ _ Hex). split; [done|]. rewrite Hex. intros Hn. rewrite (Ha' Hn). cbn [andb].
    rewrite (bool_decide_eq_false_2 (Forall _ (h :: hs))); [by destruct a|].
    rewrite Forall_cons, E. intros [[? ?] _]. done.
Qed.

(** The state after a body that committed the tables [t]. *)
Definition settled_state (y : MS) (t : Tables) : MS :=
  mkManState (ms_world y) (mkDB t None (db_seqs (ms_db y)) []) (ms_nonceCache y).

Definition begun (y : MS) : MS :=
  mkManState (ms_world y) (mkDB (db_committed (ms_db y)) (Some (TxActive (db_committed (ms_db y)))) (db_seqs (ms_db y)) [])
    (ms_nonceCache y).

Lemma Begin_begun (y : MS) : db_faults (ms_db y) = [] → at_db BeginDBTransaction y = (Ok InTx, begun y).
Proof. intros Hf. unfold at_db, zoom, BeginDBTransaction, next_fault. rewrite Hf. unfold set_tx. by rewrite Hf. Qed.

Lemma store_settled (y : MS) m :
  storeMonitoredTx m InTx (begun y) = (Ok tt, settled_state y (claim_update now m (db_committed (ms_db y)))).
Proof.
  unfold storeMonitoredTx, updateClaimTx, mbind, M_bind, attempt.
  by rewrite (at_node_pure _ _ (begun y) (na_now _ _ _ Hnode _)).
Qed.

End Decide.

(** Go's order of the range does not matter. *)
Lemma history_exists `{MapRangeLaws} (P : Hash → Prop) (s : gset Hash) :
  Exists P (range_history s) ↔ ∃ h, h ∈ s ∧ P h.
Proof. rewrite range_history_perm, Exists_exists. by setoid_rewrite elem_of_elements. Qed.
Lemma history_forall `{MapRangeLaws} (P : Hash → Prop) (s : gset Hash) :
  Forall P (range_history s) ↔ ∀ h, h ∈ s → P h.
Proof. rewrite range_history_perm, Forall_forall. by setoid_rewrite elem_of_elements. Qed.

(** C25: what the monitor decides, on a node whose answers do not change meanwhile and a
    working database, in whatever order Go ranges over the history.  When one of the
    transactions in the history has a successful receipt, the claim is confirmed.  When
    all of them were mined without success and there are ten or more, it has failed.
    When one is not mined yet and none was successful, nothing is sent and nothing is
    stored: the claim is not sent twice. *)
Theorem monitorTx_decides {W C : Type} `{NonceLru C} `{L2Node W} `{MapRangeLaws} (RetryNumber : Z)
    (receipt : Hash → option Receipt) (pool : Hash → bool) (now : Z) (m : MonitoredTx) (y : ManState W C) :
  node_answers receipt pool now → db_faults (ms_db y) = [] →
  let c0 := db_committed (ms_db y) in
  let settle st := settled_state y (claim_update now (set_m_Status st m) c0) in
  ((∃ h, h ∈ m_History m ∧ successful receipt h) →
     monitorTx RetryNumber m y = (Ok tt, settle MonitoredTxStatusConfirmed)) ∧
  ((∀ h, h ∈ m_History m → ¬ successful receipt h) →
     ((∀ h, h ∈ m_History m → is_Some (receipt h)) → maxHistorySize ≤ Z.of_nat (size (m_History m)) →
        monitorTx RetryNumber m y = (Ok tt, settle MonitoredTxStatusFailed)) ∧
     ((∃ h, h ∈ m_History m ∧ receipt h = None) → monitorTx RetryNumber m y = (Ok tt, settled_state y c0))).
Proof.
  intros Hnode Hf c0 settle.
  destruct (checkTxHistory_loop_spec RetryNumber receipt pool now Hnode (range_history (m_History m)) (begun y) false true)
    as (f & a & E & Ha).
  assert (monitorTx RetryNumber m y = (
    if bool_decide (Exists (successful receipt) (range_history (m_History m)))
    then storeMonitoredTx (set_m_Status MonitoredTxStatusConfirmed m) InTx else
    if a && bool_decide (maxHistorySize ≤ Z.of_nat (size (m_History m)))
    then storeMonitoredTx (set_m_Status MonitoredTxStatusFailed m) InTx else
    if a then
      r ← (if f : bool then ReviewMonitoredTx RetryNumber m true else mret (m, None));
      match r with
      | (mTx, Some err) => reviewFailed mTx err InTx
      | (mTx, None) => sendMonitoredTx RetryNumber mTx InTx
      end
    else commitOrRollback InTx) (begun y)) as ->.
  { unfold monitorTx. erewrite M_bind_Ok by (by apply Begin_begun). by erewrite M_bind_Ok by (apply E). }
  split; [|intros Hn; split].
  - intros Hs. rewrite bool_decide_eq_true_2 by (by apply history_exists). by apply (store_settled receipt pool now).
  - intros Hm Hsz. assert (¬ Exists (successful receipt) (range_history (m_History m))) as Hx.
    { rewrite history_exists. intros (h & Hh & Hs). by apply (Hn h). }
    rewrite bool_decide_eq_false_2, (Ha Hx), !bool_decide_eq_true_2 by (done || by apply history_forall).
    by apply (store_settled receipt pool now).
  - intros (h & Hh & Hr). assert (¬ Exists (successful receipt) (range_history (m_History m))) as Hx.
    { rewrite history_exists. intros (h' & Hh' & Hs). by apply (Hn h'). }
    rewrite bool_decide_eq_false_2, (Ha Hx) by done. cbn [andb]. rewrite bool_decide_eq_false_2; [done|].
    rewrite history_forall. intros Hall. destruct (Hall h Hh). congruence.
Qed.

(** ** Nonces *)

(** The nonces of [n] transactions of one sender, one after the other. *)
Fixpoint nextNonces {W C : Type} `{NonceLru C} `{L2Node W} (n : nat) (from : Address) : M (ManState W C) (list Z) :=
  match n with
  | O => mret []
  | S n => x ← GetNextNonce from; l ← nextNonces n from; mret (x :: l)
  end.

Lemma GetNextNonce_spec {W C : Type} `{NonceLruLaws C} `{L2Node W} (from : Address) (y : ManState W C) v w :
  NonceAt from (ms_world y) = (Ok v, w) →
  ∃ x y', GetNextNonce from y = (Ok x, y') ∧ fst (lru_Get from (ms_nonceCache y')) = Some x ∧
    x = match fst (lru_Get from (ms_nonceCache y)) with
        | Some t => if decide (v ≤ t) then u64 (t + 1) else v
        | None => v
        end ∧ ms_world y' = w.
Proof.
  intros E. unfold GetNextNonce, mbind, M_bind, at_node, at_cache, zoom. rewrite E. cbn.
  destruct (lru_Get from (ms_nonceCache y)) as [t c] eqn:Eg. cbn.
  eexists _, _. split; [done|]. cbn. split; [apply lru_Get_Add|done].
Qed.

(** The nonce cache never gives a nonce twice: the nonces of consecutive
    transactions of a sender increase strictly and are not below what the node says,
    even if the node does not count the transactions that are still pending, as long as
    they fit into 64 bits. *)
Theorem nextNonces_increasing {W C : Type} `{NonceLruLaws C} `{L2Node W} (from : Address) (n : nat) (low high : Z)
    (y : ManState W C) :
  (∀ w, ∃ v w', NonceAt from w = (Ok v, w') ∧ low ≤ v ≤ high) →
  (∀ t, fst (lru_Get from (ms_nonceCache y)) = Some t → 0 ≤ t ≤ high) →
  0 ≤ low → high + Z.of_nat n < 2 ^ 64 →
  ∃ l y', nextNonces n from y = (Ok l, y') ∧ length l = n ∧ StronglySorted Z.lt l ∧
    Forall (λ x, low ≤ x ∧ (∀ t, fst (lru_Get from (ms_nonceCache y)) = Some t → t < x)) l.
Proof.
  intros Hnode. revert high y Hnode. induction n as [|n IH]; intros high y Hnode Hc Hlow Hhigh.
  { exists [], y. repeat split; [constructor|constructor]. }
  destruct (Hnode (ms_world y)) as (v & w & Ev & Hv).
  destruct (GetNextNonce_spec from y v w Ev) as (x & y1 & E & Hg & Hx & _).
  assert (low ≤ x ≤ high + 1 ∧ (∀ t, fst (lru_Get from (ms_nonceCache y)) = Some t → t < x)) as [Hrange Hlt].
  { destruct (fst (lru_Get from (ms_nonceCache y))) as [t|]; [|split; [lia|done]].
    specialize (Hc t eq_refl). case_decide; subst x; [rewrite u64_id by lia|]; (split; [lia|]); intros ? [= <-]; lia. }
  destruct (IH (high + 1) y1) as (l & y' & El & Hlen & Hsorted & Hall); [| |done|lia|].
  { intros w'. destruct (Hnode w') as (v' & w'' & ? & ?). exists v', w''. split; [done|lia]. }
  { intros t. rewrite Hg. intros [= <-]. lia. }
  exists (x :: l), y'. cbn [nextNonces]. erewrite M_bind_Ok by (apply E). erewrite M_bind_Ok by (apply El).
  split; [done|]. split; [cbn; by rewrite Hlen|].
  assert (Forall (λ z, x < z ∧ low ≤ z) l) as Hx2.
  { eapply Forall_impl; [apply Hall|]. intros z [? Hz]. split; [by apply Hz|done]. }
  split.
  - constructor; [done|]. eapply Forall_impl; [apply Hx2|]. by intros z [? ?].
  - constructor; [split; [lia|done]|]. eapply Forall_impl; [apply Hx2|]. intros z [Hz ?].
    split; [done|]. intros t Ht. specialize (Hlt t Ht). lia.
Qed.

(** ** Witnesses *)

#[local] Instance toy_lru : NonceLru (gmap Address Z) := {|
  lru_Get a c := (c !! a, c);
  lru_Add a v c := <[a := v]> c;
  lru_Remove a c := delete a c
|}.
#[local] Instance toy_lru_laws : NonceLruLaws (gmap Address Z).
Proof.
  constructor; cbn.
  - intros a v c. apply lookup_insert_eq.
  - done.
  - intros a c. apply lookup_delete_eq.
Qed.

(** Transaction 901 was successful, 902 failed, 903 is in the pool. *)
Definition toy_receipt (h : Hash) : option Receipt :=
  if decide (h = 901) then Some (mkReceipt 1 1) else if decide (h = 902) then Some (mkReceipt 0 0) else None.
Definition toy_pool (h : Hash) : bool := bool_decide (h = 903).
#[local] Instance toy_node : L2Node unit := {|
  NonceAt _ := mret 7;
  EstimateGas _ _ _ _ := mret 21000;
  SuggestGasPrice := mret 3;
  TransactionReceipt h w := (match toy_receipt h with Some rc => Ok (Some rc) | None => Err ErrEthereumNotFound end, w);
  TransactionByHash h w := (if toy_pool h then Ok tt else Err ErrEthereumNotFound, w);
  SendTransaction _ := mret tt;
  BridgeIsClaimed _ _ := mret false;
  Signer _ tx := mret (mkSignedTx (910 + lt_Nonce tx) tx);
  Now := mret 5000
|}.
#[local] Instance toy_range : MapRange := elements.
#[local] Instance toy_range_laws : MapRangeLaws.
Proof. intros s. done. Qed.

Definition toy_mTx (id : Z) (hist : gset Hash) (st : MonitoredTxStatus) : MonitoredTx :=
  mkMonitoredTx id 66 (Some 77) 4 None [1] 20000 None st hist id id None 0.
Definition toy_mon_deposit (id : Z) : deposit_row := mk_deposit_row id 0 0 0 100 5 1 200 1 id 77 [] true false.
Definition toy_mon_tables : Tables :=
  on_deposit (λ _, toy_mon_deposit <$> [1; 2; 3; 4])
    (on_monitored_txs (λ _, [toy_mTx 1 {[901; 902]} MonitoredTxStatusCreated; toy_mTx 2 {[902]} MonitoredTxStatusCreated;
       toy_mTx 3 {[902; 903]} MonitoredTxStatusCreated; toy_mTx 4 {[902]} MonitoredTxStatusFailed]) emptyTables).
Definition toy_mon : ManState unit (gmap Address Z) := mkManState tt (mkDB toy_mon_tables None (mkSeqs 1 1 5 1 1 1 1 1) []) ∅.

Lemma MonitorTxs_edits_witness :
  ∃ rows, db_committed (ms_db (snd (MonitorTxs 2 1 toy_mon))) = on_monitored_txs (λ _, rows) toy_mon_tables ∧
    Forall2 (λ m m', m' = m ∨ (m_Status m = MonitoredTxStatusCreated ∧ edited m m')) (t_monitored_txs toy_mon_tables) rows.
Proof.
  apply (MonitorTxs_edits 2 1 toy_mon (snd (MonitorTxs 2 1 toy_mon)) (fst (MonitorTxs 2 1 toy_mon))).
  - apply (bool_decide_unpack _). vm_compute. exact I.
  - apply (bool_decide_unpack _). vm_compute. exact I.
  - apply surjective_pairing.
Defined.

(** The first transaction is confirmed, the second is sent with the next nonce and the
    higher gas, the third waits. *)
Example toy_pass :
  (λ m, (m_Nonce m, m_Gas m, m_Status m, elements (m_History m))) <$>
    t_monitored_txs (db_committed (ms_db (snd (MonitorTxs 2 1 toy_mon)))) =
  [(4, 20000, MonitoredTxStatusConfirmed, [901; 902]); (7, 21000, MonitoredTxStatusCreated, [917; 902]);
   (4, 20000, MonitoredTxStatusCreated, [903; 902]); (4, 20000, MonitoredTxStatusFailed, [902])].
Proof. vm_compute. reflexivity. Qed.

Lemma toy_node_answers : node_answers toy_receipt toy_pool 5000.
Proof. by constructor. Qed.

Lemma monitorTx_decides_witness :
  monitorTx 2 (toy_mTx 1 {[901; 902]} MonitoredTxStatusCreated) toy_mon =
    (Ok tt, settled_state toy_mon (claim_update 5000
       (set_m_Status MonitoredTxStatusConfirmed (toy_mTx 1 {[901; 902]} MonitoredTxStatusCreated)) toy_mon_tables)) ∧
  monitorTx 2 (toy_mTx 3 {[902; 903]} MonitoredTxStatusCreated) toy_mon = (Ok tt, settled_state toy_mon toy_mon_tables).
Proof.
  split.
  - apply (monitorTx_decides 2 toy_receipt toy_pool 5000 (toy_mTx 1 {[901; 902]} MonitoredTxStatusCreated) toy_mon
      toy_node_answers eq_refl).
    exists 901. split; [apply (bool_decide_unpack _); by vm_compute|reflexivity].
  - apply (monitorTx_decides 2 toy_receipt toy_pool 5000 (toy_mTx 3 {[902; 903]} MonitoredTxStatusCreated) toy_mon
      toy_node_answers eq_refl).
    + intros h [->%elem_of_singleton| ->%elem_of_singleton]%elem_of_union; by vm_compute.
    + exists 903. split; [apply (bool_decide_unpack _); by vm_compute|reflexivity].
Defined.

Lemma nextNonces_increasing_witness :
  ∃ l y', nextNonces 3 66 toy_mon = (Ok l, y') ∧ length l = 3%nat ∧ StronglySorted Z.lt l ∧
    Forall (λ x, 7 ≤ x ∧ (∀ t, fst (lru_Get 66 (ms_nonceCache toy_mon)) = Some t → t < x)) l.
Proof.
  apply (nextNonces_increasing 66 3 7 7 toy_mon).
  - intros w. exists 7, w. split; [reflexivity|lia].
  - intros t Ht. discriminate Ht.
  - lia.
  - reflexivity.
Defined.
