(* ===== verification/CompressedTxs.v ===== *)
(** * Grouped claims (claimtxman/monitor_compressed_txs.go, pending_txs.go,
    groups_trigger.go, store_changes.go, compose_compress_claim.go)

    In compressor mode the claims are sent in groups: [MonitorTxs] loads the pending
    claims and groups, sends the groups, looks for receipts, gives up late transactions
    and exhausted groups, makes a new group of the candidates, and stores what changed,
    all in one database transaction.  Go ranges over maps in the order of [MapRange];
    the messages kept in [LastLog] are the formats. *)
From S2P Require Import Prelude Types Bytes ClaimTypes Schema Storage NonceCache MonitorTxs.

Definition i32 (z : Z) : Z := (z + 2 ^ 31) mod 2 ^ 32 - 2 ^ 31.

(** ** Methods of claimtxman/types/monitoredtx.go *)

Definition IsPending (t : TxHashHistoryEntry) : bool :=
  match th_ReceiptStatus t with None => true | Some _ => false end.
Definition IsOutdated (t : TxHashHistoryEntry) : bool := bool_decide (th_ReceiptStatus t = Some ReceiptStatusOutdated).
Definition set_ReceiptStatus (v : Z) (t : TxHashHistoryEntry) : TxHashHistoryEntry :=
  mkTxHashHistoryEntry (th_TxHash t) (Some v) (th_CreatedAt t).
Definition ReceiptFailed : TxHashHistoryEntry → TxHashHistoryEntry := set_ReceiptStatus ReceiptStatusFailed.
Definition ReceiptSuccessful : TxHashHistoryEntry → TxHashHistoryEntry := set_ReceiptStatus ReceiptStatusSuccessful.
Definition IsExhaustedTimeWaitingForReceipt (now maxTime : Z) (t : TxHashHistoryEntry) : bool :=
  bool_decide (maxTime < now - th_CreatedAt t).

(** The first of the entries with the latest time. *)
Definition GetMoreRecentTx (t : TxHistoryV2) : option TxHashHistoryEntry :=
  match tv_TxHashes t with
  | [] => None
  | e :: es => Some (foldl (λ best x, if decide (th_CreatedAt best < th_CreatedAt x) then x else best) e es)
  end.

Definition AddPendingTx (txHash : Hash) (now : Z) (m : MonitoredTxGroupDBEntry) : MonitoredTxGroupDBEntry :=
  let h := match ge_ClaimTxHistory m with None => mkTxHistoryV2 1 [] | Some h => h end in
  set_ge_ClaimTxHistory (Some (mkTxHistoryV2 (tv_Version h) (tv_TxHashes h ++ [mkTxHashHistoryEntry txHash None now]))) m.
Definition IsClaimTxHistoryEmpty (m : MonitoredTxGroupDBEntry) : bool :=
  match ge_ClaimTxHistory m with None => true | Some h => bool_decide (tv_TxHashes h = []) end.

Definition IsCandidateToBeGrouped (ger : Hash) (mTx : MonitoredTx) : bool :=
  bool_decide (m_Status mTx = MonitoredTxStatusCreated ∧ size (m_History mTx) = 0%nat ∧ m_GroupID mTx = None ∧
               m_GlobalExitRoot mTx = ger).

Definition AssignTxsGroupID (m : MonitoredTxGroup) : MonitoredTxGroup :=
  mkMonitoredTxGroup (gr_DbEntry m) (set_m_GroupID (Some (ge_GroupID (gr_DbEntry m))) <$> gr_Txs m).
Definition NewMonitoredTxGroup (entry : MonitoredTxGroupDBEntry) (txs : list MonitoredTx) : MonitoredTxGroup :=
  AssignTxsGroupID (mkMonitoredTxGroup entry txs).
Definition GetTxByDepositID (depositID : Z) (m : MonitoredTxGroup) : option MonitoredTx :=
  head (filter (λ tx, m_DepositID tx = depositID) (gr_Txs m)).
Definition AddTx (tx : MonitoredTx) (m : MonitoredTxGroup) : MonitoredTxGroup :=
  mkMonitoredTxGroup (gr_DbEntry m) (gr_Txs m ++ [set_m_GroupID (Some (ge_GroupID (gr_DbEntry m))) tx]).
Definition GetTxsDepositID (m : MonitoredTxGroup) : list Z := m_DepositID <$> gr_Txs m.

(** ** pending_txs.go *)

Record PendingTxs := mkPendingTxs {
  p_GroupTx : gmap Z MonitoredTxGroup;
  p_TxCandidatesForGroup : list MonitoredTx;
  p_LastGroupTxID : Z
}.

Definition IsEmpty (m : PendingTxs) : bool := bool_decide (p_GroupTx m = ∅ ∧ p_TxCandidatesForGroup m = []).
Definition GenerateNewGroupID (m : PendingTxs) : Z * PendingTxs :=
  let id := u64 (p_LastGroupTxID m + 1) in (id, mkPendingTxs (p_GroupTx m) (p_TxCandidatesForGroup m) id).
Definition put_group (id : Z) (g : MonitoredTxGroup) (m : PendingTxs) : PendingTxs :=
  mkPendingTxs (<[id := g]> (p_GroupTx m)) (p_TxCandidatesForGroup m) (p_LastGroupTxID m).
Definition addTxCandidatesForGroup (tx : MonitoredTx) (m : PendingTxs) : PendingTxs :=
  mkPendingTxs (p_GroupTx m) (p_TxCandidatesForGroup m ++ [tx]) (p_LastGroupTxID m).

(** The zero value of a group entry.  Its status is the empty string in Go; [addTxToGroup]
    is only called for a group that was set before. *)
Definition zeroEntry : MonitoredTxGroupDBEntry :=
  mkMonitoredTxGroupDBEntry 0 MonitoredTxGroupStatusCreated [] None None 0 0 0 "".

Definition addTxToGroup (group : Z) (tx : MonitoredTx) (m : PendingTxs) : PendingTxs :=
  let g := default (mkMonitoredTxGroup zeroEntry []) (p_GroupTx m !! group) in
  put_group group (AddTx tx g) m.
Definition AddGroup (group : MonitoredTxGroup) (m : PendingTxs) : PendingTxs :=
  match p_GroupTx m !! ge_GroupID (gr_DbEntry group) with
  | Some _ => m
  | None => put_group (ge_GroupID (gr_DbEntry group)) group m
  end.
Definition SetGroupDBEntry (group : MonitoredTxGroupDBEntry) (m : PendingTxs) : PendingTxs :=
  let g := match p_GroupTx m !! ge_GroupID group with
           | Some g => set_gr_DbEntry group g
           | None => mkMonitoredTxGroup group []
           end in
  put_group (ge_GroupID group) (AssignTxsGroupID g) m.

Definition NewPendingTxs_step (groups : gmap Z MonitoredTxGroupDBEntry) (ger : Hash) (result : PendingTxs)
    (tx : MonitoredTx) : Prelude.result PendingTxs :=
  if IsCandidateToBeGrouped ger tx then Ok (addTxCandidatesForGroup tx result) else
  match m_GroupID tx with
  | None => Ok result
  | Some id =>
      match groups !! id with
      | None => Err (Errorf "group %d not found")
      | Some groupEntry => Ok (addTxToGroup id tx (SetGroupDBEntry groupEntry result))
      end
  end.
Definition NewPendingTxs (mTxs : list MonitoredTx) (groups : gmap Z MonitoredTxGroupDBEntry) (lastGroupID : Z)
    : result PendingTxs :=
  let ger := match mTxs with [] => 0 | tx :: _ => m_GlobalExitRoot tx end in
  fold_result (NewPendingTxs_step groups ger) (mkPendingTxs ∅ [] lastGroupID) mTxs.

(** ** groups_trigger.go, config.go *)

Record ConfigGroupingClaims := mkConfigGroupingClaims {
  cg_TriggerNumberOfClaims : Z;
  cg_MaxNumberOfClaimsPerGroup : Z;
  cg_TriggerRetainedClaimPeriod : Z;
  cg_MaxRetries : Z;
  cg_RetryInterval : Z;
  cg_RetryTimeout : Z
}.

Section Trigger.
Context (Cfg : ConfigGroupingClaims).

Definition isRetainedPeriodSurpassed (now : Z) (TxCandidatesForGroup : list MonitoredTx) : bool :=
  existsb (λ tx, bool_decide (cg_TriggerRetainedClaimPeriod Cfg < now - m_CreatedAt tx)) TxCandidatesForGroup.
Fixpoint chooseGroupTx_loop (group TxCandidatesForGroup : list MonitoredTx) : list MonitoredTx :=
  match TxCandidatesForGroup with
  | [] => group
  | tx :: txs =>
      let group := group ++ [tx] in
      if decide (Z.of_nat (length group) = cg_MaxNumberOfClaimsPerGroup Cfg) then group else chooseGroupTx_loop group txs
  end.
Definition chooseGroupTx (TxCandidatesForGroup : list MonitoredTx) : list MonitoredTx :=
  chooseGroupTx_loop [] TxCandidatesForGroup.
Definition ChooseTxs (now : Z) (TxCandidatesForGroup : list MonitoredTx) : list MonitoredTx :=
  if isRetainedPeriodSurpassed now TxCandidatesForGroup then chooseGroupTx TxCandidatesForGroup else
  if decide (cg_TriggerNumberOfClaims Cfg ≤ Z.of_nat (length TxCandidatesForGroup)) then chooseGroupTx TxCandidatesForGroup
  else [].

End Trigger.

(** ** compose_compress_claim.go *)

(** The parameters of the claimAsset and claimMessage methods. *)
Record bridgeClaimXParams := mkBridgeClaimXParams {
  bp_smtProofLocalExitRoot : list Hash;
  bp_smtProofRollupExitRoot : list Hash;
  bp_globalIndex : Z;
  bp_mainnetExitRoot : Hash;
  bp_rollupExitRoot : Hash;
  bp_originNetwork : Z;
  bp_originTokenAddress : Address;
  bp_destinationNetwork : Z;
  bp_destinationAddress : Address;
  bp_amount : Z;
  bp_metadata : bytes;
  bp_isMessage : bool
}.

(** What the claim compressor contract takes per claim. *)
Record CompressClaimCallData := mkCompressClaimCallData {
  cd_SmtProofLocalExitRoot : list Hash;
  cd_SmtProofRollupExitRoot : list Hash;
  cd_GlobalIndex : Z;
  cd_OriginNetwork : Z;
  cd_OriginAddress : Address;
  cd_DestinationAddress : Address;
  cd_Amount : Z;
  cd_Metadata : bytes;
  cd_IsMessage : bool
}.
Record CompressClaimParameters := mkCompressClaimParameters {
  cp_MainnetExitRoot : Hash;
  cp_RollupExitRoot : Hash;
  cp_ClaimData : list CompressClaimCallData
}.

(** The ABI of the bridge contract: the selectors of the two methods, and unpacking by
    the selector, with the parameters in the order of the method and no flag. *)
Class BridgeAbi := {
  methodClaimAssets_ID : bytes;
  methodClaimMessages_ID : bytes;
  MethodById : bytes → result unit;
  Inputs_Unpack : bytes → bytes → result bridgeClaimXParams
}.

Definition set_isMessage (b : bool) (p : bridgeClaimXParams) : bridgeClaimXParams :=
  mkBridgeClaimXParams (bp_smtProofLocalExitRoot p) (bp_smtProofRollupExitRoot p) (bp_globalIndex p)
    (bp_mainnetExitRoot p) (bp_rollupExitRoot p) (bp_originNetwork p) (bp_originTokenAddress p)
    (bp_destinationNetwork p) (bp_destinationAddress p) (bp_amount p) (bp_metadata p) b.

(** A slice expression past the end of the data panics. *)
Definition selector (data : bytes) : result bytes :=
  if decide (4 ≤ length data)%nat then Ok (take 4 data) else Panic.

Section Compose.
Context `{BridgeAbi} `{MapRange}.

Definition wrapf {A} (msg : string) (r : result A) : result A :=
  match r with Err e => Err (Wrapf msg e) | _ => r end.
Definition extractParamsClaimX (data : bytes) : result bridgeClaimXParams :=
  id ← selector data;
  _ ← wrapf "extracting params, getting method err: %w " (MethodById id);
  wrapf "extracting params, Unpack err: %w " (Inputs_Unpack id (drop 4 data)).
Definition extractParams (data : bytes) : result bridgeClaimXParams :=
  id ← selector data;
  isMessage ← (if decide (methodClaimAssets_ID = id) then Ok false else
               if decide (methodClaimMessages_ID = id) then Ok true else Err (Errorf "method unknown"));
  params ← extractParamsClaimX data;
  Ok (set_isMessage isMessage params).

Definition callData (v : bridgeClaimXParams) : CompressClaimCallData :=
  mkCompressClaimCallData (bp_smtProofLocalExitRoot v) (bp_smtProofRollupExitRoot v) (bp_globalIndex v)
    (bp_originNetwork v) (bp_originTokenAddress v) (bp_destinationAddress v) (bp_amount v) (bp_metadata v) (bp_isMessage v).

(** [slices.Max] panics on an empty slice. *)
Definition slicesMax (l : list Z) : result Z :=
  match l with [] => Panic | x :: l => Ok (foldl Z.max x l) end.

Definition GetCompressClaimParameters (txsData : gmap Z bytes) : result CompressClaimParameters :=
  params ← fold_result (λ (params : gmap Z bridgeClaimXParams) depositID,
    txParams ← extractParams (default [] (txsData !! depositID));
    Ok (<[depositID := txParams]> params)) ∅ (range_history (dom txsData));
  maxDepositID ← slicesMax (range_history (dom params));
  match params !! maxDepositID with
  | None => Panic
  | Some p =>
      Ok (mkCompressClaimParameters (bp_mainnetExitRoot p) (bp_rollupExitRoot p)
            (callData <$> omap (λ id, params !! id) (range_history (dom params))))
  end.
Definition GetCompressClaimParametersFromMonitoredTx (txs : list MonitoredTx) : result CompressClaimParameters :=
  GetCompressClaimParameters (foldl (λ m tx, <[m_DepositID tx := m_Data tx]> m) ∅ txs).

End Compose.

(** ** store_changes.go *)

Record StoreChanges := mkStoreChanges {
  sg_AddGroups : list MonitoredTxGroupDBEntry;
  sg_UpdateGroups : list MonitoredTxGroupDBEntry;
  sg_UpdateTxs : list MonitoredTx
}.

(** ** The claim compressor contract and [etherman.Client] in front of it *)

Record SentTx := mkSentTx { sx_Hash : Hash; sx_Gas : Z }.
Class ClaimCompressor (W : Type) := {
  smc_CompressClaimCall : Hash → Hash → list CompressClaimCallData → M W bytes;
  (** with [NoSend], the gas limit (none: estimate) and the data *)
  smc_SendCompressedClaims : bool → option Z → bytes → M W SentTx
}.

Section Compressed.
Context {W C : Type} `{NonceLru C} `{L2Node W} `{ClaimCompressor W} `{BridgeAbi} `{MapRange}.
Context (cfg : ConfigGroupingClaims) (authGasLimit : option Z) (gasOffset rollupID : Z).

Abbreviation MM := (M (ManState W C)).

(** An error of the contract is logged and an empty slice is returned. *)
Definition CompressClaimCall (mainnetExitRoot rollupExitRoot : Hash) (claimData : list CompressClaimCallData) : MM bytes :=
  r ← attempt (at_node (smc_CompressClaimCall mainnetExitRoot rollupExitRoot claimData));
  match r with
  | inl _ => mret []
  | inr compressedData => mret compressedData
  end.

(** for ... := range pendingTx.GroupTx: the body changes the group in place. *)
Fixpoint forGroups_loop (ids : list Z) (body : MonitoredTxGroup → MM MonitoredTxGroup) (p : PendingTxs) : MM PendingTxs :=
  match ids with
  | [] => mret p
  | id :: ids =>
      match p_GroupTx p !! id with
      | None => forGroups_loop ids body p
      | Some g => g ← body g; forGroups_loop ids body (put_group id g p)
      end
  end.
Definition forGroups (body : MonitoredTxGroup → MM MonitoredTxGroup) (p : PendingTxs) : MM PendingTxs :=
  forGroups_loop (range_history (dom (p_GroupTx p))) body p.

Definition on_entry (f : MonitoredTxGroupDBEntry → MonitoredTxGroupDBEntry) (g : MonitoredTxGroup) : MonitoredTxGroup :=
  set_gr_DbEntry (f (gr_DbEntry g)) g.
Definition set_log (msg : string) (g : MonitoredTxGroup) : MonitoredTxGroup := on_entry (set_ge_LastLog msg) g.
Definition set_txs_status (st : MonitoredTxStatus) (g : MonitoredTxGroup) : MonitoredTxGroup :=
  mkMonitoredTxGroup (gr_DbEntry g) (set_m_Status st <$> gr_Txs g).
Definition on_history (f : list TxHashHistoryEntry → list TxHashHistoryEntry) (g : MonitoredTxGroup) : MonitoredTxGroup :=
  on_entry (λ e, set_ge_ClaimTxHistory
    ((λ h, mkTxHistoryV2 (tv_Version h) (f (tv_TxHashes h))) <$> ge_ClaimTxHistory e) e) g.

Definition OnFinishClaimGroupTxSuccessful (group : MonitoredTxGroup) (txIndex : nat) : MonitoredTxGroup :=
  set_txs_status MonitoredTxStatusConfirmed
    (on_entry (set_ge_Status MonitoredTxGroupStatusConfirmed)
      (on_history (alter ReceiptSuccessful txIndex)
        (set_log "group_id:%d , tx %s was mined successfully" group))).
Definition OnFailGroup (group : MonitoredTxGroup) : MonitoredTxGroup :=
  set_txs_status MonitoredTxStatusFailed
    (set_log "group_id:%d , reached maximum retries" (on_entry (set_ge_Status MonitoredTxGroupStatussFailed) group)).
Definition OnFinishClaimGroupTxFailed (group : MonitoredTxGroup) (txIndex : nat) (msg : string) : MonitoredTxGroup :=
  on_history (alter ReceiptFailed txIndex) (set_log ("tx %s. " +:+ msg) group).

(** The nil pointer of a group without history. *)
Definition txHashes (group : MonitoredTxGroup) : result (list TxHashHistoryEntry) :=
  match ge_ClaimTxHistory (gr_DbEntry group) with None => Panic | Some h => Ok (tv_TxHashes h) end.

Fixpoint checkReceipts_loop (txIndex : nat) (txs : list TxHashHistoryEntry) (group : MonitoredTxGroup) : MM MonitoredTxGroup :=
  match txs with
  | [] => mret group
  | tx :: txs =>
      if IsPending tx then
        r ← attempt (CheckTxWasMined (th_TxHash tx));
        match r with
        | inl _ => checkReceipts_loop (S txIndex) txs (set_log "failed to check if tx[%d] %s was mined: %v" group)
        | inr (false, _) => checkReceipts_loop (S txIndex) txs (set_log "tx %s not mined yet" group)
        | inr (true, None) => gopanic
        | inr (true, Some receipt) =>
            if decide (rc_Status receipt = ReceiptStatusSuccessful ∧ 0 < rc_NumLogs receipt)
            then mret (OnFinishClaimGroupTxSuccessful group txIndex)
            else checkReceipts_loop (S txIndex) txs
                   (OnFinishClaimGroupTxFailed group txIndex "receipt status failed or no logs")
        end
      else checkReceipts_loop (S txIndex) txs group
  end.
Definition checkReceipts_group (group : MonitoredTxGroup) : MM MonitoredTxGroup :=
  if decide (ge_Status (gr_DbEntry group) = MonitoredTxGroupStatusClaiming) then
    txs ← lift (txHashes group);
    checkReceipts_loop 0 txs group
  else mret group.
Definition CheckReceipts (pendingTx : PendingTxs) : MM PendingTxs := forGroups checkReceipts_group pendingTx.

Fixpoint outdate_loop (txIndex : nat) (txs : list TxHashHistoryEntry) (group : MonitoredTxGroup) : MM MonitoredTxGroup :=
  match txs with
  | [] => mret group
  | tx :: txs =>
      if IsPending tx then
        now ← at_node Now;
        outdate_loop (S txIndex) txs
          (if IsExhaustedTimeWaitingForReceipt now (cg_RetryTimeout cfg) tx
           then OnFinishClaimGroupTxFailed group txIndex "reached maximum wait time" else group)
      else outdate_loop (S txIndex) txs group
  end.
Definition outdate_group (group : MonitoredTxGroup) : MM MonitoredTxGroup :=
  group ← (if decide (ge_Status (gr_DbEntry group) = MonitoredTxGroupStatusClaiming) then
             txs ← lift (txHashes group);
             outdate_loop 0 txs group
           else mret group);
  mret (if decide (cg_MaxRetries cfg ≤ ge_NumRetries (gr_DbEntry group)) then OnFailGroup group else group).
Definition OutdateClaims (pendingTx : PendingTxs) : MM PendingTxs := forGroups outdate_group pendingTx.

Definition CanSendNewClaimCall (group : MonitoredTxGroup) : MM bool :=
  let e := gr_DbEntry group in
  if decide (ge_Status e = MonitoredTxGroupStatusCreated) then mret true else
  match ge_ClaimTxHistory e with
  | None => mret true
  | Some h =>
      if decide (tv_TxHashes h = []) then mret true else
      if existsb (λ t, IsPending t && negb (IsOutdated t)) (tv_TxHashes h) then mret false else
      if decide (cg_MaxRetries cfg ≤ ge_NumRetries e) then mret false else
      match GetMoreRecentTx h with
      | None => mret true
      | Some moreRecentTx =>
          now ← at_node Now;
          mret (bool_decide (cg_RetryInterval cfg ≤ now - th_CreatedAt moreRecentTx))
      end
  end.

Definition sendFailed : string := "failed to call SMC SendCompressedClaims for group %d: %v".
Definition sendClaims_group (onlyFirstOne : bool) (group : MonitoredTxGroup) : MM MonitoredTxGroup :=
  match ge_CompressedTxData (gr_DbEntry group) with
  | None => mret group
  | Some data =>
      canSend ← CanSendNewClaimCall group;
      if negb canSend then mret group else
      if onlyFirstOne && negb (IsClaimTxHistoryEmpty (gr_DbEntry group)) then mret group else
      r ← attempt (at_node (smc_SendCompressedClaims true authGasLimit data));
      match r with
      | inl _ => mret (set_log sendFailed group)
      | inr estimatedTx =>
          r ← attempt (at_node (smc_SendCompressedClaims false (Some (u64 (sx_Gas estimatedTx + gasOffset))) data));
          match r with
          | inl _ => mret (set_log sendFailed group)
          | inr tx =>
              now ← at_node Now;
              mret (on_entry (λ e, set_ge_NumRetries (i32 (ge_NumRetries e + 1))
                      (AddPendingTx (sx_Hash tx) now (set_ge_Status MonitoredTxGroupStatusClaiming e))) group)
          end
      end
  end.
Definition SendClaims (onlyFirstOne : bool) (pendingTx : PendingTxs) : MM PendingTxs :=
  forGroups (sendClaims_group onlyFirstOne) pendingTx.

Definition createNewGroups (pendingTx : PendingTxs) : MM PendingTxs :=
  now ← at_node Now;
  match ChooseTxs cfg now (p_TxCandidatesForGroup pendingTx) with
  | [] => mret pendingTx
  | groupTxs =>
      let '(id, pendingTx) := GenerateNewGroupID pendingTx in
      now ← at_node Now;
      let group := NewMonitoredTxGroup
        (mkMonitoredTxGroupDBEntry id MonitoredTxGroupStatusCreated [] None None now 0 0 "") groupTxs in
      params ← lift (GetCompressClaimParametersFromMonitoredTx (gr_Txs group));
      compressedData ← CompressClaimCall (cp_MainnetExitRoot params) (cp_RollupExitRoot params) (cp_ClaimData params);
      mret (AddGroup (on_entry (set_ge_CompressedTxData (Some compressedData)) group) pendingTx)
  end.

Definition Process (pendingTxs : PendingTxs) : MM PendingTxs :=
  pendingTxs ← SendClaims false pendingTxs;
  pendingTxs ← CheckReceipts pendingTxs;
  pendingTxs ← OutdateClaims pendingTxs;
  createNewGroups pendingTxs.

(** ** Storing *)

(** [cmp.Equal] of two transactions panics on the unexported fields of [big.Int]. *)
Definition cmpTx (a b : MonitoredTx) : result bool :=
  match m_Value a, m_Value b with
  | Some _, Some _ => Panic
  | _, _ => Ok (bool_decide (a = b))
  end.

Fixpoint storeGroups (oldState newState : PendingTxs) (ids : list Z) (sc : StoreChanges) : MM StoreChanges :=
  match ids with
  | [] => mret sc
  | id :: ids =>
      match p_GroupTx newState !! id with
      | None => storeGroups oldState newState ids sc
      | Some group =>
          match p_GroupTx oldState !! id with
          | None =>
              now ← at_node Now;
              storeGroups oldState newState ids
                (mkStoreChanges (sg_AddGroups sc ++ [set_ge_DepositIDs (GetTxsDepositID group) (set_ge_UpdatedAt now (gr_DbEntry group))])
                   (sg_UpdateGroups sc) (sg_UpdateTxs sc))
          | Some oldGroup =>
              if decide (gr_DbEntry oldGroup = gr_DbEntry group) then storeGroups oldState newState ids sc else
              now ← at_node Now;
              storeGroups oldState newState ids
                (mkStoreChanges (sg_AddGroups sc) (sg_UpdateGroups sc ++ [set_ge_UpdatedAt now (gr_DbEntry group)]) (sg_UpdateTxs sc))
          end
      end
  end.
Definition storeTx (oldGroup : option MonitoredTxGroup) (txs : list MonitoredTx) (tx : MonitoredTx) : result (list MonitoredTx) :=
  match oldGroup with
  | None => Ok (txs ++ [tx])
  | Some oldGroup =>
      match GetTxByDepositID (m_DepositID tx) oldGroup with
      | None => Err (Errorf "tx with depositID %d not found in old state")
      | Some oldTx =>
          equal ← cmpTx oldTx tx;
          Ok (if equal : bool then txs else txs ++ [tx])
      end
  end.
Definition storeTxs (oldState newState : PendingTxs) (ids : list Z) : result (list MonitoredTx) :=
  fold_result (λ txs id,
    match p_GroupTx newState !! id with
    | None => Ok txs
    | Some group => fold_result (storeTx (p_GroupTx oldState !! id)) txs (gr_Txs group)
    end) [] ids.
Definition GenerateStoreUpdate (oldState newState : PendingTxs) : MM StoreChanges :=
  let ids := range_history (dom (p_GroupTx newState)) in
  sc ← storeGroups oldState newState ids (mkStoreChanges [] [] []);
  txs ← lift (storeTxs oldState newState ids);
  mret (mkStoreChanges (sg_AddGroups sc) (sg_UpdateGroups sc) txs).

Definition Execute (sc : StoreChanges) (tx : dbTx) : MM unit :=
  forM_ (sg_AddGroups sc) (λ g,
    r ← attempt (at_db (AddMonitoredTxsGroup (Some g) tx));
    match r with
    | inl e => throw (Wrapf "storeChanges.Execute error adding MonitoresTxGroup. Err: %w" e)
    | inr _ => mret tt
    end);;
  forM_ (sg_UpdateGroups sc) (λ g,
    now ← at_node Now;
    at_db (UpdateMonitoredTxsGroup (Some (set_ge_UpdatedAt now g)) tx));;
  forM_ (sg_UpdateTxs sc) (λ m,
    r ← attempt (updateClaimTx m tx);
    match r with
    | inl e => throw (Wrapf "storeChanges.Execute error UpdateClaimTx. Err: %w" e)
    | inr _ => mret tt
    end).

(** ** The pass *)

Definition getGroupsIds (txs : list MonitoredTx) : list Z := range_history (list_to_set (omap m_GroupID txs)).

Definition orErr {A} (msg : string) (c : MM A) : MM A :=
  r ← attempt c;
  match r with inl _ => throw (Errorf msg) | inr a => mret a end.
Definition getPendingTxs (tx : dbTx) : MM PendingTxs :=
  mTxs ← orErr "failed to get get monitored txs: %v"
    (at_db (GetClaimTxsByStatus [MonitoredTxStatusCreated; MonitoredTxStatusCompressing; MonitoredTxStatusClaiming] rollupID tx));
  groups ← orErr "failed to get get monitoredGroups txs: %v" (at_db (GetMonitoredTxsGroups (getGroupsIds mTxs) tx));
  lastGroupID ← orErr "failed to get latest group id: %v" (at_db (GetLatestMonitoredTxGroupID tx));
  lift (NewPendingTxs mTxs groups lastGroupID).

Definition internalMonitorTxs (tx : dbTx) : MM unit :=
  pendingTx ← getPendingTxs tx;
  if IsEmpty pendingTx then mret tt else
  initialStatus ← getPendingTxs tx;
  pendingTx ← Process pendingTx;
  storeUpdate ← GenerateStoreUpdate initialStatus pendingTx;
  Execute storeUpdate tx.

Definition MonitorCompressedTxs : MM unit :=
  tx ← at_db BeginDBTransaction;
  r ← attempt (internalMonitorTxs tx);
  match r with
  | inl err => _ ← attempt (at_db (Rollback tx)); throw err
  | inr _ => at_db (Commit tx)
  end.

End Compressed.
