(* ===== verification/CompressedTheorems.v ===== *)
(** * The theorems of the grouped claims

    A group never has two claim transactions pending; which candidates become a group;
    a pass that does not succeed stores nothing; what becomes of a group at its last
    retry. *)
From S2P Require Import Prelude Types Bytes ClaimTypes Schema Storage Invariants StorageFacts.
From S2P Require Import NonceCache MonitorTxs MonitorFacts CompressedTxs.

(** ** One pending transaction per group *)

Definition entries (g : MonitoredTxGroup) : list TxHashHistoryEntry :=
  match ge_ClaimTxHistory (gr_DbEntry g) with None => [] | Some h => tv_TxHashes h end.
Definition num_pending (l : list TxHashHistoryEntry) : nat := length (filter (λ t, IsPending t = true) l).

(** A group that was not sent has no history, and a history has one pending entry at
    most. *)
Definition group_ok (g : MonitoredTxGroup) : Prop :=
  (ge_Status (gr_DbEntry g) = MonitoredTxGroupStatusCreated → entries g = []) ∧ (num_pending (entries g) ≤ 1)%nat.
Definition groups_ok (p : PendingTxs) : Prop := map_Forall (λ _, group_ok) (p_GroupTx p).

Lemma num_pending_alter f i l : (∀ t, IsPending (f t) = false) → (num_pending (alter f i l) ≤ num_pending l)%nat.
Proof.
  intros Hf. revert i. induction l as [|t l IH]; intros [|i]; [done..| |]; unfold num_pending in *.
  - change (alter f 0%nat (t :: l)) with (f t :: l). rewrite !filter_cons, Hf, decide_False by done.
    case_decide; cbn [length]; lia.
  - change (alter f (S i) (t :: l)) with (t :: alter f i l). specialize (IH i). rewrite !filter_cons.
    case_decide; cbn [length]; lia.
Qed.

Lemma entries_on_history f g : f [] = [] → entries (on_history f g) = f (entries g).
Proof. intros Hf. unfold entries, on_history. cbn. by destruct (ge_ClaimTxHistory (gr_DbEntry g)). Qed.

Lemma group_ok_finish f i g :
  (∀ t, IsPending (f t) = false) → group_ok g → group_ok (on_history (alter f i) g).
Proof.
  intros Hf [Hc Hn]. unfold group_ok. rewrite entries_on_history by done. split.
  - intros Hst. rewrite (Hc Hst). done.
  - etrans; [by apply num_pending_alter|done].
Qed.

(** Changes of the other fields keep the invariant, unless they reset the status. *)
Lemma group_ok_same g g' :
  entries g' = entries g →
  (ge_Status (gr_DbEntry g') = MonitoredTxGroupStatusCreated → ge_Status (gr_DbEntry g) = MonitoredTxGroupStatusCreated) →
  group_ok g → group_ok g'.
Proof. intros He Hs [Hc Hn]. unfold group_ok. rewrite He. split; auto. Qed.

Section Invariant.
Context {W C : Type} `{NonceLru C} `{L2Node W} `{ClaimCompressor W} `{BridgeAbi} `{MapRange}.
Context (cfg : ConfigGroupingClaims) (authGasLimit : option Z) (gasOffset : Z).
Abbreviation MM := (M (ManState W C)).

(** [returns c P]: a value that [c] returns satisfies [P]. *)
Definition returns {A} (c : MM A) (P : A → Prop) : Prop := ∀ y a y', c y = (Ok a, y') → P a.

Lemma returns_ret {A} (a : A) P : P a → returns (mret a) P.
Proof. intros HP y b y' [= <- _]. done. Qed.
Lemma returns_bind {A B} (c : MM A) (f : A → MM B) P Q :
  returns c Q → (∀ a, Q a → returns (f a) P) → returns (c ≫= f) P.
Proof.
  intros Hc Hf y b y'. unfold mbind, M_bind. destruct (c y) as [[a|e| |] y1] eqn:E; try done.
  apply Hf. by eapply Hc.
Qed.
Lemma returns_any {A B} (c : MM A) (f : A → MM B) P : (∀ a, returns (f a) P) → returns (c ≫= f) P.
Proof. intros Hf. apply returns_bind with (λ _, True); [done|auto]. Qed.

Lemma forGroups_ok body p :
  (∀ g, group_ok g → returns (body g) group_ok) → groups_ok p → returns (forGroups body p) groups_ok.
Proof.
  intros Hb. unfold forGroups. generalize (range_history (dom (p_GroupTx p))) as ids. intros ids. revert p.
  induction ids as [|id ids IH]; intros p Hp; cbn [forGroups_loop]; [by apply returns_ret|].
  destruct (p_GroupTx p !! id) as [g|] eqn:E; [|by apply IH].
  apply returns_bind with group_ok; [apply Hb; by eapply Hp|]. intros g' Hg'. apply IH.
  by apply map_Forall_insert_2.
Qed.

Lemma checkReceipts_ok g : group_ok g → returns (checkReceipts_group g) group_ok.
Proof.
  intros Hg. unfold checkReceipts_group. case_decide as Hst0; [|by apply returns_ret]. apply returns_any. intros txs.
  generalize 0%nat. revert g Hg Hst0. induction txs as [|t txs IH]; intros g Hg Hst i; cbn [checkReceipts_loop]; [by apply returns_ret|].
  destruct (IsPending t); [|by apply IH].
  apply returns_any. intros [e|[[] [rc|]]]; try (apply IH; [|done]; by eapply group_ok_same, Hg); [|intros ? ? ? [=]].
  case_decide.
  - apply returns_ret. eapply group_ok_same; [| |apply (group_ok_finish ReceiptSuccessful i g); done]; done.
  - apply IH; [|done]. apply group_ok_finish; [done|]. by eapply group_ok_same, Hg.
Qed.

Lemma outdate_ok g : group_ok g → returns (outdate_group cfg g) group_ok.
Proof.
  intros Hg. unfold outdate_group. apply returns_bind with group_ok.
  - case_decide as Hst0; [|by apply returns_ret]. apply returns_any. intros txs.
    generalize 0%nat. revert g Hg Hst0. induction txs as [|t txs IH]; intros g Hg Hst i; cbn [outdate_loop]; [by apply returns_ret|].
    destruct (IsPending t); [|by apply IH]. apply returns_any. intros now. destruct (IsExhaustedTimeWaitingForReceipt _ _ _); apply IH; try done.
    apply group_ok_finish; [done|]. by eapply group_ok_same, Hg.
  - intros g' Hg'. apply returns_ret. case_decide; [|done]. by eapply group_ok_same, Hg'.
Qed.

(** A group may be sent only when nothing is pending. *)
Lemma CanSend_none_pending g :
  group_ok g → returns (CanSendNewClaimCall cfg g) (λ b, b = true → num_pending (entries g) = 0%nat).
Proof.
  intros [Hc Hn]. unfold CanSendNewClaimCall. case_decide as Hst.
  { apply returns_ret. by rewrite (Hc Hst). }
  destruct (ge_ClaimTxHistory (gr_DbEntry g)) as [h|] eqn:Eh; unfold entries in *; rewrite Eh in *; [|by apply returns_ret].
  case_decide as Hnil; [apply returns_ret; by rewrite Hnil|].
  destruct (existsb _ (tv_TxHashes h)) eqn:Eb; [by apply returns_ret|].
  assert (num_pending (tv_TxHashes h) = 0%nat) as Hz.
  { unfold num_pending. clear Hc Hn Hnil Eh. induction (tv_TxHashes h) as [|t l IH]; [done|]. cbn in Eb.
    apply orb_false_iff in Eb as [Et El]. rewrite filter_cons. case_decide as Hp; [|by apply IH].
    rewrite Hp in Et. unfold IsOutdated, IsPending in *. by destruct (th_ReceiptStatus t). }
  case_decide; [by apply returns_ret|]. destruct (GetMoreRecentTx h); [|by apply returns_ret].
  apply returns_any. intros now. by apply returns_ret.
Qed.

Lemma sendClaims_ok b g : group_ok g → returns (sendClaims_group cfg authGasLimit gasOffset b g) group_ok.
Proof.
  intros Hg. unfold sendClaims_group. destruct (ge_CompressedTxData (gr_DbEntry g)); [|by apply returns_ret].
  eapply returns_bind; [by apply CanSend_none_pending|]. intros can Hcan. destruct can; cbn [negb]; [|by apply returns_ret].
  specialize (Hcan eq_refl). case_match; [by apply returns_ret|].
  apply returns_any. intros [e|est]; [apply returns_ret; by eapply group_ok_same, Hg|].
  apply returns_any. intros [e|tx]; [apply returns_ret; by eapply group_ok_same, Hg|].
  apply returns_any. intros now. apply returns_ret. split; [done|].
  unfold entries, num_pending, on_entry, AddPendingTx in *. cbn.
  destruct (ge_ClaimTxHistory (gr_DbEntry g)) as [h|]; cbn; [|done].
  rewrite filter_app, length_app, Hcan. done.
Qed.

Lemma createNewGroups_ok p : groups_ok p → returns (createNewGroups cfg p) groups_ok.
Proof.
  intros Hp. unfold createNewGroups. apply returns_any. intros now.
  destruct (ChooseTxs cfg now (p_TxCandidatesForGroup p)) as [|tx txs]; [by apply returns_ret|]. cbn.
  apply returns_any. intros now2. apply returns_any. intros params. apply returns_any. intros data.
  apply returns_ret. unfold AddGroup. case_match; [done|]. apply map_Forall_insert_2; [|done].
  split; [done|]. unfold num_pending. cbn. lia.
Qed.

Lemma Process_ok p : groups_ok p → returns (Process cfg authGasLimit gasOffset p) groups_ok.
Proof.
  intros Hp. unfold Process, SendClaims, CheckReceipts, OutdateClaims.
  eapply returns_bind; [apply forGroups_ok; [intros g; apply sendClaims_ok|done]|]. intros p1 Hp1.
  eapply returns_bind; [apply forGroups_ok; [apply checkReceipts_ok|done]|]. intros p2 Hp2.
  eapply returns_bind; [apply forGroups_ok; [apply outdate_ok|done]|]. intros p3 Hp3.
  by apply createNewGroups_ok.
Qed.

End Invariant.

(** C26: a group never waits for two claim transactions at once: when no group has more
    than one pending transaction, then none has after a pass of [Process], whatever the
    node and the contract answer; a group is sent only if nothing of it is pending. *)
Theorem Process_one_pending {W C : Type} `{NonceLru C} `{L2Node W} `{ClaimCompressor W} `{BridgeAbi} `{MapRange}
    (cfg : ConfigGroupingClaims) (authGasLimit : option Z) (gasOffset : Z) (p p' : PendingTxs) (y y' : ManState W C) :
  groups_ok p → Process cfg authGasLimit gasOffset p y = (Ok p', y') → groups_ok p'.
Proof. intros Hp E. by eapply (Process_ok cfg authGasLimit gasOffset p Hp). Qed.

(** ** The choice of a group *)

Lemma chooseGroupTx_loop_spec cfg group l :
  (Z.of_nat (length group) < cg_MaxNumberOfClaimsPerGroup cfg →
     chooseGroupTx_loop cfg group l = group ++ take (Z.to_nat (cg_MaxNumberOfClaimsPerGroup cfg) - length group) l) ∧
  (cg_MaxNumberOfClaimsPerGroup cfg ≤ Z.of_nat (length group) → chooseGroupTx_loop cfg group l = group ++ l).
Proof.
  revert group. induction l as [|tx l IH]; intros group; cbn [chooseGroupTx_loop].
  { by rewrite take_nil, app_nil_r. }
  rewrite length_app. cbn [length]. destruct (IH (group ++ [tx])) as [IH1 IH2]. rewrite length_app in IH1, IH2. cbn [length] in *.
  split; intros Hlt; case_decide; try lia.
  - replace (Z.to_nat _ - length group)%nat with 1%nat by lia. done.
  - rewrite IH1 by lia. replace (Z.to_nat (cg_MaxNumberOfClaimsPerGroup cfg) - length group)%nat
      with (S (Z.to_nat (cg_MaxNumberOfClaimsPerGroup cfg) - (length group + 1))) by lia.
    cbn [take]. by rewrite <- app_assoc.
  - rewrite IH2 by lia. by rewrite <- app_assoc.
Qed.

(** A group is made of the oldest candidates, as many as are allowed (all of them
    when the maximum is not positive), as soon as one of them has waited longer than the
    retained period or there are enough of them, and not before. *)
Theorem ChooseTxs_correct (cfg : ConfigGroupingClaims) (now : Z) (l : list MonitoredTx) :
  ((∃ tx, tx ∈ l ∧ cg_TriggerRetainedClaimPeriod cfg < now - m_CreatedAt tx) ∨
   cg_TriggerNumberOfClaims cfg ≤ Z.of_nat (length l) →
   ChooseTxs cfg now l = if decide (0 < cg_MaxNumberOfClaimsPerGroup cfg)
                         then take (Z.to_nat (cg_MaxNumberOfClaimsPerGroup cfg)) l else l) ∧
  ((∀ tx, tx ∈ l → now - m_CreatedAt tx ≤ cg_TriggerRetainedClaimPeriod cfg) ∧
   Z.of_nat (length l) < cg_TriggerNumberOfClaims cfg → ChooseTxs cfg now l = []).
Proof.
  assert (isRetainedPeriodSurpassed cfg now l = true ↔
    ∃ tx, tx ∈ l ∧ cg_TriggerRetainedClaimPeriod cfg < now - m_CreatedAt tx) as Hret.
  { unfold isRetainedPeriodSurpassed. rewrite existsb_exists. setoid_rewrite bool_decide_eq_true.
    by setoid_rewrite list_elem_of_In. }
  assert (chooseGroupTx cfg l = if decide (0 < cg_MaxNumberOfClaimsPerGroup cfg)
                                then take (Z.to_nat (cg_MaxNumberOfClaimsPerGroup cfg)) l else l) as Hch.
  { unfold chooseGroupTx. destruct (chooseGroupTx_loop_spec cfg [] l) as [H1 H2]. cbn in H1, H2.
    case_decide; [rewrite H1 by lia; by rewrite Nat.sub_0_r|apply H2; lia]. }
  unfold ChooseTxs. split.
  - intros [Hs|Hs].
    + by rewrite (proj2 Hret Hs).
    + destruct (isRetainedPeriodSurpassed cfg now l); [done|]. by rewrite decide_True.
  - intros [Hn Hlt]. destruct (isRetainedPeriodSurpassed cfg now l) eqn:E.
    + destruct (proj1 Hret eq_refl) as (tx & Htx & Hlt2). specialize (Hn tx Htx). lia.
    + by rewrite decide_False by lia.
Qed.

(** ** Atomicity *)

Section NodeOnly.
Context {W C : Type} `{NonceLru C} `{L2Node W} `{ClaimCompressor W} `{BridgeAbi} `{MapRange}.
Context (cfg : ConfigGroupingClaims) (authGasLimit : option Z) (gasOffset : Z).
Abbreviation MS := (ManState W C).

(** A property of the state that calls of the node keep. *)
Context (I : MS → Prop) (HI : ∀ A (c : M W A), keeps I (at_node c)).
Hint Resolve HI : bridge.

Lemma node_forGroups body p : (∀ g, keeps I (body g)) → keeps I (forGroups body p).
Proof.
  intros Hb. unfold forGroups. generalize (range_history (dom (p_GroupTx p))). intros ids. revert p.
  induction ids as [|id ids IH]; intros p; cbn [forGroups_loop]; keeps_auto.
Qed.
Lemma node_mined h : keeps I (CheckTxWasMined h).
Proof. unfold CheckTxWasMined. keeps_auto. Qed.
Hint Resolve node_mined : bridge.
Lemma node_panic {A} : keeps I (gopanic (A := A)).
Proof. intros y Hy. done. Qed.
Hint Resolve node_panic : bridge.

Lemma node_receipts i txs g : keeps I (checkReceipts_loop i txs g).
Proof. revert i g. induction txs as [|t txs IH]; intros i g; cbn [checkReceipts_loop]; keeps_auto. Qed.
Lemma node_outdate i txs g : keeps I (outdate_loop cfg i txs g).
Proof. revert i g. induction txs as [|t txs IH]; intros i g; cbn [outdate_loop]; keeps_auto. Qed.
Lemma node_can g : keeps I (CanSendNewClaimCall cfg g).
Proof. unfold CanSendNewClaimCall. keeps_auto. Qed.
Hint Resolve node_receipts node_outdate node_can : bridge.

(** [Process] and the comparison of the groups only talk to the node. *)
Lemma node_Process p : keeps I (Process cfg authGasLimit gasOffset p).
Proof.
  unfold Process, SendClaims, CheckReceipts, OutdateClaims, createNewGroups, CompressClaimCall. keeps_auto.
  all: try (apply node_forGroups; intros g); unfold sendClaims_group, checkReceipts_group, outdate_group; keeps_auto.
Qed.

Lemma node_storeGroups old new ids sc : keeps I (storeGroups old new ids sc).
Proof. revert sc. induction ids as [|id ids IH]; intros sc; cbn [storeGroups]; keeps_auto. Qed.
End NodeOnly.

Section Atomic.
Context {W C : Type} `{NonceLru C} `{L2Node W} `{ClaimCompressor W} `{BridgeAbi} `{MapRange}.
Context (cfg : ConfigGroupingClaims) (authGasLimit : option Z) (gasOffset rollupID : Z) (c0 : Tables).

Definition untouched (y : ManState W C) : Prop := isolated c0 false (ms_db y).

Lemma untouched_node A (c : M W A) : keeps untouched (at_node c).
Proof. intros y Hy. unfold at_node, zoom. by destruct (c (ms_world y)). Qed.
Lemma untouched_db {A} (c : M DB A) : keeps (isolated c0 false) c → keeps untouched (at_db c).
Proof. intros Hc y Hy. unfold at_db, zoom. specialize (Hc (ms_db y) Hy). by destruct (c (ms_db y)). Qed.
Hint Resolve untouched_node untouched_db : bridge.

Lemma untouched_Process p : keeps untouched (Process cfg authGasLimit gasOffset p).
Proof. apply node_Process, untouched_node. Qed.
Lemma untouched_storeGroups old new ids sc : keeps untouched (storeGroups old new ids sc).
Proof. apply node_storeGroups, untouched_node. Qed.
Hint Resolve untouched_Process untouched_storeGroups : bridge.

Lemma untouched_internal : keeps untouched (internalMonitorTxs cfg authGasLimit gasOffset rollupID InTx).
Proof.
  unfold internalMonitorTxs, getPendingTxs, orErr, GenerateStoreUpdate, Execute, updateClaimTx,
    GetClaimTxsByStatus, GetMonitoredTxsGroups, GetLatestMonitoredTxGroupID, AddMonitoredTxsGroup, UpdateMonitoredTxsGroup,
    UpdateClaimTx.
  keeps_auto; apply untouched_db; keeps_auto.
Qed.

End Atomic.

(** A pass over the grouped claims stores everything or nothing: unless it returns
    without an error, the committed tables are the ones before, whatever the node, the
    contract and the database do. *)
Theorem MonitorCompressedTxs_atomic {W C : Type} `{NonceLru C} `{L2Node W} `{ClaimCompressor W} `{BridgeAbi} `{MapRange}
    (cfg : ConfigGroupingClaims) (authGasLimit : option Z) (gasOffset rollupID : Z) (y y' : ManState W C) (r : result unit) :
  MonitorCompressedTxs cfg authGasLimit gasOffset rollupID y = (r, y') → r ≠ Ok tt →
  db_committed (ms_db y') = db_committed (ms_db y).
Proof.
  intros E Hr. set (c0 := db_committed (ms_db y)) in *.
  assert (untouched c0 y) as Hy by done. revert E. unfold MonitorCompressedTxs, mbind at 1, M_bind at 1.
  pose proof (untouched_db c0 BeginDBTransaction (keeps_Begin c0 false) y Hy) as Hu1.
  destruct (at_db BeginDBTransaction y) as [[tx|e| |] y1] eqn:Eb; cbn in Hu1; try (intros [= <- <-]; by apply Hu1).
  assert (tx = InTx) as ->.
  { unfold at_db, zoom, BeginDBTransaction in Eb. destruct (next_fault (ms_db y)) as [[] ?]; by simplify_eq. }
  unfold mbind at 1, M_bind at 1, attempt.
  pose proof (untouched_internal cfg authGasLimit gasOffset rollupID c0 y1 Hu1) as Hu2.
  destruct (internalMonitorTxs cfg authGasLimit gasOffset rollupID InTx y1) as [[u|e| |] y2]; cbn in Hu2;
    try (intros [= <- <-]; by apply Hu2).
  - unfold at_db, zoom. destruct (Commit InTx (ms_db y2)) as [rc db] eqn:Ec. intros [= -> <-].
    by apply (Commit_fails c0 false InTx (ms_db y2) r db Ec Hr Hu2).
  - unfold mbind, M_bind.
    pose proof (untouched_db c0 (Rollback InTx) (keeps_Rollback c0 false InTx) y2 Hu2) as Hu3.
    destruct (at_db (Rollback InTx) y2) as [[] y3]; cbn in *; intros [= <- <-]; by apply Hu3.
Qed.

(** ** The last retry *)

Definition exhausted_failed (cfg : ConfigGroupingClaims) (g : MonitoredTxGroup) : Prop :=
  cg_MaxRetries cfg ≤ ge_NumRetries (gr_DbEntry g) →
  ge_Status (gr_DbEntry g) = MonitoredTxGroupStatussFailed ∧
  Forall (λ m, m_Status m = MonitoredTxStatusFailed) (gr_Txs g).

Section Exhausted.
Context {W C : Type} `{NonceLru C} `{L2Node W} `{ClaimCompressor W} `{BridgeAbi} `{MapRangeLaws}.
Context (cfg : ConfigGroupingClaims) (authGasLimit : option Z) (gasOffset : Z).
Abbreviation MM := (M (ManState W C)).

(** A loop over the groups reaches every group. *)
Lemma forGroups_all (Q : MonitoredTxGroup → Prop) (body : MonitoredTxGroup → MM MonitoredTxGroup) p :
  (∀ g, returns (body g) Q) → returns (forGroups body p) (λ p', map_Forall (λ _, Q) (p_GroupTx p')).
Proof.
  intros Hb. unfold forGroups.
  assert (∀ ids p, (∀ id g, p_GroupTx p !! id = Some g → id ∉ ids → Q g) →
    returns (forGroups_loop ids body p) (λ p', map_Forall (λ _, Q) (p_GroupTx p'))) as Hloop.
  { induction ids as [|id ids IH]; intros q Hq; cbn [forGroups_loop].
    { apply returns_ret. intros id g Hg. eapply Hq; [exact Hg|apply not_elem_of_nil]. }
    destruct (p_GroupTx q !! id) as [g|] eqn:E.
    - eapply returns_bind; [apply Hb|]. intros g' Hg'. apply IH. intros i x. cbn.
      destruct (decide (i = id)) as [->|Hne]; [rewrite lookup_insert_eq; by intros [= <-]|].
      rewrite lookup_insert_ne by done. intros Hx Hi. eapply Hq; [exact Hx|]. by rewrite not_elem_of_cons.
    - apply IH. intros i x Hx Hi. eapply Hq; [exact Hx|]. rewrite not_elem_of_cons. split; [|done]. congruence. }
  apply Hloop. intros id g Hg Hid. destruct Hid. rewrite range_history_perm, elem_of_elements. by eapply elem_of_dom_2.
Qed.

Lemma outdate_exhausted g : returns (outdate_group (W := W) (C := C) cfg g) (exhausted_failed cfg).
Proof.
  unfold outdate_group. apply returns_any. intros g'. apply returns_ret. unfold exhausted_failed.
  case_decide as Hm; [|intros Hm2; by destruct Hm]. intros _. split; [done|]. cbn. apply Forall_fmap, Forall_true. done.
Qed.

Lemma Process_exhausted p :
  0 < cg_MaxRetries cfg →
  returns (Process (W := W) (C := C) cfg authGasLimit gasOffset p) (λ p', map_Forall (λ _, exhausted_failed cfg) (p_GroupTx p')).
Proof.
  intros Hmax. unfold Process, OutdateClaims. apply returns_any. intros p1. apply returns_any. intros p2.
  eapply returns_bind; [apply (forGroups_all (exhausted_failed cfg)), outdate_exhausted|]. intros p3 Hp3.
  unfold createNewGroups. apply returns_any. intros now.
  destruct (ChooseTxs cfg now (p_TxCandidatesForGroup p3)) as [|tx txs]; [by apply returns_ret|]. cbn.
  apply returns_any. intros now2. apply returns_any. intros params. apply returns_any. intros data.
  apply returns_ret. unfold AddGroup. case_match; [done|]. apply map_Forall_insert_2; [|done].
  unfold exhausted_failed. cbn. lia.
Qed.

End Exhausted.

(** The last retry of a group is not waited for: at the end of the pass that sends a
    group for the [MaxRetries]-th time the group and all its claims are failed, although
    the transaction is pending, or was mined successfully in that very pass. *)
Theorem Process_last_retry_failed {W C : Type} `{NonceLru C} `{L2Node W} `{ClaimCompressor W} `{BridgeAbi} `{MapRangeLaws}
    (cfg : ConfigGroupingClaims) (authGasLimit : option Z) (gasOffset : Z) (p p' : PendingTxs) (y y' : ManState W C)
    (id : Z) (g : MonitoredTxGroup) :
  0 < cg_MaxRetries cfg → Process cfg authGasLimit gasOffset p y = (Ok p', y') →
  p_GroupTx p' !! id = Some g → cg_MaxRetries cfg ≤ ge_NumRetries (gr_DbEntry g) →
  ge_Status (gr_DbEntry g) = MonitoredTxGroupStatussFailed ∧ Forall (λ m, m_Status m = MonitoredTxStatusFailed) (gr_Txs g).
Proof.
  intros Hmax E Hg. by apply (Process_exhausted cfg authGasLimit gasOffset p Hmax _ _ _ E id g Hg).
Qed.

(** ** Witnesses *)

#[local] Instance toyc_lru : NonceLru (gmap Address Z) := {|
  lru_Get a c := (c !! a, c); lru_Add a v c := <[a := v]> c; lru_Remove a c := delete a c |}.
(** Every transaction is mined successfully. *)
#[local] Instance toyc_node : L2Node unit := {|
  NonceAt _ := mret 7;
  EstimateGas _ _ _ _ := mret 21000;
  SuggestGasPrice := mret 3;
  TransactionReceipt _ := mret (Some (mkReceipt 1 1));
  TransactionByHash _ := mret tt;
  SendTransaction _ := mret tt;
  BridgeIsClaimed _ _ := mret false;
  Signer _ tx := mret (mkSignedTx 910 tx);
  Now := mret 5000
|}.
#[local] Instance toyc_compressor : ClaimCompressor unit := {|
  smc_CompressClaimCall _ _ _ := mret [9; 9];
  smc_SendCompressedClaims _ _ _ := mret (mkSentTx 950 30000)
|}.
#[local] Instance toyc_abi : BridgeAbi := {|
  methodClaimAssets_ID := [1; 1; 1; 1];
  methodClaimMessages_ID := [2; 2; 2; 2];
  MethodById _ := Ok tt;
  Inputs_Unpack _ _ := Ok (mkBridgeClaimXParams [] [] 5 11 12 0 100 1 200 7 [] false)
|}.
#[local] Instance toyc_range : MapRange := elements.
#[local] Instance toyc_range_laws : MapRangeLaws.
Proof. intros s. done. Qed.

Definition toyc_cfg (maxRetries : Z) : ConfigGroupingClaims := mkConfigGroupingClaims 2 10 1000 maxRetries 10 100.
Definition toyc_mTx (id : Z) (group : option Z) : MonitoredTx :=
  mkMonitoredTx id 66 (Some 77) 4 None [1; 1; 1; 1; 8] 20000 None MonitoredTxStatusCreated ∅ id id group 0.
(** Group 1 was compressed and never sent; two claims are candidates. *)
Definition toyc_pending : PendingTxs :=
  mkPendingTxs {[1 := mkMonitoredTxGroup
      (mkMonitoredTxGroupDBEntry 1 MonitoredTxGroupStatusCreated [] (Some [9; 9]) None 4000 4000 0 "") [toyc_mTx 1 (Some 1)]]}
    [toyc_mTx 2 None; toyc_mTx 3 None] 1.
Definition toyc_state : ManState unit (gmap Address Z) := mkManState tt (mkDB emptyTables None (mkSeqs 1 1 1 1 1 1 1 1) []) ∅.

Definition toyc_run (maxRetries : Z) := Process (toyc_cfg maxRetries) None 100 toyc_pending toyc_state.
Definition toyc_result (maxRetries : Z) : PendingTxs := match fst (toyc_run maxRetries) with Ok p => p | _ => toyc_pending end.

Lemma toyc_groups_ok : groups_ok toyc_pending.
Proof. apply map_Forall_singleton. split; [done|]. vm_compute. lia. Qed.

Lemma Process_one_pending_witness : groups_ok (toyc_result 5).
Proof.
  apply (Process_one_pending (toyc_cfg 5) None 100 toyc_pending (toyc_result 5) toyc_state (snd (toyc_run 5)) toyc_groups_ok).
  vm_compute. reflexivity.
Defined.

(** With five retries the group is confirmed; its transaction was mined. *)
Example toyc_confirmed :
  (λ g, (ge_Status (gr_DbEntry g), m_Status <$> gr_Txs g, ge_NumRetries (gr_DbEntry g))) <$>
    (p_GroupTx (toyc_result 5) !! 1) = Some (MonitoredTxGroupStatusConfirmed, [MonitoredTxStatusConfirmed], 1).
Proof. vm_compute. reflexivity. Qed.

(** With one retry the same run records the claim as failed. *)
Lemma Process_last_retry_failed_witness :
  match p_GroupTx (toyc_result 1) !! 1 with
  | Some g => th_ReceiptStatus <$> entries g = [Some ReceiptStatusSuccessful] ∧
              ge_Status (gr_DbEntry g) = MonitoredTxGroupStatussFailed ∧
              Forall (λ m, m_Status m = MonitoredTxStatusFailed) (gr_Txs g)
  | None => False
  end.
Proof.
  destruct (p_GroupTx (toyc_result 1) !! 1) as [g|] eqn:E; [|vm_compute in E; discriminate E].
  split; [|apply (Process_last_retry_failed (toyc_cfg 1) None 100 toyc_pending (toyc_result 1) toyc_state
             (snd (toyc_run 1)) 1 g)].
  - vm_compute in E. injection E as <-. reflexivity.
  - reflexivity.
  - vm_compute. reflexivity.
  - exact E.
  - vm_compute in E. injection E as <-. vm_compute. discriminate.
Defined.

Lemma ChooseTxs_correct_witness :
  ChooseTxs (toyc_cfg 1) 5000 [toyc_mTx 2 None; toyc_mTx 3 None] = [toyc_mTx 2 None; toyc_mTx 3 None] ∧
  ChooseTxs (toyc_cfg 1) 900 [toyc_mTx 2 None] = [].
Proof.
  split.
  - apply (ChooseTxs_correct (toyc_cfg 1) 5000 [toyc_mTx 2 None; toyc_mTx 3 None]). right. vm_compute. discriminate.
  - apply (ChooseTxs_correct (toyc_cfg 1) 900 [toyc_mTx 2 None]). split; [|reflexivity].
    intros tx ->%list_elem_of_singleton. vm_compute. discriminate.
Defined.

Lemma MonitorCompressedTxs_atomic_witness :
  let y : ManState unit (gmap Address Z) := mkManState tt (mkDB emptyTables None (mkSeqs 1 1 1 1 1 1 1 1) [false; true]) ∅ in
  fst (MonitorCompressedTxs (toyc_cfg 5) None 100 1 y) = Err (Errorf "failed to get get monitored txs: %v") ∧
  db_committed (ms_db (snd (MonitorCompressedTxs (toyc_cfg 5) None 100 1 y))) = emptyTables.
Proof.
  intros y. split; [reflexivity|].
  apply (MonitorCompressedTxs_atomic (toyc_cfg 5) None 100 1 y _
    (fst (MonitorCompressedTxs (toyc_cfg 5) None 100 1 y))); [apply surjective_pairing|].
  vm_compute. discriminate.
Defined.
