(* ===== verification/CompressedStore.v ===== *)
(** * What a pass over the grouped claims stores

    A pass loads the groups and the candidates, changes them in memory and writes the
    differences.  When it returns without an error, the committed tables hold the groups
    and claims of the memory, and everything else is as before. *)
From S2P Require Import Prelude Types Bytes ClaimTypes Schema Storage Invariants StorageFacts.
From S2P Require Import ReorgFacts NonceCache MonitorTxs MonitorFacts CompressedTxs CompressedTheorems.

(** ** Computations in an open transaction *)
Section OpenTx.
Context {W C : Type}.
Abbreviation MM := (M (ManState W C)).

Definition sees (t : Tables) (y : ManState W C) : Prop := db_tx (ms_db y) = Some (TxActive t).

(** From a transaction that sees [t], a value is returned in one that sees [t'] with [Q]. *)
Definition tpost {A} (c : MM A) (t : Tables) (Q : A → Tables → Prop) : Prop :=
  ∀ y a y', sees t y → c y = (Ok a, y') → ∃ t', sees t' y' ∧ Q a t'.

Lemma tpost_ret {A} (a : A) t (Q : A → Tables → Prop) : Q a t → tpost (mret a) t Q.
Proof. intros HQ y b y' Hy [= <- <-]. by exists t. Qed.

Lemma tpost_bind {A B} (c : MM A) (f : A → MM B) t (Q : A → Tables → Prop) R :
  tpost c t Q → (∀ a t', Q a t' → tpost (f a) t' R) → tpost (c ≫= f) t R.
Proof.
  intros Hc Hf y b y' Hy. unfold mbind, M_bind. destruct (c y) as [[a|e| |] y1] eqn:E; try done.
  destruct (Hc y a y1 Hy E) as (t1 & Hy1 & HQ). by apply (Hf a t1 HQ y1).
Qed.

Lemma tpost_keeps {A} (c : MM A) t : keeps (sees t) c → tpost c t (λ _ t', t' = t).
Proof. intros Hc y a y' Hy E. specialize (Hc y Hy). rewrite E in Hc. by exists t. Qed.

Lemma sees_node t A (c : M W A) : keeps (sees t) (at_node c).
Proof. intros y Hy. unfold at_node, zoom. by destruct (c (ms_world y)). Qed.

Lemma tpost_node {A} (c : M W A) t : tpost (at_node c) t (λ _ t', t' = t).
Proof. apply tpost_keeps, sees_node. Qed.

Lemma tpost_lift {A} (r : result A) t : tpost (lift r) t (λ a t', r = Ok a ∧ t' = t).
Proof. intros y a y' Hy [= -> <-]. by exists t. Qed.

(** An error of [c] is returned with another text. *)
Lemma tpost_attempt {A B} (c : MM A) (h : error → error) (f : A → MM B) t Q :
  tpost (c ≫= f) t Q →
  tpost (r ← attempt c; match r with inl e => throw (h e) | inr a => f a end) t Q.
Proof.
  intros Hc y b y' Hy E. apply (Hc y b y' Hy). revert E. unfold mbind, M_bind, attempt.
  by destruct (c y) as [[] ?].
Qed.

Lemma tpost_run {A} (q : stmt A) t (Q : A → Tables → Prop) :
  (∀ s a t' s', q t s = (inr (a, t'), s') → Q a t') → tpost (at_db (run InTx q)) t Q.
Proof.
  intros HQ y a y' Hy. unfold at_db, zoom, run. destruct (next_fault (ms_db y)) as [b db] eqn:En.
  apply next_fault_parts in En as (_ & Htx & _). unfold sees in Hy. rewrite Hy in Htx.
  destruct b; [done|]. rewrite Htx. destruct (q t (db_seqs db)) as [[e|[a' t']] s'] eqn:Eq; [done|].
  intros [= <- <-]. exists t'. split; [done|]. by eapply HQ.
Qed.

Lemma tpost_query {A} (f : Tables → A) t : tpost (at_db (run InTx (sql_query f))) t (λ a t', a = f t ∧ t' = t).
Proof. apply tpost_run. by intros s a t' s' [= -> -> _]. Qed.
Lemma tpost_update (f : Tables → Tables) t : tpost (at_db (run InTx (sql_update f))) t (λ _ t', t' = f t).
Proof. apply tpost_run. by intros s a t' s' [= <- -> _]. Qed.

Lemma at_db_bind_eq {A B} (c : M DB A) (f : A → M DB B) (y : ManState W C) :
  at_db (c ≫= f) y = (at_db c ≫= λ a, at_db (f a)) y.
Proof.
  unfold at_db, zoom, mbind, M_bind. destruct (c (ms_db y)) as [[] db]; [|done..]. cbn.
  by destruct (f a db).
Qed.
Lemma tpost_at_db_bind {A B} (c : M DB A) (f : A → M DB B) t Q R :
  tpost (at_db c) t Q → (∀ a t', Q a t' → tpost (at_db (f a)) t' R) → tpost (at_db (c ≫= f)) t R.
Proof.
  intros Hc Hf y b y' Hy. rewrite at_db_bind_eq. apply (tpost_bind (at_db c) (λ a, at_db (f a)) t Q R Hc Hf y b y' Hy).
Qed.
Lemma tpost_at_db_ret {A} (a : A) t : tpost (at_db (mret a)) t (λ b t', b = a ∧ t' = t).
Proof. intros y b y' Hy [= <- <-]. by exists t. Qed.

Lemma tpost_impl {A} (c : MM A) t (Q R : A → Tables → Prop) :
  tpost c t Q → (∀ a t', Q a t' → R a t') → tpost c t R.
Proof. intros Hc HQR y a y' Hy E. destruct (Hc y a y' Hy E) as (t' & Hy' & HQ). eauto. Qed.

(** A loop whose body keeps a relation to the elements that were done. *)
Lemma tpost_forM {A} (l : list A) (body : A → MM unit) (R : list A → Tables → Prop) t :
  R [] t → (∀ done x t', done ++ [x] `prefix_of` l → R done t' → tpost (body x) t' (λ _ t'', R (done ++ [x]) t'')) →
  tpost (forM_ l body) t (λ _ t', R l t').
Proof.
  intros HR Hb. assert (∀ done rest t', done ++ rest = l → R done t' → tpost (forM_ rest body) t' (λ _ t'', R l t'')) as Hgo.
  { intros done rest. revert done. induction rest as [|x rest IH]; intros done t' Heq Hd; cbn [forM_].
    - apply tpost_ret. rewrite app_nil_r in Heq. by subst.
    - eapply tpost_bind; [apply (Hb done x t'); [|done]|].
      + rewrite <- Heq. exists rest. by rewrite <- app_assoc.
      + intros ? t'' HR'. apply (IH (done ++ [x])); [by rewrite <- app_assoc|done]. }
  by apply (Hgo [] l).
Qed.
End OpenTx.

(** ** Loading *)
Section Load.
Context `{MapRange} (rollupID : Z).

Definition openStatuses : list MonitoredTxStatus :=
  [MonitoredTxStatusCreated; MonitoredTxStatusCompressing; MonitoredTxStatusClaiming].
Definition claimRows (t : Tables) : list MonitoredTx :=
  sort_by m_CreatedAt
    (m ← filter (λ m, m_Status m ∈ openStatuses) (t_monitored_txs t);
     d ← filter (λ d, dr_id d = m_DepositID m ∧ dr_dest_net d = rollupID) (t_deposit t);
     [m]).
Definition readEntry (g : MonitoredTxGroupDBEntry) : MonitoredTxGroupDBEntry :=
  set_ge_LastLog "" (set_ge_DepositIDs [] g).
Definition groupRows (t : Tables) (ids : list Z) : gmap Z MonitoredTxGroupDBEntry :=
  foldl (λ groups g, <[ge_GroupID g := readEntry g]> groups) ∅
    (sort_by ge_CreatedAt (filter (λ g, ge_GroupID g ∈ ids) (t_monitored_txs_group t))).
Definition lastGroup (t : Tables) : Z :=
  match head (sort_desc ge_GroupID (t_monitored_txs_group t)) with None => 0 | Some g => ge_GroupID g end.

(** The state of the groups that the tables describe. *)
Definition loadPending (t : Tables) : result PendingTxs :=
  NewPendingTxs (claimRows t) (groupRows t (getGroupsIds (claimRows t))) (lastGroup t).

Lemma getPendingTxs_post {W C} t :
  tpost (W := W) (C := C) (getPendingTxs rollupID InTx) t (λ p t', loadPending t = Ok p ∧ t' = t).
Proof.
  unfold getPendingTxs, orErr.
  eapply tpost_bind; [apply (tpost_attempt _ (λ _, Errorf _) mret)|].
  { eapply tpost_bind; [apply tpost_query|]. intros a t' Ha. apply tpost_ret. exact Ha. }
  intros mTxs t1 [-> ->].
  eapply tpost_bind; [apply (tpost_attempt _ (λ _, Errorf _) mret)|].
  { eapply tpost_bind; [|intros a t' Ha; apply tpost_ret; exact Ha].
    eapply tpost_at_db_bind; [apply tpost_query|]. intros rows t' [-> ->]. apply tpost_at_db_ret. }
  intros groups t1 [-> ->].
  eapply tpost_bind; [apply (tpost_attempt _ (λ _, Errorf _) mret)|].
  { eapply tpost_bind; [|intros a t' Ha; apply tpost_ret; exact Ha].
    eapply (tpost_at_db_bind _ _ _ _ (λ a t', a = lastGroup t ∧ t' = t)); [apply tpost_query|].
    intros r t' [-> ->]. unfold lastGroup. destruct (head _); apply tpost_at_db_ret. }
  intros last t1 [-> ->]. eapply tpost_impl; [apply tpost_lift|]. done.
Qed.

(** A row of the table as it is read. *)
Record loaded (t : Tables) (p : PendingTxs) : Prop := {
  loaded_entry id g : p_GroupTx p !! id = Some g →
    ∃ row, row ∈ t_monitored_txs_group t ∧ ge_GroupID row = id ∧ gr_DbEntry g = readEntry row;
  loaded_txs id g tx : p_GroupTx p !! id = Some g → tx ∈ gr_Txs g →
    tx ∈ t_monitored_txs t ∧ m_GroupID tx = Some id;
  loaded_candidates tx : tx ∈ p_TxCandidatesForGroup p → tx ∈ t_monitored_txs t ∧ m_GroupID tx = None;
}.

Lemma claimRows_in t tx : tx ∈ claimRows t → tx ∈ t_monitored_txs t.
Proof.
  unfold claimRows. rewrite sort_by_perm. intros (m & Hd & Hm)%list_elem_of_bind.
  apply list_elem_of_bind in Hd as (d & Htx & _). apply list_elem_of_singleton in Htx as ->.
  by apply list_elem_of_filter in Hm as [_ Hm].
Qed.

Lemma groupRows_in t ids id e :
  groupRows t ids !! id = Some e →
  ∃ row, row ∈ t_monitored_txs_group t ∧ ge_GroupID row = id ∧ e = readEntry row.
Proof.
  unfold groupRows.
  assert (∀ rows (m : gmap Z MonitoredTxGroupDBEntry), (∀ row, row ∈ rows → row ∈ t_monitored_txs_group t) →
    (∀ id e, m !! id = Some e → ∃ row, row ∈ t_monitored_txs_group t ∧ ge_GroupID row = id ∧ e = readEntry row) →
    ∀ id e, foldl (λ groups g, <[ge_GroupID g := readEntry g]> groups) m rows !! id = Some e →
    ∃ row, row ∈ t_monitored_txs_group t ∧ ge_GroupID row = id ∧ e = readEntry row) as Hgo.
  { induction rows as [|row rows IH]; intros m Hrows Hm; cbn [foldl]; [exact Hm|].
    apply IH; [set_solver|]. intros i x [[<- <-]|[_ Hx]]%lookup_insert_Some; [|by apply Hm].
    exists row. split; [set_solver|done]. }
  intros He. eapply Hgo; [| |exact He].
  - intros row. rewrite sort_by_perm. by intros [_ Hr]%list_elem_of_filter.
  - intros i x. by rewrite lookup_empty.
Qed.

Lemma set_m_GroupID_same tx id : m_GroupID tx = Some id → set_m_GroupID (Some id) tx = tx.
Proof. by destruct tx; simpl; intros ->. Qed.

Lemma loaded_step t ids ger p tx p' :
  loaded t p → tx ∈ t_monitored_txs t → NewPendingTxs_step (groupRows t ids) ger p tx = Ok p' → loaded t p'.
Proof.
  intros [He Ht Hc] Htx. unfold NewPendingTxs_step.
  destruct (IsCandidateToBeGrouped ger tx) eqn:Ecand.
  { intros [= <-]. split; cbn; [done..|]. intros x [Hx|Hx%list_elem_of_singleton]%elem_of_app; [by apply Hc|subst x].
    unfold IsCandidateToBeGrouped in Ecand. apply bool_decide_eq_true in Ecand as (_ & _ & Hg & _). done. }
  destruct (m_GroupID tx) as [id|] eqn:Eid; [|by intros [= <-]].
  destruct (groupRows t ids !! id) as [e|] eqn:Ee; [|done]. intros [= <-].
  apply groupRows_in in Ee as (row & Hrow & Hid & ->).
  assert (ge_GroupID (readEntry row) = id) as Hid' by done.
  unfold addTxToGroup, SetGroupDBEntry, put_group. rewrite !Hid'. cbn [p_GroupTx p_TxCandidatesForGroup p_LastGroupTxID].
  rewrite lookup_insert_eq, insert_insert_eq. cbn [default]. set (g0 := AssignTxsGroupID _).
  assert (∀ x, x ∈ gr_Txs g0 → x ∈ t_monitored_txs t ∧ m_GroupID x = Some id) as Hg0.
  { unfold g0. destruct (p_GroupTx p !! id) as [g|] eqn:Eg; cbn; [|intros x Hx; by apply elem_of_nil in Hx].
    intros x (x0 & -> & Hx0)%list_elem_of_fmap. destruct (Ht id g x0 Eg Hx0) as [Hin Hx].
    change (ge_GroupID row) with (ge_GroupID row). by rewrite Hid, set_m_GroupID_same. }
  assert (gr_DbEntry g0 = readEntry row) as Hent by (unfold g0; by destruct (p_GroupTx p !! id)).
  clearbody g0. split; cbn [p_GroupTx p_TxCandidatesForGroup]; [| |done].
  - intros i g [[<- <-]|[_ Hg]]%lookup_insert_Some; [|by eapply He]. exists row. by rewrite <- Hent.
  - intros i g x [[<- <-]|[_ Hg]]%lookup_insert_Some Hx; [|by eapply Ht].
    cbn in Hx. apply elem_of_app in Hx as [Hx|Hx%list_elem_of_singleton]; [by apply Hg0|subst x].
    rewrite Hent, Hid', set_m_GroupID_same by done. done.
Qed.

Lemma loadPending_loaded t p : loadPending t = Ok p → loaded t p.
Proof.
  unfold loadPending, NewPendingTxs. set (ger := match claimRows t with [] => 0 | tx :: _ => _ end).
  generalize (getGroupsIds (claimRows t)) as ids. intros ids.
  assert (∀ l q, (∀ tx, tx ∈ l → tx ∈ t_monitored_txs t) → loaded t q →
    fold_result (NewPendingTxs_step (groupRows t ids) ger) q l = Ok p → loaded t p) as Hgo.
  { induction l as [|tx l IH]; intros q Hl Hq; cbn [fold_result]; [by intros [= <-]|].
    destruct (NewPendingTxs_step _ _ q tx) as [q'| | |] eqn:E; try done. cbn. apply IH; [set_solver|].
    eapply loaded_step; [done| |exact E]. set_solver. }
  apply Hgo; [apply claimRows_in|]. split; cbn; intros *; rewrite ?lookup_empty; try done. by intros Hx%elem_of_nil.
Qed.
End Load.

(** ** Processing *)
Section Processed.
Context {W C : Type} `{NonceLru C} `{L2Node W} `{ClaimCompressor W} `{BridgeAbi} `{MapRange}.
Context (cfg : ConfigGroupingClaims) (authGasLimit : option Z) (gasOffset : Z).
Abbreviation MM := (M (ManState W C)).

(** A group keeps its number and its claims, which may all get a new status. *)
Definition restatus (o : option MonitoredTxStatus) (m : MonitoredTx) : MonitoredTx :=
  match o with None => m | Some s => set_m_Status s m end.
Definition same_group (g g' : MonitoredTxGroup) : Prop :=
  ge_GroupID (gr_DbEntry g') = ge_GroupID (gr_DbEntry g) ∧ ∃ o, gr_Txs g' = restatus o <$> gr_Txs g.

Lemma restatus_twice o o' m : restatus o' (restatus o m) = restatus (match o' with None => o | _ => o' end) m.
Proof. by destruct o, o', m. Qed.

#[local] Instance same_group_preorder : PreOrder same_group.
Proof.
  split.
  - intros g. split; [done|]. exists None. symmetry. apply list_fmap_id.
  - intros g1 g2 g3 [Hid (o & Ht)] [Hid' (o' & Ht')]. split; [by rewrite Hid', Hid|].
    exists (match o' with None => o | _ => o' end). rewrite Ht', Ht, <- list_fmap_compose.
    apply list_fmap_ext. intros i m _. apply restatus_twice.
Qed.

(** Changes of the entry that keep its number. *)
Lemma same_group_entry g e : ge_GroupID e = ge_GroupID (gr_DbEntry g) → same_group g (set_gr_DbEntry e g).
Proof. intros He. split; [done|]. exists None. symmetry. apply list_fmap_id. Qed.
Lemma same_group_log g msg : same_group g (set_log msg g).
Proof. by apply same_group_entry. Qed.
Lemma same_group_history g f : same_group g (on_history f g).
Proof. by apply same_group_entry. Qed.
Lemma same_group_failed g i msg : same_group g (OnFinishClaimGroupTxFailed g i msg).
Proof. etrans; [apply same_group_log|apply same_group_history]. Qed.
Lemma same_group_success g i : same_group g (OnFinishClaimGroupTxSuccessful g i).
Proof. split; [done|]. by exists (Some MonitoredTxStatusConfirmed). Qed.
Lemma same_group_fail g : same_group g (OnFailGroup g).
Proof. split; [done|]. by exists (Some MonitoredTxStatusFailed). Qed.

Lemma receipts_same g0 txs i g :
  same_group g0 g → returns (W := W) (C := C) (checkReceipts_loop i txs g) (same_group g0).
Proof.
  revert i g. induction txs as [|tx txs IH]; intros i g Hg; cbn [checkReceipts_loop]; [by apply returns_ret|].
  destruct (IsPending tx); [|by apply IH]. apply returns_any.
  intros [e|[[] [rc|]]]; try (apply IH; etrans; [exact Hg|apply same_group_log]); [|intros ? ? ? [=]].
  case_decide; [|apply IH; etrans; [exact Hg|apply same_group_failed]].
  apply returns_ret. etrans; [exact Hg|apply same_group_success].
Qed.

Lemma checkReceipts_same g : returns (W := W) (C := C) (checkReceipts_group g) (same_group g).
Proof.
  unfold checkReceipts_group. case_decide; [|by apply returns_ret]. apply returns_any. intros txs.
  by apply receipts_same.
Qed.

Lemma outdate_loop_same g0 txs i g :
  same_group g0 g → returns (W := W) (C := C) (outdate_loop cfg i txs g) (same_group g0).
Proof.
  revert i g. induction txs as [|tx txs IH]; intros i g Hg; cbn [outdate_loop]; [by apply returns_ret|].
  destruct (IsPending tx); [|by apply IH]. apply returns_any. intros now. apply IH.
  case_match; [|done]. etrans; [exact Hg|apply same_group_failed].
Qed.

Lemma outdate_same g : returns (W := W) (C := C) (outdate_group cfg g) (same_group g).
Proof.
  unfold outdate_group. apply returns_bind with (same_group g).
  - case_decide; [|by apply returns_ret]. apply returns_any. intros txs. by apply outdate_loop_same.
  - intros g' Hg'. apply returns_ret. case_decide; [|done]. etrans; [exact Hg'|apply same_group_fail].
Qed.

Lemma sendClaims_same b g : returns (W := W) (C := C) (sendClaims_group cfg authGasLimit gasOffset b g) (same_group g).
Proof.
  unfold sendClaims_group. destruct (ge_CompressedTxData (gr_DbEntry g)); [|by apply returns_ret].
  apply returns_any. intros can. destruct can; cbn [negb]; [|by apply returns_ret].
  case_match; [by apply returns_ret|].
  apply returns_any. intros [e|est]; [apply returns_ret, same_group_log|].
  apply returns_any. intros [e|tx]; [apply returns_ret, same_group_log|].
  apply returns_any. intros now. apply returns_ret. by apply same_group_entry.
Qed.

(** The groups of two states one by one, with the same candidates. *)
Definition same_groups (p p' : PendingTxs) : Prop :=
  (∀ id, option_Forall2 same_group (p_GroupTx p !! id) (p_GroupTx p' !! id)) ∧
  p_TxCandidatesForGroup p' = p_TxCandidatesForGroup p.

Lemma same_groups_refl p : same_groups p p.
Proof. split; [|done]. intros id. destruct (p_GroupTx p !! id); by constructor. Qed.
Lemma same_groups_trans p1 p2 p3 : same_groups p1 p2 → same_groups p2 p3 → same_groups p1 p3.
Proof.
  intros [G1 C1] [G2 C2]. split; [|congruence]. intros id. specialize (G1 id). specialize (G2 id).
  destruct G1 as [g1 g2 G12|]; inversion G2 as [x y G23|]; subst; constructor. by etrans.
Qed.

Lemma forGroups_same (body : MonitoredTxGroup → MM MonitoredTxGroup) p :
  (∀ g, returns (body g) (same_group g)) → returns (forGroups body p) (same_groups p).
Proof.
  intros Hb. unfold forGroups. generalize (range_history (dom (p_GroupTx p))) as ids. intros ids.
  assert (∀ q, same_groups p q → returns (forGroups_loop ids body q) (same_groups p)) as Hgo;
    [|apply Hgo, same_groups_refl].
  induction ids as [|id ids IH]; intros q Hq; cbn [forGroups_loop]; [by apply returns_ret|].
  destruct (p_GroupTx q !! id) as [g|] eqn:Eg; [|by apply IH].
  eapply returns_bind; [apply Hb|]. intros g' Hg'. apply IH. eapply same_groups_trans; [exact Hq|].
  split; [|done]. intros i. cbn. destruct (decide (i = id)) as [->|Hne].
  - rewrite lookup_insert_eq, Eg. by constructor.
  - rewrite lookup_insert_ne by done. destruct (p_GroupTx q !! i); by constructor.
Qed.

Lemma ChooseTxs_subset now l tx : tx ∈ ChooseTxs cfg now l → tx ∈ l.
Proof.
  assert (∀ l', chooseGroupTx cfg l' ⊆ l') as Hsub.
  { intros l' x. unfold chooseGroupTx. destruct (chooseGroupTx_loop_spec cfg [] l') as [H1' H2']. cbn in H1', H2'.
    destruct (decide (0 < cg_MaxNumberOfClaimsPerGroup cfg)); [rewrite H1' by lia|].
    { intros (i & Hi & _)%elem_of_take. by eapply list_elem_of_lookup_2. }
    by rewrite H2' by lia. }
  unfold ChooseTxs. repeat case_match; try apply Hsub. by intros Hx%elem_of_nil.
Qed.

(** At most one group is new, of candidates. *)
Definition created (p p' : PendingTxs) : Prop :=
  p_GroupTx p' = p_GroupTx p ∨
  ∃ id g l, p_GroupTx p !! id = None ∧ p_GroupTx p' = <[id := g]> (p_GroupTx p) ∧
    ge_GroupID (gr_DbEntry g) = id ∧ l ⊆ p_TxCandidatesForGroup p ∧ gr_Txs g = set_m_GroupID (Some id) <$> l.

Lemma createNewGroups_created p : returns (W := W) (C := C) (createNewGroups cfg p) (created p).
Proof.
  unfold createNewGroups. apply returns_any. intros now.
  pose proof (ChooseTxs_subset now (p_TxCandidatesForGroup p)) as Hsub.
  destruct (ChooseTxs cfg now (p_TxCandidatesForGroup p)) as [|tx txs]; [apply returns_ret; by left|]. cbn zeta.
  apply returns_any. intros now2. apply returns_any. intros params. apply returns_any. intros data.
  apply returns_ret. unfold AddGroup. case_match eqn:Eg; [by left|]. right. cbn in Eg.
  eexists _, _, (tx :: txs). split; [exact Eg|]. split; [done|]. split; [done|]. split; [exact Hsub|done].
Qed.

Definition processed (p p' : PendingTxs) : Prop := ∃ p3, same_groups p p3 ∧ created p3 p'.

Lemma Process_processed p : returns (W := W) (C := C) (Process cfg authGasLimit gasOffset p) (processed p).
Proof.
  unfold Process, SendClaims, CheckReceipts, OutdateClaims.
  eapply returns_bind; [apply forGroups_same; intros g; apply sendClaims_same|]. intros p1 H1'.
  eapply returns_bind; [apply forGroups_same; intros g; apply checkReceipts_same|]. intros p2 H2'.
  eapply returns_bind; [apply forGroups_same; intros g; apply outdate_same|]. intros p3 H3'.
  intros y p' y' E. exists p3. split; [by do 2 (eapply same_groups_trans; [done|])|].
  by eapply createNewGroups_created.
Qed.
End Processed.

(** ** Updating rows by key *)
Section Updates.
Context {A E : Type} (key : A → Z) (ekey : E → Z) (upd : Z → E → A → A) (matches : E → A → Prop).
Context (upd_key : ∀ now e r, key (upd now e r) = key r).
Context (upd_matches : ∀ now e r, key r = ekey e → matches e (upd now e r)).

Definition updateRows (now : Z) (e : E) (rows : list A) : list A :=
  (λ r, if decide (key r = ekey e) then upd now e r else r) <$> rows.

(** The rows after the statements for a list of entries, each at some time. *)
Inductive updates (rows : list A) : list E → list A → Prop :=
| updates_nil : updates rows [] rows
| updates_snoc es rows' now e : updates rows es rows' → updates rows (es ++ [e]) (updateRows now e rows').

Lemma updateRows_key now e rows : key <$> updateRows now e rows = key <$> rows.
Proof.
  unfold updateRows. rewrite <- list_fmap_compose. apply list_fmap_ext. intros i r _. unfold compose.
  case_decide; [apply upd_key|done].
Qed.

Lemma updates_spec rows es rows' :
  updates rows es rows' →
  (∀ e1 e2 r, e1 ∈ es → e2 ∈ es → ekey e1 = ekey e2 → matches e2 r → matches e1 r) →
  key <$> rows' = key <$> rows ∧
  (∀ r, r ∈ rows → (∀ e, e ∈ es → ekey e ≠ key r) → r ∈ rows') ∧
  (∀ e r, e ∈ es → r ∈ rows' → key r = ekey e → matches e r).
Proof.
  induction 1 as [|es rows' now e Hu IH]; intros Hcons.
  { split; [done|]. split; [done|]. intros e r He. by apply elem_of_nil in He. }
  destruct IH as (Hk & Hkeep & Hm); [intros; eapply Hcons; eauto; apply elem_of_app; by left|].
  split; [by rewrite updateRows_key|]. split.
  - intros r Hr Hne. apply list_elem_of_fmap. exists r. split.
    + rewrite decide_False; [done|]. intros Heq. apply (Hne e); [|done]. apply elem_of_app. right. by left.
    + apply Hkeep; [done|]. intros e' He'. apply Hne. apply elem_of_app. by left.
  - intros e' r He' Hr Hkey. apply list_elem_of_fmap in Hr as (r0 & -> & Hr0).
    assert (e ∈ es ++ [e]) as He by (apply elem_of_app; right; by left).
    case_decide as Hd.
    + apply (Hcons e' e); [done..|rewrite <- Hkey, upd_key; done|]. by apply upd_matches.
    + apply elem_of_app in He' as [He'|He'%list_elem_of_singleton]; [by apply Hm|]. by subst e'.
Qed.

(** What the statements do not write stays in place. *)
Lemma updates_kept {B} (f : A → B) rows es rows' :
  (∀ now e r, f (upd now e r) = f r) → updates rows es rows' → f <$> rows' = f <$> rows.
Proof.
  intros Hf. induction 1 as [|es rows' now e Hu IH]; [done|]. rewrite <- IH. unfold updateRows.
  rewrite <- list_fmap_compose. apply list_fmap_ext. intros i r _. unfold compose. case_decide; [apply Hf|done].
Qed.

(** A row that is there afterwards and has the key of no entry was there before. *)
Lemma updates_other rows es rows' r :
  updates rows es rows' → r ∈ rows' → (∀ e, e ∈ es → ekey e ≠ key r) → r ∈ rows.
Proof.
  induction 1 as [|es rows' now e Hu IH]; intros Hr Hne; [done|].
  apply list_elem_of_fmap in Hr as (r0 & -> & Hr0). case_decide as Hd.
  - destruct (Hne e); [apply elem_of_app; right; by left|]. by rewrite upd_key.
  - apply IH; [done|]. intros e' He'. apply Hne. apply elem_of_app. by left.
Qed.

(** A key that is in the table is there afterwards. *)
Lemma updates_row rows es rows' r e :
  updates rows es rows' → (∀ e1 e2 r, e1 ∈ es → e2 ∈ es → ekey e1 = ekey e2 → matches e2 r → matches e1 r) →
  r ∈ rows → e ∈ es → ekey e = key r → ∃ r', r' ∈ rows' ∧ key r' = key r ∧ matches e r'.
Proof.
  intros Hu Hcons Hr He Hkey. destruct (updates_spec rows es rows' Hu Hcons) as (Hk & _ & Hm).
  assert (key r ∈ key <$> rows') as (r' & Hk' & Hr')%list_elem_of_fmap by (rewrite Hk; by apply list_elem_of_fmap_2).
  exists r'. split; [done|]. split; [done|]. apply Hm; congruence.
Qed.
End Updates.

(** ** The differences *)
Section Differences.
Context {W C : Type} `{NonceLru C} `{L2Node W} `{MapRangeLaws}.
Context (p p' : PendingTxs).

Definition addEntry (now : Z) (g : MonitoredTxGroup) : MonitoredTxGroupDBEntry :=
  set_ge_DepositIDs (GetTxsDepositID g) (set_ge_UpdatedAt now (gr_DbEntry g)).

(** The entries come from the groups of the new state. *)
Record sourced (sc : StoreChanges) : Prop := {
  add_of e : e ∈ sg_AddGroups sc →
    ∃ id g now, p_GroupTx p' !! id = Some g ∧ p_GroupTx p !! id = None ∧ e = addEntry now g;
  upd_of e : e ∈ sg_UpdateGroups sc →
    ∃ id g now, p_GroupTx p' !! id = Some g ∧ is_Some (p_GroupTx p !! id) ∧ e = set_ge_UpdatedAt now (gr_DbEntry g);
}.
(** The groups in [D] are among the entries, unless nothing changed. *)
Record covers (D : Z → Prop) (sc : StoreChanges) : Prop := {
  add_covers id g : D id → p_GroupTx p' !! id = Some g → p_GroupTx p !! id = None →
    ∃ now, addEntry now g ∈ sg_AddGroups sc;
  upd_covers id g old : D id → p_GroupTx p' !! id = Some g → p_GroupTx p !! id = Some old →
    gr_DbEntry old = gr_DbEntry g ∨ ∃ now, set_ge_UpdatedAt now (gr_DbEntry g) ∈ sg_UpdateGroups sc;
}.

Lemma covers_more D sc sc' :
  covers D sc → sg_AddGroups sc ⊆ sg_AddGroups sc' → sg_UpdateGroups sc ⊆ sg_UpdateGroups sc' → covers D sc'.
Proof. intros [Ha Hu] Hsa Hsu. split; intros *; [naive_solver|]. intros. destruct (Hu id g old); naive_solver. Qed.

Lemma covers_or D id sc : covers D sc → covers (λ i, i = id) sc → covers (λ i, D i ∨ i = id) sc.
Proof. intros [Ha Hu] [Ha' Hu']. split; intros * [HD|HD]; eauto. Qed.

Lemma storeGroups_covers ids D sc :
  sourced sc → covers D sc →
  returns (W := W) (C := C) (storeGroups p p' ids sc)
    (λ sc', sourced sc' ∧ covers (λ i, D i ∨ i ∈ ids) sc' ∧ sg_UpdateTxs sc' = sg_UpdateTxs sc).
Proof.
  revert D sc. induction ids as [|id ids IH]; intros D sc Hs Hc; cbn [storeGroups].
  { apply returns_ret. split; [done|]. split; [|done]. destruct Hc as [Ha Hu].
    split; intros * [Hd|Hn%elem_of_nil]; try done; [by eapply Ha|by eapply Hu]. }
  assert (∀ sc1, sourced sc1 → covers D sc1 → covers (λ i, i = id) sc1 → sg_UpdateTxs sc1 = sg_UpdateTxs sc →
    returns (W := W) (C := C) (storeGroups p p' ids sc1)
      (λ sc', sourced sc' ∧ covers (λ i, D i ∨ i ∈ id :: ids) sc' ∧ sg_UpdateTxs sc' = sg_UpdateTxs sc)) as Hgo.
  { intros sc1 Hs1 Hc1 Hid Ht1 y sc' y' E.
    destruct (IH (λ i, D i ∨ i = id) sc1 Hs1 (covers_or _ _ _ Hc1 Hid) y sc' y' E) as (Hs' & [Ha' Hu'] & Ht').
    split; [done|]. split; [|by rewrite Ht']. split; intros i * Hi; [eapply Ha'|eapply Hu']; rewrite elem_of_cons in Hi; tauto. }
  destruct (p_GroupTx p' !! id) as [g|] eqn:Eg; [|apply Hgo; try done; split; intros i * ->; congruence].
  destruct (p_GroupTx p !! id) as [old|] eqn:Eo.
  - case_decide as Heq.
    { apply Hgo; try done. split; intros i * ->; [congruence|]. intros. left. congruence. }
    apply returns_any. intros now. apply Hgo; [| | |done].
    + destruct Hs as [Ha Hu]. split; cbn; [done|]. intros e [He|He%list_elem_of_singleton]%elem_of_app; [by apply Hu|].
      exists id, g, now. eauto.
    + eapply covers_more; [done|done|]. cbn. set_solver.
    + split; intros i * ->; [congruence|]. intros. right. exists now. cbn. simplify_eq. set_solver.
  - apply returns_any. intros now. apply Hgo; [| | |done].
    + destruct Hs as [Ha Hu]. split; cbn; [|done]. intros e [He|He%list_elem_of_singleton]%elem_of_app; [by apply Ha|].
      exists id, g, now. eauto.
    + eapply covers_more; [done| |done]. cbn. set_solver.
    + split; intros i * ->; [|congruence]. intros. exists now. cbn. simplify_eq. set_solver.
Qed.

(** The claims of the groups are among the entries, unless they did not change. *)
Lemma storeTx_fold oldGroup l txs txs' :
  fold_result (storeTx oldGroup) txs l = Ok txs' →
  txs ⊆ txs' ∧ (∀ x, x ∈ txs' → x ∈ txs ∨ x ∈ l) ∧
  ∀ x, x ∈ l → x ∈ txs' ∨ ∃ old, oldGroup = Some old ∧ x ∈ gr_Txs old.
Proof.
  revert txs. induction l as [|x l IH]; intros txs; cbn [fold_result].
  { intros [= <-]. split; [done|]. split; [by left|]. intros x Hx. by apply elem_of_nil in Hx. }
  destruct (storeTx oldGroup txs x) as [txs1| | |] eqn:E; try done. cbn. intros (Hs & Ho & Hc)%IH.
  assert (txs ⊆ txs1 ∧ (∀ y, y ∈ txs1 → y ∈ txs ∨ y = x) ∧
    (x ∈ txs1 ∨ ∃ old, oldGroup = Some old ∧ x ∈ gr_Txs old)) as (Hs1 & Ho1 & Hx).
  { unfold storeTx in E. destruct oldGroup as [old|].
    - destruct (GetTxByDepositID _ old) as [oldTx|] eqn:Eo; [|done].
      apply head_Some_elem_of, list_elem_of_filter in Eo as [_ Eo].
      unfold cmpTx in E. destruct (bool_decide (oldTx = x)) eqn:Eb.
      + apply bool_decide_eq_true in Eb as ->. assert (txs1 = txs) as -> by (by repeat case_match; simplify_eq/=).
        eauto 8.
      + assert (txs1 = txs ++ [x]) as -> by (by repeat case_match; simplify_eq/=). set_solver.
    - injection E as <-. set_solver. }
  split; [set_solver|]. split; [set_solver|]. intros y [->|Hy]%elem_of_cons; [|by apply Hc].
  destruct Hx as [Hx|Hx]; [left; by apply Hs|by right].
Qed.

Lemma storeTxs_covers ids txs' :
  storeTxs p p' ids = Ok txs' →
  (∀ x, x ∈ txs' → ∃ id g, p_GroupTx p' !! id = Some g ∧ x ∈ gr_Txs g) ∧
  ∀ id g x, id ∈ ids → p_GroupTx p' !! id = Some g → x ∈ gr_Txs g →
    x ∈ txs' ∨ ∃ old, p_GroupTx p !! id = Some old ∧ x ∈ gr_Txs old.
Proof.
  unfold storeTxs. assert (∀ ids txs, fold_result (λ txs id,
      match p_GroupTx p' !! id with
      | None => Ok txs
      | Some group => fold_result (storeTx (p_GroupTx p !! id)) txs (gr_Txs group)
      end) txs ids = Ok txs' →
    txs ⊆ txs' ∧ (∀ x, x ∈ txs' → x ∈ txs ∨ ∃ id g, p_GroupTx p' !! id = Some g ∧ x ∈ gr_Txs g) ∧
    ∀ id g x, id ∈ ids → p_GroupTx p' !! id = Some g → x ∈ gr_Txs g →
      x ∈ txs' ∨ ∃ old, p_GroupTx p !! id = Some old ∧ x ∈ gr_Txs old) as Hgo.
  { clear ids. induction ids as [|id ids IH]; intros txs; cbn [fold_result].
    { intros [= <-]. split; [done|]. split; [by left|]. intros id g x Hid. by apply elem_of_nil in Hid. }
    destruct (p_GroupTx p' !! id) as [g|] eqn:Eg; cbn [mbind result_bind].
    - destruct (fold_result _ txs (gr_Txs g)) as [txs1| | |] eqn:E1; try done. cbn.
      apply storeTx_fold in E1 as (Hs1 & Ho1 & Hc1). intros (Hs & Ho & Hc)%IH.
      split; [set_solver|]. split.
      + intros x Hx. destruct (Ho x Hx) as [Hx1|Hx1]; [|by right]. destruct (Ho1 x Hx1); eauto.
      + intros i g' x [->|Hi]%elem_of_cons Hg' Hx; [|by eapply Hc]. simplify_eq.
        destruct (Hc1 x Hx) as [Hx1|Hx1]; [left; by apply Hs|by right].
    - intros (Hs & Ho & Hc)%IH. split; [done|]. split; [done|].
      intros i g' x [->|Hi]%elem_of_cons Hg' Hx; [congruence|by eapply Hc]. }
  intros (_ & Ho & Hc)%Hgo. split; [|done]. intros x Hx. destruct (Ho x Hx) as [Hn%elem_of_nil|]; done.
Qed.

Lemma GenerateStoreUpdate_changes :
  returns (W := W) (C := C) (GenerateStoreUpdate p p') (λ sc,
    sourced sc ∧ covers (λ id, is_Some (p_GroupTx p' !! id)) sc ∧
    (∀ x, x ∈ sg_UpdateTxs sc → ∃ id g, p_GroupTx p' !! id = Some g ∧ x ∈ gr_Txs g) ∧
    ∀ id g x, p_GroupTx p' !! id = Some g → x ∈ gr_Txs g →
      x ∈ sg_UpdateTxs sc ∨ ∃ old, p_GroupTx p !! id = Some old ∧ x ∈ gr_Txs old).
Proof.
  unfold GenerateStoreUpdate. set (ids := range_history _).
  assert (∀ id, is_Some (p_GroupTx p' !! id) → id ∈ ids) as Hids.
  { intros id Hid. unfold ids. rewrite range_history_perm, elem_of_elements. by apply elem_of_dom. }
  eapply returns_bind; [apply (storeGroups_covers ids (λ _, False)); by (split; intros *; rewrite ?elem_of_nil)|].
  intros sc (Hs & [Ha Hu] & _). intros y sc' y'. unfold mbind at 1, M_bind at 1, lift.
  destruct (storeTxs p p' ids) as [txs| | |] eqn:E; try done. intros [= <- _].
  apply storeTxs_covers in E as (Ho & Hc). destruct Hs as [Hs1 Hs2].
  split; [by split|]. split; [|split; [done|]].
  - split; cbn; intros id *; intros Hid; [apply Ha|apply Hu]; right; by apply Hids.
  - intros id g x Hg Hx. eapply Hc; [apply Hids; eauto|done..].
Qed.
End Differences.

(** ** Writing them *)

(** The columns that the statements write. *)
Definition entry_matches (e row : MonitoredTxGroupDBEntry) : Prop :=
  ge_GroupID row = ge_GroupID e ∧ ge_Status row = ge_Status e ∧ ge_CompressedTxData row = ge_CompressedTxData e ∧
  ge_ClaimTxHistory row = ge_ClaimTxHistory e ∧ ge_NumRetries row = ge_NumRetries e.
Definition claim_matches (tx row : MonitoredTx) : Prop :=
  m_DepositID row = m_DepositID tx ∧ m_From row = m_From tx ∧ m_To row = m_To tx ∧ m_Nonce row = m_Nonce tx ∧
  m_Value row = m_Value tx ∧ m_Data row = m_Data tx ∧ m_Gas row = m_Gas tx ∧ m_Status row = m_Status tx ∧
  m_History row = m_History tx ∧ m_GroupID row = m_GroupID tx.

Definition updGroup (now : Z) (g r : MonitoredTxGroupDBEntry) : MonitoredTxGroupDBEntry :=
  mkMonitoredTxGroupDBEntry (ge_GroupID r) (ge_Status g) (ge_DepositIDs r) (ge_CompressedTxData g)
    (ge_ClaimTxHistory g) (ge_CreatedAt r) now (ge_NumRetries g) (ge_LastLog g).
Definition updClaim (now : Z) (m r : MonitoredTx) : MonitoredTx :=
  mkMonitoredTx (m_DepositID r) (m_From m) (m_To m) (m_Nonce m) (m_Value m) (m_Data m)
    (m_Gas m) None (m_Status m) (m_History m) (m_CreatedAt r) now (m_GroupID m) (m_GlobalExitRoot r).

Abbreviation groupUpdates := (updates ge_GroupID ge_GroupID updGroup).
Abbreviation claimUpdates := (updates m_DepositID m_DepositID updClaim).

(** The tables with other claims and groups. *)
Definition withClaims (claims : list MonitoredTx) (groups : list MonitoredTxGroupDBEntry) (t : Tables) : Tables :=
  on_monitored_txs (λ _, claims) (on_monitored_txs_group (λ _, groups) t).

Section Write.
Context {W C : Type} `{L2Node W}.

Lemma Execute_writes sc t :
  tpost (W := W) (C := C) (Execute sc InTx) t (λ _ t', ∃ claims groups,
    t' = withClaims claims groups t ∧
    (NoDup (ge_GroupID <$> t_monitored_txs_group t) →
     NoDup (ge_GroupID <$> (t_monitored_txs_group t ++ (set_ge_LastLog "" <$> sg_AddGroups sc)))) ∧
    groupUpdates (t_monitored_txs_group t ++ (set_ge_LastLog "" <$> sg_AddGroups sc)) (sg_UpdateGroups sc) groups ∧
    claimUpdates (t_monitored_txs t) (sg_UpdateTxs sc) claims).
Proof.
  unfold Execute.
  set (groups0 := t_monitored_txs_group t). set (claims0 := t_monitored_txs t).
  assert (withClaims claims0 groups0 t = t) as H0 by (by destruct t).
  eapply tpost_bind.
  { apply (tpost_forM _ _ (λ added t', t' = withClaims claims0 (groups0 ++ (set_ge_LastLog "" <$> added)) t ∧
      (NoDup (ge_GroupID <$> groups0) → NoDup (ge_GroupID <$> (groups0 ++ (set_ge_LastLog "" <$> added)))))).
    - cbn. by rewrite app_nil_r, H0.
    - intros added g t' _ [-> Hone]. apply (tpost_attempt _ (λ e, Wrapf _ e) (λ _, mret tt)).
      eapply tpost_bind; [apply tpost_run|intros a t' Ha; apply tpost_ret; exact Ha].
      intros s a t'' s'. unfold sql_exec. case_decide as Hk; [done|]. intros [= _ <- _].
      split; [destruct t; unfold withClaims, on_monitored_txs, on_monitored_txs_group; cbn; by rewrite fmap_app, app_assoc|].
      intros Hnd. rewrite (fmap_app (set_ge_LastLog "")), app_assoc, fmap_app. apply NoDup_app. split; [by apply Hone|].
      split; [|apply NoDup_singleton]. intros x Hx ->%list_elem_of_singleton. by apply Hk. }
  intros _ t1 [-> Hone]. set (groups1 := groups0 ++ _). eapply tpost_bind.
  { apply (tpost_forM _ _ (λ done t', ∃ groups, t' = withClaims claims0 groups t ∧ groupUpdates groups1 done groups)).
    - exists groups1. split; [done|constructor].
    - intros done g t' _ (groups & -> & Hu). eapply tpost_bind; [apply tpost_node|]. intros now t'' ->.
      eapply tpost_impl; [apply tpost_update|]. intros _ t'' ->. eexists. split; [|exact (updates_snoc _ _ _ _ _ _ now g Hu)].
      by destruct t. }
  intros _ t2 (groups & -> & Hg). eapply tpost_impl.
  { apply (tpost_forM _ _ (λ done t', ∃ claims, t' = withClaims claims groups t ∧ claimUpdates claims0 done claims)).
    - exists claims0. split; [done|constructor].
    - intros done m t' _ (claims & -> & Hu). apply (tpost_attempt _ (λ e, Wrapf _ e) (λ _, mret tt)).
      eapply tpost_bind; [|intros a t' Ha; apply tpost_ret; exact Ha]. unfold updateClaimTx.
      eapply tpost_bind; [apply tpost_node|]. intros now t'' ->.
      eapply tpost_impl; [apply tpost_update|]. intros _ t'' ->. eexists. split; [|exact (updates_snoc _ _ _ _ _ _ now m Hu)].
      by destruct t. }
  intros _ t3 (claims & -> & Hc). by exists claims, groups.
Qed.
End Write.

(** ** The tables after a pass *)

(** The columns that are written when a group is made, and never again. *)
Definition group_made (r : MonitoredTxGroupDBEntry) : Z * list Z * Z := (ge_GroupID r, ge_DepositIDs r, ge_CreatedAt r).

(** The tables hold the memory and, apart from it, exactly what they held: a group of the
    memory is in one row, a row of a group is one of the memory or one from before whose
    group is not part of it, and so are the rows of the claims; the other tables are as
    before. *)
Record stores (t : Tables) (p' : PendingTxs) (t' : Tables) : Prop := {
  stores_groups id g : p_GroupTx p' !! id = Some g →
    ∃ row, row ∈ t_monitored_txs_group t' ∧ ge_GroupID row = id ∧ entry_matches (gr_DbEntry g) row;
  stores_claims id g tx : p_GroupTx p' !! id = Some g → tx ∈ gr_Txs g →
    ∃ row, row ∈ t_monitored_txs t' ∧ m_GroupID row = Some id ∧ claim_matches tx row;
  stores_other_groups row : row ∈ t_monitored_txs_group t → p_GroupTx p' !! ge_GroupID row = None →
    row ∈ t_monitored_txs_group t';
  stores_other_claims row : row ∈ t_monitored_txs t →
    (∀ id g tx, p_GroupTx p' !! id = Some g → tx ∈ gr_Txs g → m_DepositID tx ≠ m_DepositID row) →
    row ∈ t_monitored_txs t';
  stores_only_groups row : row ∈ t_monitored_txs_group t' →
    match p_GroupTx p' !! ge_GroupID row with
    | Some g => entry_matches (gr_DbEntry g) row
    | None => row ∈ t_monitored_txs_group t
    end;
  stores_only_claims row : row ∈ t_monitored_txs t' →
    (∃ id g tx, p_GroupTx p' !! id = Some g ∧ tx ∈ gr_Txs g ∧ m_GroupID row = Some id ∧ claim_matches tx row) ∨
    row ∈ t_monitored_txs t ∧ ∀ id g tx, p_GroupTx p' !! id = Some g → tx ∈ gr_Txs g → m_DepositID tx ≠ m_DepositID row;
  stores_added : ∃ added, group_made <$> t_monitored_txs_group t' = (group_made <$> t_monitored_txs_group t) ++ (group_made <$> added) ∧
    ∀ e, e ∈ added → ∃ g, p_GroupTx p' !! ge_GroupID e = Some g ∧ ge_DepositIDs e = GetTxsDepositID g ∧ ge_CreatedAt e = ge_CreatedAt (gr_DbEntry g);
  stores_group_once : NoDup (ge_GroupID <$> t_monitored_txs_group t');
  stores_ids : m_DepositID <$> t_monitored_txs t' = m_DepositID <$> t_monitored_txs t;
  stores_rest : t' = withClaims (t_monitored_txs t') (t_monitored_txs_group t') t;
}.

Section Stores.
Context (t : Tables) (p p' : PendingTxs).
Context (Hload : loaded t p) (Hproc : processed p p') (Hnd : NoDup (m_DepositID <$> t_monitored_txs t)).
Context (Hndg : NoDup (ge_GroupID <$> t_monitored_txs_group t)).

Lemma processed_old id g' old :
  p_GroupTx p' !! id = Some g' → p_GroupTx p !! id = Some old → same_group old g'.
Proof.
  destruct Hproc as (p3 & [Hsame _] & Hcr). intros Hg' Hold. specialize (Hsame id). rewrite Hold in Hsame.
  destruct (p_GroupTx p3 !! id) as [g3|] eqn:E3; inversion Hsame; subst. destruct Hcr as [Heq|(nid & g & l & Hnone & Heq & _)]; rewrite Heq in Hg'.
  - congruence.
  - rewrite lookup_insert_ne in Hg' by congruence. congruence.
Qed.

Lemma processed_new id g' :
  p_GroupTx p' !! id = Some g' → p_GroupTx p !! id = None →
  ge_GroupID (gr_DbEntry g') = id ∧
  (∃ l, l ⊆ p_TxCandidatesForGroup p ∧ gr_Txs g' = set_m_GroupID (Some id) <$> l) ∧
  ∀ id2 g2, p_GroupTx p' !! id2 = Some g2 → p_GroupTx p !! id2 = None → id2 = id.
Proof.
  destruct Hproc as (p3 & [Hsame Hcand] & Hcr). intros Hg' Hnone.
  assert (∀ i, p_GroupTx p !! i = None → p_GroupTx p3 !! i = None) as Hn3.
  { intros i Hi. specialize (Hsame i). rewrite Hi in Hsame. by inversion Hsame. }
  destruct Hcr as [Heq|(nid & g & l & _ & Heq & Hid & Hl & Ht)]; rewrite Heq in *.
  { by rewrite Hn3 in Hg'. }
  assert (∀ i x, <[nid := g]> (p_GroupTx p3) !! i = Some x → p_GroupTx p !! i = None → i = nid ∧ x = g) as Hone.
  { intros i x [[<- <-]|[_ Hi]]%lookup_insert_Some Hpi; [done|]. by rewrite Hn3 in Hi. }
  destruct (Hone id g' Hg' Hnone) as [-> ->]. rewrite Hcand in Hl. split; [done|]. split; [by exists l|].
  intros id2 g2 Hg2 Hn2. by destruct (Hone id2 g2 Hg2 Hn2).
Qed.

Lemma processed_number id g' : p_GroupTx p' !! id = Some g' → ge_GroupID (gr_DbEntry g') = id.
Proof.
  intros Hg'. destruct (p_GroupTx p !! id) as [old|] eqn:Eo; [|by apply processed_new].
  destruct (processed_old id g' old Hg' Eo) as [-> _].
  destruct (loaded_entry _ _ Hload id old Eo) as (row & _ & <- & ->). done.
Qed.

(** A claim in memory is a row of the table with a status or a group of its own. *)
Lemma processed_row id g' tx :
  p_GroupTx p' !! id = Some g' → tx ∈ gr_Txs g' →
  m_GroupID tx = Some id ∧ ∃ row, row ∈ t_monitored_txs t ∧ m_DepositID row = m_DepositID tx ∧
    match p_GroupTx p !! id with
    | Some old => row ∈ gr_Txs old ∧ m_GroupID row = Some id
    | None => m_GroupID row = None ∧ tx = set_m_GroupID (Some id) row
    end.
Proof.
  intros Hg' Htx. destruct (p_GroupTx p !! id) as [old|] eqn:Eo.
  - destruct (processed_old id g' old Hg' Eo) as [_ (o & Ht)]. rewrite Ht in Htx.
    apply list_elem_of_fmap in Htx as (row & -> & Hrow). destruct (loaded_txs _ _ Hload id old row Eo Hrow) as [Hin Hgid].
    split; [by destruct o|]. exists row. split; [done|]. split; [by destruct o|done].
  - destruct (processed_new id g' Hg' Eo) as (_ & (l & Hl & Ht) & _). rewrite Ht in Htx.
    apply list_elem_of_fmap in Htx as (row & -> & Hrow). split; [done|]. exists row.
    destruct (loaded_candidates _ _ Hload row (Hl row Hrow)) as [Hin Hgid]. done.
Qed.

(** The number of the deposit identifies the claim in memory. *)
Lemma processed_unique id1 g1 tx1 id2 g2 tx2 :
  p_GroupTx p' !! id1 = Some g1 → tx1 ∈ gr_Txs g1 → p_GroupTx p' !! id2 = Some g2 → tx2 ∈ gr_Txs g2 →
  m_DepositID tx1 = m_DepositID tx2 → tx1 = tx2.
Proof.
  intros Hg1 Ht1 Hg2 Ht2 Hd.
  destruct (processed_row _ _ _ Hg1 Ht1) as (_ & r1 & Hr1 & Hd1 & Hm1).
  destruct (processed_row _ _ _ Hg2 Ht2) as (_ & r2 & Hr2 & Hd2 & Hm2).
  assert (r1 = r2) as <- by (eapply (NoDup_fmap_inj m_DepositID); [exact Hnd|done..|congruence]).
  destruct (p_GroupTx p !! id1) as [o1|] eqn:E1, (p_GroupTx p !! id2) as [o2|] eqn:E2.
  - destruct Hm1 as [Hin1 Hi1], Hm2 as [Hin2 Hi2]. assert (id1 = id2) as <- by congruence.
    assert (g2 = g1) as -> by congruence. destruct (processed_old _ _ _ Hg1 E1) as [_ (o & Ht)]. rewrite Ht in Ht1, Ht2.
    apply list_elem_of_fmap in Ht1 as (a & -> & Ha), Ht2 as (b & -> & Hb). f_equal.
    destruct (loaded_txs _ _ Hload _ _ _ E1 Ha) as [Ha' _], (loaded_txs _ _ Hload _ _ _ E1 Hb) as [Hb' _].
    eapply (NoDup_fmap_inj m_DepositID); [exact Hnd|done..|]. by destruct o.
  - destruct Hm1 as [_ Hi1], Hm2 as [Hi2 _]. congruence.
  - destruct Hm1 as [Hi1 _], Hm2 as [_ Hi2]. congruence.
  - destruct Hm1 as [_ ->], Hm2 as [_ ->]. destruct (processed_new _ _ Hg2 E2) as (_ & _ & Hone).
    by rewrite (Hone id1 g1 Hg1 E1).
Qed.

(** The groups that are made, with their claims. *)
Lemma groups_added sc groups :
  sourced p p' sc →
  groupUpdates (t_monitored_txs_group t ++ (set_ge_LastLog "" <$> sg_AddGroups sc)) (sg_UpdateGroups sc) groups →
  ∃ added, group_made <$> groups = (group_made <$> t_monitored_txs_group t) ++ (group_made <$> added) ∧
    ∀ e, e ∈ added → ∃ g, p_GroupTx p' !! ge_GroupID e = Some g ∧ ge_DepositIDs e = GetTxsDepositID g ∧ ge_CreatedAt e = ge_CreatedAt (gr_DbEntry g).
Proof.
  intros [Hadd _] Hg. exists (set_ge_LastLog "" <$> sg_AddGroups sc). split.
  - by rewrite <- fmap_app, (updates_kept ge_GroupID ge_GroupID updGroup group_made _ _ _ (λ _ _ _, eq_refl) Hg).
  - intros e (e' & -> & He)%list_elem_of_fmap. destruct (Hadd e' He) as (id & g & now & Hg' & _ & ->). exists g.
    cbn. by rewrite (processed_number id g Hg').
Qed.

(** A row that is not written is the one of its group in memory, which did not change. *)
Lemma kept_group sc row g :
  covers p p' (λ id, is_Some (p_GroupTx p' !! id)) sc →
  NoDup (ge_GroupID <$> (t_monitored_txs_group t ++ (set_ge_LastLog "" <$> sg_AddGroups sc))) →
  (∀ e, e ∈ sg_UpdateGroups sc → ge_GroupID e ≠ ge_GroupID row) →
  row ∈ t_monitored_txs_group t → p_GroupTx p' !! ge_GroupID row = Some g → entry_matches (gr_DbEntry g) row.
Proof.
  intros [Hcadd Hcupd] Hone Hne Hrow Hg. pose proof (processed_number _ g Hg) as Hid.
  destruct (p_GroupTx p !! ge_GroupID row) as [old|] eqn:Eo.
  - destruct (loaded_entry _ _ Hload _ old Eo) as (row' & Hrow' & Hid' & Hent).
    assert (row' = row) as -> by (eapply (NoDup_fmap_inj ge_GroupID); [exact Hndg|done..]).
    destruct (Hcupd (ge_GroupID row) g old) as [Heq|(now & Hin)]; [by eauto|done..|by rewrite <- Heq, Hent|].
    destruct (Hne _ Hin). exact Hid.
  - destruct (Hcadd (ge_GroupID row) g) as (now & Hin); [by eauto|done..|].
    rewrite fmap_app in Hone. apply NoDup_app in Hone as (_ & Hdis & _).
    destruct (Hdis (ge_GroupID row)); [by apply list_elem_of_fmap_2|].
    apply list_elem_of_fmap. exists (set_ge_LastLog "" (addEntry now g)). split; [cbn; congruence|]. by apply list_elem_of_fmap_2.
Qed.

(** The groups of the written table. *)
Lemma groups_stored sc groups :
  sourced p p' sc → covers p p' (λ id, is_Some (p_GroupTx p' !! id)) sc →
  NoDup (ge_GroupID <$> (t_monitored_txs_group t ++ (set_ge_LastLog "" <$> sg_AddGroups sc))) →
  groupUpdates (t_monitored_txs_group t ++ (set_ge_LastLog "" <$> sg_AddGroups sc)) (sg_UpdateGroups sc) groups →
  (∀ id g, p_GroupTx p' !! id = Some g →
     ∃ row, row ∈ groups ∧ ge_GroupID row = id ∧ entry_matches (gr_DbEntry g) row) ∧
  (∀ row, row ∈ t_monitored_txs_group t → p_GroupTx p' !! ge_GroupID row = None → row ∈ groups) ∧
  (∀ row, row ∈ groups →
     match p_GroupTx p' !! ge_GroupID row with
     | Some g => entry_matches (gr_DbEntry g) row
     | None => row ∈ t_monitored_txs_group t
     end) ∧
  NoDup (ge_GroupID <$> groups).
Proof.
  intros [Hadd Hupd] [Hcadd Hcupd] Hone Hg.
  assert (∀ e, e ∈ sg_UpdateGroups sc → ∃ g now, p_GroupTx p' !! ge_GroupID e = Some g ∧
    is_Some (p_GroupTx p !! ge_GroupID e) ∧ e = set_ge_UpdatedAt now (gr_DbEntry g)) as Hupd'.
  { intros e He. destruct (Hupd e He) as (id & g & now & Hg' & Hold & ->).
    exists g, now. cbn. by rewrite (processed_number id g Hg'). }
  assert (∀ e1 e2 r, e1 ∈ sg_UpdateGroups sc → e2 ∈ sg_UpdateGroups sc → ge_GroupID e1 = ge_GroupID e2 →
    entry_matches e2 r → entry_matches e1 r) as Hcons.
  { intros e1 e2 r He1 He2 Hid. destruct (Hupd' e1 He1) as (g1 & n1 & Hg1 & _ & ->), (Hupd' e2 He2) as (g2 & n2 & Hg2 & _ & ->).
    rewrite Hid in Hg1. by assert (g1 = g2) as -> by congruence. }
  assert (∀ now e r, ge_GroupID r = ge_GroupID e → entry_matches e (updGroup now e r)) as Hum by done.
  destruct (updates_spec ge_GroupID ge_GroupID updGroup entry_matches (λ _ _ _, eq_refl) Hum _ _ _ Hg Hcons) as (Hgids & Hgkeep & Hgm).
  split; [|split; [|split; [|by rewrite Hgids]]].
  - intros id g Hg'. destruct (p_GroupTx p !! id) as [old|] eqn:Eo.
    + destruct (loaded_entry _ _ Hload id old Eo) as (row & Hrow & Hid & Hent).
      destruct (decide (Exists (λ e, ge_GroupID e = id) (sg_UpdateGroups sc))) as [(e & He & Heid)%Exists_exists|Hno].
      * destruct (updates_row ge_GroupID ge_GroupID updGroup entry_matches (λ _ _ _, eq_refl) Hum _ _ _ row e Hg Hcons)
          as (r' & Hr' & Hk & Hm); [apply elem_of_app; by left|done|congruence|].
        exists r'. split; [done|]. split; [congruence|]. destruct (Hupd' e He) as (g2 & now & Hg2 & _ & ->).
        rewrite Heid in Hg2. by assert (g2 = g) as <- by congruence.
      * destruct (Hcupd id g old) as [Heq|(now & Hin)]; [eauto|done..| |].
        -- exists row. split; [|split; [done|by rewrite <- Heq, Hent]].
           apply Hgkeep; [apply elem_of_app; by left|]. intros e He Heid. apply Hno, Exists_exists. exists e.
           split; [done|]. by rewrite Heid.
        -- destruct Hno. apply Exists_exists. eexists. split; [exact Hin|]. cbn. by apply processed_number.
    + destruct (Hcadd id g) as (now & Hin); [eauto|done..|]. pose proof (processed_number id g Hg') as Hid.
      exists (set_ge_LastLog "" (addEntry now g)). split; [|done].
      apply Hgkeep; [apply elem_of_app; right; by apply list_elem_of_fmap_2|]. intros e He Heid. cbn in Heid.
      destruct (Hupd' e He) as (g2 & n2 & _ & Hold & _). rewrite Heid, Hid, Eo in Hold. by destruct Hold.
  - intros row Hrow Hnone. apply Hgkeep; [apply elem_of_app; by left|]. intros e He Heid.
    destruct (Hupd' e He) as (g & now & Hg' & _). rewrite Heid in Hg'. congruence.
  - intros row Hrow.
    destruct (decide (Exists (λ e, ge_GroupID e = ge_GroupID row) (sg_UpdateGroups sc))) as [(e & He & Heid)%Exists_exists|Hno].
    { pose proof (Hgm e row He Hrow (eq_sym Heid)) as Hm. destruct (Hupd' e He) as (g & now & Hg' & _ & Ee).
      rewrite Heid in Hg'. rewrite Hg'. by subst e. }
    assert (∀ e, e ∈ sg_UpdateGroups sc → ge_GroupID e ≠ ge_GroupID row) as Hne.
    { intros e He Heid. apply Hno, Exists_exists. by exists e. }
    pose proof (updates_other ge_GroupID ge_GroupID updGroup (λ _ _ _, eq_refl) _ _ _ row Hg Hrow Hne) as Hbefore.
    apply elem_of_app in Hbefore as [Hold|(e & -> & He)%list_elem_of_fmap].
    + destruct (p_GroupTx p' !! ge_GroupID row) as [g|] eqn:Eg; [|done]. by apply (kept_group sc row g).
    + destruct (Hadd e He) as (id & g & now & Hg' & _ & ->). cbn. by rewrite (processed_number id g Hg'), Hg'.
Qed.

(** The claims of the written table. *)
Lemma claims_stored txs claims :
  (∀ x, x ∈ txs → ∃ id g, p_GroupTx p' !! id = Some g ∧ x ∈ gr_Txs g) →
  (∀ id g x, p_GroupTx p' !! id = Some g → x ∈ gr_Txs g →
     x ∈ txs ∨ ∃ old, p_GroupTx p !! id = Some old ∧ x ∈ gr_Txs old) →
  claimUpdates (t_monitored_txs t) txs claims →
  (∀ id g tx, p_GroupTx p' !! id = Some g → tx ∈ gr_Txs g →
     ∃ row, row ∈ claims ∧ m_GroupID row = Some id ∧ claim_matches tx row) ∧
  (∀ row, row ∈ t_monitored_txs t →
     (∀ id g tx, p_GroupTx p' !! id = Some g → tx ∈ gr_Txs g → m_DepositID tx ≠ m_DepositID row) → row ∈ claims) ∧
  (∀ row, row ∈ claims →
     (∃ id g tx, p_GroupTx p' !! id = Some g ∧ tx ∈ gr_Txs g ∧ m_GroupID row = Some id ∧ claim_matches tx row) ∨
     row ∈ t_monitored_txs t ∧ ∀ id g tx, p_GroupTx p' !! id = Some g → tx ∈ gr_Txs g → m_DepositID tx ≠ m_DepositID row) ∧
  m_DepositID <$> claims = m_DepositID <$> t_monitored_txs t.
Proof.
  intros Htx Hctx Hc.
  assert (∀ x1 x2 r, x1 ∈ txs → x2 ∈ txs → m_DepositID x1 = m_DepositID x2 →
    claim_matches x2 r → claim_matches x1 r) as Hcons.
  { intros x1 x2 r Hx1 Hx2 Hd. destruct (Htx x1 Hx1) as (i1 & g1 & Hg1 & Hin1), (Htx x2 Hx2) as (i2 & g2 & Hg2 & Hin2).
    by rewrite (processed_unique i1 g1 x1 i2 g2 x2). }
  assert (∀ now e r, m_DepositID r = m_DepositID e → claim_matches e (updClaim now e r)) as Hcm by done.
  destruct (updates_spec m_DepositID m_DepositID updClaim claim_matches (λ _ _ _, eq_refl) Hcm _ _ _ Hc Hcons)
    as (Hids & Hkeep & Hcmt).
  split; [|split; [|split; [|exact Hids]]].
  - intros id g tx Hg' Hin. destruct (processed_row id g tx Hg' Hin) as (Hgid & row & Hrow & Hd & _).
    destruct (decide (Exists (λ x, m_DepositID x = m_DepositID tx) txs)) as [(x & Hx & Hxd)%Exists_exists|Hno].
    + destruct (updates_row m_DepositID m_DepositID updClaim claim_matches (λ _ _ _, eq_refl) Hcm _ _ _ row x Hc Hcons)
        as (r' & Hr' & Hk & Hm); [done..|congruence|]. destruct (Htx x Hx) as (i & g2 & Hg2 & Hin2).
      rewrite (processed_unique i g2 x id g tx) in Hm by done. exists r'. split; [done|]. split; [|done].
      destruct Hm as (_ & _ & _ & _ & _ & _ & _ & _ & _ & ->). done.
    + destruct (Hctx id g tx Hg' Hin) as [Hx|(old & Hold & Hin')].
      * destruct Hno. apply Exists_exists. by exists tx.
      * destruct (loaded_txs _ _ Hload id old tx Hold Hin') as [Ht _]. exists tx. split; [|done].
        apply Hkeep; [done|]. intros e He Hed. apply Hno, Exists_exists. by exists e.
  - intros row Hrow Hnot. apply Hkeep; [done|]. intros x Hx. destruct (Htx x Hx) as (id & g & Hg' & Hin). by eapply Hnot.
  - intros row Hrow. destruct (decide (Exists (λ x, m_DepositID x = m_DepositID row) txs)) as [(x & Hx & Hxd)%Exists_exists|Hno].
    { left. destruct (Htx x Hx) as (id & g & Hg' & Hin). pose proof (Hcmt x row Hx Hrow (eq_sym Hxd)) as Hm.
      exists id, g, x. split_and!; [done..| |done]. destruct Hm as (_ & _ & _ & _ & _ & _ & _ & _ & _ & ->).
      by destruct (processed_row id g x Hg' Hin). }
    assert (∀ x, x ∈ txs → m_DepositID x ≠ m_DepositID row) as Hne.
    { intros x Hx Hd. apply Hno, Exists_exists. by exists x. }
    pose proof (updates_other m_DepositID m_DepositID updClaim (λ _ _ _, eq_refl) _ _ _ row Hc Hrow Hne) as Hold.
    destruct (decide (map_Exists (λ id g, Exists (λ tx, m_DepositID tx = m_DepositID row) (gr_Txs g)) (p_GroupTx p')))
      as [(id & g & Hg' & (tx & Hin & Hd)%Exists_exists)|Hnone].
    + left. destruct (Hctx id g tx Hg' Hin) as [Hx|(old & Eo & Hin')]; [by destruct (Hne tx Hx)|].
      destruct (loaded_txs _ _ Hload id old tx Eo Hin') as [Ht Hgid].
      assert (tx = row) as -> by (eapply (NoDup_fmap_inj m_DepositID); [exact Hnd|done..]). by exists id, g, row.
    + right. split; [done|]. intros id g tx Hg' Hin Hd. apply Hnone. exists id, g. split; [done|]. apply Exists_exists. by exists tx.
Qed.
End Stores.

(** ** The pass *)
Section Pass.
Context {W C : Type} `{NonceLru C} `{L2Node W} `{ClaimCompressor W} `{BridgeAbi} `{MapRangeLaws}.
Context (cfg : ConfigGroupingClaims) (authGasLimit : option Z) (gasOffset rollupID : Z).

Lemma tpost_returns {A} (c : M (ManState W C) A) t Q :
  keeps (sees t) c → returns c Q → tpost c t (λ a t', t' = t ∧ Q a).
Proof. intros Hk Hr y a y' Hy E. destruct (tpost_keeps c t Hk y a y' Hy E) as (t' & Hy' & ->). exists t. eauto. Qed.

(** Loading changes neither the node nor the nonces. *)
Definition outside (w : W) (c : C) (y : ManState W C) : Prop := ms_world y = w ∧ ms_nonceCache y = c.
Lemma getPendingTxs_outside w c : keeps (outside w c) (getPendingTxs rollupID InTx).
Proof.
  assert (∀ A (q : M DB A), keeps (outside w c) (at_db q)) as Hdb.
  { intros A q y Hy. unfold at_db, zoom. by destruct (q (ms_db y)). }
  unfold getPendingTxs, orErr. keeps_auto.
Qed.

(** Loading in a transaction that sees [t]. *)
Lemma getPendingTxs_Ok t (y y' : ManState W C) p :
  sees t y → getPendingTxs rollupID InTx y = (Ok p, y') →
  loadPending rollupID t = Ok p ∧ sees t y' ∧ outside (ms_world y) (ms_nonceCache y) y'.
Proof.
  intros Hy E. destruct (getPendingTxs_post rollupID t y p y' Hy E) as (t' & Hy' & Hp & ->).
  pose proof (getPendingTxs_outside (ms_world y) (ms_nonceCache y) y) as Ho. rewrite E in Ho.
  split; [done|]. split; [done|]. by apply Ho.
Qed.

(** The tables [t'] after a pass from [t], with the node and the nonces of [y]. *)
Definition passed (y : ManState W C) (t t' : Tables) : Prop :=
  ∃ p, loadPending rollupID t = Ok p ∧
    ((IsEmpty p = true ∧ t' = t) ∨
     ∃ p' (y1 y2 : ManState W C), sees t y1 ∧ outside (ms_world y) (ms_nonceCache y) y1 ∧
       Process cfg authGasLimit gasOffset p y1 = (Ok p', y2) ∧ stores t p' t').

(** The differences between the memory before and after [Process] are written. *)
Lemma differences_stored t p p' :
  NoDup (m_DepositID <$> t_monitored_txs t) → NoDup (ge_GroupID <$> t_monitored_txs_group t) →
  loaded t p → processed p p' →
  tpost (W := W) (C := C) (sc ← GenerateStoreUpdate p p'; Execute sc InTx) t (λ _ t', stores t p' t').
Proof.
  intros Hnd Hndg Hload Hproc.
  eapply tpost_bind; [apply tpost_returns; [|apply GenerateStoreUpdate_changes]|].
  { unfold GenerateStoreUpdate. keeps_auto. apply node_storeGroups, sees_node. }
  intros sc t1 (-> & Hsc & Hcov & Htx & Hctx). eapply tpost_impl; [apply Execute_writes|].
  intros _ t' (claims & groups & -> & Hone & Hg & Hc).
  pose proof (groups_added t p p' Hload Hproc sc groups Hsc Hg) as Hadded.
  destruct (groups_stored t p p' Hload Hproc Hndg sc groups Hsc Hcov (Hone Hndg) Hg) as (Hgs & Hgo & Hgonly & Hgone).
  destruct (claims_stored t p p' Hload Hproc Hnd _ claims Htx Hctx Hc) as (Hcs & Hco & Hconly & Hids).
  by split.
Qed.

Lemma internalMonitorTxs_passed t (y y' : ManState W C) u :
  NoDup (m_DepositID <$> t_monitored_txs t) → NoDup (ge_GroupID <$> t_monitored_txs_group t) →
  sees t y → internalMonitorTxs cfg authGasLimit gasOffset rollupID InTx y = (Ok u, y') →
  ∃ t', sees t' y' ∧ passed y t t'.
Proof.
  intros Hnd Hndg Hy. unfold internalMonitorTxs, mbind at 1, M_bind at 1.
  destruct (getPendingTxs rollupID InTx y) as [[p|e| |] y1] eqn:E1; try done.
  apply getPendingTxs_Ok with (t := t) in E1 as (Hp & Hy1 & Ho1); [|done].
  destruct (IsEmpty p) eqn:Ee; [intros [= _ <-]; exists t; split; [done|]; exists p; by auto|].
  unfold mbind at 1, M_bind at 1. destruct (getPendingTxs rollupID InTx y1) as [[p2|e| |] y2] eqn:E2; try done.
  apply getPendingTxs_Ok with (t := t) in E2 as (Hp2 & Hy2 & Ho2); [|done]. assert (p2 = p) as -> by congruence.
  unfold mbind at 1, M_bind at 1. destruct (Process cfg authGasLimit gasOffset p y2) as [[p'|e| |] y3] eqn:E3; try done.
  assert (keeps (sees t) (Process (C := C) cfg authGasLimit gasOffset p)) as Hk by apply node_Process, sees_node.
  specialize (Hk y2 Hy2) as Hy3. rewrite E3 in Hy3. intros E4.
  destruct (differences_stored t p p' Hnd Hndg (loadPending_loaded rollupID t p Hp)
              (Process_processed cfg authGasLimit gasOffset p y2 p' y3 E3) y3 u y' Hy3 E4) as (t' & Hs' & Hst).
  exists t'. split; [done|]. exists p. split; [done|]. right. exists p', y2, y3. split_and!; try done.
  destruct Ho1, Ho2. split; congruence.
Qed.
End Pass.

(** C27: a pass over the grouped claims stores everything or nothing, whatever the node, the
    contract and the database do.  Unless it returns without an error, the committed tables
    are the ones before.  Otherwise they hold what [Process], run with the node and the
    nonces as they were, left in memory from the groups and candidates that the tables
    described, and nothing else is changed: every group of the memory is in exactly one
    row, with its status, compressed data, history and number of retries, every claim of a
    group in its row, with its status and the group of which it became a part; every other
    row of a group or of a claim is one from before that is not part of the memory, none of
    these is lost, the groups that the pass made come after them, with the deposits of their
    claims, and all other tables are as before. *)
Theorem MonitorCompressedTxs_stores {W C : Type} `{NonceLru C} `{L2Node W} `{ClaimCompressor W} `{BridgeAbi}
    `{MapRangeLaws} (cfg : ConfigGroupingClaims) (authGasLimit : option Z) (gasOffset rollupID : Z)
    (y y' : ManState W C) (r : result unit) :
  let t := db_committed (ms_db y) in
  let t' := db_committed (ms_db y') in
  NoDup (m_DepositID <$> t_monitored_txs t) → NoDup (ge_GroupID <$> t_monitored_txs_group t) →
  MonitorCompressedTxs cfg authGasLimit gasOffset rollupID y = (r, y') →
  (r ≠ Ok tt → t' = t) ∧
  (r = Ok tt → ∃ p, loadPending rollupID t = Ok p ∧
    ((IsEmpty p = true ∧ t' = t) ∨
     ∃ p' (y1 y2 : ManState W C),
       db_tx (ms_db y1) = Some (TxActive t) ∧ ms_world y1 = ms_world y ∧ ms_nonceCache y1 = ms_nonceCache y ∧
       Process cfg authGasLimit gasOffset p y1 = (Ok p', y2) ∧ stores t p' t')).
Proof.
  intros t t' Hnd Hndg E. split; [intros Hr; by eapply MonitorCompressedTxs_atomic|]. intros ->. unfold t, t' in *. clear t t'.
  revert E. unfold MonitorCompressedTxs, mbind at 1, M_bind at 1, at_db, zoom, BeginDBTransaction.
  destruct (next_fault (ms_db y)) as [b db] eqn:En. apply next_fault_parts in En as (Hcom & _ & _).
  destruct b; [done|]. rewrite <- Hcom in Hnd, Hndg |- *. clear Hcom.
  set (y1 := mkManState _ _ _). assert (sees (db_committed db) y1) as Hs by done.
  unfold mbind at 1, M_bind at 1, attempt.
  destruct (internalMonitorTxs cfg authGasLimit gasOffset rollupID InTx y1) as [[u|e| |] y2] eqn:Ei; try done.
  - destruct (internalMonitorTxs_passed cfg authGasLimit gasOffset rollupID _ y1 y2 u Hnd Hndg Hs Ei) as (t' & Hs' & p & Hp & Hpass).
    unfold Commit. destruct (next_fault (ms_db y2)) as [b db2] eqn:En. apply next_fault_parts in En as (_ & Htx & _).
    unfold sees in Hs'. rewrite Hs' in Htx. rewrite Htx. destruct b; [done|]. intros [= <-]. exists p. split; [done|].
    destruct Hpass as [Hpass|(p' & z1 & z2 & Hz & [Hw Hc] & EP & Hst)]; [by left|]. right. exists p', z1, z2. by split_and!.
  - unfold mbind, M_bind. destruct (Rollback InTx (ms_db y2)) as [[] ?]; done.
Qed.

(** ** A witness *)
#[local] Existing Instance toyc_lru.
#[local] Existing Instance toyc_node.
#[local] Existing Instance toyc_compressor.
#[local] Existing Instance toyc_abi.
#[local] Existing Instance toyc_range.
#[local] Existing Instance toyc_range_laws.

(** Group 1 was compressed and never sent, claims 2 and 3 are candidates, claim 4 is of
    another network. *)
Definition toyc_deposit (id dest : Z) : deposit_row := mk_deposit_row id 0 0 0 0 7 dest 200 1 id 5 [] true false.
Definition toyc_tables : Tables :=
  on_deposit (λ _, [toyc_deposit 1 1; toyc_deposit 2 1; toyc_deposit 3 1; toyc_deposit 4 2])
    (withClaims [toyc_mTx 1 (Some 1); toyc_mTx 2 None; toyc_mTx 3 None; toyc_mTx 4 None]
      [mkMonitoredTxGroupDBEntry 1 MonitoredTxGroupStatusCreated [1] (Some [9; 9]) None 4000 4000 0 ""] emptyTables).
Definition toyc_before : ManState unit (gmap Address Z) :=
  mkManState tt (mkDB toyc_tables None (mkSeqs 1 1 1 1 1 1 1 1) []) ∅.
Definition toyc_after : ManState unit (gmap Address Z) :=
  snd (MonitorCompressedTxs (toyc_cfg 5) None 100 1 toyc_before).

Lemma MonitorCompressedTxs_stores_witness :
  fst (MonitorCompressedTxs (toyc_cfg 5) None 100 1 toyc_before) = Ok tt ∧
  ∃ p', stores toyc_tables p' (db_committed (ms_db toyc_after)).
Proof.
  assert (fst (MonitorCompressedTxs (toyc_cfg 5) None 100 1 toyc_before) = Ok tt) as Hok by (vm_compute; reflexivity).
  split; [exact Hok|].
  destruct (MonitorCompressedTxs_stores (toyc_cfg 5) None 100 1 toyc_before toyc_after
    (fst (MonitorCompressedTxs (toyc_cfg 5) None 100 1 toyc_before))) as [_ Hst].
  - apply (bool_decide_unpack _). vm_compute. exact I.
  - apply (bool_decide_unpack _). vm_compute. exact I.
  - apply surjective_pairing.
  - destruct (Hst Hok) as (p & Hp & [[He _]|(p' & _ & _ & _ & _ & _ & _ & Hs)]); [|by exists p'].
    vm_compute in Hp. injection Hp as <-. vm_compute in He. discriminate He.
Defined.

(** Group 1 was sent and confirmed, group 2 was made of the candidates. *)
Example toyc_after_rows :
  ((λ g, (ge_GroupID g, ge_Status g, ge_DepositIDs g, ge_NumRetries g)) <$>
     t_monitored_txs_group (db_committed (ms_db toyc_after)),
   (λ m, (m_DepositID m, m_Status m, m_GroupID m)) <$> t_monitored_txs (db_committed (ms_db toyc_after))) =
  ([(1, MonitoredTxGroupStatusConfirmed, [1], 1); (2, MonitoredTxGroupStatusCreated, [2; 3], 0)],
   [(1, MonitoredTxStatusConfirmed, Some 1); (2, MonitoredTxStatusCreated, Some 2);
    (3, MonitoredTxStatusCreated, Some 2); (4, MonitoredTxStatusCreated, None)]).
Proof. vm_compute. reflexivity. Qed.
