(* ===== verification/ClaimTxManager.v ===== *)
(** * The claim transaction manager (claimtxman/claimtxman.go, utils/client.go: BuildSendClaim)

    A new global exit root makes deposits ready to be claimed ([updateDepositsStatus]);
    then a claim transaction is created for every deposit that the service claims on
    behalf of its receiver ([processPendingDeposits]).  The proofs come from the bridge
    service, the call data from the binding of the bridge contract, which is a parameter
    like the nodes of the two networks.  Log messages are left out, but the arguments
    they evaluate are not: an index out of range in one panics. *)
From S2P Require Import Prelude Types Bytes Hash GlobalIndex ClaimTypes Schema Storage Service.
From S2P Require Import NonceCache MonitorTxs CompressedTxs.

Definition mtHeight : nat := 32.
Definition LeafTypeAsset : Z := 0.
Definition LeafTypeMessage : Z := 1.

(** The fields of claimtxman/config.go that these methods read. *)
Record ManConfig := mkManConfig {
  mc_RetryNumber : Z;
  mc_AuthorizedClaimMessageAddresses : list Address;
  mc_AreClaimsBetweenL2sEnabled : bool;
  mc_IgnoreDepositAfterXL1Blocks : Z;
  mc_GroupingClaimsEnabled : bool
}.

(** The node of L1, and the block of the L2 node that a log message names.  A block is
    its number. *)
Class L1Node (W : Type) := {
  L1BlockNumber : M W Z;
  L1BlockByNumber : Z → M W Z;
  L2BlockByNumber : M W Z
}.

(** The fields of [bind.TransactOpts] that are set, and of the transaction that are read. *)
Record TransactOpts := mkTransactOpts {
  to_NoSend : bool; to_Nonce : option Z; to_GasPrice : option Z; to_GasLimit : Z }.
Record BuiltTx := mkBuiltTx { bt_To : option Address; bt_Data : bytes }.

(** The binding of the bridge contract.  The flag of the parameters is not an argument
    of the methods. *)
Class BridgeBinding (W : Type) := {
  Bridge_ClaimAsset : TransactOpts → bridgeClaimXParams → M W BuiltTx;
  Bridge_ClaimMessage : TransactOpts → bridgeClaimXParams → M W BuiltTx
}.

(** A transaction that the binding builds calls the method of its name with the
    arguments it is given: the ABI unpacks them from the data.  The flag of the record is
    not an argument, and false in what is unpacked. *)
Class BridgeBindingLaws (W : Type) `{BridgeBinding W} `{BridgeAbi} := {
  ClaimAsset_packs : ∀ opts p w tx w', bp_isMessage p = false → Bridge_ClaimAsset opts p w = (Ok tx, w') →
    take 4 (bt_Data tx) = methodClaimAssets_ID ∧ (4 ≤ length (bt_Data tx))%nat ∧
    MethodById methodClaimAssets_ID = Ok tt ∧
    Inputs_Unpack methodClaimAssets_ID (drop 4 (bt_Data tx)) = Ok p;
  ClaimMessage_packs : ∀ opts p w tx w', bp_isMessage p = false → Bridge_ClaimMessage opts p w = (Ok tx, w') →
    take 4 (bt_Data tx) = methodClaimMessages_ID ∧ (4 ≤ length (bt_Data tx))%nat ∧
    MethodById methodClaimMessages_ID = Ok tt ∧
    Inputs_Unpack methodClaimMessages_ID (drop 4 (bt_Data tx)) = Ok p;
  selectors_differ : methodClaimAssets_ID ≠ methodClaimMessages_ID
}.

(** The state that the manager shares with its monitor, and the cache of the service. *)
Record CtmState (W C SC : Type) := mkCtmState { tm_man : ManState W C; tm_proofs : SC }.
Arguments mkCtmState {_ _ _} _ _.
Arguments tm_man {_ _ _} _.
Arguments tm_proofs {_ _ _} _.

Definition isErrExecutionReverted (err : error) : bool :=
  match err with
  | ErrRPC msg | ErrRPCError msg _ _ | Errorf msg => bool_decide (msg = "execution reverted"%string)
  | _ => false
  end.

Section Manager.
Context {W C SC : Type} `{NonceLru C} `{L2Node W} `{L1Node W} `{BridgeBinding W} `{LruCache SC} `{Keccak256}.
Context (cfg : ManConfig) (service : bridgeService) (l2NetworkID rollupID : Z) (authFrom : Address).

Abbreviation CM := (M (CtmState W C SC)).

Definition on_man {A} (c : M (ManState W C) A) : CM A :=
  zoom tm_man (λ m st, mkCtmState m (tm_proofs st)) c.
Definition on_db {A} (c : M DB A) : CM A := on_man (at_db c).
Definition on_node {A} (c : M W A) : CM A := on_man (at_node c).
Definition on_service {A} (c : M (DB * SC) A) : CM A :=
  zoom (λ st, (ms_db (tm_man st), tm_proofs st))
    (λ p st, mkCtmState (mkManState (ms_world (tm_man st)) (fst p) (ms_nonceCache (tm_man st))) (snd p)) c.

Definition rollbackState {A} (tx : dbTx) (err : error) : CM A :=
  rollbackErr ← attempt (on_db (Rollback tx));
  match rollbackErr with
  | inl e => throw e
  | inr _ => throw err
  end.

(** [if err != nil { return tm.rollbackState(dbTx, err) }]. *)
Definition orRollbackState {A} (tx : dbTx) (c : CM A) : CM A :=
  r ← attempt c;
  match r with
  | inl err => rollbackState tx err
  | inr a => mret a
  end.

(** ** The status of the deposits *)

Definition isL2ExitRootUpdate (ger : GlobalExitRoot) : bool :=
  bool_decide (g_BlockID ger ≠ 0 ∧ g_NetworkID ger = 0).

Definition updateDepositsStatus (ger : GlobalExitRoot) : CM unit :=
  tx ← on_db BeginDBTransaction;
  (if isL2ExitRootUpdate ger then
     root ← lift (at_index (g_ExitRoots ger) 1);
     orRollbackState tx (on_db (UpdateL2DepositsStatus root rollupID l2NetworkID true tx))
   else
     root ← lift (at_index (g_ExitRoots ger) 0);
     orRollbackState tx (on_db (UpdateL1DepositsStatus root l2NetworkID tx));;
     root ← lift (at_index (g_ExitRoots ger) 1);
     orRollbackState tx (on_db (UpdateL2DepositsStatus root rollupID l2NetworkID false tx)));;
  orRollbackState tx (on_db (Commit tx)).

(** ** Building a claim *)

(** The claim of a deposit; nothing is built for a leaf type that is neither an asset
    nor a message. *)
Definition claimParams (deposit : Deposit) (smtProof smtRollupProof : list Hash) (globalIndex : Z)
    (mainnetExitRoot rollupExitRoot : Hash) : bridgeClaimXParams :=
  mkBridgeClaimXParams smtProof smtRollupProof globalIndex mainnetExitRoot rollupExitRoot
    (u32 (d_OriginalNetwork deposit)) (d_OriginalAddress deposit) (u32 (d_DestinationNetwork deposit))
    (d_DestinationAddress deposit) (d_Amount deposit) (d_Metadata deposit) false.

Definition BuildSendClaim (deposit : Deposit) (smtProof smtRollupProof : list Hash) (globalExitRoot : GlobalExitRoot)
    (nonce gasPrice gasLimit : Z) : M W (option BuiltTx) :=
  let opts := mkTransactOpts true (Some nonce) (Some gasPrice) gasLimit in
  let mainnetFlag := bool_decide (d_NetworkID deposit = 0) in
  let rollupIndex := if mainnetFlag then 0 else u32 (d_NetworkID deposit - 1) in
  globalIndex ← lift (GenerateGlobalIndex mainnetFlag rollupIndex (d_DepositCount deposit));
  if decide (d_LeafType deposit = LeafTypeAsset ∨ d_LeafType deposit = LeafTypeMessage) then
    mainnetExitRoot ← lift (at_index (g_ExitRoots globalExitRoot) 0);
    rollupExitRoot ← lift (at_index (g_ExitRoots globalExitRoot) 1);
    let params := claimParams deposit smtProof smtRollupProof globalIndex mainnetExitRoot rollupExitRoot in
    r ← attempt (if decide (d_LeafType deposit = LeafTypeAsset) then Bridge_ClaimAsset opts params
                 else Bridge_ClaimMessage opts params);
    match r with
    | inl _ => throw (Errorf "failed to build SendClaim tx, err: %v")
    | inr tx => mret (Some tx)
    end
  else mret None.

(** [for i := 0; i < mtHeight; i++ { mtProof[i] = proof[i]; ... }]. *)
Definition proofArrays (proof rollupProof : list Hash) : result (list Hash * list Hash) :=
  fold_result (λ acc i,
    p ← at_index proof (Z.of_nat i);
    r ← at_index rollupProof (Z.of_nat i);
    Ok (acc.1 ++ [p], acc.2 ++ [r])) ([], []) (seq 0 mtHeight).

(** ** addClaimTx *)

Fixpoint estimateClaim_retry (n : nat) (to : option Address) (value : option Z) (data : bytes) (r : error + Z)
    : CM (error + Z) :=
  match n, r with
  | S n, inl err =>
      if isErrExecutionReverted err then mret r else
      r ← attempt (on_node (EstimateGas authFrom to value data));
      estimateClaim_retry n to value data r
  | _, _ => mret r
  end.

(** The gas could not be estimated: the deposit is left for later, or ignored from now
    on when it is older than the configured number of L1 blocks. *)
Definition estimateFailed (deposit : Deposit) (tx : dbTx) : CM unit :=
  _ ← attempt (on_node L2BlockByNumber);
  n ← attempt (on_node L1BlockNumber);
  match n with
  | inl _ => mret tt
  | inr currentL1BlockNumber =>
      b ← attempt (on_node (L1BlockByNumber currentL1BlockNumber));
      match b with
      | inl _ => mret tt
      | inr currentL1Block =>
          if decide (u64 (d_BlockNumber deposit + mc_IgnoreDepositAfterXL1Blocks cfg) < currentL1Block)
          then _ ← attempt (on_db (IgnoreDeposit (d_Id deposit) tx)); mret tt
          else mret tt
      end
  end.

Definition addClaimTx (deposit : Deposit) (to : option Address) (value : option Z) (data : bytes) (ger : Hash)
    (tx : dbTx) : CM unit :=
  r ← attempt (on_node (EstimateGas authFrom to value data));
  r ← estimateClaim_retry (Z.to_nat (mc_RetryNumber cfg - 1)) to value data r;
  match r with
  | inl _ => estimateFailed deposit tx
  | inr gas =>
      nonce ← attempt (on_man (GetNextNonce authFrom));
      match nonce with
      | inl _ => throw (Errorf "rollupID: %d, failed to get current nonce: %v")
      | inr nonce =>
          now ← on_node Now;
          r ← attempt (on_db (AddClaimTx now (mkMonitoredTx (d_Id deposit) authFrom to nonce value data gas None
                MonitoredTxStatusCreated ∅ 0 0 None ger) tx));
          match r with
          | inl _ => throw (Errorf "rollupID: %d, failed to add tx to get monitored: %v")
          | inr _ => mret tt
          end
      end
  end.

(** ** processPendingDeposits *)

Definition isDepositMessageAllowed (deposit : Deposit) : bool :=
  existsb (λ addr, bool_decide (d_OriginalAddress deposit = addr)) (mc_AuthorizedClaimMessageAddresses cfg).

(** for _, addr := range AuthorizedClaimMessageAddresses. *)
Fixpoint messageDeposits (addrs : list Address) (deposits : list Deposit) (tx : dbTx) : CM (list Deposit) :=
  match addrs with
  | [] => mret deposits
  | addr :: addrs =>
      '(msgDeposits, _) ← orRollbackState tx (on_db (GetPendingDepositsToClaim addr l2NetworkID LeafTypeMessage 0 0 0 tx));
      messageDeposits addrs (deposits ++ msgDeposits) tx
  end.

(** GetLatestTrustedGERByDeposit of the first deposit; asked once more when it is not
    found.  [None]: still missing. *)
Definition trustedGER (deposit : Deposit) (tx : dbTx) : CM (option Hash) :=
  let ask := attempt (on_db (GetLatestTrustedGERByDeposit (d_DepositCount deposit) (d_NetworkID deposit)
                               (d_DestinationNetwork deposit) tx)) in
  r ← ask;
  match r with
  | inr ger => mret (Some ger)
  | inl err =>
      if errors_Is err ErrStorageNotFound then
        r ← ask;
        match r with
        | inr ger => mret (Some ger)
        | inl err => if errors_Is err ErrStorageNotFound then mret None else rollbackState tx err
        end
      else rollbackState tx err
  end.

(** The deposits to claim and the exit root to claim them with; [None]: return nil. *)
Definition depositsToClaim (ger : GlobalExitRoot) (tx : dbTx) : CM (option (list Deposit * Hash)) :=
  if isL2ExitRootUpdate ger then
    _ ← lift (at_index (g_ExitRoots ger) 1);
    if mc_AreClaimsBetweenL2sEnabled cfg then
      deposits ← orRollbackState tx (on_db (GetDepositsFromOtherL2ToClaim l2NetworkID tx));
      match deposits with
      | [] => mret (Some ([], g_GlobalExitRoot ger))
      | deposit :: _ =>
          globalExitRoot ← trustedGER deposit tx;
          mret (match globalExitRoot with None => None | Some g => Some (deposits, g) end)
      end
    else mret (Some ([], g_GlobalExitRoot ger))
  else
    _ ← lift (at_index (g_ExitRoots ger) 0);
    '(deposits, _) ← orRollbackState tx (on_db (GetPendingDepositsToClaim 0 l2NetworkID LeafTypeAsset 0 0 0 tx));
    deposits ← messageDeposits (mc_AuthorizedClaimMessageAddresses cfg) deposits tx;
    mret (Some (deposits, g_GlobalExitRoot ger)).

(** The body of the loop: the claim of one deposit, in a transaction of its own. *)
Definition claimDeposit (globalExitRoot : Hash) (deposit : Deposit) : CM unit :=
  if decide (l2NetworkID ≠ d_DestinationNetwork deposit) then mret tt else
  if bool_decide (d_LeafType deposit = LeafTypeMessage) && negb (isDepositMessageAllowed deposit) then mret tt else
  tx ← on_db BeginDBTransaction;
  '(claimGer, proof, rollupProof) ← orRollbackState tx
     (on_service (GetClaimProofForCompressed service globalExitRoot (d_DepositCount deposit) (d_NetworkID deposit) tx));
  '(mtProof, mtRollupProof) ← lift (proofArrays proof rollupProof);
  root0 ← lift (at_index (g_ExitRoots claimGer) 0);
  root1 ← lift (at_index (g_ExitRoots claimGer) 1);
  built ← orRollbackState tx
     (on_node (BuildSendClaim deposit mtProof mtRollupProof (mkGlobalExitRoot 0 0 [root0; root1] 0 0 0) 1 1 1));
  match built with
  | None => gopanic
  | Some btx =>
      orRollbackState tx (addClaimTx deposit (bt_To btx) None (bt_Data btx) (g_GlobalExitRoot claimGer) tx);;
      orRollbackState tx (on_db (Commit tx))
  end.

(** The mutex makes the calls one after the other. *)
Definition processPendingDeposits (ger : GlobalExitRoot) : CM unit :=
  tx ← on_db BeginDBTransaction;
  r ← depositsToClaim ger tx;
  match r with
  | None => mret tt
  | Some (deposits, globalExitRoot) =>
      orRollbackState tx (on_db (Commit tx));;
      forM_ deposits (claimDeposit globalExitRoot)
  end.

End Manager.
