(* ===== verification/ClaimStatus.v ===== *)
(** * The status of the deposits

    Which deposits [updateDepositsStatus] makes ready to be claimed: exactly those that
    the trees of the new exit roots contain. *)
From S2P Require Import Prelude Types Bytes Hash MerkleSpec ClaimTypes Schema MerkleStore Storage Invariants StorageFacts.
From S2P Require Import PgMerkleStore MerkleTree MerkleTreeFacts ReorgFacts Service NonceCache MonitorTxs CompressedTxs.
From S2P Require Import ClaimTxManager.

(** ** Running on the database of the manager *)

Section OnDb.
Context {W C SC : Type}.
Implicit Types st : CtmState W C SC.

Definition ctm_db (st : CtmState W C SC) : DB := ms_db (tm_man st).
Definition with_db (db : DB) (st : CtmState W C SC) : CtmState W C SC :=
  mkCtmState (mkManState (ms_world (tm_man st)) db (ms_nonceCache (tm_man st))) (tm_proofs st).

Lemma ctm_db_eq {A} (c : M DB A) st r db' : c (ctm_db st) = (r, db') → on_db c st = (r, with_db db' st).
Proof. intros E. unfold on_db, on_man, at_db, zoom. cbn. unfold ctm_db in E. by rewrite E. Qed.

Lemma on_db_bind {A B} (c : M DB A) (f : A → M DB B) st :
  on_db (c ≫= f) st = (on_db c ≫= λ a, on_db (f a)) st.
Proof.
  unfold on_db, on_man, at_db, zoom, mbind, M_bind. destruct st as [m p]. cbn.
  by destruct (c (ms_db m)) as [[a|e| |] db].
Qed.

Lemma with_db_db db st : ctm_db (with_db db st) = db.
Proof. done. Qed.
Lemma with_db_same db st : ctm_db st = db → with_db db st = st.
Proof. by destruct st as [[] ?]; intros <-. Qed.
Lemma with_db_with db db' st : with_db db (with_db db' st) = with_db db st.
Proof. done. Qed.

Lemma orRollbackState_Ok {A} tx (c : M (CtmState W C SC) A) st a st' :
  c st = (Ok a, st') → orRollbackState tx c st = (Ok a, st').
Proof. intros E. unfold orRollbackState. by erewrite M_bind_Ok by (apply attempt_Ok, E). Qed.

End OnDb.

(** ** The counts under a root *)

(** The root [root] of network [net] is recorded once, at the deposit with count [n - 1]. *)
Definition root_of_count (t : Tables) (net : Z) (root : Hash) (n : nat) : Prop :=
  scalar (counts_of_root t root net) = inr (Some (Z.of_nat n - 1)).

Section Roots.
Context `{K : Keccak256}.

Lemma filter_imap_one {A B} (f : nat → A → B) (P : B → Prop) `{∀ x, Decision (P x)} (l : list A) (i : nat) (x : A) :
  l !! i = Some x → (∀ j y, l !! j = Some y → P (f j y) ↔ j = i) → filter P (imap f l) = [f i x].
Proof.
  intros Hi HP. rewrite <- (take_drop_middle l i x Hi), imap_app. cbn [imap]. rewrite filter_app, filter_cons.
  assert (i < length l)%nat as Hlt by (by eapply lookup_lt_Some).
  assert (length (take i l) = i) as El by (rewrite length_take; lia).
  rewrite (filter_none _ (imap f (take i l))).
  2: { intros y (j & a & -> & Ha)%elem_of_lookup_imap_1 Hy. apply lookup_take_Some in Ha as [Ha Hj].
       apply (HP j a Ha) in Hy. lia. }
  cbn. rewrite El, Nat.add_0_r. rewrite decide_True by (by apply (HP i x Hi)).
  rewrite filter_none; [done|].
  intros y (j & a & -> & Ha)%elem_of_lookup_imap_1 Hy. rewrite lookup_drop in Ha. unfold compose in Hy.
  rewrite Nat.add_succ_r, <- Nat.add_succ_l in Hy. apply (HP (S i + j)%nat a Ha) in Hy. lia.
Qed.

(** In a stored tree whose roots differ, the root of the first [n] leaves is recorded at
    the last of them. *)
Lemma stored_root_of_count H net lds t s n :
  stored H net lds (tables_view t s) → NoDup (rr_root <$> filter (λ r, rr_network r = net) (t_root t)) →
  (0 < n ≤ length lds)%nat → root_of_count t net (mroot H (take n (fst <$> lds))) n.
Proof.
  intros Hst Hnd Hn. pose proof (st_roots _ _ _ _ Hst) as Hr. cbn in Hr. destruct n as [|m]; [lia|].
  destruct (lookup_lt_is_Some_2 lds m) as [p Hp]; [lia|].
  set (f := λ i (p : Hash * Z), mk_root_row (mroot H (take (S i) (fst <$> lds))) (snd p) net) in Hr.
  unfold root_of_count, counts_of_root.
  assert (filter (λ r, rr_root r = rr_root (f m p) ∧ rr_network r = net) (t_root t) = [f m p]) as E.
  { rewrite <- (list_filter_filter (λ r, rr_root r = rr_root (f m p)) (λ r, rr_network r = net)), Hr.
    rewrite Hr in Hnd. apply filter_imap_one; [done|]. intros j q Hj. split; [|intros ->; by simplify_eq]. intros E.
    eapply (NoDup_lookup _ j m (rr_root (f m p)) Hnd); rewrite list_lookup_fmap, list_lookup_imap; [by rewrite Hj, <- E|by rewrite Hp]. }
  change (mroot H (take (S m) (fst <$> lds))) with (rr_root (f m p)). rewrite E. cbn [mbind list_bind f rr_deposit_id].
  pose proof (st_deps _ _ _ _ Hst _ _ Hp) as Hd. cbn in Hd.
  rewrite (filter_fmap_swap _ _ (λ d, dr_id d = snd p)) in Hd by done.
  destruct (filter (λ d, dr_id d = snd p) (t_deposit t)) as [|d [|]]; cbn in Hd; simplify_eq.
  cbn. do 2 f_equal. lia.
Qed.

End Roots.

(** ** updateDepositsStatus *)

(** The deposits that an exit root makes ready: [n0] deposits of mainnet and [n2] deposits
    of the rollup are in the trees of the exit root. *)
Definition made_ready (ger : GlobalExitRoot) (l2NetworkID : Z) (n0 n2 : nat) (d : deposit_row) : Prop :=
  if isL2ExitRootUpdate ger then
    dr_network_id d = l2NetworkID ∧ dr_dest_net d = 0 ∧ dr_deposit_cnt d < Z.of_nat n2
  else
    (dr_network_id d = 0 ∧ dr_dest_net d = l2NetworkID ∧ dr_deposit_cnt d < Z.of_nat n0) ∨
    (dr_network_id d = l2NetworkID ∧ dr_dest_net d ≠ 0 ∧ dr_deposit_cnt d < Z.of_nat n2).
#[global] Instance made_ready_dec ger l n0 n2 d : Decision (made_ready ger l n0 n2 d).
Proof. unfold made_ready. destruct (isL2ExitRootUpdate ger); apply _. Defined.

Definition mark_ready (P : deposit_row → Prop) `{∀ d, Decision (P d)} (d : deposit_row) : deposit_row :=
  if decide (P d) then set_dr_ready true d else d.

Lemma set_dr_ready_id d : dr_ready_for_claim d = true → set_dr_ready true d = d.
Proof. destruct d. cbn. by intros ->. Qed.

Lemma on_deposit_ext f g t : f (t_deposit t) = g (t_deposit t) → on_deposit f t = on_deposit g t.
Proof. intros E. unfold on_deposit. by rewrite E. Qed.

Lemma set_ready_upto_mark (n : nat) (P : deposit_row → Prop) `{∀ d, Decision (P d)} t :
  set_ready_upto (Some (Z.of_nat n - 1)) P t =
  on_deposit (fmap (mark_ready (λ d, P d ∧ dr_deposit_cnt d < Z.of_nat n))) t.
Proof.
  unfold set_ready_upto. apply on_deposit_ext, list_fmap_ext. intros _ d _. unfold mark_ready.
  case_decide as E1; case_decide as E2; try done; [exfalso; apply E2; repeat split; (apply E1 || lia)|].
  destruct (dr_ready_for_claim d) eqn:Er; [by rewrite set_dr_ready_id|]. exfalso. apply E1. split; [lia|]. by split; [|apply E2].
Qed.

Lemma mark_ready_ext (P Q : deposit_row → Prop) `{∀ d, Decision (P d), ∀ d, Decision (Q d)} (l : list deposit_row) :
  (∀ d, P d ↔ Q d) → mark_ready P <$> l = mark_ready Q <$> l.
Proof. intros E. apply list_fmap_ext. intros _ d _. unfold mark_ready. specialize (E d). do 2 case_decide; tauto. Qed.

Lemma mark_none t (P : deposit_row → Prop) `{∀ d, Decision (P d)} : (∀ d, ¬ P d) → on_deposit (fmap (mark_ready P)) t = t.
Proof.
  intros HP. destruct t. unfold on_deposit. cbn. f_equal. rewrite <- list_fmap_id. apply list_fmap_ext.
  intros _ d _. unfold mark_ready. by rewrite decide_False.
Qed.

Lemma on_deposit_twice f g t : on_deposit f (on_deposit g t) = on_deposit (f ∘ g) t.
Proof. done. Qed.

(** Readiness does not change the counts under a root. *)
Lemma counts_of_root_mark t root net (P : deposit_row → Prop) `{∀ d, Decision (P d)} :
  counts_of_root (on_deposit (fmap (mark_ready P)) t) root net = counts_of_root t root net.
Proof.
  unfold counts_of_root. cbn. apply mbind_ext_list. intros r.
  rewrite (filter_fmap_swap (mark_ready P) _ (λ d, dr_id d = rr_deposit_id r)).
  - rewrite <- list_fmap_compose. apply list_fmap_ext. intros _ d _. unfold mark_ready. cbn. by case_decide.
  - intros d. unfold mark_ready. by case_decide.
Qed.

Section Status.
Context `{K : Keccak256} {W C SC : Type}.
Context (l2NetworkID rollupID : Z).

(** The leaf of the rollup under a rollup exit root is the root of its first [n] leaves,
    or there is none. *)
Definition rollup_count (H : nat) (lds : list (Hash * Z)) (t : Tables) (rollupRoot : Hash) (n : nat) : Prop :=
  let leaves := re_leaf <$> filter (λ r, re_root r = rollupRoot ∧ re_rollup_id r = rollupID) (t_rollup_exit t) in
  (leaves = [] ∧ n = 0%nat) ∨ (leaves = [mroot H (take n (fst <$> lds))] ∧ (0 < n ≤ length lds)%nat).

Lemma UpdateL2_Ok H lds t s h db root n (isL1 : bool) :
  view h db = Some t → db_faults db = [] →
  stored H l2NetworkID lds (tables_view t s) →
  NoDup (rr_root <$> filter (λ r, rr_network r = l2NetworkID) (t_root t)) → rollup_count H lds t root n →
  (∀ d, d ∈ t_deposit t → 0 ≤ dr_deposit_cnt d) →
  UpdateL2DepositsStatus root rollupID l2NetworkID isL1 h db =
    (Ok tt, with_tables h (on_deposit (fmap (mark_ready (λ d, dr_network_id d = l2NetworkID ∧
       (dr_dest_net d = 0 ↔ isL1 = true) ∧ dr_deposit_cnt d < Z.of_nat n))) t) (db_seqs db) db).
Proof.
  intros Hv Hf Hst Hnd Hc Hpos. apply (run_exec_live _ _ _ t); [done..|]. destruct Hc as [[-> ->]|[-> Hn]].
  - cbn. f_equal. destruct t. unfold on_deposit. cbn in *. f_equal. rewrite <- (list_fmap_id t_deposit) at 1.
    apply list_fmap_ext. intros i d Hd. unfold mark_ready. rewrite decide_False; [done|].
    intros (_ & _ & Hlt). specialize (Hpos d (list_elem_of_lookup_2 _ _ _ Hd)). lia.
  - cbn [scalar]. rewrite (stored_root_of_count H l2NetworkID lds t s n Hst Hnd Hn).
    f_equal. destruct isL1; rewrite set_ready_upto_mark; apply on_deposit_ext, mark_ready_ext; intuition done.
Qed.

Lemma stored_mark H net lds t s (P : deposit_row → Prop) `{∀ d, Decision (P d)} :
  stored H net lds (tables_view t s) → stored H net lds (tables_view (on_deposit (fmap (mark_ready P)) t) s).
Proof.
  apply stored_ext; [done..|]. cbn. rewrite <- list_fmap_compose. apply list_fmap_ext. intros _ d _.
  unfold mark_ready. cbn. by case_decide.
Qed.

Lemma UpdateL1_Ok H lds t s h db n :
  view h db = Some t → db_faults db = [] → stored H 0 lds (tables_view t s) →
  NoDup (rr_root <$> filter (λ r, rr_network r = 0) (t_root t)) → (0 < n ≤ length lds)%nat →
  UpdateL1DepositsStatus (mroot H (take n (fst <$> lds))) l2NetworkID h db =
    (Ok tt, with_tables h (on_deposit (fmap (mark_ready (λ d, dr_network_id d = 0 ∧ dr_dest_net d = l2NetworkID ∧
       dr_deposit_cnt d < Z.of_nat n))) t) (db_seqs db) db).
Proof.
  intros Hv Hf Hst Hnd Hn. apply (run_exec_live _ _ _ t); [done..|].
  rewrite (stored_root_of_count H 0 lds t s n Hst Hnd Hn), set_ready_upto_mark. f_equal.
  apply on_deposit_ext, mark_ready_ext. tauto.
Qed.

Lemma Begin_live (db : DB) :
  db_faults db = [] → BeginDBTransaction db = (Ok InTx, mkDB (db_committed db) (Some (TxActive (db_committed db))) (db_seqs db) []).
Proof. destruct db. cbn. by intros ->. Qed.
Lemma Commit_live (db : DB) t :
  db_faults db = [] → db_tx db = Some (TxActive t) → Commit InTx db = (Ok tt, mkDB t None (db_seqs db) []).
Proof. destruct db. cbn. by intros -> ->. Qed.

Lemma then_commit (body : M (CtmState W C SC) unit) st st' t :
  body st = (Ok tt, st') → db_faults (ctm_db st') = [] → db_tx (ctm_db st') = Some (TxActive t) →
  (body;; orRollbackState InTx (on_db (Commit InTx))) st = (Ok tt, with_db (mkDB t None (db_seqs (ctm_db st')) []) st').
Proof.
  intros E Hf Ht. erewrite M_bind_Ok by exact E. by apply orRollbackState_Ok, ctm_db_eq, Commit_live.
Qed.

Lemma mark_ready_twice (P Q R : deposit_row → Prop) `{∀ d, Decision (P d), ∀ d, Decision (Q d), ∀ d, Decision (R d)} t :
  (∀ d v, P (set_dr_ready v d) ↔ P d) → (∀ d, R d ↔ P d ∨ Q d) →
  on_deposit (fmap (mark_ready P)) (on_deposit (fmap (mark_ready Q)) t) = on_deposit (fmap (mark_ready R)) t.
Proof.
  intros HP HR. rewrite on_deposit_twice. apply on_deposit_ext. unfold compose. rewrite <- list_fmap_compose.
  apply list_fmap_ext. intros _ d _. unfold mark_ready, compose. specialize (HR d). pose proof (HP d true).
  destruct (decide (Q d)), (decide (R d)); case_decide; (done || tauto).
Qed.

End Status.

(** C7: when the mainnet root of a new exit root is the root of the first [n0] deposits of
    mainnet and the leaf of the rollup below its rollup root the root of the first [n2]
    deposits of the rollup (or there is none), [updateDepositsStatus] makes ready exactly
    the deposits that these trees contain: an update from L1 those of the rollup to L1, and
    an update from the rollup those of mainnet to the rollup and of the rollup to the other
    rollups.  Nothing else changes. *)
Theorem updateDepositsStatus_correct `{K : Keccak256} {W C SC : Type} (l2NetworkID rollupID : Z) (H : nat)
    (lds0 lds2 : list (Hash * Z)) (n0 n2 : nat) (root1 : Hash) (ger : GlobalExitRoot) (st : CtmState W C SC) :
  let db := ctm_db st in let t := db_committed db in
  db_faults db = [] →
  stored H 0 lds0 (tables_view t (db_seqs db)) → stored H l2NetworkID lds2 (tables_view t (db_seqs db)) →
  NoDup (rr_root <$> filter (λ r, rr_network r = 0) (t_root t)) →
  NoDup (rr_root <$> filter (λ r, rr_network r = l2NetworkID) (t_root t)) →
  Forall (λ d, 0 ≤ dr_deposit_cnt d) (t_deposit t) →
  g_ExitRoots ger = [mroot H (take n0 (fst <$> lds0)); root1] → (0 < n0 ≤ length lds0)%nat →
  rollup_count rollupID H lds2 t root1 n2 →
  updateDepositsStatus l2NetworkID rollupID ger st =
    (Ok tt, with_db (mkDB (on_deposit (fmap (mark_ready (made_ready ger l2NetworkID n0 n2))) t) None (db_seqs db) []) st).
Proof.
  intros db t Hf Hst0 Hst2 Hnd0 Hnd2 Hpos Eg Hn0 Hn2. rewrite Forall_forall in Hpos. unfold updateDepositsStatus.
  erewrite M_bind_Ok by (apply ctm_db_eq, Begin_live, Hf). fold db t.
  set (db1 := mkDB t (Some (TxActive t)) (db_seqs db) []).
  destruct (isL2ExitRootUpdate ger) eqn:Ek; rewrite Eg; cbn [at_index].
  - erewrite then_commit; cycle 1.
    1: { erewrite M_bind_Ok by reflexivity. eapply orRollbackState_Ok, ctm_db_eq.
         by eapply (UpdateL2_Ok l2NetworkID rollupID H lds2 t (db_seqs db)). }
    1: done.
    1: reflexivity.
    rewrite !with_db_with. do 3 f_equal. apply on_deposit_ext, mark_ready_ext.
    intros d. unfold made_ready. rewrite Ek. tauto.
  - erewrite then_commit; cycle 1.
    1: { erewrite M_bind_Ok by reflexivity.
         erewrite M_bind_Ok by (eapply orRollbackState_Ok, ctm_db_eq; by eapply (UpdateL1_Ok l2NetworkID H lds0 t (db_seqs db))).
         erewrite M_bind_Ok by reflexivity. eapply orRollbackState_Ok, ctm_db_eq.
         eapply (UpdateL2_Ok l2NetworkID rollupID H lds2 _ (db_seqs db)); [done|done|by apply stored_mark|done|exact Hn2|].
         intros d (d0 & -> & Hd0)%list_elem_of_fmap. unfold mark_ready. case_decide; apply (Hpos d0 Hd0). }
    1: done.
    1: reflexivity.
    rewrite !with_db_with. do 3 f_equal. apply mark_ready_twice; [done|].
    intros d. unfold made_ready. rewrite Ek. intuition done.
Qed.

(** ** Transactions of the manager *)

Section Settled.
Context {W C SC : Type} (c0 : Tables).
Implicit Types st : CtmState W C SC.

(** Nothing is committed since [c0]; the tables of an open transaction satisfy [P]. *)
Definition tx_open (P : Tables → Prop) (st : CtmState W C SC) : Prop :=
  db_committed (ctm_db st) = c0 ∧ ∀ t, db_tx (ctm_db st) = Some (TxActive t) → P t.
(** Nothing is committed since [c0], and no transaction is open. *)
Definition settled (st : CtmState W C SC) : Prop :=
  db_committed (ctm_db st) = c0 ∧ db_tx (ctm_db st) = None.

Lemma hoare_Begin_open :
  hoare settled (on_db BeginDBTransaction) (λ tx st, tx = InTx ∧ tx_open (λ t, t = c0) st) settled.
Proof.
  intros st [Hc Ht]. unfold on_db, on_man, at_db, zoom, BeginDBTransaction.
  destruct (next_fault (ms_db (tm_man st))) as [b db1] eqn:E. apply next_fault_parts in E as (E1 & E2 & _).
  unfold ctm_db in *. destruct b; cbn; (split; [|split]) || split; cbn; try congruence.
Qed.

Lemma hoare_rollbackState {A} P e (Q : A → CtmState W C SC → Prop) : hoare (tx_open P) (rollbackState InTx e) Q settled.
Proof.
  intros st [Hc Ht]. unfold rollbackState, mbind, M_bind, attempt, on_db, on_man, at_db, zoom, Rollback.
  destruct (next_fault (ms_db (tm_man st))) as [b db1] eqn:E. apply next_fault_parts in E as (E1 & E2 & _).
  unfold ctm_db in *. destruct (db_tx db1) eqn:E3; [destruct b|]; cbn; split; cbn; congruence.
Qed.

(** A step that is rolled back when it fails. *)
Lemma hoare_orRollbackState {A} P (c : M (CtmState W C SC) A) (Q : A → CtmState W C SC → Prop) (R : CtmState W C SC → Prop) :
  (∀ st, tx_open P st → match c st with
     | (Ok a, st') => Q a st' | (Err _, st') => tx_open (λ _, True) st' | (_, st') => R st' end) →
  (∀ st, settled st → R st) → hoare (tx_open P) (orRollbackState InTx c) Q R.
Proof.
  intros Hc HR st Hst. specialize (Hc st Hst). unfold orRollbackState, mbind, M_bind, attempt.
  destruct (c st) as [[a|e| |] st1]; cbn; [done| |done..].
  pose proof (hoare_rollbackState (A := A) (λ _, True) e Q st1 Hc) as Hr.
  destruct (rollbackState InTx e st1) as [[] ?]; auto.
Qed.

Lemma run_open {A} P (Q : A → Tables → Prop) (q : stmt A) st :
  tx_open P st → (∀ t s a t' s', P t → q t s = (inr (a, t'), s') → Q a t') →
  match on_db (run InTx q) st with
  | (Ok a, st') => tx_open (Q a) st' | (Err _, st') => tx_open (λ _, True) st' | (_, st') => settled st' end.
Proof.
  intros [Hc Ht] Hq. unfold on_db, on_man, at_db, zoom, run, ctm_db in *.
  destruct (next_fault (ms_db (tm_man st))) as [b db1] eqn:E. apply next_fault_parts in E as (E1 & E2 & _).
  destruct b; cbn; [split; cbn; [congruence|done]|].
  destruct (db_tx db1) as [[t|]|] eqn:E3; cbn; [|split; cbn; [congruence|done]..].
  destruct (q t (db_seqs db1)) as [[e|[a t']] s'] eqn:Eq; cbn; split; cbn; [congruence|done|congruence|].
  intros t2 [= <-]. eapply Hq; [|exact Eq]. apply Ht. congruence.
Qed.

(** A commit writes the tables of the transaction, or nothing. *)
Lemma hoare_commit_open (P : Tables → Prop) :
  hoare (tx_open P) (orRollbackState InTx (on_db (Commit InTx)))
    (λ _ st, P (db_committed (ctm_db st)) ∧ db_tx (ctm_db st) = None) settled.
Proof.
  apply hoare_orRollbackState; [|done]. intros st [Hc Ht]. unfold on_db, on_man, at_db, zoom, Commit, ctm_db in *.
  destruct (next_fault (ms_db (tm_man st))) as [b db1] eqn:E. apply next_fault_parts in E as (E1 & E2 & _).
  destruct (db_tx db1) as [[t|]|] eqn:E3; [destruct b|..]; cbn; split; cbn; try congruence.
  apply Ht. congruence.
Qed.

End Settled.

(** Some deposits became ready, and nothing else changed. *)
Definition readied (t t' : Tables) : Prop :=
  ∃ l, t' = on_deposit (λ _, l) t ∧ Forall2 (λ d d', d' = d ∨ d' = set_dr_ready true d) (t_deposit t) l.

Lemma readied_refl t : readied t t.
Proof. exists (t_deposit t). split; [by destruct t|]. apply Forall_Forall2_diag, Forall_true. by left. Qed.

Lemma readied_upto b P `{∀ d, Decision (P d)} t t' : readied t t' → readied t (set_ready_upto b P t').
Proof.
  intros (l & -> & Hl). destruct b as [c|]; [|by exists l]. eexists. split; [reflexivity|]. cbn.
  apply Forall2_fmap_r. eapply Forall2_impl; [exact Hl|]. cbn. intros d d' Hd. case_decide; [|done].
  right. by destruct Hd as [-> | ->].
Qed.

(** C21: whatever calls of the database fail, [updateDepositsStatus] either commits a
    change in which deposits only became ready, or it returns an error, leaves the tables as
    they were and no transaction open. *)
Theorem updateDepositsStatus_atomic {W C SC : Type} (l2NetworkID rollupID : Z) (ger : GlobalExitRoot)
    (st st' : CtmState W C SC) (r : result unit) :
  (2 ≤ length (g_ExitRoots ger))%nat → db_tx (ctm_db st) = None →
  updateDepositsStatus l2NetworkID rollupID ger st = (r, st') →
  db_tx (ctm_db st') = None ∧
  match r with
  | Ok _ => readied (db_committed (ctm_db st)) (db_committed (ctm_db st'))
  | _ => db_committed (ctm_db st') = db_committed (ctm_db st)
  end.
Proof.
  intros Hlen Htx E. set (c0 := db_committed (ctm_db st)).
  assert (∀ i, (i < 2)%nat → ∃ root, at_index (g_ExitRoots ger) (Z.of_nat i) = Ok root) as Hroot.
  { intros i Hi. destruct (lookup_lt_is_Some_2 (g_ExitRoots ger) i) as [root Hr]; [lia|]. exists root. by apply at_index_nat. }
  assert (hoare (settled c0) (updateDepositsStatus l2NetworkID rollupID ger)
            (λ _ st, readied c0 (db_committed (ctm_db st)) ∧ db_tx (ctm_db st) = None) (settled (W := W) (C := C) (SC := SC) c0)) as Hh.
  { unfold updateDepositsStatus. destruct (Hroot 0%nat) as [root0 E0], (Hroot 1%nat) as [root1 E1]; [lia..|]. change (Z.of_nat 0) with 0 in E0. change (Z.of_nat 1) with 1 in E1.
    eapply hoare_bind; [apply hoare_Begin_open|]. intros tx. apply hoare_pure. intros ->.
    apply hoare_bind with (λ _, tx_open c0 (readied c0)); [|intros []; apply hoare_commit_open].
    assert (∀ isL1 root, hoare (tx_open (W := W) (C := C) (SC := SC) c0 (readied c0))
              (orRollbackState InTx (on_db (UpdateL2DepositsStatus root rollupID l2NetworkID isL1 InTx)))
              (λ _, tx_open c0 (readied c0)) (settled c0)) as H2.
    { intros isL1 root. apply hoare_orRollbackState; [|done]. intros y Hy.
      apply (run_open c0 (readied c0) (λ _, readied c0) _ y Hy). intros t s a t' s' Ht.
      unfold sql_exec. repeat case_match; intros; simplify_eq; by (apply readied_upto || assumption). }
    assert (∀ root, hoare (tx_open (W := W) (C := C) (SC := SC) c0 (readied c0))
              (orRollbackState InTx (on_db (UpdateL1DepositsStatus root l2NetworkID InTx)))
              (λ _, tx_open c0 (readied c0)) (settled c0)) as H1.
    { intros root. apply hoare_orRollbackState; [|done]. intros y Hy.
      apply (run_open c0 (readied c0) (λ _, readied c0) _ y Hy). intros t s a t' s' Ht.
      unfold sql_exec. repeat case_match; intros; simplify_eq; by (apply readied_upto || assumption). }
    apply hoare_conseq with (P := tx_open c0 (readied c0)) (Q := λ _, tx_open c0 (readied c0)); [|intros y [Hc Ht]; split; [exact Hc|]; intros t Et; rewrite (Ht t Et); apply readied_refl|done].
    destruct (isL2ExitRootUpdate ger); rewrite ?E0, ?E1.
    - eapply hoare_bind; [apply hoare_lift_Ok|]. intros root. apply hoare_pure. intros ->. apply H2.
    - eapply hoare_bind; [apply hoare_lift_Ok|]. intros root. apply hoare_pure. intros ->.
      eapply hoare_bind; [apply H1|]. intros [].
      eapply hoare_bind; [apply hoare_lift_Ok|]. intros root. apply hoare_pure. intros ->. apply H2. }
  specialize (Hh st (conj eq_refl Htx)). rewrite E in Hh. destruct r; by destruct Hh.
Qed.
