(* ===== verification/ClaimTxFacts.v ===== *)
(** * What creating claims may change

    Whatever the nodes and the service answer and whichever calls of the database fail,
    the claim of one deposit commits nothing, one claim transaction for it, or the mark
    that the deposit is ignored. *)
From S2P Require Import Prelude Types Bytes Hash GlobalIndex ClaimTypes Schema Storage Invariants StorageFacts Service.
From S2P Require Import NonceCache MonitorTxs CompressedTxs ClaimTxManager ClaimStatus.

(** ** Queries of a transaction *)

(** The committed tables are [c0]; an open transaction sees tables in [P]. *)
Definition db_open (c0 : Tables) (P : Tables → Prop) (db : DB) : Prop :=
  db_committed db = c0 ∧ ∀ t, db_tx db = Some (TxActive t) → P t.
Definition db_kept (c0 : Tables) (db : DB) : Prop := db_committed db = c0.

Section Queries.
Context (c0 t0 : Tables).
Abbreviation Open := (db_open c0 (λ t, t = t0)).
Abbreviation Kept := (db_kept c0).

Lemma hoare_query_kept {A} (f : Tables → A) :
  hoare Open (run InTx (sql_query f)) (λ a db, a = f t0 ∧ Open db) Kept.
Proof.
  intros db [Hc Ht]. unfold run. destruct (next_fault db) as [b db1] eqn:E.
  apply next_fault_parts in E as (E1 & E2 & _). unfold db_kept. destruct b; [cbn; congruence|].
  destruct (db_tx db1) as [[t|]|] eqn:E3; cbn; [|congruence..]. rewrite <- E2 in Ht.
  rewrite (Ht t eq_refl) in *. split; [done|]. split; [cbn; congruence|]. intros t' Et. cbn in Et. congruence.
Qed.

Lemma hoare_query_ret {A B} (f : Tables → A) (g : A → B) (φ : B → Prop) :
  φ (g (f t0)) → hoare Open (a ← run InTx (sql_query f); mret (g a)) (λ b db, φ b ∧ Open db) Kept.
Proof.
  intros Hφ. eapply hoare_bind; [apply hoare_query_kept|]. intros a. apply hoare_pure. intros ->. by apply hoare_ret.
Qed.

Lemma hoare_GetPending addr net lt :
  hoare Open (GetPendingDepositsToClaim addr net lt 0 0 0 InTx)
    (λ r db, Forall (λ dep, ∃ d b, d ∈ t_deposit t0 ∧ pending_to_claim addr net lt 0 t0 d ∧ dep = deposit_of_row d b) r.1 ∧
             Open db) Kept.
Proof.
  unfold GetPendingDepositsToClaim. eapply hoare_bind; [apply hoare_query_kept|]. intros n. apply hoare_pure. intros _.
  apply hoare_query_ret. cbn [fst]. rewrite decide_False by lia. apply Forall_forall.
  intros dep ([d b] & -> & Hin)%list_elem_of_fmap. rewrite sort_by_elem in Hin. cbn [fst snd].
  apply list_elem_of_bind in Hin as (d1 & Hin & [Hp Hd]%list_elem_of_filter).
  apply list_elem_of_bind in Hin as (b1 & Hin%list_elem_of_singleton & _). simplify_eq. eauto.
Qed.

Lemma hoare_GetOtherL2 net :
  hoare Open (GetDepositsFromOtherL2ToClaim net InTx)
    (λ r db, Forall (λ dep, ∃ d, d ∈ t_deposit t0 ∧ dr_dest_net d = net ∧ dr_ready_for_claim d = true ∧
                      dr_ignore d = false ∧ dr_network_id d ≠ 0 ∧
                      (dr_deposit_cnt d ∉ (cr_index <$> filter (λ c, cr_network_id c = net) (t_claim t0))) ∧
                      dep = deposit_of_row d 0) r ∧ Open db) Kept.
Proof.
  unfold GetDepositsFromOtherL2ToClaim. apply hoare_query_ret. apply Forall_forall.
  intros dep (d & -> & Hin)%list_elem_of_fmap. rewrite sort_desc_elem in Hin.
  apply list_elem_of_filter in Hin as [(? & ? & ? & ? & ?) Hd]. by eexists.
Qed.

Lemma keeps_open_query {A} (f : Tables → A) : keeps Open (run InTx (sql_query f)).
Proof.
  intros db [Hc Ht]. unfold run. destruct (next_fault db) as [b db1] eqn:E.
  apply next_fault_parts in E as (E1 & E2 & _). destruct b; cbn.
  - split; cbn; [congruence|]. intros t. destruct (db_tx db1) as [[]|]; cbn; congruence.
  - destruct (db_tx db1) as [[t|]|] eqn:E3; cbn; split; cbn; try congruence. intros t' [= <-]. apply Ht. congruence.
Qed.
Hint Resolve keeps_open_query : bridge.

Lemma keeps_open_TrustedGER c n d : keeps Open (GetLatestTrustedGERByDeposit c n d InTx).
Proof. unfold GetLatestTrustedGERByDeposit. keeps_auto. Qed.

(** The exit root that the service finds is a synced exit root of L1. *)
Definition synced_L1 (ger : GlobalExitRoot) : Prop :=
  ∃ e, e ∈ t_exit_root t0 ∧ er_global_exit_root e = g_GlobalExitRoot ger ∧ er_network_id e = 0 ∧ er_allowed e = true ∧
       two_roots (er_exit_roots e) = Ok (g_ExitRoots ger).

Lemma hoare_GetL1ExitRootByGER g :
  hoare Open (GetL1ExitRootByGER g InTx) (λ ger db, (synced_L1 ger ∧ g_GlobalExitRoot ger = g) ∧ Open db) Kept.
Proof.
  unfold GetL1ExitRootByGER. eapply hoare_bind; [apply hoare_query_kept|]. intros r. apply hoare_pure. intros ->.
  destruct (sort_desc er_id _) as [|e l] eqn:Es; cbn [head]; [apply hoare_throw; intros db [? _]; done|].
  apply sort_desc_head in Es as [He _]. apply list_elem_of_filter in He as [(Ha & _ & Eg & En) He].
  destruct (two_roots (er_exit_roots e)) as [roots| | |] eqn:Er; [|intros db [? _]; done..].
  eapply hoare_bind; [apply hoare_lift_Ok|]. intros ?. apply hoare_pure. intros ->. apply hoare_ret.
  intros db Hdb. split; [|done]. split; [|done]. exists e. cbn. auto.
Qed.

Context `{Keccak256} {SC : Type} `{LruCache SC} (service : bridgeService).

Definition sv_open (w : DB * SC) : Prop := Open (fst w).

Lemma keeps_sv_db {A} (c : M DB A) : keeps Open c → keeps sv_open (sv_db c).
Proof. intros Hc. apply (keeps_zoom _ Open); [done|done|done]. Qed.
Hint Resolve keeps_sv_db : bridge.

Lemma keeps_open_Get k : keeps Open (Get k InTx).
Proof. unfold Get. keeps_auto. Qed.
Lemma keeps_open_Leaves r : keeps Open (GetRollupExitLeavesByRoot r InTx).
Proof. unfold GetRollupExitLeavesByRoot. keeps_auto. Qed.
Hint Resolve keeps_open_Get keeps_open_Leaves : bridge.

Lemma keeps_open_getNode k : keeps sv_open (getNode k InTx).
Proof.
  unfold getNode. apply keeps_bind.
  - intros w Hw. destruct (cache_Get k (snd w)). exact Hw.
  - intros [v|]; keeps_auto; apply keeps_modify; by intros [].
Qed.
Hint Resolve keeps_open_getNode : bridge.

Lemma keeps_open_getProof i r : keeps sv_open (getProof service i r InTx).
Proof.
  unfold getProof. apply keeps_bind; [|keeps_auto]. generalize (@nil Hash). revert r.
  generalize (Z.to_nat (u8 (sv_height service - 1)) + 1)%nat. intros n.
  induction n as [|n IH]; intros r acc; cbn [getProof_loop]; keeps_auto.
Qed.
Lemma keeps_open_getRollupExitProof i r : keeps sv_open (getRollupExitProof service i r InTx).
Proof. unfold getRollupExitProof. keeps_auto. Qed.
Hint Resolve keeps_open_getProof keeps_open_getRollupExitProof : bridge.

Lemma hoare_claimProofs m1 m2 m3 cnt net ger :
  hoare sv_open (claimProofs service m1 m2 m3 cnt net ger InTx) (λ r w, r.1.1 = ger ∧ sv_open w) (λ w, Kept (fst w)).
Proof.
  assert (∀ w, sv_open w → Kept (fst w)) as HR by (by intros w [? _]).
  assert (∀ A m (c : M (DB * SC) A), keeps sv_open c → hoare sv_open (orErrorf m c) (λ _, sv_open) (λ w, Kept (fst w))) as Hor.
  { intros A m c Hc. apply hoare_keeps; [|exact HR]. unfold orErrorf. keeps_auto. }
  assert (∀ i, hoare sv_open (lift (at_index (g_ExitRoots ger) i)) (λ _, sv_open) (λ w, Kept (fst w))) as Hlift.
  { intros i. apply hoare_keeps; [apply keeps_lift|exact HR]. }
  unfold claimProofs. destruct (decide (net = 0)).
  - eapply hoare_bind; [apply Hlift|]. intros root. eapply hoare_bind; [apply Hor, keeps_open_getProof|].
    intros p. by apply hoare_ret.
  - eapply hoare_bind; [apply Hlift|]. intros root. eapply hoare_bind; [apply Hor, keeps_open_getRollupExitProof|].
    intros [p leaf]. eapply hoare_bind; [apply Hor, keeps_open_getProof|]. intros p'. by apply hoare_ret.
Qed.

Lemma hoare_GetClaimProofForCompressed g cnt net :
  hoare sv_open (GetClaimProofForCompressed service g cnt net InTx)
    (λ r w, (synced_L1 r.1.1 ∧ g_GlobalExitRoot r.1.1 = g) ∧ sv_open w) (λ w, Kept (fst w)).
Proof.
  unfold GetClaimProofForCompressed. apply hoare_bind with (λ _, sv_open); [by apply hoare_ret|]. intros [].
  apply hoare_bind with (λ ger w, (synced_L1 ger ∧ g_GlobalExitRoot ger = g) ∧ sv_open w).
  - intros w Hw. unfold sv_db, zoom. pose proof (hoare_GetL1ExitRootByGER g (fst w) Hw) as Hg.
    destruct (GetL1ExitRootByGER g InTx (fst w)) as [[ger|e| |] db]; exact Hg.
  - intros ger. apply hoare_pure. intros Hger. eapply hoare_conseq; [apply hoare_claimProofs|done|].
    intros r w [-> Hw]. done.
Qed.

End Queries.

(** ** The claim of a deposit *)

Section Claims.
Context {W C SC : Type} `{NonceLru C} `{L2Node W} `{L1Node W} `{BridgeBinding W} `{LruCache SC} `{Keccak256}.
Context `{BridgeAbi} `{!BridgeBindingLaws W}.
Context (cfg : ManConfig) (service : bridgeService) (l2NetworkID : Z) (authFrom : Address).
Abbreviation ST := (CtmState W C SC).

Definition kept (c1 : Tables) (st : ST) : Prop := db_committed (ctm_db st) = c1.

Lemma hoare_on_db {A} (P : DB → Prop) (c : M DB A) (Q : A → DB → Prop) (R : DB → Prop) :
  hoare P c Q R → hoare (λ st : ST, P (ctm_db st)) (on_db c) (λ a st, Q a (ctm_db st)) (λ st, R (ctm_db st)).
Proof.
  intros Hc st Hst. specialize (Hc (ctm_db st) Hst). unfold on_db, on_man, at_db, zoom, ctm_db in *.
  by destruct (c (ms_db (tm_man st))) as [[] db].
Qed.

(** The node and the nonce cache are not the database. *)
Lemma hoare_on_node {A} c1 P (c : M W A) (φ : A → Prop) :
  (∀ w a w', c w = (Ok a, w') → φ a) →
  hoare (tx_open c1 P) (on_node c) (λ a (st : ST), φ a ∧ tx_open c1 P st) (kept c1).
Proof.
  intros Hφ st [Hc Ht]. unfold on_node, on_man, at_node, zoom, kept, tx_open, ctm_db in *.
  destruct (c (ms_world (tm_man st))) as [[a| | |] w] eqn:E; cbn; try done. split; [|done]. by eapply Hφ.
Qed.

Lemma hoare_attempt_node {A} c1 P (c : M W A) :
  hoare (tx_open c1 P) (attempt (on_node c)) (λ _ (st : ST), tx_open c1 P st) (kept c1).
Proof.
  apply hoare_attempt. intros st Hst. unfold on_node, on_man, at_node, zoom.
  destruct (c (ms_world (tm_man st))) as [[a| | |] w] eqn:E; cbn; try done; apply Hst.
Qed.

Lemma keeps_open_node {A} c1 P (c : M W A) : keeps (λ m : ManState W C, db_open c1 P (ms_db m)) (at_node c).
Proof. intros m Hm. unfold at_node, zoom. by destruct (c (ms_world m)). Qed.
Lemma keeps_open_cache {A} c1 P (f : C → A * C) : keeps (λ m : ManState W C, db_open c1 P (ms_db m)) (at_cache f).
Proof. intros m Hm. unfold at_cache, zoom. by destruct (f (ms_nonceCache m)). Qed.

Lemma hoare_GetNextNonce c1 P :
  hoare (tx_open c1 P) (attempt (on_man (GetNextNonce authFrom))) (λ _ (st : ST), tx_open c1 P st) (kept c1).
Proof.
  apply hoare_keeps; [|by intros st [? _]]. apply keeps_attempt.
  apply (keeps_zoom _ (λ m, db_open c1 P (ms_db m))); [done|by intros [] ? _|].
  unfold GetNextNonce. pose proof (@keeps_open_node Z c1 P). pose proof (@keeps_open_cache (option Z) c1 P).
  pose proof (@keeps_open_cache unit c1 P). keeps_auto; auto.
Qed.

Lemma hoare_orRB {A} c1 P (c : M ST A) Q :
  hoare (tx_open c1 P) c Q (kept c1) → hoare (tx_open c1 P) (orRollbackState InTx c) Q (kept c1).
Proof.
  intros Hc. apply hoare_orRollbackState; [|by intros st [? _]]. intros st Hst. specialize (Hc st Hst).
  by destruct (c st) as [[] ?].
Qed.

Lemma hoare_Begin_kept c1 :
  hoare (kept c1) (on_db BeginDBTransaction) (λ tx (st : ST), tx = InTx ∧ tx_open c1 (λ t, t = c1) st) (kept c1).
Proof.
  intros st Hc. unfold on_db, on_man, at_db, zoom, BeginDBTransaction, kept, ctm_db in *.
  destruct (next_fault (ms_db (tm_man st))) as [b db1] eqn:E. apply next_fault_parts in E as (E1 & E2 & _).
  destruct b; cbn; [congruence|]. split; [done|]. split; cbn; [congruence|]. intros t [= <-]. congruence.
Qed.

(** A statement that writes, run in [attempt]: its effect, or an aborted transaction. *)
Lemma hoare_attempt_run {A} c1 t0 (Q : Tables → Prop) (q : stmt A) :
  (∀ s a t' s', q t0 s = (inr (a, t'), s') → Q t') →
  hoare (tx_open c1 (λ t, t = t0)) (attempt (on_db (run InTx q))) (λ _ (st : ST), tx_open c1 Q st) (kept c1).
Proof.
  intros Hq. apply hoare_attempt. intros st [Hc Ht]. unfold on_db, on_man, at_db, zoom, run, tx_open, kept, ctm_db in *.
  destruct (next_fault (ms_db (tm_man st))) as [b db1] eqn:E. apply next_fault_parts in E as (E1 & E2 & _).
  destruct b; cbn.
  { split; [congruence|]. intros t. destruct (db_tx db1) as [[]|]; cbn; congruence. }
  destruct (db_tx db1) as [[t|]|] eqn:E3; cbn; try (split; congruence).
  rewrite <- E2 in Ht. rewrite (Ht t eq_refl) in *.
  destruct (q t0 (db_seqs db1)) as [[e|[a t']] s'] eqn:Eq; cbn; (split; [congruence|]); [congruence|].
  intros t2 [= <-]. by eapply Hq.
Qed.

(** The data of a claim that was built decodes to the claim. *)
Lemma BuildSendClaim_decodes dep p1 p2 ger n g l (w w' : W) btx :
  BuildSendClaim dep p1 p2 ger n g l w = (Ok (Some btx), w') →
  ∃ gi r0 r1,
    GenerateGlobalIndex (bool_decide (d_NetworkID dep = 0))
      (if bool_decide (d_NetworkID dep = 0) then 0 else u32 (d_NetworkID dep - 1)) (d_DepositCount dep) = Ok gi ∧
    at_index (g_ExitRoots ger) 0 = Ok r0 ∧ at_index (g_ExitRoots ger) 1 = Ok r1 ∧
    (d_LeafType dep = LeafTypeAsset ∨ d_LeafType dep = LeafTypeMessage) ∧
    extractParams (bt_Data btx) =
      Ok (set_isMessage (bool_decide (d_LeafType dep = LeafTypeMessage)) (claimParams dep p1 p2 gi r0 r1)).
Proof.
  unfold BuildSendClaim. intros E. mstep E.
  destruct (decide (d_LeafType dep = LeafTypeAsset ∨ d_LeafType dep = LeafTypeMessage)) as [Hlt|]; [|by cbn in E; simplify_eq].
  mstep E. mstep E. mstep E. unfold lift in *. simplify_eq.
  match goal with x : error + BuiltTx |- _ => destruct x as [e|tx] end; cbn in E; [by simplify_eq|]. unfold mret, M_ret in E. simplify_eq.
  eexists _, _, _. split; [eassumption|]. split; [eassumption|]. split; [eassumption|]. split; [exact Hlt|].
  unfold attempt in *. destruct (decide (d_LeafType dep = LeafTypeAsset)) as [Ea|Ea].
  - destruct (Bridge_ClaimAsset _ _ _) as [[]] eqn:Eb in *; simplify_eq.
    apply ClaimAsset_packs in Eb; [|done]; destruct Eb as (Es & Hlen & Em & Eu). unfold extractParams, extractParamsClaimX, selector.
    rewrite decide_True, Es by done. cbn [mbind result_bind]. rewrite decide_True by done. cbn [mbind result_bind].
    rewrite Em. cbn [wrapf mbind result_bind]. rewrite Eu. cbn. do 2 f_equal. by rewrite Ea.
  - destruct (Bridge_ClaimMessage _ _ _) as [[]] eqn:Eb in *; simplify_eq.
    apply ClaimMessage_packs in Eb; [|done]; destruct Eb as (Es & Hlen & Em & Eu). unfold extractParams, extractParamsClaimX, selector.
    rewrite decide_True, Es by done. cbn [mbind result_bind]. rewrite decide_False by apply selectors_differ.
    rewrite decide_True by done. cbn [mbind result_bind].
    rewrite Em. cbn [wrapf mbind result_bind]. rewrite Eu. cbn. do 2 f_equal. destruct Hlt as [|El]; [done|]. by rewrite El.
Qed.

(** ** Effects of one claim *)

Definition ignored_row (id : Z) (d : deposit_row) : deposit_row :=
  if decide (dr_id d = id) then
    mk_deposit_row (dr_id d) (dr_leaf_type d) (dr_network_id d) (dr_orig_net d) (dr_orig_addr d)
      (dr_amount d) (dr_dest_net d) (dr_dest_addr d) (dr_block_id d) (dr_deposit_cnt d)
      (dr_tx_hash d) (dr_metadata d) (dr_ready_for_claim d) true
  else d.

(** The row of a claim transaction that was just created. *)
Definition created_claim (id : Z) (to : option Address) (data : bytes) (ger : Hash) (m : MonitoredTx) : Prop :=
  ∃ nonce gas now, m = mkMonitoredTx id authFrom to nonce None data gas None MonitoredTxStatusCreated ∅ now now None ger.

(** Nothing, the mark that the deposit is ignored, or its claim. *)
Definition claim_effect (id : Z) (φ : MonitoredTx → Prop) (t t' : Tables) : Prop :=
  t' = t ∨ t' = on_deposit (fmap (ignored_row id)) t ∨
  ∃ m, φ m ∧ m_DepositID m = id ∧ (id ∉ (m_DepositID <$> t_monitored_txs t)) ∧ t' = on_monitored_txs (λ l, l ++ [m]) t.

Lemma tx_open_weaken c1 (P Q : Tables → Prop) (st : ST) : (∀ t, P t → Q t) → tx_open c1 P st → tx_open c1 Q st.
Proof. intros HPQ [Hc Ht]. split; [done|]. intros t Et. by apply HPQ, Ht. Qed.

Section OneClaim.
Context (c1 : Tables) (dep : Deposit) (to : option Address) (data : bytes) (ger : Hash).
Abbreviation Pre := (tx_open c1 (λ t, t = c1)).
Abbreviation Post := (tx_open c1 (claim_effect (d_Id dep) (created_claim (d_Id dep) to data ger) c1)).

Lemma pre_post (st : ST) : Pre st → Post st.
Proof. apply tx_open_weaken. intros t ->. by left. Qed.

Lemma hoare_estimateFailed : hoare Pre (estimateFailed cfg dep InTx) (λ _, Post) (kept c1).
Proof.
  pose proof pre_post as Hpp. unfold estimateFailed.
  eapply hoare_bind; [apply hoare_attempt_node|]. intros r0. cbn beta.
  eapply hoare_bind; [apply hoare_attempt_node|]. intros [e|n]; cbn beta iota; [by apply hoare_ret|].
  eapply hoare_bind; [apply hoare_attempt_node|]. intros [e|b]; cbn beta iota; [by apply hoare_ret|].
  case_decide; [|by apply hoare_ret].
  eapply hoare_bind; [apply (hoare_attempt_run c1 c1 (claim_effect (d_Id dep) (created_claim (d_Id dep) to data ger) c1))|].
  - unfold sql_update. intros s a t' s' E. simplify_eq. right. by left.
  - intros r1. by apply hoare_ret.
Qed.

Lemma keeps_estimateClaim_retry n r :
  hoare Pre (estimateClaim_retry authFrom n to None data r) (λ _ (st : ST), Pre st) (kept c1).
Proof.
  revert r. induction n as [|n IH]; intros [e|g]; cbn [estimateClaim_retry]; try (by apply hoare_ret).
  destruct (isErrExecutionReverted e); [by apply hoare_ret|].
  eapply hoare_bind; [apply hoare_attempt_node|]. intros r. apply IH.
Qed.

Lemma hoare_addClaimTx : hoare Pre (addClaimTx cfg authFrom dep to None data ger InTx) (λ _, Post) (kept c1).
Proof.
  unfold addClaimTx. eapply hoare_bind; [apply hoare_attempt_node|]. intros r0.
  eapply hoare_bind; [apply keeps_estimateClaim_retry|]. intros [e|gas]; cbn beta iota; [apply hoare_estimateFailed|].
  eapply hoare_bind; [apply hoare_GetNextNonce|].
  intros [e|nonce]; cbn beta iota; [apply hoare_throw; by intros st [? _]|].
  eapply hoare_bind; [apply (hoare_on_node _ _ _ (λ _, True)); done|]. intros now. apply hoare_pure. intros _.
  eapply hoare_bind; [apply (hoare_attempt_run c1 c1 (claim_effect (d_Id dep) (created_claim (d_Id dep) to data ger) c1))|].
  - unfold sql_update. intros s a t' s' E. simplify_eq. case_decide as Hin; [by left|]. right. right.
    eexists. split; [by eexists nonce, gas, now|]. done.
  - intros [e|[]]; [apply hoare_throw; by intros st [? _]|by apply hoare_ret].
Qed.

End OneClaim.

(** A claim transaction [m] of the deposit [d]: freshly created, with data that decode to
    the claim of the deposit under a synced exit root of L1. *)
Definition claims (t : Tables) (d : deposit_row) (m : MonitoredTx) : Prop :=
  (∃ to, created_claim (dr_id d) to (m_Data m) (m_GlobalExitRoot m) m) ∧
  dr_dest_net d = l2NetworkID ∧
  (dr_leaf_type d = LeafTypeMessage → dr_orig_addr d ∈ mc_AuthorizedClaimMessageAddresses cfg) ∧
  ∃ ger gi r0 r1 p1 p2,
    synced_L1 t ger ∧ g_GlobalExitRoot ger = m_GlobalExitRoot m ∧ g_ExitRoots ger = [r0; r1] ∧
    GenerateGlobalIndex (bool_decide (dr_network_id d = 0))
      (if bool_decide (dr_network_id d = 0) then 0 else u32 (dr_network_id d - 1)) (dr_deposit_cnt d) = Ok gi ∧
    length p1 = mtHeight ∧ length p2 = mtHeight ∧
    extractParams (m_Data m) =
      Ok (mkBridgeClaimXParams p1 p2 gi r0 r1 (u32 (dr_orig_net d)) (dr_orig_addr d) (u32 (dr_dest_net d))
            (dr_dest_addr d) (dr_amount d) (dr_metadata d) (bool_decide (dr_leaf_type d = LeafTypeMessage))).

Lemma two_roots_Ok l roots : two_roots l = Ok roots → ∃ a b, roots = [a; b].
Proof.
  unfold two_roots. destruct (at_index l 0) as [a| | |]; cbn; [|done..].
  destruct (at_index l 1) as [b| | |]; cbn; [|done..]. intros [= <-]. eauto.
Qed.

Lemma proofArrays_length p1 p2 a b : proofArrays p1 p2 = Ok (a, b) → length a = mtHeight ∧ length b = mtHeight.
Proof.
  unfold proofArrays. generalize mtHeight as n. intros n. revert a b.
  induction n as [|n IH]; intros a b; [cbn; by intros [= <- <-]|].
  rewrite seq_S, fold_result_app. destruct (fold_result _ _ (seq 0 n)) as [[a0 b0]| | |] eqn:E; cbn [mbind result_bind]; [|done..].
  destruct (IH a0 b0 eq_refl) as [Ha Hb]. cbn [fold_result].
  destruct (at_index p1 _) as [x| | |]; cbn; [|done..]. destruct (at_index p2 _) as [y| | |]; cbn; [|done..].
  intros [= <- <-]. rewrite !length_app, Ha, Hb. simpl. lia.
Qed.

Lemma isDepositMessageAllowed_spec dep :
  isDepositMessageAllowed cfg dep = true ↔ d_OriginalAddress dep ∈ mc_AuthorizedClaimMessageAddresses cfg.
Proof.
  unfold isDepositMessageAllowed. rewrite existsb_exists. split.
  - intros (x & Hx & E). apply bool_decide_eq_true in E. rewrite E. by apply list_elem_of_In.
  - intros Hin. exists (d_OriginalAddress dep). split; [by apply list_elem_of_In|]. by apply bool_decide_eq_true.
Qed.

Lemma hoare_on_service c1 t0 {A} (c : M (DB * SC) A) (Q : A → Prop) :
  hoare (sv_open c1 t0) c (λ a w, Q a ∧ sv_open c1 t0 w) (λ w, db_kept c1 (fst w)) →
  hoare (tx_open c1 (λ t, t = t0)) (on_service c) (λ a (st : ST), Q a ∧ tx_open c1 (λ t, t = t0) st) (kept c1).
Proof.
  intros Hc st Hst. specialize (Hc (ms_db (tm_man st), tm_proofs st) Hst). unfold on_service, zoom.
  by destruct (c (ms_db (tm_man st), tm_proofs st)) as [[] [db sc]].
Qed.

Lemma hoare_lift_open {A} c1 P (r : result A) :
  hoare (tx_open c1 P) (lift r) (λ a (st : ST), r = Ok a ∧ tx_open c1 P st) (kept c1).
Proof. intros st Hst. unfold lift. destruct r; [done|apply Hst..]. Qed.

Lemma hoare_claimDeposit c1 g d b :
  hoare (kept c1) (claimDeposit cfg service l2NetworkID authFrom g (deposit_of_row d b))
    (λ _ st, claim_effect (dr_id d) (claims c1 d) c1 (db_committed (ctm_db st))) (kept c1).
Proof.
  set (dep := deposit_of_row d b). unfold claimDeposit. case_decide as Hdest; [apply hoare_ret; by left|].
  assert (dr_dest_net d = l2NetworkID) as Hdest' by done.
  destruct (bool_decide (d_LeafType dep = LeafTypeMessage) && negb (isDepositMessageAllowed cfg dep)) eqn:Eallow;
    [apply hoare_ret; by left|].
  assert (dr_leaf_type d = LeafTypeMessage → dr_orig_addr d ∈ mc_AuthorizedClaimMessageAddresses cfg) as Hmsg.
  { intros Em. apply (isDepositMessageAllowed_spec dep). cbn [dep d_LeafType deposit_of_row] in Eallow.
    rewrite bool_decide_true in Eallow by done. by destruct (isDepositMessageAllowed cfg dep). }
  eapply hoare_bind; [apply hoare_Begin_kept|]. intros tx. apply hoare_pure. intros ->.
  eapply hoare_bind; [apply hoare_orRB, hoare_on_service, hoare_GetClaimProofForCompressed|].
  intros [[claimGer proof] rollupProof]. apply hoare_pure. cbn [fst]. intros [Hsynced Hg].
  eapply hoare_bind; [apply hoare_lift_open|]. intros [p1 p2]. apply hoare_pure. intros [Hp1 Hp2]%proofArrays_length.
  eapply hoare_bind; [apply hoare_lift_open|]. intros r0. apply hoare_pure. intros Hr0.
  eapply hoare_bind; [apply hoare_lift_open|]. intros r1. apply hoare_pure. intros Hr1.
  eapply hoare_bind; [apply hoare_orRB, (hoare_on_node _ _ _ (λ o, match o with None => True | Some btx =>
      ∃ gi, GenerateGlobalIndex (bool_decide (dr_network_id d = 0))
        (if bool_decide (dr_network_id d = 0) then 0 else u32 (dr_network_id d - 1)) (dr_deposit_cnt d) = Ok gi ∧
      extractParams (bt_Data btx) =
        Ok (set_isMessage (bool_decide (dr_leaf_type d = LeafTypeMessage)) (claimParams dep p1 p2 gi r0 r1)) end))|].
  { intros w [btx|] w' E; [|done]. apply BuildSendClaim_decodes in E as (gi & a0 & a1 & Hgi & E0 & E1 & _ & E).
    apply Ok_inj in E0, E1. subst a0 a1. by exists gi. }
  intros [btx|]; apply hoare_pure; [|intros _; by intros st [? _]]. intros (gi & Hgi & Hdec).
  eapply hoare_bind; [apply hoare_orRB, hoare_addClaimTx|]. intros []. cbn beta.
  eapply hoare_weaken; [eapply hoare_conseq; [apply hoare_commit_open|intros st Hst; exact Hst|]|by intros st [? _]].
  intros ? st [Heff _]. destruct Heff as [->|[-> |(m & Hm & Hid & Hnew & ->)]]; [by left|by right; left|].
  right. right. exists m. split; [|done]. destruct Hm as (nonce & gas & now & ->). split; [by eexists _, _, _, _|].
  split; [done|]. split; [done|]. destruct Hsynced as (e & He & Eger & Enet & Eall & Er).
  destruct (two_roots_Ok _ _ Er) as (a0 & a1 & Eroots). rewrite Eroots in Hr0, Hr1. apply Ok_inj in Hr0, Hr1. subst a0 a1.
  exists claimGer, gi, r0, r1, p1, p2. split; [by exists e|]. cbn. done.
Qed.

(** ** The deposits that are claimed *)

(** A deposit for this network that is ready, not ignored and, as far as the tables know,
    not claimed. *)
Definition claimable (t : Tables) (d : deposit_row) : Prop :=
  d ∈ t_deposit t ∧ dr_dest_net d = l2NetworkID ∧ dr_ready_for_claim d = true ∧ dr_ignore d = false ∧
  ¬ Exists (λ c, cr_network_id c = l2NetworkID ∧ cr_index c = dr_deposit_cnt d) (t_claim t).
Definition claimable_deposit (t : Tables) (dep : Deposit) : Prop :=
  ∃ d b, claimable t d ∧ dep = deposit_of_row d b.

Lemma pending_claimable t addr lt from d :
  d ∈ t_deposit t → pending_to_claim addr l2NetworkID lt from t d → claimable t d.
Proof. intros Hd (? & ? & _ & _ & _ & _ & _ & ? & _ & ?). by repeat split. Qed.

Lemma keeps_open_db {A} c1 P (c : M DB A) : keeps (db_open c1 P) c → keeps (tx_open (W := W) (C := C) (SC := SC) c1 P) (on_db c).
Proof.
  intros Hc. apply (keeps_zoom _ (λ m : ManState W C, db_open c1 P (ms_db m))); [done|by intros [] ? _|].
  apply (keeps_zoom _ (db_open c1 P)); [done|done|done].
Qed.

Section Selection.
Context (c1 : Tables).
Abbreviation Pre := (tx_open (W := W) (C := C) (SC := SC) c1 (λ t, t = c1)).
Abbreviation Sel := (Forall (claimable_deposit c1)).

Lemma hoare_GetPending_sel addr lt :
  hoare Pre (on_db (GetPendingDepositsToClaim addr l2NetworkID lt 0 0 0 InTx)) (λ r st, Sel r.1 ∧ Pre st) (kept c1).
Proof.
  eapply hoare_conseq; [apply (hoare_on_db _ _ _ _ (hoare_GetPending c1 c1 addr l2NetworkID lt))|done|].
  intros r st [Hr Hst]. split; [|done]. eapply Forall_impl; [exact Hr|]. intros dep (d & b & Hd & Hp & ->).
  exists d, b. split; [|done]. by eapply pending_claimable.
Qed.

Lemma hoare_messageDeposits addrs deps :
  Sel deps → hoare Pre (messageDeposits l2NetworkID addrs deps InTx) (λ r st, Sel r ∧ Pre st) (kept c1).
Proof.
  revert deps. induction addrs as [|a addrs IH]; intros deps Hdeps; cbn [messageDeposits]; [by apply hoare_ret|].
  eapply hoare_bind; [apply hoare_orRB, hoare_GetPending_sel|]. intros [msgs n]. apply hoare_pure. intros Hm.
  apply IH, Forall_app. done.
Qed.

Lemma hoare_trustedGER dep : hoare Pre (trustedGER dep InTx) (λ _, Pre) (kept c1).
Proof.
  assert (hoare Pre (attempt (on_db (GetLatestTrustedGERByDeposit (d_DepositCount dep) (d_NetworkID dep)
            (d_DestinationNetwork dep) InTx))) (λ _, Pre) (kept c1)) as Hask.
  { apply hoare_keeps; [|by intros st [? _]]. apply keeps_attempt, keeps_open_db, keeps_open_TrustedGER. }
  assert (∀ e, hoare Pre (rollbackState (A := option Hash) InTx e) (λ _, Pre) (kept c1)) as Hrb.
  { intros e. eapply hoare_weaken; [apply hoare_rollbackState|by intros st [? _]]. }
  unfold trustedGER. eapply hoare_bind; [exact Hask|]. intros [e|g]; [|by apply hoare_ret].
  destruct (errors_Is e ErrStorageNotFound); [|apply Hrb].
  eapply hoare_bind; [exact Hask|]. intros [e'|g]; [|by apply hoare_ret].
  destruct (errors_Is e' ErrStorageNotFound); [by apply hoare_ret|apply Hrb].
Qed.

Lemma hoare_depositsToClaim ger :
  hoare Pre (depositsToClaim cfg l2NetworkID ger InTx)
    (λ r st, match r with None => True | Some p => Sel p.1 end ∧ Pre st) (kept c1).
Proof.
  unfold depositsToClaim. destruct (isL2ExitRootUpdate ger).
  - eapply hoare_bind; [apply hoare_lift_open|]. intros root. apply hoare_pure. intros _.
    destruct (mc_AreClaimsBetweenL2sEnabled cfg); [|by apply hoare_ret].
    eapply hoare_bind; [apply hoare_orRB, (hoare_on_db _ _ _ _ (hoare_GetOtherL2 c1 c1 l2NetworkID))|].
    intros deps. apply hoare_pure. intros Hdeps.
    assert (Sel deps) as Hsel.
    { eapply Forall_impl; [exact Hdeps|]. intros dep (d & Hd & Hn & Hr & Hi & _ & Hc & ->). exists d, 0. split; [|done].
      do 4 (split; [done|]). intros (c & Hin & E1 & E2)%Exists_exists. apply Hc. rewrite <- E2.
      apply list_elem_of_fmap_2. by apply list_elem_of_filter. }
    destruct deps as [|dep deps]; [by apply hoare_ret|].
    eapply hoare_bind; [apply hoare_trustedGER|]. intros [g|]; by apply hoare_ret.
  - eapply hoare_bind; [apply hoare_lift_open|]. intros root. apply hoare_pure. intros _.
    eapply hoare_bind; [apply hoare_orRB, hoare_GetPending_sel|]. intros [deps n]. apply hoare_pure. intros Hsel.
    eapply hoare_bind; [by apply hoare_messageDeposits|]. intros deps'. apply hoare_pure. intros Hsel'. by apply hoare_ret.
Qed.

End Selection.

(** ** All the claims *)

Definition with_claims (c1 : Tables) (t : Tables) : Prop :=
  ∃ ds new, t = on_monitored_txs (λ l, l ++ new) (on_deposit (λ _, ds) c1) ∧
    Forall2 (λ d d', d' = d ∨ d' = ignored_row (dr_id d) d) (t_deposit c1) ds ∧
    NoDup (m_DepositID <$> new) ∧
    Forall (λ m, (m_DepositID m ∉ (m_DepositID <$> t_monitored_txs c1)) ∧ ∃ d, claimable c1 d ∧ claims c1 d m) new.

Lemma with_claims_start c1 : with_claims c1 c1.
Proof.
  exists (t_deposit c1), []. split; [destruct c1; unfold on_monitored_txs, on_deposit; cbn; by rewrite app_nil_r|]. split; [|by split; constructor].
  apply Forall_Forall2_diag, Forall_true. by left.
Qed.

Lemma with_claims_step c1 t d t' :
  with_claims c1 t → claimable c1 d → claim_effect (dr_id d) (claims t d) t t' → with_claims c1 t'.
Proof.
  intros (ds & new & -> & Hds & Hnd & Hnew) Hd [->|[-> |(m & Hm & Hid & Hni & ->)]]; [by exists ds, new|..].
  - exists (ignored_row (dr_id d) <$> ds), new. split; [done|]. split; [|done].
    apply Forall2_fmap_r. eapply Forall2_impl; [exact Hds|]. cbn. intros x y [-> | ->]; unfold ignored_row.
    + case_decide as E; [right; by rewrite decide_True|by left].
    + right. rewrite (decide_True (P := dr_id x = dr_id x)) by done. cbn. by case_decide.
  - exists ds, (new ++ [m]). cbn in Hni. rewrite fmap_app, not_elem_of_app in Hni. destruct Hni as [Hni1 Hni2].
    split; [unfold on_monitored_txs; cbn; by rewrite app_assoc|]. split; [done|]. rewrite fmap_app. split.
    + apply NoDup_app. split; [done|]. split; [|apply NoDup_singleton].
      intros x Hx Hx'. apply list_elem_of_singleton in Hx'. congruence.
    + apply Forall_app. split; [done|]. apply Forall_singleton. rewrite Hid. split; [done|]. exists d. split; [done|].
      exact Hm.
Qed.

End Claims.
