(* ===== verification/ClaimTxTheorems.v ===== *)
(** * The theorems of the claim transaction manager

    Which claims [processPendingDeposits] creates, and that every pending deposit gets
    one. *)
From S2P Require Import Prelude Types Bytes Hash GlobalIndex MerkleSpec ClaimTypes Schema MerkleStore Storage Invariants.
From S2P Require Import StorageFacts PgMerkleStore MerkleTree MerkleTreeFacts ReorgFacts Service ServiceTheorems Toy.
From S2P Require Import NonceCache MonitorTxs CompressedTxs ClaimTxManager ClaimStatus ClaimTxFacts.

(** C5: whatever the nodes, the service and the contract answer and whichever calls of
    the database fail, [processPendingDeposits] only adds claim transactions, at most one
    per deposit and none for a deposit that has one, and marks deposits as ignored.  Every
    claim it adds is for a deposit to its network that is ready, not ignored and not
    claimed, and, when it is a message, comes from an authorized address; it is created by
    the configured sender, and its data decode to the claim of that deposit (global index,
    origin, destination, amount and metadata) under a synced exit root of L1. *)
Theorem processPendingDeposits_claims {W C SC : Type} `{NonceLru C} `{L2Node W} `{L1Node W} `{BridgeBinding W}
    `{LruCache SC} `{K : Keccak256} `{BridgeAbi} `{!BridgeBindingLaws W} (cfg : ManConfig) (service : bridgeService)
    (l2NetworkID : Z) (authFrom : Address) (ger : GlobalExitRoot) (st st' : CtmState W C SC) (r : result unit) :
  processPendingDeposits cfg service l2NetworkID authFrom ger st = (r, st') →
  let t := db_committed (ctm_db st) in
  ∃ ds new,
    db_committed (ctm_db st') = on_monitored_txs (λ l, l ++ new) (on_deposit (λ _, ds) t) ∧
    Forall2 (λ d d', d' = d ∨ d' = ignored_row (dr_id d) d) (t_deposit t) ds ∧
    NoDup (m_DepositID <$> new) ∧
    Forall (λ m, (m_DepositID m ∉ (m_DepositID <$> t_monitored_txs t)) ∧
                 ∃ d, claimable l2NetworkID t d ∧ claims cfg l2NetworkID authFrom t d m) new.
Proof.
  intros E t. set (I := λ st : CtmState W C SC, with_claims cfg l2NetworkID authFrom t (db_committed (ctm_db st))).
  assert (hoare (kept t) (processPendingDeposits cfg service l2NetworkID authFrom ger) (λ _, I) I) as Hh.
  { assert (∀ st, kept t st → I st) as HR by (intros y Hy; unfold I; rewrite Hy; apply with_claims_start).
    unfold processPendingDeposits.
    eapply hoare_bind; [eapply hoare_weaken; [apply hoare_Begin_kept|exact HR]|]. intros tx. apply hoare_pure. intros ->.
    eapply hoare_bind; [eapply hoare_weaken; [apply hoare_depositsToClaim|exact HR]|].
    intros [[deps g]|]; apply hoare_pure; [|intros _; apply hoare_ret; intros y [Hy _]; by apply HR]. cbn [fst]. intros Hsel.
    apply hoare_bind with (λ _, I).
    { eapply hoare_weaken; [eapply hoare_conseq; [apply hoare_commit_open|intros y Hy; exact Hy|]|].
      - cbn beta. intros ? y [Hy _]. by apply HR.
      - intros y [Hy _]. by apply HR. }
    intros []. apply hoare_forM. intros dep Hdep. rewrite Forall_forall in Hsel. destruct (Hsel dep Hdep) as (d & b & Hd & ->).
    intros y Hy. pose proof (hoare_claimDeposit cfg service l2NetworkID authFrom (db_committed (ctm_db y)) g d b y eq_refl) as Hc.
    destruct (claimDeposit cfg service l2NetworkID authFrom g (deposit_of_row d b) y) as [[] y'];
      [by eapply with_claims_step|unfold I; by rewrite Hc..]. }
  specialize (Hh st eq_refl). rewrite E in Hh. by destruct r.
Qed.

(** ** Every pending deposit is claimed *)

Lemma proofArrays_eq (a b : list Hash) :
  length a = mtHeight → length b = mtHeight → proofArrays a b = Ok (a, b).
Proof.
  intros Ha Hb. unfold proofArrays.
  assert (∀ n, (n ≤ mtHeight)%nat → fold_result (λ acc i, p ← at_index a (Z.of_nat i); r ← at_index b (Z.of_nat i);
            Ok (acc.1 ++ [p], acc.2 ++ [r])) ([], []) (seq 0 n) = Ok (take n a, take n b)) as Hn.
  { induction n as [|n IH]; intros Hle; [done|]. rewrite seq_S, fold_result_app, IH by lia. cbn [mbind result_bind fold_result Nat.add].
    destruct (lookup_lt_is_Some_2 a n) as [x Hx]; [lia|]. destruct (lookup_lt_is_Some_2 b n) as [y Hy]; [lia|].
    rewrite (at_index_nat _ _ _ Hx), (at_index_nat _ _ _ Hy). cbn. by rewrite (take_S_r _ _ _ Hx), (take_S_r _ _ _ Hy). }
  rewrite Hn by lia. by rewrite !take_ge by lia.
Qed.

(** A node that answers: gas, nonces and the time are given, and claims are built. *)
Record healthy (W : Type) `{L2Node W} `{BridgeBinding W} : Prop := {
  h_EstimateGas : ∀ from to v data w, ∃ gas w', EstimateGas from to v data w = (Ok gas, w');
  h_NonceAt : ∀ a w, ∃ n w', NonceAt a w = (Ok n, w');
  h_Now : ∀ w, ∃ now w', Now w = (Ok now, w');
  h_ClaimAsset : ∀ opts p w, ∃ tx w', Bridge_ClaimAsset opts p w = (Ok tx, w');
  h_ClaimMessage : ∀ opts p w, ∃ tx w', Bridge_ClaimMessage opts p w = (Ok tx, w')
}.

Section Complete.
Context {W C SC : Type} `{NonceLru C} `{L2Node W} `{L1Node W} `{BridgeBinding W}.
Context {HSC : LruCache SC} {HSCL : LruCacheLaws SC} `{K : Keccak256} `{BridgeAbi} `{!BridgeBindingLaws W}.
Context (cfg : ManConfig) (service : bridgeService) (l2NetworkID : Z) (authFrom : Address) (Hw : healthy W).
Abbreviation ST := (CtmState W C SC).

Lemma on_node_live {A} (c : M W A) (st : ST) a w' :
  c (ms_world (tm_man st)) = (Ok a, w') →
  ∃ st', on_node c st = (Ok a, st') ∧ ctm_db st' = ctm_db st ∧ tm_proofs st' = tm_proofs st.
Proof. intros E. unfold on_node, on_man, at_node, zoom. rewrite E. by eexists. Qed.

Lemma GetNextNonce_live (st : ST) :
  ∃ n st', on_man (GetNextNonce authFrom) st = (Ok n, st') ∧ ctm_db st' = ctm_db st ∧ tm_proofs st' = tm_proofs st.
Proof.
  destruct (h_NonceAt W Hw authFrom (ms_world (tm_man st))) as (n & w' & E).
  unfold on_man, zoom, GetNextNonce. unfold mbind at 1, M_bind at 1, at_node, zoom. rewrite E.
  unfold at_cache, zoom, mbind, M_bind. cbn. destruct (lru_Get authFrom _) as [o c']. cbn.
  eexists _, _. split; [reflexivity|]. done.
Qed.

(** The transaction sees the tables [t1], and the node is asked. *)
Lemma addClaimTx_live (st : ST) t1 s dep to data g :
  ctm_db st = mkDB t1 (Some (TxActive t1)) s [] →
  ∃ st' t2, addClaimTx cfg authFrom dep to None data g InTx st = (Ok tt, st') ∧
    ctm_db st' = mkDB t1 (Some (TxActive t2)) s [] ∧ tm_proofs st' = tm_proofs st ∧
    ((d_Id dep ∈ (m_DepositID <$> t_monitored_txs t1)) ∧ t2 = t1 ∨
     ∃ m, created_claim authFrom (d_Id dep) to data g m ∧ t2 = on_monitored_txs (λ l, l ++ [m]) t1).
Proof.
  intros Edb. unfold addClaimTx.
  destruct (h_EstimateGas W Hw authFrom to None data (ms_world (tm_man st))) as (gas & w1 & E1).
  destruct (on_node_live _ st gas w1 E1) as (st1 & R1 & D1 & P1). erewrite M_bind_Ok by (apply attempt_Ok, R1).
  assert (∀ n, estimateClaim_retry authFrom n to None data (inr gas) st1 = (Ok (inr gas), st1)) as Hretry by (by intros []).
  erewrite M_bind_Ok by apply Hretry. cbn beta iota.
  destruct (GetNextNonce_live st1) as (nonce & st2 & R2 & D2 & P2). erewrite M_bind_Ok by (apply attempt_Ok, R2). cbn beta iota.
  destruct (h_Now W Hw (ms_world (tm_man st2))) as (now & w3 & E3).
  destruct (on_node_live _ st2 now w3 E3) as (st3 & R3 & D3 & P3). erewrite M_bind_Ok by exact R3.
  assert (ctm_db st3 = mkDB t1 (Some (TxActive t1)) s []) as D by congruence.
  erewrite M_bind_Ok by (apply attempt_Ok, ctm_db_eq; eapply run_live; [by rewrite D|by rewrite D|reflexivity]).
  eexists _, _. split; [reflexivity|]. rewrite with_db_db, D. split; [reflexivity|]. split; [cbn; congruence|].
  case_decide as Hin; [by left|]. right. eexists. split; [by exists nonce, gas, now|]. done.
Qed.

Lemma BuildSendClaim_live dep p1 p2 r0 r1 (st : ST) :
  0 ≤ d_DepositCount dep < 2 ^ 32 →
  d_LeafType dep = LeafTypeAsset ∨ d_LeafType dep = LeafTypeMessage →
  ∃ btx st', on_node (BuildSendClaim dep p1 p2 (mkGlobalExitRoot 0 0 [r0; r1] 0 0 0) 1 1 1) st = (Ok (Some btx), st') ∧
    ctm_db st' = ctm_db st ∧ tm_proofs st' = tm_proofs st.
Proof.
  intros Hcnt Hlt. set (w := ms_world (tm_man st)).
  assert (∃ btx w', BuildSendClaim dep p1 p2 (mkGlobalExitRoot 0 0 [r0; r1] 0 0 0) 1 1 1 w = (Ok (Some btx), w')) as (btx & w' & E).
  { unfold BuildSendClaim. rewrite GenerateGlobalIndex_value by
      (first [done | destruct (bool_decide (d_NetworkID dep = 0)); [lia|apply u32_range]]).
    erewrite M_bind_Ok by reflexivity. rewrite decide_True by done. erewrite M_bind_Ok by reflexivity.
    erewrite M_bind_Ok by reflexivity. case_decide.
    - edestruct (h_ClaimAsset W Hw) as (tx & w' & E). erewrite M_bind_Ok by (apply attempt_Ok, E). by eexists _, _.
    - edestruct (h_ClaimMessage W Hw) as (tx & w' & E). erewrite M_bind_Ok by (apply attempt_Ok, E). by eexists _, _. }
  destruct (on_node_live _ st _ _ E) as (st' & R & D & P). by exists btx, st'.
Qed.

Context (t : Tables) (s : Seqs).

(** The deposits that a synced exit root of L1 lets the manager claim. *)
Definition pending_here (d : deposit_row) : Prop :=
  d ∈ t_deposit t ∧ (∃ b, b ∈ t_block t ∧ br_id b = dr_block_id d) ∧
  (pending_to_claim 0 l2NetworkID LeafTypeAsset 0 t d ∨
   ∃ addr, addr ∈ mc_AuthorizedClaimMessageAddresses cfg ∧ pending_to_claim addr l2NetworkID LeafTypeMessage 0 t d).

Lemma GetPending_live addr lt (st : ST) :
  ctm_db st = mkDB t (Some (TxActive t)) s [] →
  ∃ deps k, on_db (GetPendingDepositsToClaim addr l2NetworkID lt 0 0 0 InTx) st = (Ok (deps, k), st) ∧
    ∀ dep, dep ∈ deps ↔ ∃ d b, d ∈ t_deposit t ∧ b ∈ t_block t ∧ br_id b = dr_block_id d ∧
      pending_to_claim addr l2NetworkID lt 0 t d ∧ dep = deposit_of_row d (br_block_num b).
Proof.
  intros Edb. eexists _, _. split.
  - erewrite ctm_db_eq.
    2: { rewrite Edb. unfold GetPendingDepositsToClaim. erewrite M_bind_Ok by (by apply (run_query_live _ _ _ t)).
         erewrite M_bind_Ok by (by apply (run_query_live _ _ _ t)). reflexivity. }
    rewrite with_db_same by done. reflexivity.
  - intros dep. rewrite decide_False, list_elem_of_fmap by lia. split.
    + intros ([d b] & -> & Hin). rewrite sort_by_elem in Hin.
      apply list_elem_of_bind in Hin as (d1 & Hin & [Hp Hd]%list_elem_of_filter).
      apply list_elem_of_bind in Hin as (b1 & Hin%list_elem_of_singleton & [Hb1 Hb2]%list_elem_of_filter). simplify_eq. eauto 10.
    + intros (d & b & Hd & Hb & Eb & Hp & ->). exists (d, b). split; [done|]. rewrite sort_by_elem.
      apply list_elem_of_bind. exists d. split; [|by apply list_elem_of_filter].
      apply list_elem_of_bind. exists b. split; [by apply list_elem_of_singleton|by apply list_elem_of_filter].
Qed.

Lemma messageDeposits_live addrs (st : ST) : ∀ deps,
  ctm_db st = mkDB t (Some (TxActive t)) s [] →
  ∃ deps', messageDeposits l2NetworkID addrs deps InTx st = (Ok deps', st) ∧
    ∀ dep, dep ∈ deps' ↔ dep ∈ deps ∨ ∃ addr d b, addr ∈ addrs ∧ d ∈ t_deposit t ∧ b ∈ t_block t ∧ br_id b = dr_block_id d ∧
      pending_to_claim addr l2NetworkID LeafTypeMessage 0 t d ∧ dep = deposit_of_row d (br_block_num b).
Proof.
  induction addrs as [|a addrs IH]; intros deps Edb; cbn [messageDeposits].
  - exists deps. split; [done|]. intros dep. split; [by left|]. intros [?|(x & ? & ? & Hx & _)]; [done|by apply elem_of_nil in Hx].
  - destruct (GetPending_live a LeafTypeMessage st Edb) as (msgs & k & E & Hmsgs).
    erewrite M_bind_Ok by (apply orRollbackState_Ok, E). cbn beta iota.
    destruct (IH (deps ++ msgs) Edb) as (deps' & E' & Hdeps'). exists deps'. split; [done|].
    intros dep. rewrite Hdeps', elem_of_app, Hmsgs. split.
    + intros [[?|(d & b & Hd)]|(x & d & b & Hx & Hd)]; [by left|right; exists a, d, b; split; [left|done]|].
      right. exists x, d, b. split; [by right|done].
    + intros [?|(x & d & b & [-> |Hx]%elem_of_cons & Hd)]; [by left; left|left; right; by exists d, b|right; by exists x, d, b].
Qed.

Context (lds : list (Hash * Z)) (n : nat) (g root1 : Hash) (e : exit_root_row).
Context (Hst : stored mtHeight 0 lds (tables_view t s)) (Hf : rht_functional (tables_view t s)).
Context (Hn : (n ≤ length lds)%nat) (Hn32 : Z.of_nat n ≤ 2 ^ 32) (Hht : sv_height service = Z.of_nat mtHeight).
Context (Hger : head (sort_desc er_id (filter (λ r, er_allowed r = true ∧ 0 < er_block_id r ∧
                   er_global_exit_root r = g ∧ er_network_id r = 0) (t_exit_root t))) = Some e).
Context (Hroots : er_exit_roots e = [mroot mtHeight (take n (fst <$> lds)); root1]).

Definition plus_claims (new : list MonitoredTx) : Tables := on_monitored_txs (λ l, l ++ new) t.

(** A claim transaction whose data carry a path that the contract accepts for [d]. *)
Definition verifying_claim (d : deposit_row) (m : MonitoredTx) : Prop :=
  m_DepositID m = dr_id d ∧ ∃ p, extractParams (m_Data m) = Ok p ∧
    bp_mainnetExitRoot p = mroot mtHeight (take n (fst <$> lds)) ∧
    calculateRoot (leaf_at (fst <$> lds) (Z.to_nat (dr_deposit_cnt d))) (bp_smtProofLocalExitRoot p) (dr_deposit_cnt d)
      (Z.of_nat mtHeight) = Ok (bp_mainnetExitRoot p).

Lemma plus_claims_snoc new m : on_monitored_txs (λ l, l ++ [m]) (plus_claims new) = plus_claims (new ++ [m]).
Proof. unfold plus_claims, on_monitored_txs. cbn. by rewrite app_assoc. Qed.

Lemma n_fits : (n ≤ 2 ^ mtHeight)%nat.
Proof. apply Nat2Z.inj_le. rewrite Nat2Z.inj_pow. change (Z.of_nat 2 ^ Z.of_nat mtHeight) with (2 ^ 32). lia. Qed.

Lemma GetL1ExitRootByGER_live new tx0 :
  let db := mkDB (plus_claims new) (Some (TxActive (plus_claims new))) tx0 [] in
  GetL1ExitRootByGER g InTx db =
    (Ok (mkGlobalExitRoot (er_block_id e) 0 [mroot mtHeight (take n (fst <$> lds)); root1] (er_global_exit_root e) 0 0), db).
Proof.
  intros db. unfold GetL1ExitRootByGER. erewrite M_bind_Ok by (by apply (run_query_live _ _ _ (plus_claims new))).
  cbn [plus_claims on_monitored_txs t_exit_root]. rewrite Hger. rewrite Hroots. reflexivity.
Qed.

Lemma claimDeposit_live (st : ST) new tx0 d b i :
  ctm_db st = mkDB (plus_claims new) tx0 s [] → cache_sound (tm_proofs st) (tables_view t s) →
  dr_network_id d = 0 → dr_dest_net d = l2NetworkID → dr_deposit_cnt d = Z.of_nat i → (i < n)%nat →
  dr_leaf_type d = LeafTypeAsset ∨
    (dr_leaf_type d = LeafTypeMessage ∧ dr_orig_addr d ∈ mc_AuthorizedClaimMessageAddresses cfg) →
  ∃ st' new', claimDeposit cfg service l2NetworkID authFrom g (deposit_of_row d b) st = (Ok tt, st') ∧
    ctm_db st' = mkDB (plus_claims new') None s [] ∧ cache_sound (tm_proofs st') (tables_view t s) ∧
    ((dr_id d ∈ (m_DepositID <$> t_monitored_txs (plus_claims new))) ∧ new' = new ∨
     ∃ m, new' = new ++ [m] ∧ verifying_claim d m).
Proof.
  intros Edb Hcs Hnet Hdest Hcnt Hi Hlt. set (dep := deposit_of_row d b). unfold claimDeposit.
  rewrite decide_False by (intros E; by apply E).
  assert (bool_decide (d_LeafType dep = LeafTypeMessage) && negb (isDepositMessageAllowed cfg dep) = false) as ->.
  { destruct Hlt as [E|[E Ha]]; cbn; rewrite E; [done|]. apply (isDepositMessageAllowed_spec cfg dep) in Ha. by rewrite Ha. }
  set (t1 := plus_claims new) in *. set (db1 := mkDB t1 (Some (TxActive t1)) s []).
  erewrite M_bind_Ok by (apply ctm_db_eq; rewrite Edb; by apply Begin_live). cbn [db_committed db_seqs].
  set (st1 := with_db (mkDB t1 (Some (TxActive t1)) s []) st). pose proof n_fits as Hfit.
  destruct (claimProofs_mainnet service mtHeight 0 lds n i InTx db1 (tm_proofs st) (tables_view t s) Hst Hf eq_refl Hcs Hi Hn
              Hfit ltac:(lia) ltac:(unfold mtHeight; lia) Hht
              "getting the proof failed, error: %v, network: %d" "getting the rollup proof failed, error: %v, network: %d"
              "getting the proof failed, error: %v, network: %d"
              (mkGlobalExitRoot (er_block_id e) 0 [mroot mtHeight (take n (fst <$> lds)); root1] (er_global_exit_root e) 0 0)
              root1 eq_refl) as (c' & Ep & Hcs').
  set (path := path_of mtHeight i (take n (fst <$> lds))) in *.
  erewrite M_bind_Ok.
  2: { apply orRollbackState_Ok. unfold on_service, zoom. cbn [st1 with_db tm_man ms_db tm_proofs].
       unfold GetClaimProofForCompressed. erewrite M_bind_Ok by reflexivity.
       erewrite M_bind_Ok by (apply sv_db_eq, GetL1ExitRootByGER_live). fold t1 db1. cbn [d_DepositCount d_NetworkID dep deposit_of_row].
       rewrite Hcnt, Hnet, Ep. reflexivity. }
  cbn beta iota. rewrite proofArrays_eq by (first [apply path_of_length|done]).
  do 3 (erewrite M_bind_Ok by reflexivity; cbn beta iota).
  match goal with |- context [mkCtmState ?m ?p] => set (st2 := mkCtmState m p : ST) end.
  destruct (BuildSendClaim_live dep path emptyProof (mroot mtHeight (take n (fst <$> lds))) root1 st2) as (btx & st3 & R3 & D3 & P3).
  { cbn. clear Hfit. lia. }
  { cbn. tauto. }
  assert (∃ w w', BuildSendClaim dep path emptyProof (mkGlobalExitRoot 0 0 [mroot mtHeight (take n (fst <$> lds)); root1] 0 0 0) 1 1 1 w =
            (Ok (Some btx), w')) as (w & w' & Eb).
  { unfold on_node, on_man, at_node, zoom in R3. destruct (BuildSendClaim _ _ _ _ 1 1 1 _) as [rr w'] eqn:E in R3. cbn in R3.
    simplify_eq. eauto. }
  apply BuildSendClaim_decodes in Eb as (gi & r0 & r1 & _ & E0 & _ & _ & Edec). apply Ok_inj in E0. subst r0.
  erewrite M_bind_Ok by (apply orRollbackState_Ok, R3). cbn beta iota.
  destruct (addClaimTx_live st3 t1 s dep (bt_To btx) (bt_Data btx) (er_global_exit_root e)) as (st4 & t2 & R4 & D4 & P4 & Heff).
  { by rewrite D3. }
  erewrite then_commit; [|apply orRollbackState_Ok, R4|by rewrite D4|by rewrite D4].
  rewrite D4. cbn [db_seqs].
  assert (∃ new', t2 = plus_claims new' ∧ ((dr_id d ∈ (m_DepositID <$> t_monitored_txs t1)) ∧ new' = new ∨
            ∃ m, new' = new ++ [m] ∧ verifying_claim d m)) as (new' & -> & Hnew').
  { destruct Heff as [[Hin ->]|(m & (nonce & gas & now & ->) & ->)]; [by exists new; split; [|left]|].
    eexists. split; [apply plus_claims_snoc|]. right. eexists. split; [reflexivity|].
    split; [reflexivity|]. eexists. split; [exact Edec|]. split; [reflexivity|].
    change (calculateRoot (leaf_at (fst <$> lds) (Z.to_nat (dr_deposit_cnt d))) path (dr_deposit_cnt d) (Z.of_nat mtHeight) =
            Ok (mroot mtHeight (take n (fst <$> lds)))).
    rewrite Hcnt, Nat2Z.id, <- (path_verifies mtHeight i (take n (fst <$> lds)) (Nat.lt_le_trans _ _ _ Hi Hfit)).
    unfold leaf_at. by rewrite lookup_take_lt. }
  eexists _, new'. split; [reflexivity|]. split; [done|]. split; [|done]. cbn. rewrite P4, P3. exact Hcs'.
Qed.

(** What holds while the deposits are claimed one by one. *)
Definition claimed_so_far (done : list Deposit) (new : list MonitoredTx) (st : ST) : Prop :=
  (∃ tx0, ctm_db st = mkDB (plus_claims new) tx0 s []) ∧ cache_sound (tm_proofs st) (tables_view t s) ∧
  (∀ m, m ∈ new → ∃ d, d ∈ t_deposit t ∧ verifying_claim d m) ∧
  (∀ d b, deposit_of_row d b ∈ done → dr_id d ∈ (m_DepositID <$> new)).

Context (Hready : ∀ d, d ∈ t_deposit t → dr_network_id d = 0 → dr_ready_for_claim d = true → 0 ≤ dr_deposit_cnt d < Z.of_nat n).
Context (Hauth : 0 ∉ mc_AuthorizedClaimMessageAddresses cfg).

Lemma pending_claimable_row d :
  pending_here d →
  dr_network_id d = 0 ∧ dr_dest_net d = l2NetworkID ∧ (dr_id d ∉ (m_DepositID <$> t_monitored_txs t)) ∧
  (∃ i, dr_deposit_cnt d = Z.of_nat i ∧ (i < n)%nat) ∧
  (dr_leaf_type d = LeafTypeAsset ∨
   (dr_leaf_type d = LeafTypeMessage ∧ dr_orig_addr d ∈ mc_AuthorizedClaimMessageAddresses cfg)).
Proof.
  intros (Hd & _ & Hp).
  assert (∃ addr lt, pending_to_claim addr l2NetworkID lt 0 t d ∧
            (lt = LeafTypeAsset ∨ lt = LeafTypeMessage ∧ addr ∈ mc_AuthorizedClaimMessageAddresses cfg)) as (addr & lt & Hq & Hlt).
  { destruct Hp as [Hp|(a & Ha & Hp)]; eauto 10. }
  destruct Hq as (Hdest & Hr & Hn0 & _ & Elt & _ & Horig & _ & Hmon & _). specialize (Hn0 eq_refl).
  split; [done|]. split; [done|]. split; [|split].
  - intros (m & E & Hm)%list_elem_of_fmap. apply Hmon, Exists_exists. eauto.
  - destruct (Hready d Hd Hn0 Hr) as [Hlo Hhi]. exists (Z.to_nat (dr_deposit_cnt d)). lia.
  - destruct Hlt as [-> |[-> Ha]]; [by left|]. right. split; [done|]. rewrite Horig; [done| |done]. by intros ->.
Qed.

Lemma claim_loop (Hids : NoDup (dr_id <$> t_deposit t)) deps : ∀ done new st,
  claimed_so_far done new st → (∀ dep, dep ∈ deps → ∃ d b, pending_here d ∧ dep = deposit_of_row d b) →
  ∃ new' st', forM_ deps (claimDeposit cfg service l2NetworkID authFrom g) st = (Ok tt, st') ∧
    claimed_so_far (done ++ deps) new' st' ∧ (deps ≠ [] → db_tx (ctm_db st') = None) ∧ (deps = [] → st' = st).
Proof.
  induction deps as [|dep deps IH]; intros dn new st Hinv Hdeps; cbn [forM_].
  { exists new, st. rewrite app_nil_r. done. }
  destruct (Hdeps dep) as (d & b & Hd & ->); [left|].
  destruct (pending_claimable_row d Hd) as (Hnet & Hdest & Hmon & (i & Hcnt & Hi) & Hlt).
  destruct Hinv as ((tx0 & Edb) & Hcs & Hver & Hdone).
  destruct (claimDeposit_live st new tx0 d b i Edb Hcs Hnet Hdest Hcnt Hi Hlt) as (st1 & new1 & E1 & D1 & Hcs1 & Hnew1).
  assert (claimed_so_far (dn ++ [deposit_of_row d b]) new1 st1) as Hinv1.
  { split; [by exists None|]. split; [done|].
    assert (dr_id d ∈ (m_DepositID <$> new1) ∧ new ⊆ new1 ∧ ∀ m, m ∈ new1 → ∃ d, d ∈ t_deposit t ∧ verifying_claim d m)
      as (Hin & Hsub & Hver1).
    { destruct Hnew1 as [[Hin ->]|(m & -> & Hm)].
      - cbn in Hin. rewrite fmap_app, elem_of_app in Hin. destruct Hin as [Hin|Hin]; done.
      - split; [|split].
        + apply list_elem_of_fmap. exists m. split; [symmetry; apply Hm|]. apply elem_of_app. right. by apply list_elem_of_singleton.
        + intros x Hx. apply elem_of_app. by left.
        + intros x [Hx|Hx%list_elem_of_singleton]%elem_of_app; [by apply Hver|]. subst x. exists d. split; [apply Hd|done]. }
    split; [done|]. intros d' b' [Hd'|Hd'%list_elem_of_singleton]%elem_of_app.
    - specialize (Hdone d' b' Hd'). apply list_elem_of_fmap in Hdone as (m & Em & Hm). rewrite Em.
      apply list_elem_of_fmap_2. by apply Hsub.
    - assert (dr_id d' = dr_id d) as -> by (by apply (f_equal d_Id) in Hd'). done. }
  erewrite M_bind_Ok by exact E1.
  destruct (IH _ new1 st1 Hinv1) as (new' & st' & E' & Hinv' & Hn1 & Hn2).
  { intros dep Hdep. apply Hdeps. by right. }
  exists new', st'. split; [done|]. rewrite <- app_assoc in Hinv'. split; [done|]. split; [|done].
  intros _. destruct deps as [|x deps]; [|by apply Hn1]. rewrite (Hn2 eq_refl), D1. done.
Qed.

End Complete.

(** C6: with a node that answers and a database without failures, when the exit root of L1
    that is processed is synced, its mainnet root is the root of the first [n] deposits of
    mainnet, and every deposit that is ready is among them, [processPendingDeposits]
    returns without an error and every pending deposit, each asset and each message from an
    authorized address, has a claim transaction afterwards, whose data carry a path from the
    leaf of the deposit to that mainnet root which the verification accepts. *)
Theorem processPendingDeposits_complete {W C SC : Type} `{NonceLru C} `{L2Node W} `{L1Node W} `{BridgeBinding W}
    {HSC : LruCache SC} {HSCL : LruCacheLaws SC} `{K : Keccak256} `{BridgeAbi} `{!BridgeBindingLaws W} (cfg : ManConfig)
    (service : bridgeService) (l2NetworkID : Z) (authFrom : Address) (t : Tables) (s : Seqs) (lds : list (Hash * Z))
    (n : nat) (root1 : Hash) (e : exit_root_row) (ger : GlobalExitRoot) (st : CtmState W C SC) :
  healthy W → ctm_db st = mkDB t None s [] → cache_sound (tm_proofs st) (tables_view t s) →
  stored mtHeight 0 lds (tables_view t s) → rht_functional (tables_view t s) → NoDup (dr_id <$> t_deposit t) →
  (n ≤ length lds)%nat → Z.of_nat n ≤ 2 ^ 32 → sv_height service = Z.of_nat mtHeight →
  isL2ExitRootUpdate ger = false → g_ExitRoots ger ≠ [] →
  head (sort_desc er_id (filter (λ r, er_allowed r = true ∧ 0 < er_block_id r ∧
    er_global_exit_root r = g_GlobalExitRoot ger ∧ er_network_id r = 0) (t_exit_root t))) = Some e →
  er_exit_roots e = [mroot mtHeight (take n (fst <$> lds)); root1] →
  (∀ d, d ∈ t_deposit t → dr_network_id d = 0 → dr_ready_for_claim d = true → 0 ≤ dr_deposit_cnt d < Z.of_nat n) →
  0 ∉ mc_AuthorizedClaimMessageAddresses cfg →
  ∃ st' new, processPendingDeposits cfg service l2NetworkID authFrom ger st = (Ok tt, st') ∧
    ctm_db st' = mkDB (plus_claims t new) None s [] ∧
    ∀ d, pending_here cfg l2NetworkID t d → ∃ m, m ∈ new ∧ verifying_claim lds n d m.
Proof.
  intros Hw Edb Hcs Hst Hf Hids Hn Hn32 Hht Ek Hne Hger Hroots Hready Hauth. unfold processPendingDeposits.
  erewrite M_bind_Ok by (apply ctm_db_eq; rewrite Edb; by apply Begin_live). cbn [db_committed db_seqs].
  set (st1 := with_db (mkDB t (Some (TxActive t)) s []) st).
  destruct (GetPending_live l2NetworkID t s 0 LeafTypeAsset st1 eq_refl) as (assets & k & Ea & Hassets).
  destruct (messageDeposits_live l2NetworkID t s (mc_AuthorizedClaimMessageAddresses cfg) st1 assets eq_refl)
    as (deps & Em & Hdeps).
  assert (depositsToClaim cfg l2NetworkID ger InTx st1 = (Ok (Some (deps, g_GlobalExitRoot ger)), st1)) as Esel.
  { unfold depositsToClaim. rewrite Ek. destruct (g_ExitRoots ger) as [|x l]; [done|]. erewrite M_bind_Ok by reflexivity.
    erewrite M_bind_Ok by (apply orRollbackState_Ok, Ea). cbn beta iota. by erewrite M_bind_Ok by exact Em. }
  erewrite M_bind_Ok by exact Esel. cbn beta iota.
  erewrite M_bind_Ok by (apply orRollbackState_Ok, ctm_db_eq; by eapply (Commit_live _ t)). cbn [db_seqs ctm_db st1 with_db tm_man ms_db].
  match goal with |- context [forM_ _ _ ?x] => set (st2 := x : CtmState W C SC) end.
  edestruct (claim_loop cfg service l2NetworkID authFrom Hw t s lds n) with (deps := deps) (done := @nil Deposit) (new := @nil MonitoredTx) (st := st2)
    as (new & st' & El & Hinv & Htx & Hnil); [done..| | |].
  { split; [exists None|split; [exact Hcs|split]]; cbn.
    - unfold plus_claims. destruct t. unfold on_monitored_txs. cbn. by rewrite app_nil_r.
    - intros m Hm. by apply elem_of_nil in Hm.
    - intros d b Hd. by apply elem_of_nil in Hd. }
  { intros dep [(d & b & Hd & Hb & Eb & Hp & ->)%Hassets|(a & d & b & Ha & Hd & Hb & Eb & Hp & ->)]%Hdeps; exists d, (br_block_num b);
      (split; [|done]); (split; [done|]); (split; [by exists b|]); [by left|right; by exists a]. }
  destruct Hinv as ((tx0 & Edb') & _ & Hver & Hdone). exists st', new. split; [exact El|]. split.
  { rewrite Edb'. f_equal. destruct deps as [|dep deps]; [|specialize (Htx ltac:(done)); by rewrite Edb' in Htx].
    specialize (Hnil eq_refl). subst st'. by apply (f_equal db_tx) in Edb'. }
  intros d Hd. assert (∃ b, deposit_of_row d b ∈ deps) as (b & Hin).
  { destruct Hd as (Hd & (b & Hb & Eb) & Hp). exists (br_block_num b). apply Hdeps. destruct Hp as [Hp|(a & Ha & Hp)].
    - left. apply Hassets. by exists d, b.
    - right. by exists a, d, b. }
  specialize (Hdone d b Hin). apply list_elem_of_fmap in Hdone as (m & Eid & Hm). exists m. split; [done|].
  destruct (Hver m Hm) as (d' & Hd' & Hv). assert (d' = d) as <-; [|done].
  eapply (NoDup_fmap_inj dr_id); [exact Hids|done|apply Hd|]. destruct Hv as [E _]. congruence.
Qed.

(** When the trusted exit root of the first deposit from another rollup is missing twice,
    the method returns nil in the middle: its transaction stays open. *)
Lemma processPendingDeposits_leaves_open {W C SC : Type} `{NonceLru C} `{L2Node W} `{L1Node W} `{BridgeBinding W}
    `{LruCache SC} `{K : Keccak256} (cfg : ManConfig) (service : bridgeService) (l2NetworkID : Z) (authFrom : Address)
    (ger : GlobalExitRoot) (st : CtmState W C SC) (root : Hash) (dep : Deposit) (deps : list Deposit) :
  let st1 := with_db (mkDB (db_committed (ctm_db st)) (Some (TxActive (db_committed (ctm_db st)))) (db_seqs (ctm_db st)) []) st in
  db_faults (ctm_db st) = [] → isL2ExitRootUpdate ger = true → mc_AreClaimsBetweenL2sEnabled cfg = true →
  at_index (g_ExitRoots ger) 1 = Ok root →
  on_db (GetDepositsFromOtherL2ToClaim l2NetworkID InTx) st1 = (Ok (dep :: deps), st1) →
  on_db (GetLatestTrustedGERByDeposit (d_DepositCount dep) (d_NetworkID dep) (d_DestinationNetwork dep) InTx) st1 =
    (Err ErrStorageNotFound, st1) →
  processPendingDeposits cfg service l2NetworkID authFrom ger st = (Ok tt, st1).
Proof.
  intros st1 Hf Ek Hc Er Ed Eg. unfold processPendingDeposits. erewrite M_bind_Ok by (apply ctm_db_eq, Begin_live, Hf). fold st1.
  assert (depositsToClaim cfg l2NetworkID ger InTx st1 = (Ok None, st1)) as E; [|by erewrite M_bind_Ok by exact E].
  unfold depositsToClaim. rewrite Ek, Er, Hc. erewrite M_bind_Ok by reflexivity.
  erewrite M_bind_Ok by (apply orRollbackState_Ok, Ed). cbn beta iota.
  assert (trustedGER dep InTx st1 = (Ok None, st1)) as E; [|by erewrite M_bind_Ok by exact E].
  unfold trustedGER. erewrite M_bind_Ok by (apply attempt_Err, Eg). cbn beta iota.
  change (errors_Is ErrStorageNotFound ErrStorageNotFound) with true. cbn beta iota.
  erewrite M_bind_Ok by (apply attempt_Err, Eg). cbn beta iota.
  by change (errors_Is ErrStorageNotFound ErrStorageNotFound) with true.
Qed.
