(* ===== verification/ClaimTxLoop.v ===== *)
(** * The loop of the claim transaction manager (claimtxman/claimtxman.go: Start; cmd/run.go:
    monitorChannel)

    [Start] selects between the channels of the synchronizers and two tickers.  It hands
    a new exit root to a goroutine that calls [processPendingDeposits]; the goroutine
    reads the variable ger of the loop when it runs, which may be after the next exit
    root arrived.  Calls wait for the mutex and run one after the other.  An execution is
    a sequence of labelled steps; the calls of one step are not interleaved with those of
    another, and a panic ends the process. *)
From S2P Require Import Prelude Types Bytes Hash ClaimTypes Schema Storage Service NonceCache MonitorTxs CompressedTxs.
From S2P Require Import ClaimTxManager.

Definition zeroGER : GlobalExitRoot := mkGlobalExitRoot 0 0 [] 0 0 0.

Inductive Event :=
| ChSynced (netID : Z)
| ChExitRootEvent (ger : GlobalExitRoot)
| CompressorTick
| Tick
| GoroutineReads
| GoroutineRuns (ger : GlobalExitRoot).

(** The variables of the manager and of the loop, the goroutines that were started and
    have not read ger, and the calls of [processPendingDeposits] that wait. *)
Record Loop (W C SC : Type) := mkLoop {
  lp_l1Synced : bool;
  lp_l2Synced : bool;
  lp_ger : GlobalExitRoot;
  lp_latestProcessedGer : Hash;
  lp_started : nat;
  lp_called : list GlobalExitRoot;
  lp_state : CtmState W C SC
}.
Arguments mkLoop {_ _ _} _ _ _ _ _ _ _.
Arguments lp_l1Synced {_ _ _} _.
Arguments lp_l2Synced {_ _ _} _.
Arguments lp_ger {_ _ _} _.
Arguments lp_latestProcessedGer {_ _ _} _.
Arguments lp_started {_ _ _} _.
Arguments lp_called {_ _ _} _.
Arguments lp_state {_ _ _} _.

Section Start.
Context {W C SC : Type} `{NonceLru C} `{L2Node W} `{L1Node W} `{BridgeBinding W} `{ClaimCompressor W}.
Context `{LruCache SC} `{Keccak256} `{BridgeAbi} `{MapRange}.
Context (cfg : ManConfig) (groupCfg : ConfigGroupingClaims) (authGasLimit : option Z) (gasOffset : Z).
Context (service : bridgeService) (l2NetworkID rollupID : Z) (authFrom : Address).

Abbreviation LM := (M (Loop W C SC)).
Definition on_state {A} (c : M (CtmState W C SC) A) : LM A :=
  zoom lp_state (λ st l, mkLoop (lp_l1Synced l) (lp_l2Synced l) (lp_ger l) (lp_latestProcessedGer l) (lp_started l)
                           (lp_called l) st) c.

(** The monitor that NewClaimTxManager chooses. *)
Definition monitorTxs : M (CtmState W C SC) unit :=
  on_man (if mc_GroupingClaimsEnabled cfg then MonitorCompressedTxs groupCfg authGasLimit gasOffset rollupID
          else MonitorTxs (mc_RetryNumber cfg) rollupID).

Definition set_synced (l1Synced l2Synced : bool) (l : Loop W C SC) : Loop W C SC :=
  mkLoop l1Synced l2Synced (lp_ger l) (lp_latestProcessedGer l) (lp_started l) (lp_called l) (lp_state l).
Definition set_ger (ger : GlobalExitRoot) (l : Loop W C SC) : Loop W C SC :=
  mkLoop (lp_l1Synced l) (lp_l2Synced l) ger (lp_latestProcessedGer l) (lp_started l) (lp_called l) (lp_state l).
Definition set_latest (h : Hash) (l : Loop W C SC) : Loop W C SC :=
  mkLoop (lp_l1Synced l) (lp_l2Synced l) (lp_ger l) h (lp_started l) (lp_called l) (lp_state l).
Definition set_goroutines (started : nat) (called : list GlobalExitRoot) (l : Loop W C SC) : Loop W C SC :=
  mkLoop (lp_l1Synced l) (lp_l2Synced l) (lp_ger l) (lp_latestProcessedGer l) started called (lp_state l).
(** go func() { tm.processPendingDeposits(ger) }(). *)
Definition startGoroutine (l : Loop W C SC) : Loop W C SC := set_goroutines (S (lp_started l)) (lp_called l) l.

Definition isSynced (l : Loop W C SC) : bool := lp_l2Synced l && lp_l1Synced l.

(** ** The cases of the select *)

Definition onSynced (netID : Z) : LM unit :=
  modify (λ l, if decide (netID = l2NetworkID ∧ lp_l2Synced l = false) then set_synced (lp_l1Synced l) true l else l);;
  modify (λ l, if decide (netID = 0 ∧ lp_l1Synced l = false) then set_synced true (lp_l2Synced l) l else l).

Definition onExitRootEvent (channelGer : GlobalExitRoot) : LM unit :=
  modify (set_ger channelGer);;
  l ← get;
  if isSynced l then
    r ← attempt (on_state (updateDepositsStatus l2NetworkID rollupID (lp_ger l)));
    match r with
    | inl _ => mret tt
    | inr _ => if mc_GroupingClaimsEnabled cfg then mret tt else modify startGoroutine
    end
  else mret tt.

Definition onCompressorTick : LM unit :=
  l ← get;
  if isSynced l && mc_GroupingClaimsEnabled cfg && bool_decide (g_GlobalExitRoot (lp_ger l) ≠ lp_latestProcessedGer l)
  then modify startGoroutine;; modify (λ l, set_latest (g_GlobalExitRoot (lp_ger l)) l)
  else mret tt.

Definition onTick : LM unit := _ ← attempt (on_state monitorTxs); mret tt.

(** The body of a goroutine, with the exit root that it read. *)
Definition goroutine (ger : GlobalExitRoot) : LM unit :=
  _ ← attempt (on_state (processPendingDeposits cfg service l2NetworkID authFrom ger)); mret tt.

(** ** Executions *)

Inductive step (l : Loop W C SC) : Event → Loop W C SC → Prop :=
| step_synced netID l' : onSynced netID l = (Ok tt, l') → step l (ChSynced netID) l'
| step_ger ger l' : onExitRootEvent ger l = (Ok tt, l') → step l (ChExitRootEvent ger) l'
| step_compressor l' : onCompressorTick l = (Ok tt, l') → step l CompressorTick l'
| step_tick l' : onTick l = (Ok tt, l') → step l Tick l'
| step_reads n :
    lp_started l = S n → step l GoroutineReads (set_goroutines n (lp_called l ++ [lp_ger l]) l)
| step_runs c1 ger c2 l' :
    lp_called l = c1 ++ ger :: c2 → goroutine ger (set_goroutines (lp_started l) (c1 ++ c2) l) = (Ok tt, l') →
    step l (GoroutineRuns ger) l'.

Inductive steps (l : Loop W C SC) : list Event → Loop W C SC → Prop :=
| steps_nil : steps l [] l
| steps_snoc tr l1 e l2 : steps l tr l1 → step l1 e l2 → steps l (tr ++ [e]) l2.

(** [Start] before its first event. *)
Definition start (st : CtmState W C SC) : Loop W C SC := mkLoop false false zeroGER 0 0 [] st.

(** ** cmd/run.go: monitorChannel, without a claim transaction manager *)

(** An error, logged with the error of the rollback. *)
Definition logRollback (tx : dbTx) : M (CtmState W C SC) unit := _ ← attempt (on_db (Rollback tx)); mret tt.

(** The case of a new exit root; the manager of network [networkID] is not started. *)
Definition monitorChannel (networkID : Z) (ger : GlobalExitRoot) : M (CtmState W C SC) unit :=
  r ← attempt (on_db BeginDBTransaction);
  match r with
  | inl _ => mret tt
  | inr tx =>
      let commit :=
        r ← attempt (on_db (Commit tx));
        match r with
        | inl _ => logRollback tx
        | inr _ => mret tt
        end in
      match g_ExitRoots ger with
      | [] => mret tt
      | _ =>
          if isL2ExitRootUpdate ger then
            root ← lift (at_index (g_ExitRoots ger) 1);
            r ← attempt (on_db (UpdateL2DepositsStatus root networkID networkID true tx));
            match r with
            | inl _ => logRollback tx
            | inr _ => commit
            end
          else
            root ← lift (at_index (g_ExitRoots ger) 0);
            r ← attempt (on_db (UpdateL1DepositsStatus root networkID tx));
            match r with
            | inl _ => logRollback tx
            | inr _ =>
                root ← lift (at_index (g_ExitRoots ger) 1);
                r ← attempt (on_db (UpdateL2DepositsStatus root networkID networkID false tx));
                match r with
                | inl _ => logRollback tx
                | inr _ => commit
                end
            end
      end
  end.

End Start.
