(* ===== verification/ClaimTxLoopTheorems.v ===== *)
(** * The theorems of the loop of the claim transaction manager

    Rule induction over the executions of [Start]: nothing is claimed before both
    networks are synced, and which exit roots reach [processPendingDeposits]. *)
From S2P Require Import Prelude Types Bytes Hash ClaimTypes Schema Storage Service NonceCache MonitorTxs CompressedTxs.
From S2P Require Import ClaimTxManager ClaimStatus ClaimTxLoop.

Section Executions.
Context {W C SC : Type} `{NonceLru C} `{L2Node W} `{L1Node W} `{BridgeBinding W} `{ClaimCompressor W}.
Context `{LruCache SC} `{Keccak256} `{BridgeAbi} `{MapRange}.
Context (cfg : ManConfig) (groupCfg : ConfigGroupingClaims) (authGasLimit : option Z) (gasOffset : Z).
Context (service : bridgeService) (l2NetworkID rollupID : Z) (authFrom : Address).
Implicit Types l : Loop W C SC.

(** A computation on the state leaves the variables of the loop alone. *)
Definition same_loop (l l' : Loop W C SC) : Prop := ∃ st, l' = mkLoop (lp_l1Synced l) (lp_l2Synced l) (lp_ger l)
  (lp_latestProcessedGer l) (lp_started l) (lp_called l) st.

Lemma on_state_same {A} (c : M (CtmState W C SC) A) l r l' : on_state c l = (r, l') → same_loop l l'.
Proof. unfold on_state, zoom. destruct (c (lp_state l)) as [x st]. intros [= <- <-]. by exists st. Qed.

Lemma attempt_state_same {A} (c : M (CtmState W C SC) A) l l' :
  (_ ← attempt (on_state c); mret tt) l = (Ok tt, l') → same_loop l l'.
Proof.
  unfold mbind, M_bind, attempt. destruct (on_state c l) as [[a|e| |] l1] eqn:E; cbn; try done;
    intros [= <-]; by eapply on_state_same.
Qed.

Lemma onSynced_eq netID l l' :
  onSynced l2NetworkID netID l = (Ok tt, l') →
  l' = set_synced (lp_l1Synced l || bool_decide (netID = 0)) (lp_l2Synced l || bool_decide (netID = l2NetworkID)) l.
Proof.
  unfold onSynced, modify, mbind, M_bind. intros [= <-]. destruct l as [b1 b2 ? ? ? ? ?]. unfold set_synced. cbn.
  repeat case_decide; cbn; repeat case_bool_decide; destruct b1, b2; cbn; try done; tauto.
Qed.

(** An exit root is stored, and a goroutine may be started. *)
Lemma onExitRootEvent_eq ger l l' :
  onExitRootEvent cfg l2NetworkID rollupID ger l = (Ok tt, l') →
  ∃ st n, l' = mkLoop (lp_l1Synced l) (lp_l2Synced l) ger (lp_latestProcessedGer l) (n + lp_started l) (lp_called l) st ∧
    (isSynced l = false → n = 0%nat ∧ st = lp_state l).
Proof.
  unfold onExitRootEvent, modify, get, mbind, M_bind. cbn. change (isSynced (set_ger ger l)) with (isSynced l).
  destruct (isSynced l) eqn:Es; [|intros [= <-]; by exists (lp_state l), 0%nat].
  unfold attempt, on_state, zoom. cbn. destruct (updateDepositsStatus _ _ _ _) as [[[]|e| |] st]; cbn; try done.
  - destruct (mc_GroupingClaimsEnabled cfg); intros [= <-]; [by exists st, 0%nat|by exists st, 1%nat].
  - intros [= <-]. by exists st, 0%nat.
Qed.

Lemma onCompressorTick_eq l l' :
  onCompressorTick cfg l = (Ok tt, l') →
  l' = l ∨ (isSynced l = true ∧ g_GlobalExitRoot (lp_ger l) ≠ lp_latestProcessedGer l ∧
            l' = set_latest (g_GlobalExitRoot (lp_ger l)) (startGoroutine l)).
Proof.
  unfold onCompressorTick, modify, get, mbind, M_bind. cbn.
  destruct (isSynced l) eqn:Es; cbn; [|intros [= <-]; by left].
  destruct (mc_GroupingClaimsEnabled cfg); cbn; [|intros [= <-]; by left].
  case_bool_decide; intros [= <-]; [|by left]. right. done.
Qed.

(** What an execution from the start looks like. *)
Record waits (st0 : CtmState W C SC) (tr : list Event) (l : Loop W C SC) : Prop := {
  w_l1 : lp_l1Synced l = true ↔ ChSynced 0 ∈ tr;
  w_l2 : lp_l2Synced l = true ↔ ChSynced l2NetworkID ∈ tr;
  w_idle : isSynced l = false → lp_started l = 0%nat ∧ lp_called l = [] ∧ (∀ g, GoroutineRuns g ∉ tr) ∧
             (Tick ∉ tr → lp_state l = st0);
  w_ger : (lp_ger l = zeroGER ∧ lp_latestProcessedGer l = 0 ∧ lp_started l = 0%nat) ∨ ChExitRootEvent (lp_ger l) ∈ tr;
  w_called : ∀ g, g ∈ lp_called l ∨ GoroutineRuns g ∈ tr → ChExitRootEvent g ∈ tr
}.

Lemma snoc_iff (e e' : Event) tr : e ∈ tr ++ [e'] ↔ e ∈ tr ∨ e = e'.
Proof. by rewrite elem_of_app, list_elem_of_singleton. Qed.

Lemma snoc_other (e e' : Event) tr : e ≠ e' → e ∈ tr ++ [e'] ↔ e ∈ tr.
Proof. rewrite snoc_iff. tauto. Qed.

(** Any event but a synced network and a goroutine's run keeps what is known when the
    variables of the loop are those of [l]. *)
Lemma waits_more st0 tr l e :
  waits st0 tr l → (∀ n, e ≠ ChSynced n) → (∀ g, e ≠ GoroutineRuns g) → waits st0 (tr ++ [e]) l.
Proof.
  intros [Hl1 Hl2 Hidle Hger Hcalled] Hs Hr. constructor.
  - by rewrite snoc_other.
  - by rewrite snoc_other.
  - intros Hn. destruct (Hidle Hn) as (? & ? & Hruns & Ht). do 2 (split; [done|]).
    split; [intros g; by rewrite snoc_other|]. rewrite snoc_iff. intros. apply Ht. tauto.
  - rewrite snoc_iff. tauto.
  - intros g. rewrite !snoc_iff. intros [?|[?|?]]; [left; auto..|by destruct (Hr g)].
Qed.

(** The state of the manager is free once a tick was seen or both networks are synced. *)
Lemma waits_state st0 tr l l' :
  waits st0 tr l → same_loop l l' → Tick ∈ tr ∨ isSynced l = true → waits st0 tr l'.
Proof.
  intros [Hl1 Hl2 Hidle Hger Hcalled] (st & ->) Ht. constructor; cbn; try done. intros Hs.
  change (isSynced l = false) in Hs. destruct (Hidle Hs) as (? & ? & ? & _). do 3 (split; [done|]).
  intros Hn. destruct Ht as [|Ht]; [done|congruence].
Qed.

Lemma waits_synced st0 tr l netID l' :
  waits st0 tr l → onSynced l2NetworkID netID l = (Ok tt, l') → waits st0 (tr ++ [ChSynced netID]) l'.
Proof.
  intros [Hl1 Hl2 Hidle Hger Hcalled] ->%onSynced_eq. constructor; cbn.
  - rewrite snoc_iff, orb_true_iff, Hl1, bool_decide_eq_true. apply or_iff_compat_l. split; congruence.
  - rewrite snoc_iff, orb_true_iff, Hl2, bool_decide_eq_true. apply or_iff_compat_l. split; congruence.
  - intros Hs. destruct Hidle as (? & ? & Hr & Ht).
    { unfold isSynced in *. cbn in Hs. by destruct (lp_l2Synced l), (lp_l1Synced l). }
    do 2 (split; [done|]). split; [intros g; by rewrite snoc_other|]. rewrite snoc_iff. intros Hn. apply Ht. tauto.
  - rewrite snoc_iff. tauto.
  - intros g. rewrite !snoc_iff. intros [?|[?|?]]; [left; auto..|done].
Qed.

Lemma waits_exitRoot st0 tr l ger l' :
  waits st0 tr l → onExitRootEvent cfg l2NetworkID rollupID ger l = (Ok tt, l') → waits st0 (tr ++ [ChExitRootEvent ger]) l'.
Proof.
  intros Hw (st & n & -> & Hn)%onExitRootEvent_eq. apply (waits_more _ _ _ (ChExitRootEvent ger)) in Hw as Hw'; [|done..].
  destruct Hw' as [Hl1 Hl2 Hidle _ Hcalled]. constructor; cbn; try done.
  - intros Hs. change (isSynced l = false) in Hs. destruct (Hn Hs) as [-> ->]. by apply Hidle.
  - right. rewrite snoc_iff. by right.
Qed.

Lemma waits_step st0 tr l e l' :
  waits st0 tr l → step cfg groupCfg authGasLimit gasOffset service l2NetworkID rollupID authFrom l e l' →
  waits st0 (tr ++ [e]) l'.
Proof.
  intros Hw Hstep. destruct Hstep as [netID l' E|ger l' E|l' E|l' E|n E|c1 ger c2 l' Ec E].
  - by eapply waits_synced.
  - by eapply waits_exitRoot.
  - apply onCompressorTick_eq in E as [-> |(Hs & Hne & ->)]; [by apply waits_more|].
    apply (waits_more _ _ _ CompressorTick) in Hw as Hw'; [|done..]. destruct Hw' as [Hl1 Hl2 _ Hger Hcalled].
    constructor; cbn; try done; [unfold isSynced in *; cbn; congruence|]. right.
    destruct Hger as [(E1 & E2 & _)|]; [|done]. by rewrite E1, E2 in Hne.
  - apply attempt_state_same in E. eapply waits_state; [by apply waits_more|done|]. left. rewrite snoc_iff. by right.
  - assert (ChExitRootEvent (lp_ger l) ∈ tr) as Hin by (destruct (w_ger _ _ _ Hw) as [(_ & _ & E0)|]; [congruence|done]).
    apply (waits_more _ _ _ GoroutineReads) in Hw as Hw'; [|done..]. destruct Hw' as [Hl1 Hl2 Hidle _ Hcalled].
    constructor; cbn; try done.
    + intros Hs. destruct (Hidle Hs) as (E0 & _). congruence.
    + right. rewrite snoc_iff. by left.
    + intros g [[?|Eg%list_elem_of_singleton]%elem_of_app|?]; [auto| |auto]. rewrite Eg, snoc_iff. by left.
  - apply attempt_state_same in E as (st & ->). destruct Hw as [Hl1 Hl2 Hidle Hger Hcalled].
    assert (∀ g, g = ger ∨ g ∈ c1 ++ c2 → g ∈ lp_called l) as Hsub.
    { intros g. rewrite Ec, !elem_of_app, elem_of_cons. tauto. }
    constructor; cbn; [by rewrite snoc_other..| | |].
    + intros Hs. destruct (Hidle Hs) as (_ & E0 & _). rewrite E0 in Ec. by destruct c1.
    + rewrite snoc_iff. tauto.
    + intros g. rewrite !snoc_iff. intros [?|[?|?]]; left; [auto..|]. apply Hcalled. left. apply Hsub. left. congruence.
Qed.

Abbreviation execution := (steps cfg groupCfg authGasLimit gasOffset service l2NetworkID rollupID authFrom).

Lemma waits_execution st0 tr l : execution (start st0) tr l → waits st0 tr l.
Proof.
  intros Hex. remember (start st0) as l0 eqn:E0. induction Hex as [|tr l1 e l2 _ IH Hstep]; [subst|by eapply waits_step; [apply IH|]].
  constructor; cbn; [by split; [|intros ?%elem_of_nil]..| | |].
  - intros _. do 2 (split; [done|]). split; [intros g; apply not_elem_of_nil|done].
  - by left.
  - by intros g [?%elem_of_nil|?%elem_of_nil].
Qed.

(** Without grouping, an exit root whose status update succeeds starts a goroutine. *)
Lemma onExitRootEvent_starts ger l st' :
  mc_GroupingClaimsEnabled cfg = false → isSynced l = true →
  updateDepositsStatus l2NetworkID rollupID ger (lp_state l) = (Ok tt, st') →
  onExitRootEvent cfg l2NetworkID rollupID ger l =
    (Ok tt, mkLoop (lp_l1Synced l) (lp_l2Synced l) ger (lp_latestProcessedGer l) (S (lp_started l)) (lp_called l) st').
Proof.
  intros Hg Hs E. unfold onExitRootEvent, modify, get, mbind, M_bind. cbn. change (isSynced (set_ger ger l)) with (isSynced l).
  rewrite Hs. unfold attempt, on_state, zoom. cbn. rewrite E. cbn. by rewrite Hg.
Qed.

(** The exit root [ger] is still read by a goroutine, waits, or was processed. *)
Definition on_its_way (ger : GlobalExitRoot) (tr : list Event) (l : Loop W C SC) : Prop :=
  lp_ger l = ger ∧ (lp_started l ≠ 0%nat ∨ ger ∈ lp_called l ∨ GoroutineRuns ger ∈ tr).

Lemma on_its_way_step ger tr l e l' :
  on_its_way ger tr l → step cfg groupCfg authGasLimit gasOffset service l2NetworkID rollupID authFrom l e l' →
  (∀ g, e ≠ ChExitRootEvent g) → on_its_way ger (tr ++ [e]) l'.
Proof.
  intros [Hg Hway] Hstep He. unfold on_its_way. rewrite snoc_iff.
  destruct Hstep as [netID l' E|ger' l' E|l' E|l' E|n E|c1 ger' c2 l' Ec E].
  - apply onSynced_eq in E as ->. cbn. tauto.
  - by destruct (He ger').
  - apply onCompressorTick_eq in E as [-> |(_ & _ & ->)]; cbn; [tauto|auto].
  - apply attempt_state_same in E as (st & ->). cbn. tauto.
  - cbn. split; [done|]. right. left. apply elem_of_app. right. apply list_elem_of_singleton. congruence.
  - apply attempt_state_same in E as (st & ->). cbn. split; [done|]. rewrite Ec in Hway.
    rewrite elem_of_app, elem_of_cons in Hway. rewrite elem_of_app.
    destruct Hway as [?|[[?|[<-|?]]|?]]; [by left|by right; left; left|by right; right; right|by right; left; right|by right; right; left].
Qed.

End Executions.

(** C19: in every execution of [Start], before both L1 and its own network have reported
    that they are synced, no goroutine is started and none has run, and without a tick of
    the monitor the state is the one it started with: no deposit is made ready and no claim
    is created.  The exit roots that are processed, or wait to be, are ones that were
    received. *)
Theorem Start_waits {W C SC : Type} `{NonceLru C} `{L2Node W} `{L1Node W} `{BridgeBinding W} `{ClaimCompressor W}
    `{LruCache SC} `{K : Keccak256} `{BridgeAbi} `{MapRange} (cfg : ManConfig) (groupCfg : ConfigGroupingClaims)
    (authGasLimit : option Z) (gasOffset : Z) (service : bridgeService) (l2NetworkID rollupID : Z) (authFrom : Address)
    (st0 : CtmState W C SC) (tr : list Event) (l : Loop W C SC) :
  steps cfg groupCfg authGasLimit gasOffset service l2NetworkID rollupID authFrom (start st0) tr l →
  (ChSynced 0 ∉ tr ∨ ChSynced l2NetworkID ∉ tr →
     lp_started l = 0%nat ∧ lp_called l = [] ∧ (∀ g, GoroutineRuns g ∉ tr) ∧ (Tick ∉ tr → lp_state l = st0)) ∧
  (∀ g, g ∈ lp_called l ∨ GoroutineRuns g ∈ tr → ChExitRootEvent g ∈ tr).
Proof.
  intros [Hl1 Hl2 Hidle _ Hcalled]%waits_execution. split; [|done]. intros Hns. apply Hidle. unfold isSynced.
  destruct (lp_l2Synced l), (lp_l1Synced l); cbn; try done. destruct Hns as [Hns|Hns]; tauto.
Qed.

(** C20: without grouping, an exit root that arrives when both networks are synced and whose
    status update succeeds is processed in every execution in which no other exit root
    arrives and all goroutines come to an end. *)
Theorem Start_processes {W C SC : Type} `{NonceLru C} `{L2Node W} `{L1Node W} `{BridgeBinding W} `{ClaimCompressor W}
    `{LruCache SC} `{K : Keccak256} `{BridgeAbi} `{MapRange} (cfg : ManConfig) (groupCfg : ConfigGroupingClaims)
    (authGasLimit : option Z) (gasOffset : Z) (service : bridgeService) (l2NetworkID rollupID : Z) (authFrom : Address)
    (ger : GlobalExitRoot) (tr : list Event) (l l1 l2 : Loop W C SC) (st' : CtmState W C SC) :
  mc_GroupingClaimsEnabled cfg = false → isSynced l = true →
  updateDepositsStatus l2NetworkID rollupID ger (lp_state l) = (Ok tt, st') →
  step cfg groupCfg authGasLimit gasOffset service l2NetworkID rollupID authFrom l (ChExitRootEvent ger) l1 →
  steps cfg groupCfg authGasLimit gasOffset service l2NetworkID rollupID authFrom l1 tr l2 →
  (∀ g, ChExitRootEvent g ∉ tr) → lp_started l2 = 0%nat → lp_called l2 = [] →
  GoroutineRuns ger ∈ tr.
Proof.
  intros Hg Hs Hu Hstep Hsteps Hno E0 E1. inversion Hstep as [|? ? Hl1| | | |]; subst.
  rewrite (onExitRootEvent_starts cfg l2NetworkID rollupID ger l st' Hg Hs Hu) in Hl1. simplify_eq.
  assert (on_its_way ger tr l2) as [_ Hway].
  { clear E0 E1. revert Hno. induction Hsteps as [|tr l1 e l2 _ IH Hstep1]; intros Hno; [split; [done|]; by left|].
    eapply on_its_way_step; [apply IH|exact Hstep1|].
    - intros g Hin. apply (Hno g). apply elem_of_app. by left.
    - intros g ->. apply (Hno g). apply snoc_iff. by right. }
  rewrite E0, E1 in Hway. destruct Hway as [|[?%elem_of_nil|]]; done.
Qed.

(** An exit root that arrives before the goroutine of the previous one has read the
    variable replaces it: both goroutines process the second exit root, and the first is
    never processed.  (The claims of the first kind of exit root, from other rollups, are
    then not looked at.) *)
Theorem Start_ger_replaced {W C SC : Type} `{NonceLru C} `{L2Node W} `{L1Node W} `{BridgeBinding W} `{ClaimCompressor W}
    `{LruCache SC} `{K : Keccak256} `{BridgeAbi} `{MapRange} (cfg : ManConfig) (groupCfg : ConfigGroupingClaims)
    (authGasLimit : option Z) (gasOffset : Z) (service : bridgeService) (l2NetworkID rollupID : Z) (authFrom : Address)
    (ger1 ger2 : GlobalExitRoot) (l : Loop W C SC) (st1 st2 : CtmState W C SC) :
  mc_GroupingClaimsEnabled cfg = false → isSynced l = true → lp_started l = 0%nat → lp_called l = [] →
  updateDepositsStatus l2NetworkID rollupID ger1 (lp_state l) = (Ok tt, st1) →
  updateDepositsStatus l2NetworkID rollupID ger2 st1 = (Ok tt, st2) →
  ∃ l', steps cfg groupCfg authGasLimit gasOffset service l2NetworkID rollupID authFrom l
          [ChExitRootEvent ger1; ChExitRootEvent ger2; GoroutineReads; GoroutineReads] l' ∧
    lp_started l' = 0%nat ∧ lp_called l' = [ger2; ger2].
Proof.
  intros Hg Hs Es Ec E1 E2. eexists. split.
  - change [ChExitRootEvent ger1; ChExitRootEvent ger2; GoroutineReads; GoroutineReads] with
      (((([] ++ [ChExitRootEvent ger1]) ++ [ChExitRootEvent ger2]) ++ [GoroutineReads]) ++ [GoroutineReads]).
    eapply steps_snoc; [eapply steps_snoc; [eapply steps_snoc; [eapply steps_snoc; [apply steps_nil|]|]|]|].
    + apply step_ger. by apply onExitRootEvent_starts.
    + apply step_ger. apply onExitRootEvent_starts; [done|done|exact E2].
    + apply step_reads. reflexivity.
    + apply step_reads. cbn. by rewrite Es.
  - cbn. by rewrite Ec.
Qed.

(** ** Without a manager *)

Section Channel.
Context {W C SC : Type}.
Implicit Types c k : M (CtmState W C SC) unit.

(** An error is only logged. *)
Definition logged (p : result unit * CtmState W C SC) : result unit * CtmState W C SC :=
  match p with (Err _, st) => (Ok tt, st) | _ => p end.

Lemma logRollback_logged tx e st : logRollback tx st = logged (rollbackState tx e st).
Proof. unfold logRollback, rollbackState, mbind, M_bind, attempt. by destruct (on_db (Rollback tx) st) as [[] ?]. Qed.

Lemma or_logRollback tx c k k' st :
  (∀ st, k' st = logged (k st)) →
  (r ← attempt c; match r with inl _ => logRollback tx | inr _ => k' end) st = logged ((orRollbackState tx c;; k) st).
Proof.
  intros Hk. unfold orRollbackState, mbind, M_bind, attempt. destruct (c st) as [[[]|e| |] st1]; cbn; [apply Hk| |done..].
  rewrite (logRollback_logged tx e). destruct (rollbackState tx e st1) as [[u|?| |] st2] eqn:E; [|done..]. exfalso. revert E.
  unfold rollbackState, mbind, M_bind, attempt. by destruct (on_db (Rollback tx) st1) as [[] ?].
Qed.

Lemma commit_logged tx st :
  (r ← attempt (on_db (Commit tx)); match r with inl _ => logRollback tx | inr _ => mret tt end) st =
  logged (orRollbackState tx (on_db (Commit tx)) st).
Proof.
  rewrite (or_logRollback tx (on_db (Commit tx)) (mret tt) (mret tt)) by done. f_equal. unfold mbind, M_bind.
  by destruct (orRollbackState tx (on_db (Commit tx)) st) as [[[]|e| |] st1].
Qed.

Lemma lift_logged {A} (x : result A) (k k' : A → M (CtmState W C SC) unit) st :
  (∀ e, x ≠ Err e) → (∀ a st, k' a st = logged (k a st)) → (a ← lift x; k' a) st = logged ((a ← lift x; k a) st).
Proof. intros Hx Hk. unfold mbind, M_bind, lift. destruct x as [a|e| |]; cbn; [apply Hk|by destruct (Hx e)|done..]. Qed.

End Channel.

Lemma at_index_no_Err {A} (l : list A) i e : at_index l i ≠ Err e.
Proof. unfold at_index. by repeat case_match. Qed.

(** C22: without a claim transaction manager, monitorChannel updates the status of the
    deposits as [updateDepositsStatus] does for a manager whose rollup has the number of its
    network: the same state results, also when a call of the database fails, and errors
    are only logged. *)
Theorem monitorChannel_equiv {W C SC : Type} (networkID : Z) (ger : GlobalExitRoot) (st : CtmState W C SC) :
  g_ExitRoots ger ≠ [] →
  monitorChannel networkID ger st = logged (updateDepositsStatus networkID networkID ger st).
Proof.
  intros Hne. unfold monitorChannel, updateDepositsStatus. unfold mbind at 1, M_bind at 1, attempt at 1.
  destruct (on_db BeginDBTransaction st) as [[tx|e| |] st1] eqn:Eb.
  2-4: unfold mbind at 1, M_bind at 1; by rewrite Eb.
  erewrite (M_bind_Ok _ _ st) by exact Eb. cbn beta iota. destruct (g_ExitRoots ger) as [|root roots]; [done|].
  destruct (isL2ExitRootUpdate ger); rewrite M_bind_assoc; (apply lift_logged; [apply at_index_no_Err|]); intros r0 st2.
  - apply or_logRollback. apply commit_logged.
  - rewrite M_bind_assoc. apply or_logRollback. intros st3. rewrite M_bind_assoc.
    apply lift_logged; [apply at_index_no_Err|]. intros r1 st4. apply or_logRollback. apply commit_logged.
Qed.

(** Without exit roots the case ends before the commit: the transaction stays open. *)
Lemma monitorChannel_leaves_open {W C SC : Type} (networkID : Z) (ger : GlobalExitRoot) (st : CtmState W C SC) :
  g_ExitRoots ger = [] → db_faults (ctm_db st) = [] →
  ∃ st', monitorChannel networkID ger st = (Ok tt, st') ∧ db_tx (ctm_db st') = Some (TxActive (db_committed (ctm_db st))).
Proof.
  intros Eg Hf. unfold monitorChannel. erewrite M_bind_Ok by (apply attempt_Ok, ctm_db_eq, Begin_live, Hf). rewrite Eg.
  eexists. split; reflexivity.
Qed.
