(* ===== verification/ClaimWitnesses.v ===== *)
(** * Witnesses for the claim transaction manager

    Concrete nodes, an ABI that packs the arguments one after the other, and databases on
    which the theorems of the manager and of its loop are applied. *)
From S2P Require Import Prelude Types Bytes Hash GlobalIndex MerkleSpec ClaimTypes Schema MerkleStore Storage.
From S2P Require Import PgMerkleStore MerkleTree MerkleTreeFacts ReorgFacts Toy Service ServiceTheorems.
From S2P Require Import NonceCache MonitorTxs CompressedTxs ClaimTxManager ClaimStatus ClaimTxFacts ClaimTxTheorems.
From S2P Require Import ClaimTxLoop ClaimTxLoopTheorems.

(** ** Parameters *)

#[local] Instance toyk_lru : NonceLru (gmap Address Z) := {|
  lru_Get a c := (c !! a, c); lru_Add a v c := <[a := v]> c; lru_Remove a c := delete a c |}.
#[local] Instance toyk_node : L2Node unit := {|
  NonceAt _ := mret 7;
  EstimateGas _ _ _ _ := mret 21000;
  SuggestGasPrice := mret 3;
  TransactionReceipt _ := mret (Some (mkReceipt 1 1));
  TransactionByHash _ := mret tt;
  SendTransaction _ := mret tt;
  BridgeIsClaimed _ _ := mret false;
  Signer _ tx := mret (mkSignedTx 910 tx);
  Now := mret 5000
|}.
#[local] Instance toyk_l1 : L1Node unit := {| L1BlockNumber := mret 100; L1BlockByNumber n := mret n; L2BlockByNumber := mret 50 |}.
#[local] Instance toyk_compressor : ClaimCompressor unit := {|
  smc_CompressClaimCall _ _ _ := mret [9; 9];
  smc_SendCompressedClaims _ _ _ := mret (mkSentTx 950 30000)
|}.
#[local] Instance toyk_range : MapRange := elements.

(** Lists with their length in front. *)
Definition toyk_pack (p : bridgeClaimXParams) : bytes :=
  [Z.of_nat (length (bp_smtProofLocalExitRoot p))] ++ bp_smtProofLocalExitRoot p ++
  [Z.of_nat (length (bp_smtProofRollupExitRoot p))] ++ bp_smtProofRollupExitRoot p ++
  [bp_globalIndex p; bp_mainnetExitRoot p; bp_rollupExitRoot p; bp_originNetwork p; bp_originTokenAddress p;
   bp_destinationNetwork p; bp_destinationAddress p; bp_amount p; Z.b2z (bp_isMessage p)] ++ bp_metadata p.
Definition toyk_list (bs : bytes) : result (bytes * bytes) :=
  match bs with
  | [] => Err (Errorf "abi: short data")
  | n :: bs => Ok (take (Z.to_nat n) bs, drop (Z.to_nat n) bs)
  end.
Definition toyk_unpack (bs : bytes) : result bridgeClaimXParams :=
  '(p1, bs) ← toyk_list bs;
  '(p2, bs) ← toyk_list bs;
  match bs with
  | gi :: r0 :: r1 :: onet :: oaddr :: dnet :: daddr :: amount :: m :: metadata =>
      Ok (mkBridgeClaimXParams p1 p2 gi r0 r1 onet oaddr dnet daddr amount metadata (bool_decide (m = 1)))
  | _ => Err (Errorf "abi: short data")
  end.
Lemma toyk_pack_unpack p : toyk_unpack (toyk_pack p) = Ok p.
Proof.
  destruct p. unfold toyk_unpack, toyk_pack. cbn.
  rewrite Nat2Z.id, take_app_length, drop_app_length. cbn. rewrite Nat2Z.id, take_app_length, drop_app_length.
  by destruct bp_isMessage.
Qed.

#[local] Instance toyk_abi : BridgeAbi := {|
  methodClaimAssets_ID := [1; 1; 1; 1];
  methodClaimMessages_ID := [2; 2; 2; 2];
  MethodById _ := Ok tt;
  Inputs_Unpack _ bs := toyk_unpack bs
|}.
#[local] Instance toyk_binding : BridgeBinding unit := {|
  Bridge_ClaimAsset _ p := mret (mkBuiltTx (Some 33) ([1; 1; 1; 1] ++ toyk_pack p));
  Bridge_ClaimMessage _ p := mret (mkBuiltTx (Some 33) ([2; 2; 2; 2] ++ toyk_pack p))
|}.
#[local] Instance toyk_binding_laws : BridgeBindingLaws unit.
Proof.
  constructor; [| |done]; intros opts p w tx w' _ [= <- <-]; cbn [bt_Data]; (split; [reflexivity|]);
    (split; [cbn; lia|]); (split; [reflexivity|]); apply toyk_pack_unpack.
Qed.

Lemma toyk_healthy : healthy unit.
Proof. constructor; intros; by eexists _, _. Qed.

#[local] Existing Instance toy_keccak.
#[local] Existing Instance ServiceTheorems.toy_lru.
#[local] Existing Instance ServiceTheorems.toy_lru_laws.

Definition toyk_cfg : ManConfig := mkManConfig 3 [100] true 50 false.
Definition toyk_group : ConfigGroupingClaims := mkConfigGroupingClaims 2 10 1000 3 10 100.
Abbreviation toyk_st := (CtmState unit (gmap Address Z) (list (Hash * list Hash))).
Definition toyk_state (t : Tables) : toyk_st := mkCtmState (mkManState tt (mkDB t None toy_seqs []) ∅) [].

(** ** The status of the deposits *)

(** Three deposits of mainnet for network 1 and three of network 1, each in its tree of
    height 3; the exit root contains the first two of mainnet and the first of network 1. *)
Definition toyk_rows : list deposit_row :=
  [mk_deposit_row 1 0 0 0 300 5 1 200 1 0 77 [1] false false; mk_deposit_row 2 1 0 0 100 5 1 200 1 1 77 [1] false false;
   mk_deposit_row 3 0 0 0 300 5 1 200 1 2 77 [1] false false; mk_deposit_row 4 0 1 0 300 5 2 200 2 0 77 [1] false false;
   mk_deposit_row 5 0 1 0 300 5 0 200 2 1 77 [1] false false; mk_deposit_row 6 0 1 0 300 5 2 200 2 2 77 [1] false false].
Definition toyk_add (id leaf index : Z) (w : DB * MerkleTree) : DB * MerkleTree := snd (addLeaf id leaf index NoTx w).
Definition toyk_tree (net : Z) : MerkleTree := mkMerkleTree net 3 0 (take 3 zeroHashes).
Definition toyk_tables3 : Tables := Eval vm_compute in
  let t0 := on_block (λ _, [mk_block_row 1 10 1001 0; mk_block_row 2 20 1002 1]) (on_deposit (λ _, toyk_rows) emptyTables) in
  let db0 := (toyk_add 3 413 2 (toyk_add 2 412 1 (toyk_add 1 411 0 (mkDB t0 None toy_seqs [], toyk_tree 0)))).1 in
  let db1 := (toyk_add 6 513 2 (toyk_add 5 512 1 (toyk_add 4 511 0 (db0, toyk_tree 1)))).1 in
  on_rollup_exit (λ _, [mk_rollup_exit_row 1 (mroot 3 [511]) 1 999 1]) (db_committed db1).
Definition toyk_ger : GlobalExitRoot := Eval vm_compute in mkGlobalExitRoot 7 0 [mroot 3 [411; 412]; 999] 900 1 0.

Lemma updateDepositsStatus_correct_witness :
  updateDepositsStatus 1 1 toyk_ger (toyk_state toyk_tables3) =
    (Ok tt, with_db (mkDB (on_deposit (fmap (mark_ready (made_ready toyk_ger 1 2 1))) toyk_tables3) None toy_seqs []) (toyk_state toyk_tables3)) ∧
  dr_ready_for_claim <$> (mark_ready (made_ready toyk_ger 1 2 1) <$> toyk_rows) = [true; true; false; true; false; false].
Proof.
  split; [|by vm_compute].
  apply (updateDepositsStatus_correct 1 1 3 [(411, 1); (412, 2); (413, 3)] [(511, 4); (512, 5); (513, 6)] 2 1 999 toyk_ger
           (toyk_state toyk_tables3)).
  - done.
  - apply (bool_decide_unpack _). by vm_compute.
  - apply (bool_decide_unpack _). by vm_compute.
  - apply (bool_decide_unpack _). by vm_compute.
  - apply (bool_decide_unpack _). by vm_compute.
  - apply (bool_decide_unpack _). by vm_compute.
  - by vm_compute.
  - simpl. lia.
  - right. split; [by vm_compute|simpl; lia].
Defined.

Lemma updateDepositsStatus_atomic_witness :
  let st := mkCtmState (mkManState tt (mkDB toyk_tables3 None toy_seqs [false; false; false; true]) ∅) [] : toyk_st in
  fst (updateDepositsStatus 1 1 toyk_ger st) = Err (ErrSQL ErrTxClosed) ∧
  db_tx (ctm_db (snd (updateDepositsStatus 1 1 toyk_ger st))) = None ∧
  db_committed (ctm_db (snd (updateDepositsStatus 1 1 toyk_ger st))) = toyk_tables3.
Proof.
  intros st. split; [by vm_compute|].
  pose proof (updateDepositsStatus_atomic 1 1 toyk_ger st (snd (updateDepositsStatus 1 1 toyk_ger st))
    (fst (updateDepositsStatus 1 1 toyk_ger st)) ltac:(simpl; lia) eq_refl (surjective_pairing _)) as [H1 H2].
  split; [exact H1|]. assert (fst (updateDepositsStatus 1 1 toyk_ger st) = Err (ErrSQL ErrTxClosed)) as E by (by vm_compute).
  rewrite E in H2. exact H2.
Defined.

(** ** Claims in a tree of height 32 *)

Section Spine.
Context {K : Keccak256} (zeros : list Hash).
Hypothesis zeros_lookup : ∀ h, (h ≤ 64)%nat → zeros !! h = Some (zero_hash (K := K) h).

(** The leftmost nodes of a tree with one leaf, with the hashes of the empty subtrees. *)
Fixpoint spine (x : Hash) (h : nat) : Hash :=
  match h with
  | O => x
  | S h => HashN (K := K) [spine x h; default 0 (zeros !! h)]
  end.
Lemma node_spine x h : (h ≤ 64)%nat → node (K := K) h 0 [x] = spine x h.
Proof.
  induction h as [|h IH]; intros Hh; [reflexivity|]. cbn [node spine]. rewrite zeros_lookup by lia. cbn [default].
  rewrite (node_zero h (2 * 0 + 1)) by (pose proof (pow2_pos h); cbn [length]; lia).
  change (2 * 0)%nat with 0%nat. rewrite IH by lia. reflexivity.
Qed.

(** The node rows of the leaf from the level of [cur] on, one hash per level. *)
Fixpoint spine_rows (cur : Hash) (id : Z) (zs : list Hash) {struct zs} : list rht_row :=
  match zs with
  | [] => []
  | z :: zs => mk_rht_row (HashN (K := K) [cur; z]) [cur; z] id :: spine_rows (HashN (K := K) [cur; z]) id zs
  end.
Lemma spine_rows_eq x id n : ∀ h, (h + n ≤ 64)%nat →
  spine_rows (spine x h) id (take n (drop h zeros)) =
  (λ h, mk_rht_row (spine x (S h)) [spine x h; default 0 (zeros !! h)] id) <$> seq h n.
Proof.
  induction n as [|n IH]; intros h Hh; [reflexivity|].
  pose proof (zeros_lookup h ltac:(lia)) as Hz. rewrite (drop_S _ _ _ Hz). cbn [take spine_rows seq fmap list_fmap].
  rewrite <- IH by lia. cbn [spine]. rewrite Hz. reflexivity.
Qed.
Lemma path_rows_spine x id H :
  (H ≤ 64)%nat → (λ '(k, v, d), mk_rht_row k v d) <$> path_rows (K := K) H 0 [x] id = spine_rows x id (take H zeros).
Proof.
  intros HH. pose proof (spine_rows_eq x id H 0 ltac:(lia)) as E. cbn [spine] in E. rewrite drop_0 in E. rewrite E.
  unfold path_rows. rewrite <- list_fmap_compose.
  apply list_fmap_ext. intros i h Hh. apply lookup_seq in Hh as [-> Hh]. cbn [Nat.add]. unfold compose, node_triple.
  rewrite Nat.Div0.div_0_l. change (2 * 0)%nat with 0%nat. rewrite (node_spine x (S i)), (node_spine x i) by lia.
  rewrite (node_zero i (0 + 1)).
  - cbn [spine]. rewrite zeros_lookup by lia. reflexivity.
  - pose proof (pow2_pos i). cbn [length]. lia.
Qed.

End Spine.

Definition toyk_zeros : list Hash := Eval vm_compute in zeroHashes.
Lemma toyk_zeros_lookup h : (h ≤ 64)%nat → toyk_zeros !! h = Some (zero_hash h).
Proof. intros Hh. assert (toyk_zeros = zeroHashes) as -> by (by vm_compute). by apply zeroHashes_lookup. Qed.

(** One deposit of mainnet, an asset for network 1, and the synced exit root. *)
Definition toyk_root : Hash := Eval vm_compute in spine toyk_zeros 411 mtHeight.
Definition toyk_rht : list rht_row := Eval vm_compute in spine_rows 411 1 (take mtHeight toyk_zeros).
Lemma toyk_root_eq : mroot mtHeight [411] = toyk_root.
Proof. unfold mroot. rewrite (node_spine toyk_zeros toyk_zeros_lookup) by (unfold mtHeight; lia). by vm_compute. Qed.
Definition toyk_row : deposit_row := mk_deposit_row 1 0 0 0 300 5 1 200 1 0 77 [1] true false.
Definition toyk_exit : exit_root_row := mk_exit_root_row 1 1 900 [toyk_root; 999] 0 true.
Definition toyk_tables0 : Tables :=
  on_exit_root (λ _, [toyk_exit]) (on_block (λ _, [mk_block_row 1 10 1001 0]) (on_deposit (λ _, [toyk_row]) emptyTables)).
Definition toyk_tables : Tables :=
  on_rht (λ _, toyk_rht) (on_root (λ _, [mk_root_row (toyk_root) 1 0]) toyk_tables0).
Definition toyk_service : bridgeService := mkBridgeService {[0 := 0; 1 := 1]} 32 25 100 "v1" false.
Definition toyk_ger1 : GlobalExitRoot := mkGlobalExitRoot 7 0 [toyk_root; 999] 900 1 0.

Lemma toyk_stored : stored mtHeight 0 [(411, 1)] (tables_view toyk_tables toy_seqs).
Proof.
  pose proof (stored_append mtHeight 0 [] 411 1 (tables_view toyk_tables0 toy_seqs)) as Hst.
  unfold v_append in Hst. cbn [length fmap list_fmap app] in Hst. rewrite (path_rows_spine toyk_zeros toyk_zeros_lookup), toyk_root_eq in Hst by (unfold mtHeight; lia).
  assert (spine_rows 411 1 (take mtHeight toyk_zeros) = toyk_rht) as E by (by vm_compute). rewrite E in Hst.
  apply Hst; [|split; [by vm_compute|done]]. apply stored_nil; [done|].
  intros d Hd. apply list_elem_of_singleton in Hd as ->. simpl. lia.
Qed.

Lemma processPendingDeposits_complete_witness :
  ∃ st' new, processPendingDeposits toyk_cfg toyk_service 1 66 toyk_ger1 (toyk_state toyk_tables) = (Ok tt, st') ∧
    ctm_db st' = mkDB (plus_claims toyk_tables new) None toy_seqs [] ∧ ∃ m, m ∈ new ∧ verifying_claim [(411, 1)] 1 toyk_row m.
Proof.
  destruct (processPendingDeposits_complete toyk_cfg toyk_service 1 66 toyk_tables toy_seqs [(411, 1)] 1 999 toyk_exit toyk_ger1
              (toyk_state toyk_tables)) as (st' & new & E & Edb & Hall).
  - exact toyk_healthy.
  - reflexivity.
  - apply toy_cache_empty.
  - exact toyk_stored.
  - apply (bool_decide_unpack _). by vm_compute.
  - apply NoDup_singleton.
  - simpl. lia.
  - lia.
  - reflexivity.
  - reflexivity.
  - discriminate.
  - reflexivity.
  - change (take 1 (fst <$> [(411, 1)])) with [411]. by rewrite toyk_root_eq.
  - intros d Hd _ _. apply list_elem_of_singleton in Hd as ->. simpl. lia.
  - apply (bool_decide_unpack _). by vm_compute.
  - exists st', new. split; [exact E|]. split; [exact Edb|]. apply Hall. split; [by apply list_elem_of_singleton|].
    split; [exists (mk_block_row 1 10 1001 0); split; [by apply list_elem_of_singleton|reflexivity]|].
    left. apply (bool_decide_unpack _). by vm_compute.
Defined.

Lemma processPendingDeposits_claims_witness :
  ∃ ds new,
    db_committed (ctm_db (snd (processPendingDeposits toyk_cfg toyk_service 1 66 toyk_ger1 (toyk_state toyk_tables)))) =
      on_monitored_txs (λ l, l ++ new) (on_deposit (λ _, ds) toyk_tables) ∧
    Forall2 (λ d d', d' = d ∨ d' = ignored_row (dr_id d) d) [toyk_row] ds ∧ NoDup (m_DepositID <$> new) ∧
    Forall (λ m, (m_DepositID m ∉ []) ∧ ∃ d, claimable 1 toyk_tables d ∧ claims toyk_cfg 1 66 toyk_tables d m) new.
Proof.
  exact (processPendingDeposits_claims toyk_cfg toyk_service 1 66 toyk_ger1 (toyk_state toyk_tables)
           (snd (processPendingDeposits toyk_cfg toyk_service 1 66 toyk_ger1 (toyk_state toyk_tables)))
           (fst (processPendingDeposits toyk_cfg toyk_service 1 66 toyk_ger1 (toyk_state toyk_tables)))
           (surjective_pairing _)).
Defined.

(** ** The loop *)

Definition toyk_loop (l1 l2 : bool) (t : Tables) : Loop unit (gmap Address Z) (list (Hash * list Hash)) :=
  mkLoop l1 l2 zeroGER 0 0 [] (toyk_state t).
Abbreviation toyk_step := (step toyk_cfg toyk_group None 100 toyk_service 1 1 66).
Abbreviation toyk_steps := (steps toyk_cfg toyk_group None 100 toyk_service 1 1 66).

(** Only network 1 is synced when the exit root arrives. *)
Lemma Start_waits_witness :
  let l := mkLoop false true toyk_ger 0 0 [] (toyk_state toyk_tables3) in
  (lp_started l = 0%nat ∧ lp_called l = [] ∧ (∀ g, GoroutineRuns g ∉ [ChSynced 1; ChExitRootEvent toyk_ger]) ∧
   (Tick ∉ [ChSynced 1; ChExitRootEvent toyk_ger] → lp_state l = toyk_state toyk_tables3)).
Proof.
  intros l.
  apply (Start_waits toyk_cfg toyk_group None 100 toyk_service 1 1 66 (toyk_state toyk_tables3)
           [ChSynced 1; ChExitRootEvent toyk_ger] l).
  - apply (steps_snoc _ _ _ _ _ _ _ _ _ [ChSynced 1] (toyk_loop false true toyk_tables3)).
    + apply (steps_snoc _ _ _ _ _ _ _ _ _ [] (start (toyk_state toyk_tables3)) (ChSynced 1)); [constructor|]. by apply step_synced.
    + by apply step_ger.
  - left. intros [E|[E|E%elem_of_nil]%elem_of_cons]%elem_of_cons; done.
Defined.

Definition toyk_updated (t : Tables) : toyk_st := snd (updateDepositsStatus 1 1 toyk_ger (toyk_state t)).

Lemma Start_processes_witness : GoroutineRuns toyk_ger ∈ [GoroutineReads; GoroutineRuns toyk_ger].
Proof.
  set (l1 := mkLoop true true toyk_ger 0 1 [] (toyk_updated toyk_tables3)).
  set (l2 := set_goroutines 0 [toyk_ger] l1).
  destruct (goroutine toyk_cfg toyk_service 1 66 toyk_ger (set_goroutines 0 [] l2)) as [r l3] eqn:E3.
  assert (r = Ok tt ∧ lp_started l3 = 0%nat ∧ lp_called l3 = []) as (-> & E4 & E5).
  { revert E3. unfold goroutine, mbind, M_bind, attempt, on_state, zoom.
    destruct (processPendingDeposits _ _ _ _ _ _) as [[]] eqn:Ep; intros [= <- <-]; try done; exfalso;
      apply (f_equal fst) in Ep; vm_compute in Ep; discriminate Ep. }
  apply (Start_processes toyk_cfg toyk_group None 100 toyk_service 1 1 66 toyk_ger [GoroutineReads; GoroutineRuns toyk_ger]
           (toyk_loop true true toyk_tables3) l1 l3 (toyk_updated toyk_tables3)).
  - done.
  - done.
  - by vm_compute.
  - apply step_ger. by vm_compute.
  - apply (steps_snoc _ _ _ _ _ _ _ _ _ [GoroutineReads] l2).
    + apply (steps_snoc _ _ _ _ _ _ _ _ _ [] l1 GoroutineReads); [constructor|]. by apply step_reads.
    + by apply (step_runs _ _ _ _ _ _ _ _ l2 [] toyk_ger []).
  - intros g [E|[E|E%elem_of_nil]%elem_of_cons]%elem_of_cons; done.
  - exact E4.
  - exact E5.
Defined.

(** An update from L1, then one from the network, before the goroutines run. *)
Definition toyk_gerL1 : GlobalExitRoot := mkGlobalExitRoot 7 0 [1; 999] 901 0 0.

Lemma Start_ger_replaced_witness :
  ∃ l', toyk_steps (toyk_loop true true toyk_tables3)
          [ChExitRootEvent toyk_gerL1; ChExitRootEvent toyk_ger; GoroutineReads; GoroutineReads] l' ∧
    lp_started l' = 0%nat ∧ lp_called l' = [toyk_ger; toyk_ger].
Proof.
  set (st1 := snd (updateDepositsStatus 1 1 toyk_gerL1 (toyk_state toyk_tables3))).
  apply (Start_ger_replaced toyk_cfg toyk_group None 100 toyk_service 1 1 66 toyk_gerL1 toyk_ger (toyk_loop true true toyk_tables3)
           st1 (snd (updateDepositsStatus 1 1 toyk_ger st1))); by vm_compute.
Defined.

Lemma monitorChannel_equiv_witness :
  monitorChannel 1 toyk_ger (toyk_state toyk_tables3) = logged (updateDepositsStatus 1 1 toyk_ger (toyk_state toyk_tables3)).
Proof. apply (monitorChannel_equiv 1 toyk_ger (toyk_state toyk_tables3)). discriminate. Defined.
