(* ===== verification/SyncRefinement.v ===== *)
(** * The exit tree of a network refines a list of leaves

    Seen from outside, the local exit tree of a network is a list of leaves: a deposit
    appends one, a forward update appends several, a backward update keeps a prefix, and
    each is allowed only when its counts and roots agree with the list.  The synchronizer
    implements it on its tables and its in-memory frontier: every execution of the list
    is followed by the handlers, event by event, in the transaction of a block. *)
From S2P Require Import Prelude Types Bytes Hash MerkleSpec ClaimTypes Schema MerkleStore Storage.
From S2P Require Import PgMerkleStore MerkleTree MerkleTreeFacts BridgeCtrl Synchronizer Invariants.
From S2P Require Import StorageFacts SyncFacts ReorgFacts Toy SyncTheorems SyncDeposits SyncLET.

(** The events of a block that change the exit tree. *)
Inductive TreeEvent :=
| EvDeposit (d : Deposit)
| EvForward (fl : ForwardLET)
| EvBackward (bl : BackwardLET).

Section Spec.
Context `{K : Keccak256} (cfg : SyncConfig) (b : block_row) (Ht : nat) (children : Hash → option (list Hash)).

(** [children] tells the nodes apart: no two pairs of nodes that occur have the same
    hash. *)
Definition path_known (n : nat) (ls : list Hash) : Prop :=
  ∀ p l r, (∃ h, (h < Ht)%nat ∧ node_triple h n ls = (p, l, r)) → children p = Some [l; r].

(** There is a position for the leaf, its count has a successor, and the nodes above it
    differ. *)
Definition can_append (ls : list Hash) (leaf : Hash) : Prop :=
  let ls' := ls ++ [leaf] in
  (length ls < 2 ^ Ht)%nat ∧ Z.of_nat (length ls) < 2 ^ 32 - 1 ∧ NoDup (path_hashes Ht (length ls) ls') ∧
  path_known (length ls) ls'.

(** ** The abstract tree *)

Inductive tree_step (ls : list Hash) : TreeEvent → list Hash → Prop :=
| step_deposit d leaf :
    d_DepositCount d = Z.of_nat (length ls) → HashDeposit d = Ok leaf → can_append ls leaf →
    tree_step ls (EvDeposit d) (ls ++ [leaf])
| step_forward fl leaves :
    fl_PreviousRoot fl = mroot Ht ls → fl_PreviousDepositCount fl = Z.of_nat (length ls) →
    Forall2 (λ d leaf, HashDeposit d = Ok leaf) (forward_deposits cfg fl b (length ls)) leaves →
    fl_NewRoot fl = mroot Ht (ls ++ leaves) → fl_NewDepositCount fl = Z.of_nat (length ls + length leaves) →
    (∀ i leaf, leaves !! i = Some leaf → can_append (ls ++ take i leaves) leaf) →
    tree_step ls (EvForward fl) (ls ++ leaves)
| step_backward bl c :
    (c ≤ length ls)%nat → bl_PreviousRoot bl = mroot Ht ls → bl_PreviousDepositCount bl = Z.of_nat (length ls) →
    bl_NewRoot bl = mroot Ht (take c ls) → bl_NewDepositCount bl = Z.of_nat c → cf_networkID cfg ≠ 0 →
    tree_step ls (EvBackward bl) (take c ls).

Inductive tree_steps (ls : list Hash) : list TreeEvent → list Hash → Prop :=
| steps_nil : tree_steps ls [] ls
| steps_cons ev evs ls1 ls2 : tree_step ls ev ls1 → tree_steps ls1 evs ls2 → tree_steps ls (ev :: evs) ls2.

(** ** The handlers *)

Definition handle {W} (fuel : nat) (ev : TreeEvent) : M (SyncState W) unit :=
  match ev with
  | EvDeposit d => processDeposit cfg fuel d (br_id b) InTx
  | EvForward fl => processForwardLETSovereign cfg fuel fl (br_id b) (br_block_num b) InTx
  | EvBackward bl => processBackwardLETSovereign cfg fuel bl (br_id b) (br_block_num b) InTx
  end.

(** The state implements the list [ls]. *)
Definition implements {W} (tID : nat) (ls : list Hash) (y : SyncState W) : Prop :=
  ∃ lds t, fst <$> lds = ls ∧ block_state cfg Ht tID b lds t y ∧
    (∀ r, r ∈ t_rht t → children (rh_key r) = Some (rh_value r)) ∧
    Z.of_nat (length lds) < 2 ^ 32 ∧ (length lds ≤ 2 ^ Ht)%nat.

Context {W : Type} (fuel tID : nat) (Hht : (0 < Ht ≤ 64)%nat).

Lemma nodes_known ls leaves t t' :
  nodes_from Ht ls leaves t t' → (∀ r, r ∈ t_rht t → children (rh_key r) = Some (rh_value r)) →
  (∀ i leaf, leaves !! i = Some leaf → can_append (ls ++ take i leaves) leaf) →
  ∀ r, r ∈ t_rht t' → children (rh_key r) = Some (rh_value r).
Proof.
  intros Hn Ht0 Happ r [Hr|(i & id & Hi & Hr)]%Hn; [by apply Ht0|].
  destruct (lookup_lt_is_Some_2 leaves i Hi) as [leaf Hleaf]. destruct (Happ i leaf Hleaf) as (_ & _ & _ & Hk).
  unfold path_rows in Hr. apply list_elem_of_fmap in Hr as (h & E & Hh%elem_of_seq).
  rewrite <- app_assoc, <- (take_S_r _ _ _ Hleaf), length_app, length_take, Nat.min_l in Hk by lia.
  destruct (node_triple h (length ls + i) (ls ++ take (S i) leaves)) as [[p l] r'] eqn:En.
  injection E as E1 E2 _. rewrite E1, E2. apply Hk. exists h. split; [lia|done].
Qed.

(** One event: the handler follows the list. *)
Lemma handle_refines ls ls' ev (y : SyncState W) :
  implements tID ls y → tree_step ls ev ls' →
  ∃ y', handle fuel ev y = (Ok tt, y') ∧ implements tID ls' y' ∧ db_committed (y_db y') = db_committed (y_db y).
Proof.
  intros (lds & t & <- & Hbs & Hknown & Hlen & HlenH) Hstep. rewrite <- (length_fmap fst) in Hlen, HlenH.
  inversion Hstep as [d leaf Ecnt Eleaf Happ|fl leaves Er Ec Hleaves En Enc Happ|bl c Hc Er Ecnt En Enc Hnet]; subst; cbn [handle].
  - destruct (Happ) as (Hfull & Hcount & Hnd & _).
    edestruct (storeDeposit_block cfg fuel Ht tID b lds t y (place_deposit cfg (br_id b) d) leaf)
      as (id & t' & y' & E & Hbs' & _ & Ecm & Hnodes);
      [done|done|done|by rewrite <- (length_fmap fst)|done|by rewrite <- (length_fmap fst)|lia|by rewrite <- (length_fmap fst)..|].
    exists y'. split; [exact E|]. split; [|done]. exists (lds ++ [(leaf, id)]), t'. split; [by rewrite fmap_app|]. split; [done|].
    rewrite length_fmap in *. rewrite length_app. cbn. split; [|lia]. eapply nodes_known; [exact Hnodes|done|].
    intros [|i] x; cbn; intros [= <-]. by rewrite app_nil_r.
  - assert (∀ i, (i < length leaves)%nat → ∃ leaf, leaves !! i = Some leaf ∧ can_append ((fst <$> lds) ++ take i leaves) leaf) as Happ'.
    { intros i Hi. destruct (lookup_lt_is_Some_2 leaves i Hi) as [leaf Hl]. eauto. }
    assert (Z.of_nat (length lds + length leaves) < 2 ^ 32 ∧ (length lds + length leaves ≤ 2 ^ Ht)%nat) as [Hl1 Hl2].
    { rewrite length_fmap in *. destruct (decide (length leaves = 0%nat)) as [->|]; [lia|].
      destruct (Happ' (length leaves - 1)%nat) as (leaf & _ & Hf & Hm & _); [lia|].
      rewrite length_app, length_fmap, length_take in Hf, Hm. lia. }
    rewrite length_fmap in *.
    edestruct (processForwardLET_block cfg fuel Ht tID b lds t y fl leaves)
      as (ids & rid & t' & y' & E & Hids & Hbs' & _ & _ & Ecm & Hnodes); [done..| |lia|done|done|].
    { intros i Hi. destruct (Happ' i Hi) as (leaf & Hl & _ & _ & Hnd & _).
      by rewrite <- app_assoc, <- (take_S_r _ _ _ Hl), length_app, length_fmap, length_take, Nat.min_l in Hnd by lia. }
    exists y'. split; [exact E|]. split; [|done]. exists (lds ++ zip leaves ids), t'.
    split; [rewrite fmap_app; f_equal; apply fst_zip; lia|]. split; [done|]. rewrite length_app, length_zip_with.
    split; [by eapply nodes_known|]. rewrite Hids, Nat.min_id. done.
  - rewrite length_fmap in *.
    edestruct (processBackwardLET_block cfg fuel Ht tID b lds t y bl c)
      as (rid & t' & y' & E & Hbs' & _ & _ & Ecm & Hsub); [done| |done..|].
    { intros r1 r2 H1 H2 Ek. apply Hknown in H1, H2. congruence. }
    exists y'. split; [exact E|]. split; [|done]. exists (take c lds), t'. split; [by rewrite fmap_take|]. split; [done|].
    rewrite length_take. split; [auto|lia].
Qed.

End Spec.

(** C4: The handlers refine the list of leaves: from a state that implements a list,
    every sequence of events that the list allows is processed without an error, the
    state implements the list they lead to, nothing is committed, and the exit root that
    the controller then returns is the root of that list. *)
Theorem tree_refines `{K : Keccak256} {W : Type} (cfg : SyncConfig) (b : block_row) (fuel Ht tID : nat)
    (children : Hash → option (list Hash)) (ls ls' : list Hash) (evs : list TreeEvent) (y : SyncState W) :
  (0 < Ht ≤ 64)%nat → implements cfg b Ht children tID ls y → tree_steps cfg b Ht children ls evs ls' →
  ∃ y', forM_ evs (handle cfg b fuel) y = (Ok tt, y') ∧ implements cfg b Ht children tID ls' y' ∧
    db_committed (y_db y') = db_committed (y_db y) ∧
    fst (on_ctrl (GetExitRoot (cf_networkID cfg) InTx) y') = Ok (mroot Ht ls').
Proof.
  intros Hht Himp Hsteps. revert y Himp. induction Hsteps as [ls|ls ev evs ls1 ls2 Hstep _ IH]; intros y Himp.
  - exists y. split; [done|]. split; [done|]. split; [done|]. destruct Himp as (lds & t & <- & Hbs & _ & Hlen & _).
    erewrite GetExitRoot_Ok; [done|apply Hbs|lia|done].
  - destruct (handle_refines cfg b Ht children fuel tID Hht ls ls1 ev y Himp Hstep) as (y1 & E1 & Himp1 & Ec1).
    destruct (IH y1 Himp1) as (y' & E & Himp' & Ec & Hroot). exists y'. cbn [forM_]. erewrite M_bind_Ok by exact E1.
    split; [done|]. split; [done|]. split; [congruence|done].
Qed.

(** ** Three leaves, a backward update to the first, and a deposit *)

Definition toy_back : BackwardLET :=
  mkBackwardLET 0 3 (mroot (K := toy_keccak) 3 [111; 222; 333]) 1 (mroot (K := toy_keccak) 3 [111]).
Definition toy_next : Deposit := toy_deposit 1.
Definition toy_events : list TreeEvent := [EvBackward toy_back; EvDeposit toy_next].

(** The nodes that occur. *)
Definition toy_nodes : list (Hash * list Hash) := Eval vm_compute in
  ((λ r, (rh_key r, rh_value r)) <$> t_rht (db_committed toy_w3.1)) ++
  ((λ r, (r.1.1, r.1.2)) <$> path_rows (K := toy_keccak) 3 1 [111; toy_leaf_of toy_next] 0).
Definition toy_children (p : Hash) : option (list Hash) := snd <$> head (filter (λ n, n.1 = p) toy_nodes).

Lemma toy_implements : implements (K := toy_keccak) toy_cfg toy_top 3 toy_children 0 [111; 222; 333] toy_bstate.
Proof.
  exists toy_leaves3, (db_committed toy_w3.1). split; [done|]. split; [exact toy_block_state|]. split; [|split; [by vm_compute|simpl; lia]].
  apply Forall_forall. apply (bool_decide_unpack _). by vm_compute.
Qed.

Lemma toy_steps :
  tree_steps (K := toy_keccak) toy_cfg toy_top 3 toy_children [111; 222; 333] toy_events [111; toy_leaf_of toy_next].
Proof.
  eapply steps_cons; [apply (step_backward _ _ _ _ _ _ 1); [simpl; lia|done..]|].
  eapply steps_cons; [|apply steps_nil]. apply (step_deposit _ _ _ _ [111] toy_next (toy_leaf_of toy_next)); [done|by vm_compute|]. split; [simpl; lia|]. split; [by vm_compute|].
  split; [apply (bool_decide_unpack _); by vm_compute|]. intros p l r (h & Hh & E).
  do 3 (destruct h as [|h]; [vm_compute in E; injection E as <- <- <-; by vm_compute|]). lia.
Qed.

Lemma tree_refines_witness :
  ∃ y', forM_ toy_events (handle (K := toy_keccak) toy_cfg toy_top 1) toy_bstate = (Ok tt, y') ∧
    implements (K := toy_keccak) toy_cfg toy_top 3 toy_children 0 [111; toy_leaf_of toy_next] y' ∧
    db_committed (y_db y') = db_committed (y_db toy_bstate) ∧
    fst (on_ctrl (GetExitRoot (K := toy_keccak) 1 InTx) y') = Ok (mroot (K := toy_keccak) 3 [111; toy_leaf_of toy_next]).
Proof.
  apply (tree_refines (K := toy_keccak) toy_cfg toy_top 1 3 0 toy_children [111; 222; 333] _ toy_events toy_bstate).
  - lia.
  - exact toy_implements.
  - exact toy_steps.
Defined.
