(* ===== verification/Hex.v ===== *)
(** * Text of numbers and bytes (hex/hex.go, jsonrpcclient/types/types.go)

    The helpers of package hex and the marshalling of the RPC types, on the functions of
    the Go library that they call: [strconv.AppendUint] and [ParseUint], [big.Int.Text],
    [Format] and [SetString], and encoding/hex.  A string is a string of bytes. *)
From Stdlib Require Import Ascii.
From S2P Require Import Prelude Types Bytes Hash ClaimTypes Schema Service.

(** ** The Go library *)

(** The value of a digit in any base up to 36. *)
Definition digitVal (c : Ascii.ascii) : Z :=
  let n := Z.of_N (Ascii.N_of_ascii c) in
  if decide (48 ≤ n ≤ 57) then n - 48 else
  if decide (97 ≤ n ≤ 122) then n - 87 else
  if decide (65 ≤ n ≤ 90) then n - 55 else 37.

(** The digits of a number, put in front of [acc]. *)
Fixpoint formatDigits (fuel : nat) (base n : Z) (acc : string) : string :=
  match fuel with
  | O => acc
  | S fuel => if decide (n = 0) then acc else formatDigits fuel base (n / base) (String.String (hexDigit (n mod base)) acc)
  end.

(** [strconv.FormatUint]; a number has no more digits than bits. *)
Definition FormatUint (base n : Z) : string :=
  if decide (n = 0) then "0" else formatDigits (Z.to_nat (Z.log2 n + 1)) base n "".

(** [big.Int.Text]. *)
Definition big_Text (base n : Z) : string := if decide (n < 0) then "-" +:+ FormatUint base (- n) else FormatUint base n.

(** Digits that are all smaller than the base. *)
Fixpoint parseDigits (base : Z) (s : string) (acc : Z) : option Z :=
  match s with
  | "" => Some acc
  | String.String c s => if decide (digitVal c < base) then parseDigits base s (acc * base + digitVal c) else None
  end%string.

Definition ErrSyntax : error := Errorf "invalid syntax".
Definition ErrRange : error := Errorf "value out of range".

(** [strconv.ParseUint] with a base that is not 0. *)
Fixpoint ParseUint_loop (base bitSize : Z) (s : string) (n : Z) : result Z :=
  match s with
  | String.EmptyString => Ok n
  | String.String c s =>
      if decide (base ≤ digitVal c) then Err ErrSyntax else
      let n1 := n * base + digitVal c in
      if decide (2 ^ bitSize ≤ n1) then Err ErrRange else ParseUint_loop base bitSize s n1
  end.
Definition ParseUint (s : string) (base bitSize : Z) : result Z :=
  if decide (s = ""%string) then Err ErrSyntax else ParseUint_loop base bitSize s 0.

Definition isSign (c : Ascii.ascii) : bool := bool_decide (c = "-"%char ∨ c = "+"%char).
Definition splitSign (s : string) : Z * string :=
  match s with
  | String.String c s' => if isSign c then (if decide (c = "-"%char) then -1 else 1, s') else (1, s)
  | _ => (1, s)
  end.

(** [big.Int.SetString] with a base that is not 0: a sign, and digits to the end. *)
Definition SetString (s : string) (base : Z) : option Z :=
  let '(sign, s) := splitSign s in
  if decide (s = ""%string) then None else (λ n, sign * n) <$> parseDigits base s 0.

(** Base 0: the digits may be separated by single underscores, one may follow the
    prefix.  [prev] tells whether a digit or the prefix came before. *)
Fixpoint dropSeparators (prev : bool) (s : string) : option string :=
  match s with
  | "" => if prev then Some "" else None
  | String.String c s =>
      if decide (c = "_"%char) then if prev then dropSeparators false s else None
      else String.String c <$> dropSeparators true s
  end%string.

Definition separatedDigits (base : Z) (prev : bool) (s : string) : option Z :=
  s ← dropSeparators prev s;
  if decide (s = ""%string) then None else parseDigits base s 0.

(** The number behind the sign: the prefix chooses the base. *)
Definition prefixedDigits (s : string) : option Z :=
  match s with
  | "" => None
  | String.String "0" "" => Some 0
  | String.String "0" (String.String c s' as s1) =>
      if decide (c = "b"%char ∨ c = "B"%char) then separatedDigits 2 true s' else
      if decide (c = "o"%char ∨ c = "O"%char) then separatedDigits 8 true s' else
      if decide (c = "x"%char ∨ c = "X"%char) then separatedDigits 16 true s' else separatedDigits 8 true s1
  | _ => separatedDigits 10 false s
  end%string.

(** [big.Int.SetString] with base 0. *)
Definition SetString0 (s : string) : option Z :=
  let '(sign, s) := splitSign s in (λ n, sign * n) <$> prefixedDigits s.

(** [strings.TrimPrefix(s, 0x)]. *)
Definition trim0x (s : string) : string :=
  match s with
  | String.String "0" (String.String "x" s') => s'
  | _ => s
  end%string.

(** [hex.DecodeString] of encoding/hex. *)
Fixpoint DecodeString (s : string) : result bytes :=
  match s with
  | "" => Ok []
  | String.String a "" =>
      Err (Errorf (if decide (digitVal a < 16) then "encoding/hex: odd length hex string" else "encoding/hex: invalid byte"))
  | String.String a (String.String b s) =>
      if decide (digitVal a < 16 ∧ digitVal b < 16) then
        bs ← DecodeString s;
        Ok (digitVal a * 16 + digitVal b :: bs)
      else Err (Errorf "encoding/hex: invalid byte")
  end%string.

(** ** hex/hex.go *)

Definition Base : Z := 16.
Definition BitSize64 : Z := 64.

Definition EncodeToHex (str : bytes) : string := "0x" +:+ EncodeToString str.

(** A zero in front of a text of odd length. *)
Definition evenLength (str : string) : string :=
  if decide (Nat.modulo (String.length str) 2 = 0%nat) then str else "0" +:+ str.

Definition DecodeHex (str : string) : result bytes := DecodeString (evenLength (trim0x str)).

Definition MustDecodeHex (str : string) : result bytes :=
  match DecodeHex str with
  | Err _ => Panic
  | r => r
  end.

(** The value is not defined when the text is not a number: [None]. *)
Definition DecodeBig (hexNum : string) : option Z := SetString (trim0x hexNum) Base.

(** [big.Int.Uint64]: the low 64 bits of the absolute value. *)
Definition DecodeUint64 (str : string) : option Z := (λ n, u64 (Z.abs n)) <$> DecodeBig str.

Definition EncodeUint64 (i : Z) : string := "0x" +:+ FormatUint Base i.

Definition BadNibble : Z := MaxUint64.
Definition DecodeNibble (c : Ascii.ascii) : Z :=
  let n := Z.of_N (Ascii.N_of_ascii c) in
  if decide (48 ≤ n ≤ 57) then n - 48 else
  if decide (65 ≤ n ≤ 70) then n - 55 else
  if decide (97 ≤ n ≤ 102) then n - 87 else BadNibble.

(** The verb %#x puts the sign in front of the prefix. *)
Definition EncodeBig (bigint : Z) : string :=
  if decide (bigint = 0) then "0x0" else
  (if decide (bigint < 0) then "-" else "") +:+ "0x" +:+ FormatUint Base (Z.abs bigint).

(** ** jsonrpcclient/types/types.go *)

Definition ArgUint64_MarshalText (b : Z) : string := "0x" +:+ FormatUint Base b.
Definition ArgUint64_UnmarshalText (input : string) : result Z := ParseUint (trim0x input) Base BitSize64.

Definition decodeToHex (b : string) : result bytes := DecodeString (evenLength (trim0x b)).
Definition encodeToHex (b : bytes) : string := "0x" +:+ evenLength (EncodeToString b).

Definition ArgBytes_MarshalText (b : bytes) : string := encodeToHex b.
(** An error of the decoding is not returned: the receiver keeps its value. *)
Definition ArgBytes_UnmarshalText (b : bytes) (input : string) : result bytes :=
  match decodeToHex input with
  | Err _ => Ok b
  | r => r
  end.

Definition ArgBig_MarshalText (a : Z) : string := "0x" +:+ big_Text Base a.
Definition ArgBig_UnmarshalText (input : string) : result Z :=
  buf ← decodeToHex input;
  Ok (SetBytes buf).

(** ** Printing and reading *)

Lemma digitVal_hexDigit d : 0 ≤ d < 36 → digitVal (hexDigit d) = d.
Proof.
  intros Hd. assert (Forall (λ d, digitVal (hexDigit d) = d) (seqZ 0 36)) as Hall by (by apply (bool_decide_unpack _)).
  rewrite Forall_forall in Hall. apply Hall, elem_of_seqZ. lia.
Qed.

(** Reading the digits of a number gives the number, and goes on with what follows. *)
Lemma parse_formatDigits fuel base n s :
  2 ≤ base ≤ 36 → 0 ≤ n < 2 ^ Z.of_nat fuel → parseDigits base (formatDigits fuel base n s) 0 = parseDigits base s n.
Proof.
  intros Hb. revert n s. induction fuel as [|fuel IH]; intros n s Hn; cbn [formatDigits].
  { by assert (n = 0) as -> by (cbn in Hn; lia). }
  case_decide as Hz; [by subst|]. rewrite Nat2Z.inj_succ, Z.pow_succ_r in Hn by lia.
  pose proof (Z.mod_pos_bound n base ltac:(lia)) as Hm. pose proof (Z.div_mod n base ltac:(lia)).
  rewrite IH by (split; [apply Z.div_pos; lia|apply Z.div_lt_upper_bound; [lia|nia]]). cbn [parseDigits].
  rewrite digitVal_hexDigit by lia. rewrite decide_True by lia. f_equal. lia.
Qed.

Lemma log2_fuel n : 0 < n → n < 2 ^ Z.of_nat (Z.to_nat (Z.log2 n + 1)).
Proof.
  intros Hn. pose proof (Z.log2_nonneg n). rewrite Z2Nat.id by lia.
  apply (Z.log2_spec n Hn).
Qed.

Lemma parse_FormatUint base n : 2 ≤ base ≤ 36 → 0 ≤ n → parseDigits base (FormatUint base n) 0 = Some n.
Proof.
  intros Hb Hn. unfold FormatUint. case_decide as Hz.
  { subst. cbn [parseDigits]. change (digitVal "0") with 0. by rewrite decide_True by lia. }
  rewrite parse_formatDigits; [done..|]. split; [lia|apply log2_fuel; lia].
Qed.

(** A positive number does not start with a zero. *)
Lemma formatDigits_head fuel base n s :
  2 ≤ base ≤ 36 → 0 < n < 2 ^ Z.of_nat fuel →
  ∃ d s', formatDigits fuel base n s = String.String (hexDigit d) s' ∧ 0 < d < base.
Proof.
  intros Hb. revert n s. induction fuel as [|fuel IH]; intros n s Hn; [cbn in Hn; lia|]. cbn [formatDigits].
  rewrite decide_False by lia. rewrite Nat2Z.inj_succ, Z.pow_succ_r in Hn by lia.
  pose proof (Z.mod_pos_bound n base ltac:(lia)). pose proof (Z.div_mod n base ltac:(lia)).
  destruct (decide (n / base = 0)) as [Hz|Hz].
  - exists (n mod base), s. split; [|nia]. destruct fuel; [done|]. cbn [formatDigits]. by rewrite decide_True.
  - apply IH. split; [pose proof (Z.div_pos n base ltac:(lia) ltac:(lia)); lia|apply Z.div_lt_upper_bound; [lia|nia]].
Qed.

Lemma FormatUint_nonempty base n : 2 ≤ base ≤ 36 → 0 ≤ n → FormatUint base n ≠ ""%string.
Proof.
  intros Hb Hn. unfold FormatUint. case_decide as Hz; [done|].
  edestruct (formatDigits_head (Z.to_nat (Z.log2 n + 1)) base n "") as (d & s' & -> & _); [done| |done].
  split; [lia|apply log2_fuel; lia].
Qed.

Lemma parsed_head base c s a n : parseDigits base (String.String c s) a = Some n → digitVal c < base.
Proof. cbn. by case_decide. Qed.

(** A text of digits has no separators, and no sign. *)
Lemma parsed_no_separators base s a n b :
  base ≤ 36 → parseDigits base s a = Some n → (s = ""%string → b = true) → dropSeparators b s = Some s.
Proof.
  intros Hb. revert a b. induction s as [|c s IH]; intros a b E Hs; cbn [dropSeparators].
  { by rewrite Hs. }
  pose proof (parsed_head _ _ _ _ _ E) as Hc. cbn in E. rewrite decide_True in E by done.
  rewrite decide_False by (intros ->; change (digitVal "_") with 37 in Hc; lia). by erewrite IH.
Qed.

Lemma parsed_no_sign base s a n : base ≤ 36 → parseDigits base s a = Some n → splitSign s = (1, s).
Proof.
  intros Hb E. destruct s as [|c s]; [done|]. apply parsed_head in E. unfold splitSign, isSign.
  rewrite bool_decide_false; [done|]. intros [-> | ->]; [change (digitVal "-") with 37 in E|change (digitVal "+") with 37 in E]; lia.
Qed.

Lemma SetString_FormatUint base n : 2 ≤ base ≤ 36 → 0 ≤ n → SetString (FormatUint base n) base = Some n.
Proof.
  intros Hb Hn. pose proof (parse_FormatUint base n Hb Hn) as E. unfold SetString.
  rewrite (parsed_no_sign base _ 0 n) by (done || lia). rewrite decide_False by (by apply FormatUint_nonempty).
  rewrite E. cbn. f_equal. lia.
Qed.

Lemma SetString0_FormatUint n : 0 ≤ n → SetString0 (FormatUint 10 n) = Some n.
Proof.
  intros Hn. destruct (decide (n = 0)) as [->|Hz]; [done|].
  pose proof (parse_FormatUint 10 n ltac:(lia) Hn) as E. pose proof (parsed_no_sign 10 _ _ _ ltac:(lia) E) as Hs.
  pose proof (parsed_no_separators 10 _ _ _ false ltac:(lia) E) as Hd.
  assert (∃ d s, FormatUint 10 n = String.String (hexDigit d) s ∧ 0 < d < 10) as (d & s & Ef & Hdig).
  { unfold FormatUint. rewrite decide_False by done. apply formatDigits_head; [lia|]. split; [lia|apply log2_fuel; lia]. }
  assert (prefixedDigits (FormatUint 10 n) = separatedDigits 10 false (FormatUint 10 n)) as Ep.
  { rewrite Ef. assert (d = 1 ∨ d = 2 ∨ d = 3 ∨ d = 4 ∨ d = 5 ∨ d = 6 ∨ d = 7 ∨ d = 8 ∨ d = 9) as Hcases by lia.
    by repeat destruct Hcases as [->|Hcases]; [..|subst d]. }
  unfold SetString0. rewrite Hs, Ep. unfold separatedDigits. rewrite Hd by (by rewrite Ef). cbn.
  rewrite decide_False by (by rewrite Ef). rewrite E. cbn. f_equal. lia.
Qed.

Lemma digitVal_range c : 0 ≤ digitVal c ≤ 37.
Proof. unfold digitVal. repeat case_decide; lia. Qed.

Lemma parseDigits_grows base s a n : 1 ≤ base → 0 ≤ a → parseDigits base s a = Some n → a ≤ n.
Proof.
  intros Hb. revert a. induction s as [|c s IH]; intros a Ha E; [by injection E as ->; lia|].
  cbn in E. case_decide; [|done]. pose proof (digitVal_range c). apply IH in E; nia.
Qed.

Lemma ParseUint_parses base bitSize s a n :
  1 ≤ base → 0 ≤ a → parseDigits base s a = Some n → n < 2 ^ bitSize → ParseUint_loop base bitSize s a = Ok n.
Proof.
  intros Hb. revert a. induction s as [|c s IH]; intros a Ha E Hn; [by injection E as ->|].
  cbn in *. case_decide; [|done]. pose proof (digitVal_range c).
  assert (a * base + digitVal c ≤ n) by (apply (parseDigits_grows base s); [lia|nia|done]).
  rewrite decide_False, decide_False by lia. apply IH; [nia|done..].
Qed.

Lemma mod2_SS n : Nat.modulo (S (S n)) 2 = Nat.modulo n 2.
Proof. replace (S (S n)) with (n + 1 * 2)%nat by lia. apply Nat.Div0.mod_add. Qed.

(** Pairs of digits are bytes: reading them as bytes gives the number. *)
Lemma DecodeString_value s a n :
  Nat.modulo (String.length s) 2 = 0%nat → parseDigits 16 s a = Some n →
  ∃ bs, DecodeString s = Ok bs ∧ foldl (λ acc b, acc * 256 + b) a bs = n.
Proof.
  remember (String.length s) as len eqn:El. revert s El a.
  induction len as [len IH] using lt_wf_ind. intros s -> a He E.
  destruct s as [|c1 [|c2 s]]; [injection E as ->; by exists []|done|].
  cbn in E. repeat case_decide; try done. cbn [DecodeString]. rewrite decide_True by done.
  edestruct (IH (String.length s)) as (bs & Ed & Ev); [cbn; lia|done| |exact E|].
  { by rewrite <- mod2_SS. }
  rewrite Ed. eexists. split; [done|]. cbn. rewrite <- Ev. f_equal. lia.
Qed.

Lemma evenLength_even s : Nat.modulo (String.length (evenLength s)) 2 = 0%nat.
Proof.
  unfold evenLength. case_decide as Hl; [done|]. change (Nat.modulo (S (String.length s)) 2 = 0%nat).
  pose proof (Nat.mod_upper_bound (String.length s) 2 ltac:(done)). pose proof (Nat.div_mod_eq (String.length s) 2) as E.
  replace (S (String.length s)) with (0 + (String.length s / 2 + 1) * 2)%nat by lia. apply Nat.Div0.mod_add.
Qed.

Lemma parse_evenLength s a n : parseDigits 16 s 0 = Some n → a = 0 → parseDigits 16 (evenLength s) a = Some n.
Proof.
  intros E ->. unfold evenLength. case_decide; [done|].
  change (("0" +:+ s)%string) with (String.String "0" s). cbn [parseDigits]. change (digitVal "0") with 0.
  by rewrite decide_True by lia.
Qed.

Lemma EncodeToString_even bs : evenLength (EncodeToString bs) = EncodeToString bs.
Proof.
  unfold evenLength. rewrite decide_True; [done|]. induction bs as [|b bs IH]; [done|]. cbn [EncodeToString String.length].
  by rewrite mod2_SS.
Qed.

Lemma DecodeString_EncodeToString bs : Forall is_byte bs → DecodeString (EncodeToString bs) = Ok bs.
Proof.
  induction 1 as [|b bs Hb _ IH]; [done|]. unfold is_byte in Hb. cbn [EncodeToString DecodeString].
  pose proof (Z.mod_pos_bound b 16 ltac:(lia)). pose proof (Z.div_mod b 16 ltac:(lia)).
  rewrite !digitVal_hexDigit by lia. rewrite decide_True by lia. rewrite IH. cbn. do 2 f_equal. lia.
Qed.

Lemma ParseUint_overflows base bitSize s a n :
  1 ≤ base → 0 ≤ a < 2 ^ bitSize → parseDigits base s a = Some n → 2 ^ bitSize ≤ n →
  ParseUint_loop base bitSize s a = Err ErrRange.
Proof.
  intros Hb. revert a. induction s as [|c s IH]; intros a Ha E Hn; [injection E as ->; lia|].
  cbn in *. case_decide; [|done]. pose proof (digitVal_range c). rewrite decide_False by lia.
  case_decide; [done|]. apply IH; [nia|done..].
Qed.

Lemma trim0x_0x s : trim0x ("0x" +:+ s) = s.
Proof. done. Qed.

Lemma ArgBytes_roundtrip old bs : Forall is_byte bs → ArgBytes_UnmarshalText old (ArgBytes_MarshalText bs) = Ok bs.
Proof.
  intros Hbs. unfold ArgBytes_UnmarshalText, ArgBytes_MarshalText, decodeToHex, encodeToHex.
  rewrite trim0x_0x, !EncodeToString_even. by rewrite DecodeString_EncodeToString.
Qed.

Lemma ArgUint64_roundtrip n : 0 ≤ n < 2 ^ 64 → ArgUint64_UnmarshalText (ArgUint64_MarshalText n) = Ok n.
Proof.
  intros Hn. assert (2 ≤ Base ≤ 36) as Hb by (unfold Base; lia). unfold ArgUint64_UnmarshalText, ArgUint64_MarshalText, ParseUint.
  rewrite trim0x_0x, decide_False by (apply FormatUint_nonempty; lia).
  eapply ParseUint_parses; [lia|lia|apply parse_FormatUint; lia|unfold BitSize64; lia].
Qed.

(** What the helpers of package hex and the RPC types write they read back: bytes,
    64-bit numbers, and big numbers that are not negative, with an odd number of digits
    too.  A number that does not fit in 64 bits is refused. *)
Theorem hex_roundtrip (bs : bytes) (n : Z) :
  Forall is_byte bs → 0 ≤ n →
  DecodeHex (EncodeToHex bs) = Ok bs ∧ MustDecodeHex (EncodeToHex bs) = Ok bs ∧
  (∀ old, ArgBytes_UnmarshalText old (ArgBytes_MarshalText bs) = Ok bs) ∧
  DecodeBig (EncodeBig n) = Some n ∧ ArgBig_UnmarshalText (ArgBig_MarshalText n) = Ok n ∧
  (n < 2 ^ 64 → DecodeUint64 (EncodeUint64 n) = Some n ∧ ArgUint64_UnmarshalText (ArgUint64_MarshalText n) = Ok n) ∧
  (2 ^ 64 ≤ n → ArgUint64_UnmarshalText (ArgBig_MarshalText n) = Err ErrRange).
Proof.
  intros Hbs Hn. assert (2 ≤ Base ≤ 36) as Hb by (unfold Base; lia). pose proof (parse_FormatUint Base n Hb Hn) as E.
  pose proof (FormatUint_nonempty Base n Hb Hn) as Hne.
  assert (DecodeHex (EncodeToHex bs) = Ok bs) as Eb.
  { unfold DecodeHex, EncodeToHex. rewrite trim0x_0x, EncodeToString_even. by apply DecodeString_EncodeToString. }
  assert (∀ m, 0 ≤ m → DecodeBig ("0x" +:+ FormatUint Base m) = Some m) as Ebig.
  { intros m Hm. unfold DecodeBig. rewrite trim0x_0x. by apply SetString_FormatUint. }
  assert (ArgBig_MarshalText n = "0x" +:+ FormatUint Base n)%string as Em.
  { unfold ArgBig_MarshalText, big_Text. by rewrite decide_False by lia. }
  split; [done|]. split; [unfold MustDecodeHex; by rewrite Eb|]. split; [intros old; by apply ArgBytes_roundtrip|].
  split. { unfold EncodeBig. case_decide; [by subst|]. rewrite decide_False, Z.abs_eq by lia. by apply Ebig. }
  rewrite Em. unfold ArgBig_UnmarshalText, decodeToHex, DecodeUint64, EncodeUint64. rewrite Ebig, trim0x_0x by done. split; [|split].
  - edestruct (DecodeString_value _ 0 n (evenLength_even (FormatUint Base n))) as (buf & -> & Ev); [by apply parse_evenLength|].
    cbn. by rewrite <- Ev.
  - intros Hlt. cbn. rewrite Z.abs_eq, u64_id by lia. split; [done|]. by apply ArgUint64_roundtrip.
  - intros Hge. unfold ArgUint64_UnmarshalText, ParseUint. rewrite trim0x_0x, decide_False by done.
    eapply ParseUint_overflows; [lia|unfold BitSize64; lia|done..].
Qed.

Lemma hex_roundtrip_witness :
  DecodeHex (EncodeToHex [0; 255]) = Ok [0; 255] ∧ ArgBig_UnmarshalText (ArgBig_MarshalText 74565) = Ok 74565.
Proof.
  destruct (hex_roundtrip [0; 255] 74565) as (E1 & _ & _ & _ & E2 & _); [by repeat constructor|done|]. by split.
Defined.

(** The sign is written in front of the prefix, where [DecodeBig] does not expect it. *)
Example EncodeBig_negative : EncodeBig (-31) = "-0x1f"%string ∧ DecodeBig (EncodeBig (-31)) = None.
Proof. by vm_compute. Qed.

(** ** Decimal text *)

Lemma pretty_N_char_hexDigit d : 0 ≤ d < 10 → pretty_N_char (Z.to_N d) = hexDigit d.
Proof.
  intros Hd. assert (Forall (λ d, pretty_N_char (Z.to_N d) = hexDigit d) (seqZ 0 10)) as Hall by (by apply (bool_decide_unpack _)).
  rewrite Forall_forall in Hall. apply Hall, elem_of_seqZ. lia.
Qed.

Lemma pretty_formatDigits fuel n s :
  0 ≤ n < 2 ^ Z.of_nat fuel → pretty_N_go (Z.to_N n) s = formatDigits fuel 10 n s.
Proof.
  revert n s. induction fuel as [|fuel IH]; intros n s Hn; cbn [formatDigits].
  { assert (n = 0) as -> by (cbn in Hn; lia). apply pretty_N_go_0. }
  case_decide as Hz; [subst; apply pretty_N_go_0|]. rewrite Nat2Z.inj_succ, Z.pow_succ_r in Hn by lia.
  pose proof (Z.mod_pos_bound n 10 ltac:(lia)). rewrite pretty_N_go_step by lia.
  rewrite <- pretty_N_char_hexDigit by done.
  rewrite <- IH by (split; [apply Z.div_pos; lia|apply Z.div_lt_upper_bound; lia]).
  by rewrite Z2N.inj_div, Z2N.inj_mod by lia.
Qed.

(** The decimal text of the bridge service is that of [big.Int.String]. *)
Lemma pretty_FormatUint n : 0 ≤ n → pretty n = FormatUint 10 n.
Proof.
  intros Hn. unfold FormatUint. case_decide as Hz; [by subst|]. rewrite <- pretty_formatDigits by (split; [lia|apply log2_fuel; lia]).
  destruct n as [|p|p]; [done| |lia]. done.
Qed.

(** The text of a number is read back by [SetString] with base 0. *)
Lemma SetString0_pretty n : 0 ≤ n → SetString0 (pretty n) = Some n.
Proof. intros Hn. rewrite pretty_FormatUint by done. by apply SetString0_FormatUint. Qed.
