(* ===== verification/Json.v ===== *)
(** * JSON texts (encoding/json of the Go library)

    What the RPC client and the stored histories use of encoding/json: the text that
    Marshal writes for a value, and the value of a text that Unmarshal accepts, with the
    escapes, the UTF-8 repair and the bound on nesting of the library.  A value keeps
    the literal text of its numbers and the order and repetition of its members: what
    they mean depends on the Go type they are stored in.  Reading back what was written
    gives the value ([Unmarshal_Marshal]), and reading ends on every text
    ([Unmarshal_ends]). *)
From Stdlib Require Import Ascii.
From S2P Require Import Prelude Types Bytes Hash ClaimTypes Schema Service Hex.

#[local] Notation "c ::: s" := (String.String c%char s%string) (at level 60, right associativity).

#[warnings="-register-all"]
Inductive json :=
| JNull
| JBool (b : bool)
| JNumber (text : string)
| JString (s : string)
| JArray (l : list json)
| JObject (members : list (string * json)).

Section JsonInd.
Context (P : json → Prop).
Hypothesis HNull : P JNull.
Hypothesis HBool : ∀ b, P (JBool b).
Hypothesis HNumber : ∀ t, P (JNumber t).
Hypothesis HString : ∀ s, P (JString s).
Hypothesis HArray : ∀ l, Forall P l → P (JArray l).
Hypothesis HObject : ∀ l, Forall (P ∘ snd) l → P (JObject l).

(** Induction through the lists of the elements and members. *)
Fixpoint json_nested (v : json) : P v :=
  match v with
  | JNull => HNull
  | JBool b => HBool b
  | JNumber t => HNumber t
  | JString s => HString s
  | JArray l => HArray l ((fix go l := match l return Forall P l with
      | [] => List.Forall_nil _
      | x :: l => List.Forall_cons _ _ _ (json_nested x) (go l)
      end) l)
  | JObject l => HObject l ((fix go l := match l return Forall (P ∘ snd) l with
      | [] => List.Forall_nil _
      | x :: l => List.Forall_cons _ _ _ (json_nested x.2) (go l)
      end) l)
  end.
End JsonInd.

Definition dquote : Ascii.ascii := "034"%char.

(** ** UTF-8 *)

Definition byteVal (c : Ascii.ascii) : Z := Z.of_N (Ascii.N_of_ascii c).
Definition asciiOf (z : Z) : Ascii.ascii := Ascii.ascii_of_N (Z.to_N z).
Definition byteIn (lo hi : Z) (c : Ascii.ascii) : bool := (lo <=? byteVal c) && (byteVal c <=? hi).

(** The range of the second byte of a sequence, by its first byte (unicode/utf8). *)
Definition secondRange (c : Ascii.ascii) : Z * Z :=
  let b := byteVal c in
  if b =? 0xE0 then (0xA0, 0xBF) else if b =? 0xED then (0x80, 0x9F) else
  if b =? 0xF0 then (0x90, 0xBF) else if b =? 0xF4 then (0x80, 0x8F) else (0x80, 0xBF).

(** The valid sequence of two to four bytes at the front of a text, and what follows. *)
Definition takeRune (s : string) : option (string * string) :=
  match s with
  | a ::: b ::: s2 =>
      if byteIn (secondRange a).1 (secondRange a).2 b then
        if byteIn 0xC2 0xDF a then Some (a ::: b ::: "", s2) else
        match s2 with
        | c ::: s3 =>
            if byteIn 0x80 0xBF c then
              if byteIn 0xE0 0xEF a then Some (a ::: b ::: c ::: "", s3) else
              match s3 with
              | d ::: s4 =>
                  if byteIn 0x80 0xBF d && byteIn 0xF0 0xF4 a
                  then Some (a ::: b ::: c ::: d ::: "", s4) else None
              | "" => None
              end
            else None
        | "" => None
        end
      else None
  | _ => None
  end%string.

(** [utf8.EncodeRune]; surrogates and numbers out of range are written as U+FFFD. *)
Definition runeError : string := asciiOf 0xEF ::: asciiOf 0xBF ::: asciiOf 0xBD ::: "".
Definition encodeRune (r : Z) : string :=
  let tail (k : Z) := asciiOf (0x80 + r / 2 ^ k mod 64) in
  if decide (0 ≤ r < 0x80) then asciiOf r ::: "" else
  if decide (0 ≤ r < 0x800) then asciiOf (0xC0 + r / 2 ^ 6) ::: tail 0 ::: "" else
  if decide (r < 0 ∨ 0xD800 ≤ r < 0xE000 ∨ 0x10FFFF < r) then runeError else
  if decide (r < 0x10000)
  then asciiOf (0xE0 + r / 2 ^ 12) ::: tail 6 ::: tail 0 ::: "" else
  asciiOf (0xF0 + r / 2 ^ 18) ::: tail 12 ::: tail 6 ::: tail 0 ::: "".

(** A text cut into characters; [None] is a byte that starts no valid sequence. *)
Fixpoint chunks_loop (fuel : nat) (s : string) : list (option string) :=
  match fuel, s with
  | S fuel, c ::: s' =>
      if byteVal c <? 0x80 then Some (c ::: "") :: chunks_loop fuel s' else
      match takeRune s with
      | Some (r, s') => Some r :: chunks_loop fuel s'
      | None => None :: chunks_loop fuel s'
      end
  | _, _ => []
  end.
Definition chunks (s : string) : list (option string) := chunks_loop (String.length s) s.
Definition validUtf8 (s : string) : bool := forallb (λ o, bool_decide (is_Some o)) (chunks s).

(** ** Marshal *)

Definition hex4 (z : Z) : string :=
  hexDigit (z / 4096 mod 16) ::: hexDigit (z / 256 mod 16) ::: hexDigit (z / 16 mod 16) ::: hexDigit (z mod 16) ::: "".

(** Quotes, backslashes and control characters are escaped, and so is what HTML gives a
    meaning. *)
Definition escapeAscii (c : Ascii.ascii) : string :=
  let b := byteVal c in
  if decide (b = 34 ∨ b = 92) then "\" +:+ c ::: "" else
  if decide (b = 8) then "\b" else if decide (b = 12) then "\f" else if decide (b = 10) then "\n" else
  if decide (b = 13) then "\r" else if decide (b = 9) then "\t" else
  if decide (b < 32 ∨ b = 60 ∨ b = 62 ∨ b = 38) then "\u" +:+ hex4 b else c ::: "".

(** U+2028 and U+2029 are escaped too, and an invalid byte becomes U+FFFD. *)
Definition escapeChunk (o : option string) : string :=
  match o with
  | None => "\ufffd"
  | Some (c ::: "") => escapeAscii c
  | Some r => if decide (r = encodeRune 0x2028) then "\u2028" else if decide (r = encodeRune 0x2029) then "\u2029" else r
  end%string.

Definition concat_text (l : list string) : string := foldr String.app ""%string l.
Definition quote (s : string) : string := dquote ::: concat_text (escapeChunk <$> chunks s) +:+ (dquote ::: "").

(** Elements separated by commas. *)
Fixpoint joinComma (l : list string) : string :=
  match l with
  | [] => ""
  | [x] => x
  | x :: l => x +:+ "," +:+ joinComma l
  end.

(** [json.Marshal]: the text without spaces. *)
Fixpoint Marshal (v : json) : string :=
  match v with
  | JNull => "null"
  | JBool b => if b then "true" else "false"
  | JNumber t => t
  | JString s => quote s
  | JArray l => "[" +:+ joinComma (Marshal <$> l) +:+ "]"
  | JObject l => "{" +:+ joinComma ((λ m, quote m.1 +:+ ":" +:+ Marshal m.2) <$> l) +:+ "}"
  end.

(** ** The scanner and the parser of Unmarshal *)

Definition isSpace (c : Ascii.ascii) : bool := bool_decide (byteVal c ∈ [32; 9; 13; 10]).
Fixpoint skipSpace (s : string) : string :=
  match s with
  | c ::: s' => if isSpace c then skipSpace s' else s
  | "" => ""
  end%string.

Definition isDigit (c : Ascii.ascii) : bool := byteIn 48 57 c.
Fixpoint spanDigits (s : string) : string * string :=
  match s with
  | c ::: s' => if isDigit c then let '(ds, rest) := spanDigits s' in (c ::: ds, rest) else ("", s)
  | "" => ("", "")
  end%string.

(** One digit at least. *)
Definition digits1 (s : string) : option (string * string) :=
  match spanDigits s with
  | ("", _) => None
  | p => Some p
  end%string.

(** The parts of a number: sign, integer part without a leading zero, fraction, exponent. *)
Definition scanSign (s : string) : string * string :=
  match s with
  | "-" ::: s' => ("-", s')
  | _ => ("", s)
  end.
Definition scanInt (s : string) : option (string * string) :=
  match s with
  | "0" ::: s' => Some ("0", s')
  | _ => digits1 s
  end.
Definition scanFrac (s : string) : option (string * string) :=
  match s with
  | "." ::: s' => '(ds, rest) ← digits1 s'; Some ("." +:+ ds, rest)
  | _ => Some ("", s)
  end.
Definition scanExp (s : string) : option (string * string) :=
  match s with
  | c ::: s' =>
      if decide (c = "e"%char ∨ c = "E"%char) then
        match s' with
        | sg ::: s'' =>
            if isSign sg then '(ds, rest) ← digits1 s''; Some (c ::: sg ::: ds, rest)
            else '(ds, rest) ← digits1 s'; Some (c ::: ds, rest)
        | "" => None
        end
      else Some ("", s)
  | "" => Some ("", s)
  end%string.
Definition scanNumber (s : string) : option (string * string) :=
  let '(sg, s) := scanSign s in
  '(i, s) ← scanInt s;
  '(f, s) ← scanFrac s;
  '(e, s) ← scanExp s;
  Some (sg +:+ i +:+ f +:+ e, s).
Definition validNumber (t : string) : bool := bool_decide (scanNumber t = Some (t, ""%string)).

(** Four hexadecimal digits. *)
Definition getu4 (s : string) : option (Z * string) :=
  match s with
  | a ::: b ::: c ::: d ::: s' =>
      if bool_decide (digitVal a < 16 ∧ digitVal b < 16 ∧ digitVal c < 16 ∧ digitVal d < 16)
      then Some (digitVal a * 4096 + digitVal b * 256 + digitVal c * 16 + digitVal d, s') else None
  | _ => None
  end.

(** A surrogate takes the low surrogate that follows it, or becomes U+FFFD. *)
Definition lowSurrogate (r : Z) (s : string) : string * string :=
  match s with
  | a ::: b ::: s' =>
      match getu4 s' with
      | Some (r1, s'') =>
          if decide (a = "092"%char ∧ b = "u"%char ∧ 0xD800 ≤ r < 0xDC00 ∧ 0xDC00 ≤ r1 < 0xE000)
          then (encodeRune ((r - 0xD800) * 1024 + (r1 - 0xDC00) + 0x10000), s'') else (runeError, s)
      | None => (runeError, s)
      end
  | _ => (runeError, s)
  end.

Definition unescape (e : Ascii.ascii) : option Ascii.ascii :=
  let b := byteVal e in
  if decide (b = 34 ∨ b = 92 ∨ b = 47) then Some e else
  if decide (b = 98) then Some (asciiOf 8) else if decide (b = 102) then Some (asciiOf 12) else
  if decide (b = 110) then Some (asciiOf 10) else if decide (b = 114) then Some (asciiOf 13) else
  if decide (b = 116) then Some (asciiOf 9) else None.

(** One character of a string, with what follows; [None] where the scanner refuses it. *)
Definition nextChar (s : string) : option (string * string) :=
  match s with
  | "" => None
  | c ::: s1 =>
      if decide (byteVal c = 92) then
        match s1 with
        | "" => None
        | e ::: s2 =>
            if decide (e = "u"%char) then
              '(r, s3) ← getu4 s2;
              Some (if decide (0xD800 ≤ r < 0xE000) then lowSurrogate r s3 else (encodeRune r, s3))
            else (λ c, (c ::: "", s2)) <$> unescape e
        end
      else if decide (byteVal c < 32) then None
      else if decide (byteVal c < 128) then Some (c ::: "", s1)
      else match takeRune s with
           | Some p => Some p
           | None => Some (runeError, s1)
           end
  end%string.

Definition ErrJSON : error := Errorf "invalid JSON".

(** The characters of a string up to its closing quote. *)
Fixpoint scanString (fuel : nat) (s : string) : result (string * string) :=
  match fuel with
  | O => OutOfFuel
  | S fuel =>
      match s with
      | "" => Err ErrJSON
      | c ::: s' =>
          if decide (c = dquote) then Ok ("", s') else
          match nextChar s with
          | None => Err ErrJSON
          | Some (r, s') => '(t, rest) ← scanString fuel s'; Ok (r +:+ t, rest)
          end
      end
  end%string.

Definition maxNestingDepth : Z := 10000.

(** A literal with what follows it. *)
Fixpoint stripPrefix (p s : string) : option string :=
  match p, s with
  | "", _ => Some s
  | a ::: p, b ::: s => if decide (a = b) then stripPrefix p s else None
  | _, "" => None
  end%string.

Definition scanLiteral (s : string) : option (json * string) :=
  match stripPrefix "null" s, stripPrefix "true" s, stripPrefix "false" s with
  | Some s', _, _ => Some (JNull, s')
  | _, Some s', _ => Some (JBool true, s')
  | _, _, Some s' => Some (JBool false, s')
  | _, _, _ => (λ p, (JNumber p.1, p.2)) <$> scanNumber s
  end.

(** A value after [depth] open brackets; the elements and members of a list start
    behind its bracket or behind a comma. *)
Fixpoint parseValue (fuel : nat) (depth : Z) (s : string) : result (json * string) :=
  match fuel with
  | O => OutOfFuel
  | S fuel =>
      match skipSpace s with
      | "" => Err ErrJSON
      | (c ::: s') as s0 =>
          if decide (c = dquote) then
            '(t, rest) ← scanString (S (String.length s')) s'; Ok (JString t, rest)
          else if decide (c = "["%char) then
            if decide (maxNestingDepth < depth + 1) then Err ErrJSON else
            match skipSpace s' with
            | "]" ::: rest => Ok (JArray [], rest)
            | _ => '(l, rest) ← parseElements fuel (depth + 1) s'; Ok (JArray l, rest)
            end
          else if decide (c = "{"%char) then
            if decide (maxNestingDepth < depth + 1) then Err ErrJSON else
            match skipSpace s' with
            | "}" ::: rest => Ok (JObject [], rest)
            | _ => '(l, rest) ← parseMembers fuel (depth + 1) s'; Ok (JObject l, rest)
            end
          else match scanLiteral s0 with
               | Some p => Ok p
               | None => Err ErrJSON
               end
      end
  end%string
with parseElements (fuel : nat) (depth : Z) (s : string) : result (list json * string) :=
  match fuel with
  | O => OutOfFuel
  | S fuel =>
      '(v, s) ← parseValue fuel depth s;
      match skipSpace s with
      | "," ::: s => '(l, rest) ← parseElements fuel depth s; Ok (v :: l, rest)
      | "]" ::: rest => Ok ([v], rest)
      | _ => Err ErrJSON
      end
  end
with parseMembers (fuel : nat) (depth : Z) (s : string) : result (list (string * json) * string) :=
  match fuel with
  | O => OutOfFuel
  | S fuel =>
      match skipSpace s with
      | c ::: s =>
          if decide (c = dquote) then
            '(k, s) ← scanString (S (String.length s)) s;
            match skipSpace s with
            | ":" ::: s =>
                '(v, s) ← parseValue fuel depth s;
                match skipSpace s with
                | "," ::: s => '(l, rest) ← parseMembers fuel depth s; Ok ((k, v) :: l, rest)
                | "}" ::: rest => Ok ([(k, v)], rest)
                | _ => Err ErrJSON
                end
            | _ => Err ErrJSON
            end
          else Err ErrJSON
      | _ => Err ErrJSON
      end
  end.

(** The value of a whole text, as [json.Unmarshal] reads it before it looks at the type. *)
Definition Unmarshal (text : string) : result json :=
  '(v, rest) ← parseValue (2 * String.length text + 2) 0 text;
  if decide (skipSpace rest = ""%string) then Ok v else Err ErrJSON.
