(* ===== verification/JsonFacts.v ===== *)
(** * Reading back what was written (encoding/json)

    The parser of [Json] inverts the printer on values whose strings are valid UTF-8,
    whose numbers are numbers of JSON and whose nesting is within the bound of the
    library, and it never runs out of rounds. *)
From Stdlib Require Import Ascii.
From S2P Require Import Prelude Types Bytes Hash ClaimTypes Schema Service Hex Json.

#[local] Notation "c ::: s" := (String.String c%char s%string) (at level 60, right associativity).

#[local] Arguments String.append !_ _ / : simpl nomatch.

(** ** Texts *)

Lemma text_app_assoc (a b c : string) : ((a +:+ b) +:+ c = a +:+ b +:+ c)%string.
Proof. induction a as [|x a IH]; [done|]. cbn. f_equal. exact IH. Qed.
Lemma text_app_nil (a : string) : (a +:+ "" = a)%string.
Proof. induction a as [|x a IH]; [done|]. cbn. f_equal. exact IH. Qed.
Lemma text_length_app (a b : string) : String.length (a +:+ b) = (String.length a + String.length b)%nat.
Proof. induction a as [|x a IH]; [done|]. cbn. f_equal. exact IH. Qed.

(** ** Characters *)

Lemma takeRune_spec s r t :
  takeRune s = Some (r, t) → s = (r +:+ t)%string ∧ (∀ t', takeRune (r +:+ t') = Some (r, t')) ∧
  (2 ≤ String.length r)%nat ∧ ∃ c r', r = c ::: r' ∧ 0xC2 ≤ byteVal c.
Proof.
  unfold takeRune. intros E.
  destruct s as [|a [|b s2]]; [done..|]. destruct (byteIn (secondRange a).1 (secondRange a).2 b) eqn:Eb; [|done].
  destruct (byteIn 0xC2 0xDF a) eqn:Ea.
  { simplify_eq. split; [done|]. split; [intros t'; cbn; by rewrite Eb, Ea|]. split; [cbn; lia|]. eexists _, _. split; [done|].
    unfold byteIn in Ea. lia. }
  destruct s2 as [|c s3]; [done|]. destruct (byteIn 0x80 0xBF c) eqn:Ec; [|done].
  destruct (byteIn 0xE0 0xEF a) eqn:Ea'.
  { simplify_eq. split; [done|]. split; [intros t'; cbn; by rewrite Eb, Ea, Ec, Ea'|]. split; [cbn; lia|].
    eexists _, _. split; [done|]. unfold byteIn in Ea'. lia. }
  destruct s3 as [|d s4]; [done|]. destruct (byteIn 0x80 0xBF d && byteIn 0xF0 0xF4 a) eqn:Ed; [|done].
  simplify_eq. split; [done|]. split; [intros t'; cbn; by rewrite Eb, Ea, Ec, Ea', Ed|]. split; [cbn; lia|].
  eexists _, _. split; [done|]. unfold byteIn in Ed. lia.
Qed.

(** A character: an ASCII byte or a valid longer sequence. *)
Definition is_chunk (r : string) : Prop :=
  (∃ c, r = c ::: "" ∧ byteVal c < 128) ∨
  ((∀ t, takeRune (r +:+ t) = Some (r, t)) ∧ (2 ≤ String.length r)%nat ∧ ∃ c r', r = c ::: r' ∧ 0xC2 ≤ byteVal c).

Lemma chunks_valid fuel s :
  (String.length s ≤ fuel)%nat → Forall is_Some (chunks_loop fuel s) →
  ∃ rs, chunks_loop fuel s = Some <$> rs ∧ Forall is_chunk rs ∧ concat_text rs = s.
Proof.
  revert s. induction fuel as [|fuel IH]; intros [|c s] Hf Hv; [by exists []|cbn in Hf; lia|by exists []|].
  cbn [chunks_loop] in *. cbn in Hf. destruct (byteVal c <? 0x80) eqn:Ec.
  { apply Forall_cons in Hv as [_ Hv]. destruct (IH s ltac:(lia) Hv) as (rs & -> & Hrs & <-).
    exists ((c ::: "") :: rs). split; [done|]. split; [|done]. constructor; [|done]. left. exists c. split; [done|lia]. }
  destruct (takeRune (c ::: s)) as [[r t]|] eqn:Er; apply Forall_cons in Hv as [Hh Hv]; [|by destruct Hh].
  pose proof (takeRune_spec _ _ _ Er) as (Es & Hr & Hl & Hc).
  apply (f_equal String.length) in Es as El. rewrite text_length_app in El. cbn in El.
  destruct (IH t ltac:(lia) Hv) as (rs & -> & Hrs & <-). exists (r :: rs). split; [done|]. split; [|done].
  constructor; [|done]. right. done.
Qed.

Lemma all_ascii (P : Ascii.ascii → Prop) `{∀ c, Decision (P c)} :
  forallb (λ n, bool_decide (P (Ascii.ascii_of_nat n))) (seq 0 256) = true → ∀ c, P c.
Proof.
  intros Hall c. rewrite List.forallb_forall in Hall. rewrite <- (Ascii.ascii_nat_embedding c).
  eapply bool_decide_eq_true, Hall, List.in_seq. pose proof (Ascii.nat_ascii_bounded c). lia.
Qed.

(** What is written for an ASCII character is read as that character, before any text. *)
Lemma nextChar_escapeAscii c t : byteVal c < 128 → nextChar (escapeAscii c +:+ t) = Some (c ::: "", t).
Proof. destruct c as [[] [] [] [] [] [] [] []]; intros Hc; [reflexivity || (exfalso; by compute in Hc)..]. Qed.

Lemma escapeAscii_head c : byteVal c < 128 → ∃ a s, escapeAscii c = a ::: s ∧ a ≠ dquote.
Proof.
  intros _. unfold escapeAscii. repeat case_decide; try (eexists _, _; split; [reflexivity|done]).
  eexists _, _. split; [done|]. intros ->. change (byteVal dquote) with 34 in *. naive_solver.
Qed.

Lemma byteVal_dquote : byteVal dquote = 34.
Proof. done. Qed.

Lemma nextChar_escapeChunk r t : is_chunk r → nextChar (escapeChunk (Some r) +:+ t) = Some (r, t).
Proof.
  intros [(c & -> & Hc)|(Hr & Hl & c & r' & -> & Hc)]; [by apply nextChar_escapeAscii|].
  destruct r' as [|c' r']; [cbn in Hl; lia|]. unfold escapeChunk.
  case_decide as E1; [rewrite E1; reflexivity|]. case_decide as E2; [rewrite E2; reflexivity|].
  specialize (Hr t). cbn [String.append] in *. unfold nextChar.
  rewrite decide_False, decide_False, decide_False by lia. by rewrite Hr.
Qed.

Lemma escapeChunk_head r : is_chunk r → ∃ a s, escapeChunk (Some r) = a ::: s ∧ a ≠ dquote.
Proof.
  intros [(c & -> & Hc)|(Hr & Hl & c & r' & -> & Hc)]; [by apply escapeAscii_head|].
  destruct r' as [|c' r']; [cbn in Hl; lia|]. unfold escapeChunk.
  repeat case_decide; (eexists _, _; split; [reflexivity|]); [done..|]. intros ->. rewrite byteVal_dquote in Hc. lia.
Qed.

(** ** Strings *)

Lemma scanString_chunks rs fuel t :
  Forall is_chunk rs → (length rs < fuel)%nat →
  scanString fuel (concat_text (escapeChunk ∘ Some <$> rs) +:+ (dquote ::: t)) = Ok (concat_text rs, t).
Proof.
  intros Hrs. revert fuel. induction Hrs as [|r rs Hr _ IH]; intros [|fuel] Hf; cbn in Hf; try lia; [done|].
  cbn [fmap list_fmap concat_text foldr]. rewrite text_app_assoc.
  destruct (escapeChunk_head r Hr) as (a & s & Ea & Ha). pose proof (nextChar_escapeChunk r) as Hn.
  cbn [compose] in *. rewrite Ea in *. cbn [String.append scanString] in *. rewrite decide_False by done.
  rewrite Hn by done. rewrite IH by lia. done.
Qed.

Lemma concat_escape_length rs :
  Forall is_chunk rs → (length rs ≤ String.length (concat_text (escapeChunk ∘ Some <$> rs)))%nat.
Proof.
  induction 1 as [|r rs Hr _ IH]; [done|]. cbn [fmap list_fmap concat_text foldr length]. rewrite text_length_app.
  destruct (escapeChunk_head r Hr) as (a & s & Ea & _). cbn [compose]. rewrite Ea. unfold concat_text in *. cbn in *. lia.
Qed.

(** The text behind the opening quote. *)
Lemma scanString_quote s t fuel :
  validUtf8 s = true → (String.length (quote s) ≤ fuel)%nat →
  ∃ q, quote s = dquote ::: q ∧ scanString fuel (q +:+ t) = Ok (s, t).
Proof.
  unfold validUtf8, quote, chunks. intros Hv Hf. rewrite List.forallb_forall in Hv.
  destruct (chunks_valid (String.length s) s) as (rs & Ec & Hrs & Es); [done| |].
  { apply List.Forall_forall. intros o Ho. by eapply bool_decide_eq_true, Hv. }
  rewrite Ec in *. rewrite <- list_fmap_compose in *. eexists. split; [done|].
  rewrite text_app_assoc. cbn [String.append]. rewrite scanString_chunks; [by rewrite Es|done|].
  pose proof (concat_escape_length rs Hrs). cbn [String.append String.length] in Hf. rewrite text_length_app in Hf. cbn in *. lia.
Qed.

(** ** Numbers *)

(** A text that does not go on with a number. *)
Definition stops (t : string) : Prop :=
  match t with
  | "" => True
  | c ::: _ => isDigit c = false ∧ c ≠ "."%char ∧ c ≠ "e"%char ∧ c ≠ "E"%char
  end%string.

Lemma spanDigits_app s p q t : spanDigits s = (p, q) → stops t → spanDigits (s +:+ t) = (p, q +:+ t).
Proof.
  intros E Ht. revert p q E. induction s as [|c s IH]; intros p q E; cbn in *.
  { simplify_eq. destruct t as [|c t]; [done|]. destruct Ht as [Hd _]. cbn. by rewrite Hd. }
  destruct (isDigit c); [|by simplify_eq]. destruct (spanDigits s) as [ds rest]. rewrite (IH ds rest) by done. by simplify_eq.
Qed.

Lemma digits1_app s p q t : digits1 s = Some (p, q) → stops t → digits1 (s +:+ t) = Some (p, (q +:+ t)%string).
Proof.
  unfold digits1. destruct (spanDigits s) as [ds rest] eqn:E. intros E' Ht. rewrite (spanDigits_app _ _ _ _ E Ht).
  by destruct ds; simplify_eq.
Qed.

Lemma scanInt_app s p q t : scanInt s = Some (p, q) → stops t → scanInt (s +:+ t) = Some (p, (q +:+ t)%string).
Proof.
  destruct s as [|c s]; [done|]. intros E Ht. cbn [String.append]. unfold scanInt in *.
  destruct (decide (c = "0"%char)) as [->|Hc]; [by simplify_eq|].
  assert (digits1 (c ::: s) = Some (p, q)) as Ed by (destruct c as [[] [] [] [] [] [] [] []]; done).
  pose proof (digits1_app _ _ _ _ Ed Ht) as Ed'. destruct c as [[] [] [] [] [] [] [] []]; done.
Qed.

Lemma scanFrac_app s p q t : scanFrac s = Some (p, q) → stops t → scanFrac (s +:+ t) = Some (p, (q +:+ t)%string).
Proof.
  intros E Ht. destruct s as [|c s].
  { cbn in E. simplify_eq. cbn. destruct t as [|c t]; [done|]. destruct Ht as (_ & Hc & _). unfold scanFrac.
    destruct c as [[] [] [] [] [] [] [] []]; done. }
  cbn [String.append]. destruct (decide (c = "."%char)) as [->|Hc].
  - cbn in *. destruct (digits1 s) as [[ds rest]|] eqn:Ed; [|done]. cbn in E. rewrite (digits1_app _ _ _ _ Ed Ht). cbn. by simplify_eq.
  - unfold scanFrac in *. destruct c as [[] [] [] [] [] [] [] []]; by simplify_eq.
Qed.

Lemma scanExp_app s p q t : scanExp s = Some (p, q) → stops t → scanExp (s +:+ t) = Some (p, (q +:+ t)%string).
Proof.
  intros E Ht. destruct s as [|c s].
  { cbn in E. simplify_eq. cbn. destruct t as [|c t]; [done|]. destruct Ht as (_ & _ & H1 & H2). unfold scanExp.
    by rewrite decide_False by naive_solver. }
  cbn [String.append]. unfold scanExp in *. case_decide; [|by simplify_eq].
  destruct s as [|sg s]; [done|]. cbn [String.append]. destruct (isSign sg).
  - destruct (digits1 s) as [[ds rest]|] eqn:Ed; [|done]. rewrite (digits1_app _ _ _ _ Ed Ht). cbn in *. by simplify_eq.
  - destruct (digits1 (sg ::: s)) as [[ds rest]|] eqn:Ed; [|done]. apply digits1_app with (t := t) in Ed; [|done].
    cbn [String.append] in Ed. rewrite Ed. cbn in *. by simplify_eq.
Qed.

Lemma scanSign_app s t : s ≠ ""%string → scanSign (s +:+ t) = ((scanSign s).1, (scanSign s).2 +:+ t)%string.
Proof. intros Hs. destruct s as [|c s]; [done|]. cbn [String.append]. by destruct c as [[] [] [] [] [] [] [] []]. Qed.

Lemma scanNumber_app s p q t :
  scanNumber s = Some (p, q) → stops t → scanNumber (s +:+ t) = Some (p, (q +:+ t)%string).
Proof.
  intros E Ht. unfold scanNumber in *. rewrite scanSign_app by (by intros ->). destruct (scanSign s) as [sg s1]. cbn [fst snd].
  destruct (scanInt s1) as [[i s2]|] eqn:Ei; [|done]. rewrite (scanInt_app _ _ _ _ Ei Ht). cbn in *.
  destruct (scanFrac s2) as [[f s3]|] eqn:Ef; [|done]. rewrite (scanFrac_app _ _ _ _ Ef Ht). cbn in *.
  destruct (scanExp s3) as [[e s4]|] eqn:Ee; [|done]. rewrite (scanExp_app _ _ _ _ Ee Ht). cbn in *. by simplify_eq.
Qed.

(** A number starts with a sign or a digit. *)
Lemma scanNumber_head s p q : scanNumber s = Some (p, q) → ∃ c s', s = c ::: s' ∧ (c = "-"%char ∨ isDigit c = true).
Proof.
  intros E. destruct s as [|c s]; [done|]. exists c, s. split; [done|].
  destruct (decide (c = "-"%char)) as [->|Hc]; [by left|]. right. destruct (isDigit c) eqn:Hd; [done|]. exfalso.
  assert (scanSign (c ::: s) = (""%string, c ::: s)) as Es by (by destruct c as [[] [] [] [] [] [] [] []]).
  unfold scanNumber in E. rewrite Es in E. assert (c ≠ "0"%char) as H0 by (by intros ->).
  assert (scanInt (c ::: s) = digits1 (c ::: s)) as Ei by (by destruct c as [[] [] [] [] [] [] [] []]).
  rewrite Ei in E. unfold digits1 in E. cbn in E. by rewrite Hd in E.
Qed.

Lemma scanLiteral_number t s : validNumber t = true → stops s → scanLiteral (t +:+ s) = Some (JNumber t, s).
Proof.
  unfold validNumber. rewrite bool_decide_eq_true. intros E Hs.
  pose proof (scanNumber_app _ _ _ _ E Hs) as En. cbn [String.append] in En.
  destruct (scanNumber_head _ _ _ E) as (c & t' & -> & Hc). cbn [String.append] in *.
  unfold scanLiteral. assert (∀ a p, a ∈ ["n"; "t"; "f"]%char → stripPrefix (a ::: p) (c ::: t' +:+ s) = None) as Hp.
  { intros a p Ha. cbn. rewrite decide_False; [done|]. intros ->. destruct Hc as [-> | Hc]; [by set_unfold in Ha; naive_solver|].
    revert Hc. set_unfold in Ha. by destruct Ha as [->|[->|[->|[]]]]. }
  rewrite !Hp by set_solver. by rewrite En.
Qed.

(** ** Values *)

(** Values that Marshal writes without loss: valid UTF-8 in strings and keys, numbers of
    JSON. *)
Fixpoint wfJson (v : json) : Prop :=
  match v with
  | JNumber t => validNumber t = true
  | JString s => validUtf8 s = true
  | JArray l => foldr (λ x P, wfJson x ∧ P) True l
  | JObject l => foldr (λ m P, (validUtf8 m.1 = true ∧ wfJson m.2) ∧ P) True l
  | _ => True
  end.

Fixpoint jsonDepth (v : json) : Z :=
  match v with
  | JArray l => 1 + foldr (λ x n, Z.max (jsonDepth x) n) 0 l
  | JObject l => 1 + foldr (λ m n, Z.max (jsonDepth m.2) n) 0 l
  | _ => 0
  end.

(** Rounds that suffice to read a value, and a list of them. *)
Fixpoint jsonRounds (v : json) : nat :=
  match v with
  | JArray l => S (foldr (λ x n, S (jsonRounds x) + n) 0 l)%nat
  | JObject l => S (foldr (λ m n, S (jsonRounds m.2) + n) 0 l)%nat
  | _ => 1
  end.

Lemma wfJson_array l : wfJson (JArray l) ↔ Forall wfJson l.
Proof. induction l as [|x l IH]; cbn in *; [done|]. by rewrite Forall_cons, <- IH. Qed.
Lemma wfJson_object l : wfJson (JObject l) ↔ Forall (λ m, validUtf8 m.1 = true ∧ wfJson m.2) l.
Proof. induction l as [|x l IH]; cbn in *; [done|]. by rewrite Forall_cons, <- IH. Qed.

Lemma quote_length s : (2 ≤ String.length (quote s))%nat.
Proof. unfold quote. cbn [String.append String.length]. rewrite text_length_app. cbn. lia. Qed.

Lemma joinComma_cons x l : (String.length x + String.length (joinComma l) ≤ String.length (joinComma (x :: l)))%nat ∧
  (l ≠ [] → String.length x + String.length (joinComma l) + 1 = String.length (joinComma (x :: l)))%nat.
Proof.
  destruct l as [|y l]; cbn [joinComma]; [cbn; split; [lia|done]|].
  rewrite !text_length_app. cbn. split; intros; lia.
Qed.

(** A list of [n] texts takes its commas. *)
Lemma joinComma_rounds {A} (f : A → string) (r : A → nat) l :
  Forall (λ x, r x ≤ 2 * String.length (f x))%nat l →
  (foldr (λ x n, S (r x) + n) 0 l ≤ 2 * String.length (joinComma (f <$> l)) + 1)%nat.
Proof.
  induction 1 as [|x l Hx _ IH]; [cbn; lia|]. cbn [foldr fmap list_fmap] in *.
  destruct (joinComma_cons (f x) (f <$> l)) as [H1 H2]. change (list_fmap A string f l) with (f <$> l) in *.
  destruct l as [|y l]; [cbn in *; lia|]. specialize (H2 ltac:(done)). lia.
Qed.

Lemma jsonRounds_length v : wfJson v → (jsonRounds v ≤ 2 * String.length (Marshal v))%nat.
Proof.
  induction v as [| [] |t|s|l IH|l IH] using json_nested; intros Hw; cbn [jsonRounds Marshal]; [cbn; lia..| | | |].
  - cbn in Hw. apply bool_decide_eq_true in Hw. destruct (scanNumber_head _ _ _ Hw) as (c & s & -> & _). cbn. lia.
  - pose proof (quote_length s). lia.
  - rewrite !text_length_app. apply wfJson_array in Hw. cbn [String.length].
    opose proof* (joinComma_rounds Marshal jsonRounds l) as Hj; [|lia].
    eapply Forall_impl; [apply Forall_and; split; [exact IH|exact Hw]|]. cbn. intros x [H1 H2]. auto.
  - rewrite !text_length_app. apply wfJson_object in Hw. cbn [String.length].
    opose proof* (joinComma_rounds (λ m, quote m.1 +:+ ":" +:+ Marshal m.2)%string (λ m, jsonRounds m.2) l) as Hj; [|lia].
    eapply Forall_impl; [apply Forall_and; split; [exact IH|exact Hw]|]. cbn. intros x [H1 [H0 H2]].
    rewrite !text_length_app. specialize (H1 H2). cbn [String.length]. lia.
Qed.

Lemma jsonDepth_nonneg v : 0 ≤ jsonDepth v.
Proof.
  induction v as [| | | |l IH|l IH] using json_nested; cbn; try lia; clear IH; induction l; cbn; lia.
Qed.

(** The first character of a value is not a space and closes no list. *)
Definition opens (s : string) : Prop :=
  ∃ c s', s = c ::: s' ∧ isSpace c = false ∧ c ≠ "]"%char ∧ c ≠ "}"%char.

Lemma opens_app s t : opens s → opens (s +:+ t).
Proof. intros (c & s' & -> & Hc). by exists c, (s' +:+ t)%string. Qed.
Lemma opens_skip s : opens s → skipSpace s = s.
Proof. intros (c & s' & -> & Hc & _). cbn. by rewrite Hc. Qed.
Lemma quote_opens s : opens (quote s).
Proof. by eexists _, _. Qed.
Lemma Marshal_opens v : wfJson v → opens (Marshal v).
Proof.
  destruct v as [| [] |t|s|l|l]; intros Hw; try (by eexists _, _). cbn in *. apply bool_decide_eq_true in Hw.
  destruct (scanNumber_head _ _ _ Hw) as (c & s & -> & [->|Hc]); [by eexists _, _|].
  eexists _, _. split; [done|]. revert Hc. clear. by destruct c as [[] [] [] [] [] [] [] []].
Qed.

Lemma stops_delim c t : c ∈ [","; "]"; "}"]%char → stops (c ::: t).
Proof. intros Hc. set_unfold in Hc. by destruct Hc as [->|[->|[->|[]]]]. Qed.

(** ** The round trip *)

Definition parses (v : json) : Prop :=
  wfJson v → ∀ fuel depth t, 0 ≤ depth → depth + jsonDepth v ≤ maxNestingDepth → (jsonRounds v ≤ fuel)%nat → stops t →
  parseValue fuel depth (Marshal v +:+ t) = Ok (v, t).

Lemma parseElements_join x l fuel depth t :
  Forall parses (x :: l) → Forall wfJson (x :: l) → 0 ≤ depth →
  depth + foldr (λ x n, Z.max (jsonDepth x) n) 0 (x :: l) ≤ maxNestingDepth →
  (foldr (λ x n, S (jsonRounds x) + n) 0 (x :: l) ≤ fuel)%nat →
  parseElements fuel depth (joinComma (Marshal <$> x :: l) +:+ "]" +:+ t) = Ok (x :: l, t).
Proof.
  intros HP HW Hd. revert x fuel HP HW. induction l as [|y l IH]; intros x [|fuel] HP HW Hdep Hf; cbn [foldr] in Hf; try lia;
    apply Forall_cons in HP as [Hx HP], HW as [Hwx HW]; cbn [foldr] in Hdep.
  - cbn [fmap list_fmap joinComma parseElements]. rewrite (Hx Hwx fuel depth ("]" +:+ t)) by (lia || by apply stops_delim; set_solver).
    done.
  - change (joinComma (Marshal <$> x :: y :: l)) with (Marshal x +:+ "," +:+ joinComma (Marshal <$> y :: l))%string.
    rewrite !text_app_assoc. cbn [parseElements].
    rewrite (Hx Hwx fuel depth ("," +:+ joinComma (Marshal <$> y :: l) +:+ "]" +:+ t))%string by (lia || by apply stops_delim; set_solver).
    cbn [mbind result_bind String.append]. change (skipSpace ("," ::: ?s)) with ("," ::: s). cbn beta iota.
    rewrite IH; [done..| |]; cbn [foldr] in *; lia.
Qed.

Definition memberText (m : string * json) : string := quote m.1 +:+ ":" +:+ Marshal m.2.

(** A member in front of the list is read, and what follows it decides. *)
Lemma parseMembers_cons k v fuel depth t :
  parses v → validUtf8 k = true → wfJson v → 0 ≤ depth → depth + jsonDepth v ≤ maxNestingDepth → (jsonRounds v ≤ fuel)%nat →
  stops t →
  parseMembers (S fuel) depth (memberText (k, v) +:+ t) =
    match skipSpace t with
    | "," ::: s => '(l, rest) ← parseMembers fuel depth s; Ok ((k, v) :: l, rest)
    | "}" ::: rest => Ok ([(k, v)], rest)
    | _ => Err ErrJSON
    end.
Proof.
  intros HP Hk Hw Hd Hdep Hf Ht. unfold memberText. cbn [fst snd].
  assert (∃ q0, quote k = dquote ::: q0) as (q0 & Eq) by (by eexists). rewrite Eq, !text_app_assoc. cbn [String.append].
  destruct (scanString_quote k ((":" +:+ Marshal v) +:+ t) (S (String.length (q0 +:+ (":" +:+ Marshal v) +:+ t)))) as (q & Eq' & Es); [done| |].
  { rewrite Eq. cbn [String.length]. rewrite text_length_app. lia. }
  rewrite Eq in Eq'. simplify_eq. cbn [String.append] in Es. cbn [parseMembers]. change (skipSpace (dquote ::: ?s)) with (dquote ::: s). cbn iota.
  rewrite decide_True, Es by done. cbn [mbind result_bind]. change (skipSpace (":" ::: ?s)) with (":" ::: s). cbn beta iota.
  by rewrite HP.
Qed.

Lemma parseMembers_join x l fuel depth t :
  Forall (parses ∘ snd) (x :: l) → Forall (λ m, validUtf8 m.1 = true ∧ wfJson m.2) (x :: l) → 0 ≤ depth →
  depth + foldr (λ m n, Z.max (jsonDepth m.2) n) 0 (x :: l) ≤ maxNestingDepth →
  (foldr (λ m n, S (jsonRounds m.2) + n) 0 (x :: l) ≤ fuel)%nat →
  parseMembers fuel depth (joinComma (memberText <$> x :: l) +:+ "}" +:+ t) = Ok (x :: l, t).
Proof.
  intros HP HW Hd. revert x fuel HP HW. induction l as [|y l IH]; intros [k v] [|fuel] HP HW Hdep Hf; cbn [foldr fst snd] in Hf; try lia;
    apply Forall_cons in HP as [Hx HP], HW as [[Hk Hwx] HW]; cbn [foldr fst snd] in *.
  - change (joinComma (memberText <$> [(k, v)])) with (memberText (k, v)).
    by rewrite parseMembers_cons by (done || lia || by apply stops_delim; set_solver).
  - change (joinComma (memberText <$> (k, v) :: y :: l)) with (memberText (k, v) +:+ "," +:+ joinComma (memberText <$> y :: l))%string.
    rewrite !text_app_assoc, parseMembers_cons by (done || lia || by apply stops_delim; set_solver).
    cbn [String.append]. change (skipSpace ("," ::: ?s)) with ("," ::: s). cbn beta iota. rewrite IH; [done..| |]; cbn [foldr] in *; lia.
Qed.

Lemma parses_scalar v s t fuel depth :
  opens s → scanLiteral (s +:+ t) = Some (v, t) →
  (∀ c s', s = c ::: s' → c ≠ dquote ∧ c ≠ "["%char ∧ c ≠ "{"%char) → parseValue (S fuel) depth (s +:+ t) = Ok (v, t).
Proof.
  intros Ho E Hc. cbn [parseValue]. rewrite (opens_skip _ (opens_app s t Ho)). destruct Ho as (c & s' & -> & _).
  destruct (Hc c s' eq_refl) as (H1 & H2 & H3). cbn [String.append] in *. by rewrite !decide_False, E by done.
Qed.

Lemma Marshal_parses v : parses v.
Proof.
  induction v as [| [] |n|s|l IH|l IH] using json_nested; intros Hw [|fuel] depth t Hd Hdep Hf Ht; cbn [jsonRounds] in Hf; try lia.
  - apply parses_scalar; [by eexists _, _|done|]. intros c s' [= <- <-]. done.
  - apply parses_scalar; [by eexists _, _|done|]. intros c s' [= <- <-]. done.
  - apply parses_scalar; [by eexists _, _|done|]. intros c s' [= <- <-]. done.
  - apply parses_scalar; [by apply (Marshal_opens (JNumber n))|by apply scanLiteral_number|].
    cbn in Hw. apply bool_decide_eq_true in Hw. destruct (scanNumber_head _ _ _ Hw) as (c & s & -> & Hc).
    cbn. intros c' s' [= <- <-]. destruct Hc as [->|Hc]; [done|]. by destruct c as [[] [] [] [] [] [] [] []].
  - cbn [Marshal parseValue]. rewrite (opens_skip _ (opens_app _ t (quote_opens s))).
    assert (∃ q, quote s = dquote ::: q) as (q & Eq) by (by eexists). rewrite Eq. cbn [String.append]. rewrite decide_True by done.
    destruct (scanString_quote s t (S (String.length (q +:+ t)))) as (q' & Eq' & Es); [done| |].
    { rewrite Eq. cbn [String.length]. rewrite text_length_app. lia. }
    rewrite Eq in Eq'. simplify_eq. by rewrite Es.
  - cbn [Marshal]. rewrite !text_app_assoc. cbn [jsonDepth] in Hdep. cbn [String.append parseValue].
    change (skipSpace ("[" ::: ?s)) with ("[" ::: s). cbn iota. rewrite decide_False, decide_True by done.
    apply wfJson_array in Hw. destruct l as [|x l]; [by rewrite decide_False by (cbn in Hdep; lia)|].
    pose proof (jsonDepth_nonneg x). rewrite decide_False by (cbn in Hdep; lia).
    pose proof (parseElements_join x l fuel (depth + 1) t IH Hw ltac:(lia) ltac:(lia) ltac:(lia)) as Ep.
    assert (opens (joinComma (Marshal <$> x :: l) +:+ "]" +:+ t)) as Ho.
    { apply Forall_cons in Hw as [Hx _]. apply Marshal_opens in Hx. destruct l; cbn [fmap list_fmap joinComma]; by repeat apply opens_app. }
    cbn [String.append] in *. rewrite (opens_skip _ Ho), Ep. destruct Ho as (c & s & -> & _ & Hc & _).
    by destruct c as [[] [] [] [] [] [] [] []].
  - cbn [Marshal]. rewrite !text_app_assoc. cbn [jsonDepth] in Hdep. cbn [String.append parseValue].
    change (skipSpace ("{" ::: ?s)) with ("{" ::: s). cbn iota. rewrite decide_False, decide_False, decide_True by done.
    apply wfJson_object in Hw. destruct l as [|x l]; [by rewrite decide_False by (cbn in Hdep; lia)|].
    pose proof (jsonDepth_nonneg x.2). rewrite decide_False by (cbn in Hdep; lia).
    pose proof (parseMembers_join x l fuel (depth + 1) t IH Hw ltac:(lia) ltac:(lia) ltac:(lia)) as Ep.
    assert (opens (joinComma (memberText <$> x :: l) +:+ "}" +:+ t)) as Ho.
    { destruct l; cbn [fmap list_fmap joinComma]; repeat apply opens_app; apply quote_opens. }
    unfold memberText in *. cbn [String.append] in *. rewrite (opens_skip _ Ho), Ep. destruct Ho as (c & s & -> & _ & _ & Hc).
    by destruct c as [[] [] [] [] [] [] [] []].
Qed.

(** Unmarshal reads what Marshal writes. *)
Lemma Unmarshal_Marshal v : wfJson v → jsonDepth v ≤ maxNestingDepth → Unmarshal (Marshal v) = Ok v.
Proof.
  intros Hw Hd. unfold Unmarshal. pose proof (jsonRounds_length v Hw).
  rewrite <- (text_app_nil (Marshal v)) at 2. rewrite Marshal_parses by (done || lia). done.
Qed.

(** ** Reading ends on every text *)

(** The outcome is an error, or a value with less than [n] bytes left. *)
Definition consumes {A} (n : nat) (r : result (A * string)) : Prop :=
  match r with
  | Ok (_, t) => (String.length t < n)%nat
  | Err _ => True
  | _ => False
  end.

Lemma consumes_bind {A B} n (r : result (A * string)) (f : A → string → result (B * string)) k :
  consumes k r → (∀ a t, (String.length t < k)%nat → consumes n (f a t)) → consumes n ('(a, t) ← r; f a t).
Proof. destruct r as [[a t]| | |]; cbn; auto. Qed.

Lemma skipSpace_length s : (String.length (skipSpace s) ≤ String.length s)%nat.
Proof. induction s as [|c s IH]; [done|]. cbn. destruct (isSpace c); cbn; lia. Qed.
Lemma skipSpace_cons s c s' : skipSpace s = c ::: s' → (String.length s' < String.length s)%nat.
Proof. intros E. pose proof (skipSpace_length s) as Hl. rewrite E in Hl. cbn in Hl. lia. Qed.

Lemma getu4_length s r t : getu4 s = Some (r, t) → (String.length t ≤ String.length s)%nat.
Proof. unfold getu4. intros E. repeat case_match; simplify_eq. cbn. lia. Qed.

Lemma nextChar_length s r t : nextChar s = Some (r, t) → (String.length t < String.length s)%nat.
Proof.
  destruct s as [|c s1]; [done|]. unfold nextChar. case_decide.
  - destruct s1 as [|e s2]; [done|]. case_decide.
    + destruct (getu4 s2) as [[r1 s3]|] eqn:E3; [|done]. apply getu4_length in E3. cbn. intros [= E]. revert E.
      case_decide; [|intros [= _ <-]; lia]. unfold lowSurrogate. destruct s3 as [|a [|b s4]]; [intros [= _ <-]; cbn in *; lia..|].
      destruct (getu4 s4) as [[r2 s5]|] eqn:E5; [|intros [= _ <-]; cbn in *; lia]. apply getu4_length in E5.
      case_decide; intros [= _ <-]; cbn in *; lia.
    + destruct (unescape e); [|done]. cbn. intros [= _ <-]. lia.
  - case_decide; [done|]. case_decide; [intros [= _ <-]; cbn; lia|].
    destruct (takeRune (c ::: s1)) as [[r' t']|] eqn:Er; intros [= <- <-]; [|cbn; lia].
    apply takeRune_spec in Er as (-> & _ & Hl & _). rewrite text_length_app. lia.
Qed.

Lemma scanString_consumes fuel s : (String.length s < fuel)%nat → consumes (String.length s) (scanString fuel s).
Proof.
  revert s. induction fuel as [|fuel IH]; intros s Hf; [lia|]. destruct s as [|c s']; [done|]. cbn [scanString].
  case_decide; [cbn; lia|]. destruct (nextChar (c ::: s')) as [[r t]|] eqn:En; [|done]. apply nextChar_length in En.
  eapply consumes_bind; [apply IH; lia|]. intros a u Hu. cbn -[String.length] in *. lia.
Qed.

Lemma spanDigits_length s p q : spanDigits s = (p, q) → (String.length p + String.length q = String.length s)%nat.
Proof.
  revert p q. induction s as [|c s IH]; intros p q; cbn; [by intros [= <- <-]|].
  destruct (isDigit c); [|by intros [= <- <-]]. destruct (spanDigits s) as [ds rest]. intros [= <- <-].
  specialize (IH ds rest eq_refl). cbn. lia.
Qed.
Lemma digits1_length s p q : digits1 s = Some (p, q) → (String.length q < String.length s)%nat.
Proof.
  unfold digits1. destruct (spanDigits s) as [ds rest] eqn:E. apply spanDigits_length in E.
  destruct ds; [done|]. intros [= <- <-]. cbn in E. lia.
Qed.
Lemma scanInt_length s p q : scanInt s = Some (p, q) → (String.length q < String.length s)%nat.
Proof.
  destruct s as [|c s]; [done|]. destruct (decide (c = "0"%char)) as [->|Hc]; [intros [= <- <-]; cbn; lia|].
  intros E. apply (digits1_length _ p). by destruct c as [[] [] [] [] [] [] [] []].
Qed.
Lemma scanFrac_length s p q : scanFrac s = Some (p, q) → (String.length q ≤ String.length s)%nat.
Proof.
  destruct s as [|c s]; [by intros [= <- <-]|]. destruct (decide (c = "."%char)) as [->|Hc].
  - cbn. destruct (digits1 s) as [[ds rest]|] eqn:E; [|done]. apply digits1_length in E. cbn. intros [= <- <-]. lia.
  - intros E. assert (Some (""%string, c ::: s) = Some (p, q)) as [= <- <-]; [|done].
    rewrite <- E. by destruct c as [[] [] [] [] [] [] [] []].
Qed.
Lemma scanExp_length s p q : scanExp s = Some (p, q) → (String.length q ≤ String.length s)%nat.
Proof.
  destruct s as [|c s]; [by intros [= <- <-]|]. unfold scanExp. case_decide; [|by intros [= <- <-]].
  destruct s as [|sg s]; [done|]. destruct (isSign sg).
  - destruct (digits1 s) as [[ds rest]|] eqn:E; [|done]. apply digits1_length in E. cbn. intros [= <- <-]. lia.
  - destruct (digits1 (sg ::: s)) as [[ds rest]|] eqn:E; [|done]. apply digits1_length in E. cbn. intros [= <- <-]. cbn in E. lia.
Qed.
Lemma scanNumber_length s p q : scanNumber s = Some (p, q) → (String.length q < String.length s)%nat.
Proof.
  unfold scanNumber. assert (String.length (scanSign s).2 ≤ String.length s)%nat as Hs.
  { destruct s as [|c s]; [done|]. destruct c as [[] [] [] [] [] [] [] []]; cbn; lia. }
  destruct (scanSign s) as [sg s1]. cbn in Hs.
  destruct (scanInt s1) as [[i s2]|] eqn:Ei; [|done]. apply scanInt_length in Ei. cbn.
  destruct (scanFrac s2) as [[f s3]|] eqn:Ef; [|done]. apply scanFrac_length in Ef. cbn.
  destruct (scanExp s3) as [[e s4]|] eqn:Ee; [|done]. apply scanExp_length in Ee. cbn. intros [= <- <-]. lia.
Qed.

Lemma stripPrefix_length p s t : stripPrefix p s = Some t → (String.length p + String.length t = String.length s)%nat.
Proof.
  revert s. induction p as [|a p IH]; intros s; cbn; [by intros [= ->]|]. destruct s as [|b s]; [done|].
  case_decide; [|done]. intros E. apply IH in E. cbn. lia.
Qed.
Lemma scanLiteral_length s v t : scanLiteral s = Some (v, t) → (String.length t < String.length s)%nat.
Proof.
  unfold scanLiteral. intros E.
  repeat case_match; try (repeat match goal with Hx : stripPrefix _ _ = Some _ |- _ => apply stripPrefix_length in Hx end; simplify_eq; cbn in *; lia).
  destruct (scanNumber s) as [[p q]|] eqn:En; [|done]. apply scanNumber_length in En. by simplify_eq/=.
Qed.

Lemma parse_consumes fuel :
  (∀ depth s, (2 * String.length s < fuel)%nat → consumes (String.length s) (parseValue fuel depth s)) ∧
  (∀ depth s, (2 * String.length s + 1 < fuel)%nat → consumes (String.length s) (parseElements fuel depth s)) ∧
  (∀ depth s, (2 * String.length s + 1 < fuel)%nat → consumes (String.length s) (parseMembers fuel depth s)).
Proof.
  induction fuel as [|fuel (IHv & IHe & IHm)]; [by repeat split; intros; lia|].
  split; [|split].
  - intros depth s Hf. cbn [parseValue]. destruct (skipSpace s) as [|c s'] eqn:Es; [done|]. pose proof (skipSpace_length s) as Hl.
    rewrite Es in Hl. apply skipSpace_cons in Es as Hs. case_decide.
    { eapply consumes_bind; [apply scanString_consumes; lia|]. cbn. intros. lia. }
    case_decide.
    { case_decide; [done|]. assert (consumes (String.length s) ('(l, rest) ← parseElements fuel (depth + 1) s'; Ok (JArray l, rest))) as Hc.
      { eapply consumes_bind; [apply IHe; lia|]. cbn. intros. lia. }
      destruct (skipSpace s') as [|c2 rest] eqn:E2; [done|]. apply skipSpace_cons in E2.
      destruct c2 as [[] [] [] [] [] [] [] []]; solve [exact Hc|cbn; lia]. }
    case_decide.
    { case_decide; [done|]. assert (consumes (String.length s) ('(l, rest) ← parseMembers fuel (depth + 1) s'; Ok (JObject l, rest))) as Hc.
      { eapply consumes_bind; [apply IHm; lia|]. cbn. intros. lia. }
      destruct (skipSpace s') as [|c2 rest] eqn:E2; [done|]. apply skipSpace_cons in E2.
      destruct c2 as [[] [] [] [] [] [] [] []]; solve [exact Hc|cbn; lia]. }
    destruct (scanLiteral (c ::: s')) as [[v t]|] eqn:El; [|done]. apply scanLiteral_length in El. cbn in *. lia.
  - intros depth s Hf. cbn [parseElements]. eapply consumes_bind; [apply IHv; lia|]. intros v t Ht.
    destruct (skipSpace t) as [|c t'] eqn:Et; [done|]. apply skipSpace_cons in Et.
    assert (consumes (String.length s) ('(l, rest) ← parseElements fuel depth t'; Ok (v :: l, rest))) as Hc.
    { eapply consumes_bind; [apply IHe; lia|]. cbn. intros. lia. }
    destruct c as [[] [] [] [] [] [] [] []]; solve [exact Hc|exact I|cbn; lia].
  - intros depth s Hf. cbn [parseMembers]. destruct (skipSpace s) as [|c s'] eqn:Es; [done|]. apply skipSpace_cons in Es.
    case_decide; [|done]. eapply consumes_bind; [apply scanString_consumes; lia|]. intros k t Ht.
    destruct (skipSpace t) as [|c2 t2] eqn:Et; [done|]. apply skipSpace_cons in Et.
    assert (consumes (String.length s) ('(v, s) ← parseValue fuel depth t2;
      match skipSpace s with
      | "," ::: s => '(l, rest) ← parseMembers fuel depth s; Ok ((k, v) :: l, rest)
      | "}" ::: rest => Ok ([(k, v)], rest)
      | _ => Err ErrJSON
      end)) as Hc.
    { eapply consumes_bind; [apply IHv; lia|]. intros v u Hu. destruct (skipSpace u) as [|c3 u'] eqn:Eu; [done|]. apply skipSpace_cons in Eu.
      assert (consumes (String.length s) ('(l, rest) ← parseMembers fuel depth u'; Ok ((k, v) :: l, rest))) as Hc.
      { eapply consumes_bind; [apply IHm; lia|]. cbn. intros. lia. }
      destruct c3 as [[] [] [] [] [] [] [] []]; solve [exact Hc|exact I|cbn; lia]. }
    destruct c2 as [[] [] [] [] [] [] [] []]; solve [exact Hc|exact I].
Qed.

(** The rounds of [Unmarshal] are enough for every text: it gives a value or an error. *)
Lemma Unmarshal_ends text : (∃ v, Unmarshal text = Ok v) ∨ (∃ e, Unmarshal text = Err e).
Proof.
  unfold Unmarshal. destruct (parse_consumes (2 * String.length text + 2)) as [Hv _]. specialize (Hv 0 text ltac:(lia)).
  destruct (parseValue _ 0 text) as [[v t]| | |]; cbn in *; try done; [|by right; eexists].
  case_decide; [left|right]; by eexists.
Qed.

(** ** Texts of ASCII characters *)

Fixpoint all_chars (P : Ascii.ascii → Prop) (s : string) : Prop :=
  match s with
  | "" => True
  | c ::: s => P c ∧ all_chars P s
  end%string.

Lemma all_chars_app P s t : all_chars P s → all_chars P t → all_chars P (s +:+ t).
Proof. induction s as [|c s IH]; [done|]. cbn. intros [Hc Hs] Ht. auto. Qed.

Lemma all_chars_impl (P Q : Ascii.ascii → Prop) s : (∀ c, P c → Q c) → all_chars P s → all_chars Q s.
Proof. intros HPQ. induction s as [|c s IH]; [done|]. cbn. intros [Hc Hs]. auto. Qed.

Definition is_ascii (c : Ascii.ascii) : Prop := byteVal c < 128.

Lemma ascii_valid s : all_chars is_ascii s → validUtf8 s = true.
Proof.
  unfold validUtf8, chunks. induction s as [|c s IH]; [done|]. intros [Hc Hs]. cbn [String.length chunks_loop].
  unfold is_ascii in Hc. replace (byteVal c <? 0x80) with true by lia. cbn. by apply IH.
Qed.

Lemma hexDigit_ascii d : 0 ≤ d < 36 → is_ascii (hexDigit d).
Proof.
  intros Hd. assert (Forall (λ d, byteVal (hexDigit d) < 128) (seqZ 0 36)) as Hall by (by apply (bool_decide_unpack _)).
  rewrite Forall_forall in Hall. apply Hall, elem_of_seqZ. lia.
Qed.

Lemma formatDigits_chars (P : Ascii.ascii → Prop) base fuel n s :
  (∀ d, 0 ≤ d < base → P (hexDigit d)) → 2 ≤ base → all_chars P s → all_chars P (formatDigits fuel base n s).
Proof.
  intros HP Hb. revert n s. induction fuel as [|fuel IH]; intros n s Hs; [done|]. cbn. case_decide; [done|].
  apply IH. split; [|done]. apply HP, Z.mod_pos_bound. lia.
Qed.

Lemma FormatUint_chars (P : Ascii.ascii → Prop) base n :
  (∀ d, 0 ≤ d < base → P (hexDigit d)) → 2 ≤ base → all_chars P (FormatUint base n).
Proof.
  intros HP Hb. unfold FormatUint. case_decide; [|by apply formatDigits_chars]. split; [|done]. apply (HP 0). lia.
Qed.

Lemma EncodeToString_ascii bs : Forall is_byte bs → all_chars is_ascii (EncodeToString bs).
Proof.
  induction 1 as [|b bs Hb _ IH]; [done|]. unfold is_byte in Hb. cbn. split; [|split; [|done]]; apply hexDigit_ascii.
  - pose proof (Z.div_pos b 16). pose proof (Z.div_lt_upper_bound b 16 16). lia.
  - pose proof (Z.mod_pos_bound b 16). lia.
Qed.

Lemma prefixed_ascii s : all_chars is_ascii s → all_chars is_ascii ("0x" +:+ s).
Proof. intros Hs. by repeat split. Qed.

(** ** Digits *)

Lemma hexDigit_isDigit d : 0 ≤ d < 10 → isDigit (hexDigit d) = true.
Proof.
  intros Hd. assert (Forall (λ d, isDigit (hexDigit d) = true) (seqZ 0 10)) as Hall by (by apply (bool_decide_unpack _)).
  rewrite Forall_forall in Hall. apply Hall, elem_of_seqZ. lia.
Qed.

Lemma spanDigits_all s : all_chars (λ c, isDigit c = true) s → spanDigits s = (s, ""%string).
Proof. induction s as [|c s IH]; [done|]. intros [Hc Hs]. cbn. by rewrite Hc, IH. Qed.
