(* ===== verification/GoTime.v ===== *)
(** * The JSON of a time (package time of the Go library)

    MarshalJSON and UnmarshalJSON of [time.Time] write and read RFC 3339 with
    nanoseconds.  A time is its instant, the number of nanoseconds since 1970; the zone
    in which it is written is that of the machine, a parameter. *)
From Stdlib Require Import Ascii.
From S2P Require Import Prelude Types Bytes Hash ClaimTypes Schema Service Hex Json JsonFacts.

#[local] Notation "c ::: s" := (String.String c%char s%string) (at level 60, right associativity).
#[local] Arguments String.append !_ _ / : simpl nomatch.

(** The seconds east of Greenwich of the local zone at a second of Unix time. *)
Class TimeZone := zoneOffset : Z → Z.

(** ** The calendar *)

(** The years are counted from March, in eras of 400 years. *)
Definition eraYear (doe : Z) : Z := (doe - doe / 1460 + doe / 36524 - doe / 146096) / 365.
Definition eraDay (yoe doy : Z) : Z := 365 * yoe + yoe / 4 - yoe / 100 + doy.

(** Year, month and day of a number of days since 1970. *)
Definition civil (days : Z) : Z * Z * Z :=
  let z := days + 719468 in
  let era := z / 146097 in
  let doe := z mod 146097 in
  let yoe := eraYear doe in
  let doy := doe - eraDay yoe 0 in
  let mp := (5 * doy + 2) / 153 in
  let d := doy - (153 * mp + 2) / 5 + 1 in
  let m := if decide (mp < 10) then mp + 3 else mp - 9 in
  (yoe + era * 400 + (if decide (m ≤ 2) then 1 else 0), m, d).

Definition daysOf (y m d : Z) : Z :=
  let y := if decide (m ≤ 2) then y - 1 else y in
  let doy := (153 * (if decide (2 < m) then m - 3 else m + 9) + 2) / 5 + d - 1 in
  y / 400 * 146097 + eraDay (y mod 400) doy - 719468.

Definition isLeap (y : Z) : bool := bool_decide (y mod 4 = 0 ∧ (y mod 100 ≠ 0 ∨ y mod 400 = 0)).
Definition daysIn (m y : Z) : Z :=
  if decide (m = 2) then (if isLeap y then 29 else 28) else if decide (m ∈ [4; 6; 9; 11]) then 30 else 31.

(** ** Writing *)

(** The last [n] decimal digits. *)
Fixpoint padDigits (n : nat) (v : Z) : string :=
  match n with
  | O => ""
  | S n => hexDigit (v / 10 ^ Z.of_nat n mod 10) ::: padDigits n v
  end.

Fixpoint trimZeros (s : string) : string :=
  match s with
  | "" => ""
  | c ::: s => match trimZeros s with "" => if decide (c = "0"%char) then "" else c ::: "" | t => c ::: t end
  end%string.

Definition fracText (ns : Z) : string := if decide (ns = 0) then "" else "." +:+ trimZeros (padDigits 9 ns).
Definition zoneText (offset : Z) : string :=
  if decide (offset = 0) then "Z" else
  let zone := Z.abs (offset ÷ 60) in
  (if decide (offset ÷ 60 < 0) then "-" else "+") +:+ padDigits 2 (zone / 60) +:+ ":" +:+ padDigits 2 (zone mod 60).

Definition nanos : Z := 10 ^ 9.

(** A year that has not four digits and a zone of a day or more are refused. *)
Definition Time_MarshalJSON `{TimeZone} (t : Z) : result string :=
  let offset := zoneOffset (t / nanos) in
  let s := t / nanos + offset in
  let '(y, m, d) := civil (s / 86400) in
  let sod := s mod 86400 in
  if decide (¬ 0 ≤ y ≤ 9999 ∨ 24 * 60 ≤ Z.abs (offset ÷ 60)) then Err (Errorf "Time.MarshalJSON: outside of range") else
  Ok (padDigits 4 y +:+ "-" +:+ padDigits 2 m +:+ "-" +:+ padDigits 2 d +:+ "T" +:+ padDigits 2 (sod / 3600) +:+ ":" +:+
      padDigits 2 (sod / 60 mod 60) +:+ ":" +:+ padDigits 2 (sod mod 60) +:+ fracText (t mod nanos) +:+ zoneText offset)%string.

(** ** Reading *)

(** [n] digits of a number between [lo] and [hi]. *)
Fixpoint takeDigits (n : nat) (acc : Z) (s : string) : option (Z * string) :=
  match n, s with
  | O, _ => Some (acc, s)
  | S n, c ::: s => if isDigit c then takeDigits n (acc * 10 + digitVal c) s else None
  | _, _ => None
  end.
Definition takeField (n : nat) (lo hi : Z) (s : string) : option (Z * string) :=
  '(v, s) ← takeDigits n 0 s; if decide (lo ≤ v ≤ hi) then Some (v, s) else None.
Definition takeChar (c : Ascii.ascii) (s : string) : option string := stripPrefix (c ::: "") s.

(** The digits behind the point, from [w] nanoseconds for the first; what is below a
    nanosecond is dropped. *)
Fixpoint fracValue (w : Z) (s : string) : Z :=
  match s with
  | "" => 0
  | c ::: s => digitVal c * w + fracValue (w / 10) s
  end%string.
Definition takeFrac (s : string) : Z * string :=
  match s with
  | "." ::: s' =>
      match spanDigits s' with
      | ("", _) => (0, s)
      | (ds, rest) => (fracValue (10 ^ 8) ds, rest)
      end
  | _ => (0, s)
  end%string.

Definition takeZone (s : string) : option Z :=
  match s with
  | "Z" ::: "" => Some 0
  | c ::: s' =>
      if isSign c then
        '(hr, s) ← takeField 2 0 23 s'; s ← takeChar ":" s; '(mm, s) ← takeField 2 0 59 s;
        if decide (s = ""%string) then Some ((if decide (c = "-"%char) then -1 else 1) * (hr * 60 + mm) * 60) else None
      else None
  | "" => None
  end%string.

Definition parseRFC3339 (s : string) : option Z :=
  '(y, s) ← takeField 4 0 9999 s; s ← takeChar "-" s;
  '(m, s) ← takeField 2 1 12 s; s ← takeChar "-" s;
  '(d, s) ← takeField 2 1 (daysIn m y) s; s ← takeChar "T" s;
  '(hh, s) ← takeField 2 0 23 s; s ← takeChar ":" s;
  '(mi, s) ← takeField 2 0 59 s; s ← takeChar ":" s;
  '(ss, s) ← takeField 2 0 59 s;
  let '(ns, s) := takeFrac s in
  offset ← takeZone s;
  Some ((daysOf y m d * 86400 + hh * 3600 + mi * 60 + ss - offset) * nanos + ns).

(** null changes nothing; anything but a string is refused. *)
Definition Time_UnmarshalJSON (old : Z) (v : json) : result Z :=
  match v with
  | JNull => Ok old
  | JString s => match parseRFC3339 s with Some t => Ok t | None => Err (Errorf "parsing time") end
  | _ => Err (Errorf "Time.UnmarshalJSON: input is not a JSON string")
  end.

(** ** The round trip *)

(** The zones of the world: whole minutes, less than a day. *)
Definition zone_ok `{TimeZone} : Prop := ∀ s, zoneOffset s mod 60 = 0 ∧ Z.abs (zoneOffset s) < 86400.

(** The day of an era lies in its year, and the last day of a long year is a 29 February. *)
Lemma eraYear_spec doe :
  0 ≤ doe < 146097 → let yoe := eraYear doe in
  0 ≤ yoe < 400 ∧ 0 ≤ doe - eraDay yoe 0 ≤ 365 ∧
  (doe - eraDay yoe 0 = 365 → (yoe + 1) mod 4 = 0 ∧ ((yoe + 1) mod 100 ≠ 0 ∨ (yoe + 1) mod 400 = 0)).
Proof. intros Hd. unfold eraYear, eraDay. Z.to_euclidean_division_equations; lia. Qed.

Lemma isLeap_era y e : isLeap (y + e * 400) = isLeap y.
Proof.
  unfold isLeap. apply bool_decide_ext. replace ((y + e * 400) mod 4) with (y mod 4) by (Z.to_euclidean_division_equations; lia).
  replace ((y + e * 400) mod 100) with (y mod 100) by (Z.to_euclidean_division_equations; lia).
  by rewrite Z_mod_plus_full.
Qed.

(** Month and day of a day of the year, which starts in March. *)
Definition monthOf (doy : Z) : Z := let mp := (5 * doy + 2) / 153 in if decide (mp < 10) then mp + 3 else mp - 9.
Definition dayOf (doy : Z) : Z := doy - (153 * ((5 * doy + 2) / 153) + 2) / 5 + 1.
Lemma monthOf_spec doy :
  0 ≤ doy ≤ 365 → 1 ≤ monthOf doy ≤ 12 ∧ 1 ≤ dayOf doy ≤ 31 ∧
  (monthOf doy = 2 → dayOf doy ≤ 29 ∧ (dayOf doy = 29 → doy = 365)) ∧ (monthOf doy ∈ [4; 6; 9; 11] → dayOf doy ≤ 30) ∧
  (153 * (if decide (2 < monthOf doy) then monthOf doy - 3 else monthOf doy + 9) + 2) / 5 + dayOf doy - 1 = doy.
Proof.
  intros Hd. assert (Forall (λ doy, 1 ≤ monthOf doy ≤ 12 ∧ 1 ≤ dayOf doy ≤ 31 ∧
    (monthOf doy = 2 → dayOf doy ≤ 29 ∧ (dayOf doy = 29 → doy = 365)) ∧ (monthOf doy ∈ [4; 6; 9; 11] → dayOf doy ≤ 30) ∧
    (153 * (if decide (2 < monthOf doy) then monthOf doy - 3 else monthOf doy + 9) + 2) / 5 + dayOf doy - 1 = doy) (seqZ 0 366)) as Hall
    by (apply (bool_decide_unpack _); by vm_compute).
  rewrite Forall_forall in Hall. apply Hall, elem_of_seqZ. lia.
Qed.

Lemma civil_spec days : let '(y, m, d) := civil days in 1 ≤ m ≤ 12 ∧ 1 ≤ d ≤ daysIn m y ∧ daysOf y m d = days.
Proof.
  unfold civil. set (z := days + 719468). pose proof (Z.mod_pos_bound z 146097 ltac:(lia)) as Hdoe.
  pose proof (Z.div_mod z 146097 ltac:(lia)) as Hz. destruct (eraYear_spec _ Hdoe) as (Hy & Hdoy & Hleap).
  set (era := z / 146097) in *. set (doe := z mod 146097) in *. set (yoe := eraYear doe) in *. set (doy := doe - eraDay yoe 0) in *.
  change (if decide _ then (5 * doy + 2) / 153 + 3 else (5 * doy + 2) / 153 - 9) with (monthOf doy).
  change (doy - (153 * ((5 * doy + 2) / 153) + 2) / 5 + 1) with (dayOf doy).
  destruct (monthOf_spec doy Hdoy) as (Hm & Hd & Hfeb & H30 & Hback). split; [done|]. split.
  - split; [lia|]. clear Hback. unfold daysIn. case_decide as Em; [|case_decide; [by apply H30|lia]].
    destruct (Hfeb Em) as [H29 Hlast]. rewrite Em, (decide_True (P := 2 ≤ 2)) by lia.
    replace (yoe + era * 400 + 1) with (yoe + 1 + era * 400) by lia. rewrite isLeap_era.
    destruct (decide (dayOf doy = 29)) as [E|E]; [|destruct (isLeap (yoe + 1)); lia].
    replace (isLeap (yoe + 1)) with true; [lia|]. symmetry. apply bool_decide_eq_true. by apply Hleap, Hlast.
  - unfold daysOf. rewrite Hback.
    replace (if decide (monthOf doy ≤ 2) then yoe + era * 400 + (if decide (monthOf doy ≤ 2) then 1 else 0) - 1
             else yoe + era * 400 + (if decide (monthOf doy ≤ 2) then 1 else 0)) with (yoe + era * 400) by (destruct (decide (monthOf doy ≤ 2)); lia).
    rewrite Z.div_add, Z_mod_plus_full, Z.div_small, Z.mod_small by lia. unfold doy, eraDay in *. lia.
Qed.

(** ** Digits *)

Lemma takeDigits_pad n acc v t :
  0 ≤ v < 10 ^ Z.of_nat n → takeDigits n acc (padDigits n v +:+ t) = Some (acc * 10 ^ Z.of_nat n + v, t).
Proof.
  enough (∀ v, 0 ≤ v → takeDigits n acc (padDigits n v +:+ t) = Some (acc * 10 ^ Z.of_nat n + v mod 10 ^ Z.of_nat n, t)) as Hgen.
  { intros Hv. rewrite Hgen by lia. by rewrite Z.mod_small. }
  clear v. revert acc. induction n as [|n IH]; intros acc v Hv.
  { cbn. rewrite Z.mod_1_r. do 2 f_equal. lia. }
  cbn [padDigits String.append takeDigits]. pose proof (Z.mod_pos_bound (v / 10 ^ Z.of_nat n) 10 ltac:(lia)) as Hd.
  rewrite hexDigit_isDigit, digitVal_hexDigit, IH by lia. do 2 f_equal.
  rewrite Nat2Z.inj_succ, Z.pow_succ_r by lia.
  rewrite (Z.mul_comm 10), Z.rem_mul_r by lia. lia.
Qed.

Lemma takeField_pad n lo hi v t :
  0 ≤ v < 10 ^ Z.of_nat n → lo ≤ v ≤ hi → takeField n lo hi (padDigits n v +:+ t) = Some (v, t).
Proof. intros Hv Hr. unfold takeField. rewrite takeDigits_pad by done. cbn. by rewrite decide_True. Qed.

Lemma takeChar_cons c t : takeChar c (c ::: t) = Some t.
Proof. unfold takeChar. cbn. by rewrite decide_True. Qed.

Lemma fracValue_trim w s : fracValue w (trimZeros s) = fracValue w s.
Proof.
  revert w. induction s as [|c s IH]; intros w; [done|]. cbn [fracValue trimZeros]. rewrite <- (IH (w / 10)).
  destruct (trimZeros s) as [|c' t]; [|done]. case_decide as Ec; [by subst|done].
Qed.

Lemma fracValue_pad n v :
  0 ≤ v → fracValue (10 ^ (Z.of_nat n - 1)) (padDigits n v) = v mod 10 ^ Z.of_nat n.
Proof.
  intros Hv. induction n as [|n IH]; [cbn; by rewrite Z.mod_1_r|]. cbn [padDigits fracValue].
  pose proof (Z.mod_pos_bound (v / 10 ^ Z.of_nat n) 10 ltac:(lia)) as Hd. rewrite digitVal_hexDigit by lia.
  replace (Z.of_nat (S n) - 1) with (Z.of_nat n) by lia. rewrite Nat2Z.inj_succ, Z.pow_succ_r by lia.
  rewrite (Z.mul_comm 10 (10 ^ Z.of_nat n)), Z.rem_mul_r by lia.
  destruct n as [|n]; [cbn; rewrite Z.mod_1_r; lia|]. rewrite <- IH.
  replace (10 ^ Z.of_nat (S n) / 10) with (10 ^ (Z.of_nat (S n) - 1)).
  { lia. }
  replace (Z.of_nat (S n) - 1) with (Z.of_nat n) by lia. rewrite Nat2Z.inj_succ, Z.pow_succ_r, Z.mul_comm, Z.div_mul by lia. done.
Qed.

Lemma trimZeros_chars P s : all_chars P s → all_chars P (trimZeros s).
Proof.
  induction s as [|c s IH]; [done|]. intros [Hc Hs]. cbn [trimZeros]. specialize (IH Hs).
  destruct (trimZeros s); [case_decide; by repeat split|by split].
Qed.
Lemma padDigits_chars (P : Ascii.ascii → Prop) n v : (∀ d, 0 ≤ d < 10 → P (hexDigit d)) → all_chars P (padDigits n v).
Proof. intros HP. induction n as [|n IH]; [done|]. split; [|done]. apply HP, Z.mod_pos_bound. lia. Qed.

(** ** Fraction and zone *)

Lemma takeFrac_text ns c t :
  0 ≤ ns < nanos → stops (c ::: t) → takeFrac (fracText ns +:+ (c ::: t)) = (ns, c ::: t).
Proof.
  intros Hns Ht. unfold fracText. case_decide as Hz.
  { subst. destruct Ht as (_ & Hc & _). revert Hc. cbn [String.append]. by destruct c as [[] [] [] [] [] [] [] []]. }
  cbn [String.append takeFrac].
  assert (fracValue (10 ^ 8) (trimZeros (padDigits 9 ns)) = ns) as Ev.
  { rewrite fracValue_trim. change (10 ^ 8) with (10 ^ (Z.of_nat 9 - 1)). rewrite fracValue_pad by lia. by apply Z.mod_small. }
  pose proof (trimZeros_chars _ _ (padDigits_chars (λ c, isDigit c = true) 9 ns hexDigit_isDigit)) as Hd.
  rewrite (spanDigits_app _ _ _ _ (spanDigits_all _ Hd) Ht). cbn [String.append].
  destruct (trimZeros (padDigits 9 ns)) as [|c' s]; [by cbn in Ev|]. by rewrite Ev.
Qed.

Lemma takeZone_text offset :
  offset mod 60 = 0 → Z.abs offset < 86400 → takeZone (zoneText offset) = Some offset.
Proof.
  intros Hm Ho. unfold zoneText. case_decide as Hz; [by subst|].
  assert (∃ k, offset = k * 60) as (k & ->) by (exists (offset / 60); Z.to_euclidean_division_equations; lia).
  rewrite Z.quot_mul by lia. set (zone := Z.abs k). assert (0 ≤ zone < 1440) as Hk by lia.
  assert (0 ≤ zone / 60 ≤ 23 ∧ 0 ≤ zone mod 60 ≤ 59 ∧ zone = zone / 60 * 60 + zone mod 60) as (Hh & Hmm & Hzone)
    by (Z.to_euclidean_division_equations; lia).
  assert (∀ c, isSign c = true → takeZone (c ::: (padDigits 2 (zone / 60) +:+ ":" +:+ padDigits 2 (zone mod 60))) =
    Some ((if decide (c = "-"%char) then -1 else 1) * (zone * 60))) as Hc.
  { intros c Hs. assert (takeZone (c ::: (padDigits 2 (zone / 60) +:+ ":" +:+ padDigits 2 (zone mod 60))) =
      ('(hr, s) ← takeField 2 0 23 (padDigits 2 (zone / 60) +:+ ":" +:+ padDigits 2 (zone mod 60)); s ← takeChar ":" s;
       '(mm, s) ← takeField 2 0 59 s;
       if decide (s = ""%string) then Some ((if decide (c = "-"%char) then -1 else 1) * (hr * 60 + mm) * 60) else None)) as ->.
    { revert Hs. clear. destruct c as [[] [] [] [] [] [] [] []]; done. }
    rewrite takeField_pad by (cbn; lia). cbn [mbind option_bind String.append]. rewrite takeChar_cons. cbn [mbind option_bind].
    rewrite <- (text_app_nil (padDigits 2 (zone mod 60))), takeField_pad by (cbn; lia). cbn [mbind option_bind].
    rewrite decide_True by done. f_equal. case_decide; lia. }
  case_decide; cbn [String.append]; rewrite Hc by done; [rewrite decide_True by done|rewrite decide_False by done]; f_equal; lia.
Qed.

Lemma zoneText_head offset : ∃ c t, zoneText offset = c ::: t ∧ stops (c ::: t).
Proof. unfold zoneText. repeat case_decide; eexists _, _; by split. Qed.

(** ** The round trip *)

#[local] Arguments padDigits : simpl never.

(** A time that is written is read back as the same instant, from ASCII text. *)
Lemma Time_roundtrip `{TimeZone} t s :
  zone_ok → Time_MarshalJSON t = Ok s → (∀ old, Time_UnmarshalJSON old (JString s) = Ok t) ∧ validUtf8 s = true.
Proof.
  intros Hz. unfold Time_MarshalJSON. destruct (Hz (t / nanos)) as [Hm Ho]. set (offset := zoneOffset (t / nanos)) in *.
  set (sec := t / nanos + offset). pose proof (civil_spec (sec / 86400)) as Hc. destruct (civil (sec / 86400)) as [[y m] d].
  destruct Hc as (Hmo & Hda & Hdays). case_decide as Hr; [done|]. assert (0 ≤ y ≤ 9999) as Hy by (apply dec_stable; naive_solver). clear Hr. intros Es. apply Ok_inj in Es as <-.
  assert (daysIn m y ≤ 31) as H31 by (unfold daysIn; repeat case_match; lia).
  pose proof (Z.mod_pos_bound t nanos ltac:(done)) as Hns. pose proof (Z.div_mod t nanos ltac:(done)) as Ht.
  set (sod := sec mod 86400). assert (0 ≤ sod / 3600 ≤ 23 ∧ 0 ≤ sod / 60 mod 60 ≤ 59 ∧ 0 ≤ sod mod 60 ≤ 59 ∧
    sec = sec / 86400 * 86400 + sod / 3600 * 3600 + sod / 60 mod 60 * 60 + sod mod 60) as (H1 & H2 & H3 & Hsec).
  { unfold sod. Z.to_euclidean_division_equations; lia. }
  split.
  - intros old. unfold Time_UnmarshalJSON, parseRFC3339.
    destruct (zoneText_head offset) as (c & zt & Ezt & Hst). pose proof (takeZone_text offset Hm Ho) as Etz. rewrite Ezt in *.
    repeat (rewrite takeField_pad by (cbn; lia); cbn [mbind option_bind String.append]; rewrite ?takeChar_cons; cbn [mbind option_bind]).
    rewrite takeFrac_text by done. rewrite Etz. cbn [mbind option_bind]. f_equal. rewrite Hdays. unfold sec in *. lia.
  - apply ascii_valid. repeat (apply all_chars_app; [try (apply padDigits_chars; intros; apply hexDigit_ascii; lia)|]); try (by repeat split).
    + unfold fracText. case_decide; [done|]. split; [done|].
      apply trimZeros_chars, padDigits_chars. intros. apply hexDigit_ascii. lia.
    + unfold zoneText. case_decide; [by split|].
      repeat (apply all_chars_app; [try (apply padDigits_chars; intros; apply hexDigit_ascii; lia)|]); try (by repeat split); [by case_decide|].
      apply padDigits_chars. intros. apply hexDigit_ascii. lia.
Qed.

(** The instants of the years 1970 to 9998 can be written. *)
Lemma Time_MarshalJSON_ok `{TimeZone} t :
  zone_ok → 86400 ≤ t / nanos < 253370764800 → ∃ s, Time_MarshalJSON t = Ok s.
Proof.
  intros Hz Ht. unfold Time_MarshalJSON. destruct (Hz (t / nanos)) as [Hm Ho]. set (offset := zoneOffset (t / nanos)) in *.
  assert (0 ≤ (t / nanos + offset) / 86400 ≤ 2932532) as Hd by (Z.to_euclidean_division_equations; lia).
  set (days := (t / nanos + offset) / 86400) in *. destruct (civil days) as [[y m] d] eqn:Ec.
  rewrite decide_False; [by eexists|]. intros [Hy|Hoff]; [|Z.to_euclidean_division_equations; lia]. apply Hy. clear Hy.
  unfold civil in Ec. injection Ec as <- _ _. set (z := days + 719468) in *.
  assert (0 ≤ z / 146097 ≤ 24 ∧ 0 ≤ eraYear (z mod 146097) < 400 ∧ (z / 146097 = 24 → eraYear (z mod 146097) ≤ 398)) as (He & Hye & Hlast).
  { unfold eraYear. Z.to_euclidean_division_equations; lia. }
  set (e := z / 146097) in *. set (yoe := eraYear (z mod 146097)) in *. destruct (decide (e = 24)); repeat case_decide; lia.
Qed.
