(* ===== verification/Gateway.v ===== *)
(** * The HTTP gateway (server/server.go)

    The handler in front of the REST server: requests for paths that are not routes of
    the API are answered by it, the others reach the multiplexer of grpc-gateway, with
    the headers of cross-origin sharing.  The routes are compared with the rules of the
    protocol file, which the handler does not read.  The multiplexer is generated and library code:
    a parameter.  A response is what was written to it: the headers that were set, the
    status and the body.  Listening, serving and shutting down are left out. *)
From Stdlib Require Import Ascii.
From S2P Require Import Prelude Types Bytes Hash ClaimTypes Schema Service Hex Json JsonFacts.

#[local] Notation "c ::: s" := (String.String c%char s%string) (at level 60, right associativity).
#[local] Arguments String.append !_ _ / : simpl nomatch.

(** A header that is missing is the empty text. *)
Record HttpRequest := mkHttpRequest { hq_Method : string; hq_Path : string; hq_Header : gmap string string }.
Definition Header_Get (r : HttpRequest) (name : string) : string := default ""%string (hq_Header r !! name).

(** The first status that is written stays, and a body without one is written with 200. *)
Record HttpReply := mkHttpReply { hp_Header : gmap string string; hp_Status : option Z; hp_Body : string }.
Definition setHeader (name value : string) (w : HttpReply) : HttpReply :=
  mkHttpReply (<[name := value]> (hp_Header w)) (hp_Status w) (hp_Body w).
Definition WriteHeader (status : Z) (w : HttpReply) : HttpReply :=
  mkHttpReply (hp_Header w) (Some (default status (hp_Status w))) (hp_Body w).
Definition WriteBody (body : string) (w : HttpReply) : HttpReply :=
  mkHttpReply (hp_Header w) (Some (default 200 (hp_Status w))) (hp_Body w +:+ body).
Definition emptyReply : HttpReply := mkHttpReply ∅ None "".

Definition HttpHandler : Type := HttpRequest → HttpReply → HttpReply.

(** [strings.HasPrefix]. *)
Definition HasPrefix (s p : string) : bool := bool_decide (is_Some (stripPrefix p s)).

Definition preflightHandler : HttpHandler := λ _ w,
  setHeader "Access-Control-Allow-Methods" "GET,HEAD,POST,PUT,DELETE"
    (setHeader "Access-Control-Allow-Headers" "Content-Type,Accept" w).

Definition allowCORS (h : HttpHandler) : HttpHandler := λ r w,
  let origin := Header_Get r "Origin" in
  if decide (origin = ""%string) then h r w else
  let w := setHeader "Access-Control-Allow-Origin" origin w in
  if decide (hq_Method r = "OPTIONS"%string ∧ Header_Get r "Access-Control-Request-Method" ≠ ""%string)
  then preflightHandler r w else h r w.

Definition validRoutes : list string :=
  ["/api"; "/sync"; "/merkle-proof"; "/merkle-proof-by-ger"; "/bridge"; "/tokenwrapped"; "/pending-bridges";
   "/backward-let"; "/v2/merkle-proof"; "/healthz"]%string.
Definition isValidRoute (path : string) : bool :=
  bool_decide (path ∈ validRoutes) || HasPrefix path "/bridges/" || HasPrefix path "/claims/".

(** The path is put between the quotes as it is. *)
Definition notFoundBody (path : string) : string :=
  "{" +:+ (dquote ::: "error" +:+ (dquote ::: ":" +:+ (dquote ::: "Not Found" +:+ (dquote ::: "," +:+
  (dquote ::: "path" +:+ (dquote ::: ":" +:+ (dquote ::: path +:+ (dquote ::: "}")))))))).

Definition gatewayHandler (mux : HttpHandler) : HttpHandler := λ r w,
  if isValidRoute (hq_Path r) then allowCORS mux r w else
  let w := setHeader "Content-Type" "application/json" (setHeader "Access-Control-Allow-Origin" "*" w) in
  if decide (hq_Method r = "OPTIONS"%string) then WriteHeader 200 (preflightHandler r w)
  else WriteBody (notFoundBody (hq_Path r)) (WriteHeader 404 w).

(** ** Theorems *)

(** Characters that JSON takes between quotes as they are. *)
Definition plainChar (c : Ascii.ascii) : bool := byteIn 32 127 c && negb (byteVal c =? 34) && negb (byteVal c =? 92).
Definition plainText : string → Prop := all_chars (λ c, plainChar c = true).

Lemma scanString_plain s fuel t :
  plainText s → (String.length s < fuel)%nat → scanString fuel (s +:+ (dquote ::: t)) = Ok (s, t).
Proof.
  revert fuel. induction s as [|c s IH]; intros [|fuel] Hs Hf; cbn in Hf; try lia; [done|].
  destruct Hs as [Hc Hs]. unfold plainChar, byteIn in Hc. cbn [String.append scanString].
  rewrite decide_False by (intros ->; by rewrite byteVal_dquote in Hc; lia). unfold nextChar.
  rewrite decide_False, decide_False, decide_True by lia. by rewrite IH by (done || lia).
Qed.

(** A member whose key and value are such strings. *)
Lemma parseMembers_plain k v fuel depth t :
  plainText k → plainText v →
  parseMembers (S (S fuel)) depth (dquote ::: (k +:+ (dquote ::: ":" ::: dquote ::: (v +:+ (dquote ::: t))))) =
    match skipSpace t with
    | "," ::: s => '(l, rest) ← parseMembers (S fuel) depth s; Ok ((k, JString v) :: l, rest)
    | "}" ::: rest => Ok ([(k, JString v)], rest)
    | _ => Err ErrJSON
    end.
Proof.
  intros Hk Hv. assert (∀ u s, String.length u < S (String.length (u +:+ s)))%nat as Hl by (intros; rewrite text_length_app; lia).
  change (parseMembers (S (S fuel)) depth (dquote ::: ?q)) with
    ('(k, s) ← scanString (S (String.length q)) q;
     match skipSpace s with
     | ":" ::: s => '(v, s) ← parseValue (S fuel) depth s;
         match skipSpace s with
         | "," ::: s => '(l, rest) ← parseMembers (S fuel) depth s; Ok ((k, v) :: l, rest)
         | "}" ::: rest => Ok ([(k, v)], rest)
         | _ => Err ErrJSON
         end
     | _ => Err ErrJSON
     end).
  rewrite scanString_plain by done. cbn [mbind result_bind]. change (skipSpace (":" ::: ?s)) with (":" ::: s). cbn iota.
  change (parseValue (S fuel) depth (dquote ::: ?q)) with ('(t, rest) ← scanString (S (String.length q)) q; Ok (JString t, rest)).
  by rewrite scanString_plain.
Qed.

(** The body of a path of plain characters is the object it is meant to be. *)
Lemma notFoundBody_plain path :
  plainText path →
  Unmarshal (notFoundBody path) = Ok (JObject [("error", JString "Not Found"); ("path", JString path)]%string).
Proof.
  intros Hp. unfold Unmarshal. set (fuel := (2 * String.length (notFoundBody path) + 2)%nat).
  assert (∃ f, fuel = S (S (S (S f)))) as (f & ->).
  { exists (fuel - 4)%nat. unfold fuel, notFoundBody. cbn. lia. }
  assert (parseValue (S (S (S (S f)))) 0 (notFoundBody path) = Ok (JObject [("error", JString "Not Found"); ("path", JString path)]%string, ""%string)) as ->; [|done].
  change (parseValue (S (S (S (S f)))) 0 (notFoundBody path)) with
    ('(l, rest) ← parseMembers (S (S (S f))) (0 + 1) (dquote ::: ("error" +:+ (dquote ::: ":" ::: dquote ::: ("Not Found" +:+ (dquote ::: "," :::
       (dquote ::: ("path" +:+ (dquote ::: ":" ::: dquote ::: (path +:+ (dquote ::: "}")))))))))); Ok (JObject l, rest)).
  assert (plainText "error" ∧ plainText "Not Found" ∧ plainText "path") as (H1 & H2 & H3) by (by repeat split).
  rewrite parseMembers_plain by done. change (skipSpace ("," ::: ?s)) with ("," ::: s). cbn iota.
  rewrite parseMembers_plain by done. done.
Qed.

(** ** The rules of the protocol file *)

(** The calls of the service and the paths that the protocol file gives them. *)
Definition httpRules : list (string * string) :=
  [("CheckAPI", "/api"); ("GetSyncStatus", "/sync"); ("GetBridges", "/bridges/{dest_addr}"); ("GetProof", "/merkle-proof");
   ("GetProofByGER", "/merkle-proof-by-ger"); ("GetBridge", "/bridge"); ("GetClaims", "/claims/{dest_addr}");
   ("GetTokenWrapped", "/tokenwrapped"); ("GetPendingBridgesToClaim", "/pending-bridges");
   ("GetBackwardLETData", "/backward-let"); ("GetProofV2", "/v2/merkle-proof")]%string.

(** The segments of a path, and back. *)
Fixpoint splitSlash (s : string) : list string :=
  match s with
  | ""%string => [""%string]
  | c ::: s =>
      if decide (c = "/"%char) then ""%string :: splitSlash s
      else match splitSlash s with [] => [c ::: ""] | seg :: segs => (c ::: seg) :: segs end
  end.
Fixpoint joinSlash (l : list string) : string :=
  match l with
  | [] => ""
  | [seg] => seg
  | seg :: l => seg +:+ ("/" ::: joinSlash l)
  end.

Lemma splitSlash_cons s : ∃ seg segs, splitSlash s = seg :: segs.
Proof. destruct s as [|c s]; [by eexists _, _|]. cbn. case_decide; [by eexists _, _|]. case_match; by eexists _, _. Qed.
Lemma joinSlash_split s : joinSlash (splitSlash s) = s.
Proof.
  induction s as [|c s IH]; [done|]. cbn [splitSlash]. destruct (splitSlash_cons s) as (seg & segs & E). rewrite E in *.
  case_decide as Hc; [subst c; by rewrite <- IH|]. rewrite <- IH. by destruct segs.
Qed.
Lemma splitSlash_inj s t : splitSlash s = splitSlash t → s = t.
Proof. intros E. by rewrite <- (joinSlash_split s), E, joinSlash_split. Qed.

(** A variable of a template stands for one segment.  [tail] are the segments of the path
    after those that the template describes. *)
Definition isVariable (seg : string) : bool := match seg with "{" ::: _ => true | _ => false end.
Fixpoint matchSegments (template path : list string) : option (list string) :=
  match template, path with
  | [], tail => Some tail
  | t :: template, p :: path => if isVariable t || bool_decide (t = p) then matchSegments template path else None
  | _ :: _, [] => None
  end.
Definition matchesRule (template path : string) : Prop := matchSegments (splitSlash template) (splitSlash path) = Some [].
(** The template ends in a variable, and the path has more segments. *)
Definition extendsRule (template path : string) : Prop :=
  ∃ tail, matchSegments (splitSlash template) (splitSlash path) = Some tail ∧ tail ≠ [] ∧ isVariable (List.last (splitSlash template) ""%string) = true.

(** The paths that are meant for the multiplexer: those of the rules, the one of the health
    check, and the ones below a rule that ends in a variable. *)
Definition forMultiplexer (path : string) : Prop :=
  path = "/healthz"%string ∨ ∃ rpc template, (rpc, template) ∈ httpRules ∧ (matchesRule template path ∨ extendsRule template path).

Definition fixedTemplate (template : string) : bool :=
  forallb (λ seg, negb (isVariable seg)) (splitSlash template) && negb (isVariable (List.last (splitSlash template) ""%string)).
Lemma match_fixed template path :
  fixedTemplate template = true →
  matchesRule template path ∨ extendsRule template path ↔ path = template.
Proof.
  intros [Hf Hl%negb_true_iff]%andb_true_iff.
  assert (∀ a b, forallb (λ seg, negb (isVariable seg)) a = true → matchSegments a b = Some [] ↔ b = a) as Hm.
  { induction a as [|t a IH]; intros [|q b] Hv; cbn; try (split; congruence). cbn in Hv. apply andb_true_iff in Hv as [->%negb_true_iff Hv]. cbn.
    case_bool_decide as Ht; [subst t; rewrite IH by done; split; congruence|]. split; [done|]. intros [= <- _]. by destruct Ht. }
  unfold matchesRule, extendsRule. rewrite Hm by done. split; [|intros ->; by left].
  intros [E|(tail & _ & _ & Hv)]; [by apply splitSlash_inj|congruence].
Qed.

Lemma HasPrefix_app s p : HasPrefix s p = true ↔ ∃ t, s = p +:+ t.
Proof.
  unfold HasPrefix. rewrite bool_decide_eq_true. revert s. induction p as [|a p IH]; intros s; cbn.
  - split; [by exists s|]. intros _. by eexists.
  - destruct s as [|b s]; [split; [by intros []|by intros [t [=]]]|]. case_decide as Hab.
    + subst b. rewrite IH. split; intros [t E]; exists t; congruence.
    + split; [by intros []|]. intros [t [= Hx _]]. by destruct Hab.
Qed.

(** The two rules with a variable, which is their last segment. *)
Lemma match_variable dir path :
  isVariable dir = false → (∀ t, splitSlash ("/" ::: (dir +:+ ("/" ::: t))) = ""%string :: dir :: splitSlash t) →
  splitSlash ("/" ::: (dir +:+ "/{dest_addr}")) = [""; dir; "{dest_addr}"]%string →
  matchesRule ("/" ::: (dir +:+ "/{dest_addr}")) path ∨ extendsRule ("/" ::: (dir +:+ "/{dest_addr}")) path ↔
  HasPrefix path ("/" ::: (dir +:+ "/")) = true.
Proof.
  intros Hd Hs Ht. unfold matchesRule, extendsRule. rewrite Ht, HasPrefix_app.
  assert ((∃ tail, matchSegments [""; dir; "{dest_addr}"]%string (splitSlash path) = Some tail) ↔ ∃ t, path = "/" ::: (dir +:+ ("/" ::: t))) as Hm.
  { split.
    - intros (tail & E). rewrite <- (joinSlash_split path). destruct (splitSlash path) as [|a [|b [|x l]]]; cbn in E; try done;
        rewrite ?Hd in E; repeat case_bool_decide; try done. subst. by exists (joinSlash (x :: l)).
    - intros (t & ->). rewrite Hs. destruct (splitSlash_cons t) as (x & l & ->). exists l. cbn. by rewrite Hd, !bool_decide_true. }
  transitivity (∃ t, path = "/" ::: (dir +:+ ("/" ::: t))); [rewrite <- Hm|].
  - split; [intros [E|(tail & E & _)]; by eexists|]. intros ([|x tail] & E); [by left|]. right. by exists (x :: tail).
  - split; intros (t & ->); exists t; cbn; by rewrite text_app_assoc.
Qed.

(** The table of the handler and the rules, side by side. *)
Lemma validRoutes_rules : Forall (λ t, t = "/healthz"%string ∨ t ∈ snd <$> httpRules) validRoutes.
Proof. apply (bool_decide_unpack _). by vm_compute. Qed.
Lemma rules_validRoutes :
  Forall (λ t, t ∈ validRoutes ∨ t = "/bridges/{dest_addr}"%string ∨ t = "/claims/{dest_addr}"%string) (snd <$> httpRules).
Proof. apply (bool_decide_unpack _). by vm_compute. Qed.
Lemma validRoutes_fixed : Forall (λ t, fixedTemplate t = true) validRoutes.
Proof. by repeat constructor. Qed.

(** The routes are those of the protocol file. *)
Lemma isValidRoute_rules path : isValidRoute path = true ↔ forMultiplexer path.
Proof.
  assert (∀ t, t ∈ validRoutes → matchesRule t path ∨ extendsRule t path ↔ path = t) as Hfix.
  { intros t Ht. apply match_fixed. pose proof validRoutes_fixed as Hall. by eapply Forall_forall in Hall. }
  pose proof (match_variable "bridges" path eq_refl (λ t, eq_refl) eq_refl) as Hb.
  pose proof (match_variable "claims" path eq_refl (λ t, eq_refl) eq_refl) as Hc. cbn [String.append] in Hb, Hc.
  unfold isValidRoute, forMultiplexer. rewrite !orb_true_iff, bool_decide_eq_true, <- Hb, <- Hc.
  assert (∀ t, t ∈ snd <$> httpRules → matchesRule t path ∨ extendsRule t path →
    ∃ rpc template, (rpc, template) ∈ httpRules ∧ (matchesRule template path ∨ extendsRule template path)) as Hrule.
  { intros t ([rpc t'] & -> & Hr)%list_elem_of_fmap Hm. by exists rpc, t'. }
  split.
  - intros [[Hv|Hv]|Hv]; [|right; eapply Hrule; [|exact Hv]; apply (bool_decide_unpack _); by vm_compute..].
    pose proof validRoutes_rules as Hall. rewrite Forall_forall in Hall. destruct (Hall path Hv) as [->|Hr]; [by left|].
    right. apply (Hrule path); [done|]. by apply Hfix.
  - intros [->|(rpc & template & Hr & Hm)]; [left; left; apply (bool_decide_unpack _); by vm_compute|].
    pose proof rules_validRoutes as Hall. rewrite Forall_forall in Hall.
    destruct (Hall template) as [Hv|[->| ->]]; [by apply (list_elem_of_fmap_2 snd) in Hr| |by auto..].
    left; left. by apply Hfix in Hm as ->.
Qed.

(** Whether a request gets past the gateway. *)
Definition isPreflight (r : HttpRequest) : bool :=
  bool_decide (Header_Get r "Origin" ≠ ""%string ∧ hq_Method r = "OPTIONS"%string ∧ Header_Get r "Access-Control-Request-Method" ≠ ""%string).

(** C34: The requests that the gateway passes on are those for the paths that the protocol
    file gives to the calls of the service, for the health check, and for paths below the two
    rules that end in a variable; which request this is does not depend on its method.  Such
    a request is answered by the multiplexer, with its origin allowed when it has one, apart
    from a preflight request, which is answered with the allowed methods without the
    multiplexer.  Every other request is answered without the multiplexer: with 200 and the
    allowed methods for OPTIONS, and otherwise with 404 and a body that is, for a path of
    printable ASCII characters without quotes and backslashes, the JSON object that names it. *)
Theorem gatewayHandler_routes (mux : HttpHandler) (r : HttpRequest) :
  let reply := gatewayHandler mux r emptyReply in
  let methods := "GET,HEAD,POST,PUT,DELETE"%string in
  (forMultiplexer (hq_Path r) → isPreflight r = false →
     reply = mux r (if decide (Header_Get r "Origin" = ""%string) then emptyReply
                    else setHeader "Access-Control-Allow-Origin" (Header_Get r "Origin") emptyReply)) ∧
  (forMultiplexer (hq_Path r) → isPreflight r = true →
     (∀ mux', reply = gatewayHandler mux' r emptyReply) ∧
     hp_Header reply !! "Access-Control-Allow-Origin"%string = Some (Header_Get r "Origin") ∧
     hp_Header reply !! "Access-Control-Allow-Methods"%string = Some methods) ∧
  (¬ forMultiplexer (hq_Path r) →
     (∀ mux', reply = gatewayHandler mux' r emptyReply) ∧
     hp_Header reply !! "Access-Control-Allow-Origin"%string = Some "*"%string ∧
     (hq_Method r = "OPTIONS"%string →
        hp_Status reply = Some 200 ∧ hp_Header reply !! "Access-Control-Allow-Methods"%string = Some methods) ∧
     (hq_Method r ≠ "OPTIONS"%string →
        hp_Status reply = Some 404 ∧
        (plainText (hq_Path r) →
         Unmarshal (hp_Body reply) = Ok (JObject [("error", JString "Not Found"); ("path", JString (hq_Path r))]%string)))).
Proof.
  intros reply methods. unfold reply, gatewayHandler, allowCORS, isPreflight. split; [|split].
  - intros ->%isValidRoute_rules Hn%bool_decide_eq_false. case_decide as Ho; [done|]. rewrite decide_False; [done|]. naive_solver.
  - intros ->%isValidRoute_rules (Ho & Hm & Hr)%bool_decide_eq_true. rewrite decide_False, decide_True by done.
    split; [intros mux'; by rewrite decide_False, decide_True|].
    split; [|reflexivity]. unfold preflightHandler, setHeader. cbn [hp_Header].
    rewrite !lookup_insert_ne, lookup_insert_eq by done. done.
  - rewrite <- isValidRoute_rules. intros ->%not_true_is_false. case_decide as Hm.
    + split; [done|]. split; [reflexivity|]. split; [done|]. by intros [].
    + split; [done|]. split; [reflexivity|]. split; [done|]. intros _. split; [done|]. intros Hp.
      cbn [hp_Body WriteBody WriteHeader setHeader emptyReply]. by apply notFoundBody_plain.
Qed.

(** A path with a quote ends the string early: the body is no JSON, or has the members that
    the path brings along. *)
Example notFoundBody_quote : Unmarshal (notFoundBody ("/a" +:+ (dquote ::: "b"))) = Err ErrJSON.
Proof. by vm_compute. Qed.
Example notFoundBody_injection :
  Unmarshal (notFoundBody ("/a" +:+ (dquote ::: "," +:+ (dquote ::: "error" +:+ (dquote ::: ":" +:+ (dquote ::: "none")))))) =
  Ok (JObject [("error", JString "Not Found"); ("path", JString "/a"); ("error", JString "none")]%string).
Proof. by vm_compute. Qed.

(** A claim of an address reaches the multiplexer, /admin and the path that README.md gives
    for the bridges do not. *)
Lemma gatewayHandler_routes_witness :
  let mux : HttpHandler := λ _ w, WriteBody "claims" w in
  let get path := mkHttpRequest "GET" path ∅ in
  gatewayHandler mux (get "/claims/0x01"%string) emptyReply = mux (get "/claims/0x01"%string) emptyReply ∧
  hp_Status (gatewayHandler mux (get "/admin"%string) emptyReply) = Some 404 ∧
  hp_Status (gatewayHandler mux (get "/api/v1/bridges/0x01"%string) emptyReply) = Some 404.
Proof.
  intros mux get. split; [|split].
  - destruct (gatewayHandler_routes mux (get "/claims/0x01"%string)) as (H & _ & _). apply H; [|reflexivity].
    apply isValidRoute_rules. reflexivity.
  - destruct (gatewayHandler_routes mux (get "/admin"%string)) as (_ & _ & H). apply H; [|discriminate].
    rewrite <- isValidRoute_rules. discriminate.
  - destruct (gatewayHandler_routes mux (get "/api/v1/bridges/0x01"%string)) as (_ & _ & H). apply H; [|discriminate].
    rewrite <- isValidRoute_rules. discriminate.
Defined.
