(* ===== verification/RpcClient.v ===== *)
(** * The JSON-RPC client (jsonrpcclient)

    The client that asks the trusted sequencer for its exit roots, the requests,
    responses and errors of JSON-RPC, and the rules by which encoding/json stores a
    value in a Go variable.  The HTTP client of the library reaches the network and is a
    parameter, as is the JSON of a [common.Hash], which is code of go-ethereum.  A
    [json.RawMessage] is the value of its text, absent when it is nil; an [interface{}]
    is the value it was read from. *)
From Stdlib Require Import Ascii.
From S2P Require Import Prelude Types Bytes Hash ClaimTypes MerkleStore Schema Storage MerkleTree BridgeCtrl Synchronizer.
From S2P Require Import Service Hex Json.

(** ** Storing a value in a variable

    Every decoder takes the old value of the variable: null leaves most of them alone,
    and a repeated member is decoded over the first. *)

Definition ErrUnmarshalType : error := Errorf "json: cannot unmarshal %s into Go value".

Definition decodeString (old : string) (v : json) : result string :=
  match v with
  | JString s => Ok s
  | JNull => Ok old
  | _ => Err ErrUnmarshalType
  end.

(** [strconv.ParseInt]. *)
Definition ParseInt (s : string) (base bitSize : Z) : result Z :=
  let '(sign, s) := splitSign s in
  n ← ParseUint s base bitSize;
  if (if decide (sign < 0) then bool_decide (2 ^ (bitSize - 1) < n) else bool_decide (2 ^ (bitSize - 1) ≤ n)) then Err ErrRange else Ok (sign * n).

(** An error of the parser is replaced by that of the type. *)
Definition decodeNumber (parse : string → result Z) (old : Z) (v : json) : result Z :=
  match v with
  | JNumber t => match parse t with Err _ => Err ErrUnmarshalType | r => r end
  | JNull => Ok old
  | _ => Err ErrUnmarshalType
  end.
Definition decodeInt : Z → json → result Z := decodeNumber (λ t, ParseInt t 10 64).
Definition decodeUint64 : Z → json → result Z := decodeNumber (λ t, ParseUint t 10 64).

(** A type with UnmarshalText reads strings; null does not reach it. *)
Definition decodeText {A} (unmarshalText : A → string → result A) (old : A) (v : json) : result A :=
  match v with
  | JString s => unmarshalText old s
  | JNull => Ok old
  | _ => Err ErrUnmarshalType
  end.

(** A pointer: null is nil, otherwise the value it points to is decoded, a new one if
    there is none. *)
Definition decodePtr {A} (zero : A) (decode : A → json → result A) (old : option A) (v : json) : result (option A) :=
  match v with
  | JNull => Ok None
  | _ => a ← decode (default zero old) v; Ok (Some a)
  end.

(** A slice: an element is decoded over the one that was there. *)
Definition decodeSlice {A} (zero : A) (decode : A → json → result A) (old : list A) (v : json) : result (list A) :=
  match v with
  | JNull => Ok []
  | JArray l => fold_result (λ acc x, a ← decode (default zero (old !! length acc)) x; Ok (acc ++ [a])) [] l
  | _ => Err ErrUnmarshalType
  end.

(** Keys are compared without case.  Of the characters that are not ASCII only the long
    s and the Kelvin sign fold to a letter of a field. *)
Definition foldChunk (o : option string) : string :=
  match o with
  | None => runeError
  | Some r =>
      if decide (r = encodeRune 0x17F) then "S" else if decide (r = encodeRune 0x212A) then "K" else
      match r with
      | String.String c "" => if byteIn 97 122 c then String.String (asciiOf (byteVal c - 32)) "" else r
      | _ => r
      end
  end.
Definition foldName (s : string) : string := concat_text (foldChunk <$> chunks s).

(** A struct: its fields by name; other members are skipped. *)
Definition field (A : Type) : Type := string * (A → json → result A).
Fixpoint findField {A} (fields : list (field A)) (k : string) : option (A → json → result A) :=
  match fields with
  | [] => None
  | (name, decode) :: fields => if decide (foldName name = foldName k) then Some decode else findField fields k
  end.
Definition decodeMember {A} (fields : list (field A)) (a : A) (m : string * json) : result A :=
  match findField fields m.1 with
  | Some decode => decode a m.2
  | None => Ok a
  end.
Definition decodeStruct {A} (fields : list (field A)) (old : A) (v : json) : result A :=
  match v with
  | JNull => Ok old
  | JObject l => fold_result (decodeMember fields) old l
  | _ => Err ErrUnmarshalType
  end.

(** [strconv.ParseFloat] fails for a number that is rounded above the greatest float64. *)
Definition floatFits (t : string) : bool :=
  let '(_, s) := scanSign t in
  match scanInt s with
  | None => false
  | Some (i, s) =>
      match scanFrac s with
      | None => false
      | Some (f, s) =>
          let f := String.substring 1 (String.length f) f in
          let '(sign, ex) := splitSign (String.substring 1 (String.length s) s) in
          let e := sign * foldl (λ e c, if decide (e < 10000) then e * 10 + digitVal c else e) 0 (String.list_ascii_of_string ex)
                   - Z.of_nat (String.length f) in
          let m := default 0 (parseDigits 10 (i +:+ f) 0) in
          let bound := 2 ^ 1024 - 2 ^ 970 in
          if decide (m = 0) then true else if decide (400 ≤ e) then false else
          if decide (0 ≤ e) then bool_decide (m * 10 ^ e < bound) else bool_decide (m < bound * 10 ^ (- e))
      end
  end.
Fixpoint numbersFit (v : json) : bool :=
  match v with
  | JNumber t => floatFits t
  | JArray l => forallb numbersFit l
  | JObject l => forallb (λ m, numbersFit m.2) l
  | _ => true
  end.
Definition decodeAny (old : json) (v : json) : result json := if numbersFit v then Ok v else Err ErrUnmarshalType.

(** The UnmarshalJSON of a raw message keeps every value, null too. *)
Definition decodeRaw (old : option json) (v : json) : result (option json) := Ok (Some v).

Definition FormatInt (n : Z) : string := big_Text 10 n.

(** ** types/errors.go *)

Definition DefaultErrorCode : Z := -32000.
Definition RevertedErrorCode : Z := 3.
Definition InvalidRequestErrorCode : Z := -32600.
Definition NotFoundErrorCode : Z := -32601.
Definition InvalidParamsErrorCode : Z := -32602.
Definition ParserErrorCode : Z := -32700.

(** The data is nil or bytes. *)
Record RPCError := mkRPCError { re_err : string; re_code : Z; re_data : option bytes }.

(** Without arguments for the format, as the callers have it. *)
Definition NewRPCErrorWithData (code : Z) (err : string) (data : option bytes) : RPCError := mkRPCError err code data.
Definition NewRPCError (code : Z) (err : string) : RPCError := NewRPCErrorWithData code err None.
Definition RPCError_Error (e : RPCError) : string := re_err e.
Definition ErrorCode (e : RPCError) : Z := re_code e.
Definition ErrorData (e : RPCError) : option bytes := re_data e.

(** As a value of the interface [error]. *)
Definition as_error (e : RPCError) : error := ErrRPCError (RPCError_Error e) (ErrorCode e) (ErrorData e).

(** ** types/codec.go *)

Record Request := mkRequest { rq_JSONRPC : string; rq_ID : json; rq_Method : string; rq_Params : option json }.
Record ErrorObject := mkErrorObject { eo_Code : Z; eo_Message : string; eo_Data : option bytes }.
Record Response := mkResponse { rs_JSONRPC : string; rs_ID : json; rs_Result : option json; rs_Error : option ErrorObject }.

Definition ErrorObject_RPCError (e : ErrorObject) : RPCError := NewRPCErrorWithData (eo_Code e) (eo_Message e) (eo_Data e).

Definition NewResponse (req : Request) (reply : option json) (err : option RPCError) : Response :=
  let errorObj := (λ err, mkErrorObject (ErrorCode err) (RPCError_Error err) (ErrorData err)) <$> err in
  mkResponse (rq_JSONRPC req) (rq_ID req) reply errorObj.

(** The tag omitempty: nothing for a nil message or pointer. *)
Definition omitempty (name : string) (o : option json) : list (string * json) :=
  match o with Some v => [(name, v)] | None => [] end.

Definition Request_JSON (r : Request) : json :=
  JObject ([("jsonrpc", JString (rq_JSONRPC r)); ("id", rq_ID r); ("method", JString (rq_Method r))]%string ++
           omitempty "params" (rq_Params r)).
Definition ErrorObject_JSON (e : ErrorObject) : json :=
  JObject ([("code", JNumber (FormatInt (eo_Code e))); ("message", JString (eo_Message e))]%string ++
           omitempty "data" ((λ d, JString (ArgBytes_MarshalText d)) <$> eo_Data e)).

Definition Response_MarshalJSON (r : Response) : json :=
  match rs_Error r with
  | Some e => JObject [("jsonrpc", JString (rs_JSONRPC r)); ("id", rs_ID r); ("error", ErrorObject_JSON e)]%string
  | None => JObject [("jsonrpc", JString (rs_JSONRPC r)); ("id", rs_ID r); ("result", default JNull (rs_Result r))]%string
  end.
Definition Response_Bytes (s : Response) : string := Marshal (Response_MarshalJSON s).

Definition emptyRequest : Request := mkRequest "" JNull "" None.
Definition Request_fields : list (field Request) :=
  [("jsonrpc", λ r v, x ← decodeString (rq_JSONRPC r) v; Ok (mkRequest x (rq_ID r) (rq_Method r) (rq_Params r)));
   ("id", λ r v, x ← decodeAny (rq_ID r) v; Ok (mkRequest (rq_JSONRPC r) x (rq_Method r) (rq_Params r)));
   ("method", λ r v, x ← decodeString (rq_Method r) v; Ok (mkRequest (rq_JSONRPC r) (rq_ID r) x (rq_Params r)));
   ("params", λ r v, x ← decodeRaw (rq_Params r) v; Ok (mkRequest (rq_JSONRPC r) (rq_ID r) (rq_Method r) x))]%string.

Definition emptyErrorObject : ErrorObject := mkErrorObject 0 "" None.
Definition ErrorObject_fields : list (field ErrorObject) :=
  [("code", λ e v, x ← decodeInt (eo_Code e) v; Ok (mkErrorObject x (eo_Message e) (eo_Data e)));
   ("message", λ e v, x ← decodeString (eo_Message e) v; Ok (mkErrorObject (eo_Code e) x (eo_Data e)));
   ("data", λ e v, x ← decodePtr [] (decodeText ArgBytes_UnmarshalText) (eo_Data e) v;
                   Ok (mkErrorObject (eo_Code e) (eo_Message e) x))]%string.

Definition emptyResponse : Response := mkResponse "" JNull None None.
Definition Response_fields : list (field Response) :=
  [("JSONRPC", λ r v, x ← decodeString (rs_JSONRPC r) v; Ok (mkResponse x (rs_ID r) (rs_Result r) (rs_Error r)));
   ("ID", λ r v, x ← decodeAny (rs_ID r) v; Ok (mkResponse (rs_JSONRPC r) x (rs_Result r) (rs_Error r)));
   ("Result", λ r v, x ← decodeRaw (rs_Result r) v; Ok (mkResponse (rs_JSONRPC r) (rs_ID r) x (rs_Error r)));
   ("Error", λ r v, x ← decodePtr emptyErrorObject (decodeStruct ErrorObject_fields) (rs_Error r) v;
                    Ok (mkResponse (rs_JSONRPC r) (rs_ID r) (rs_Result r) x))]%string.
Definition decodeResponse : Response → json → result Response := decodeStruct Response_fields.

(** ** types/types.go *)

(** go-ethereum: the UnmarshalJSON of a hash. *)
Class HashJSON := Hash_UnmarshalJSON : json → result Hash.

Record ExitRoots := mkExitRoots {
  er_BlockNumber : Z; er_Timestamp : Z; er_MainnetExitRoot : Hash; er_RollupExitRoot : Hash
}.
Definition emptyExitRoots : ExitRoots := mkExitRoots 0 0 0 0.

Definition ExitRoots_JSON (e : ExitRoots) : json :=
  JObject [("blockNumber", JString (ArgUint64_MarshalText (er_BlockNumber e)));
           ("timestamp", JString (ArgUint64_MarshalText (er_Timestamp e)));
           ("mainnetExitRoot", JString (Hash_Hex (er_MainnetExitRoot e)));
           ("rollupExitRoot", JString (Hash_Hex (er_RollupExitRoot e)))]%string.

Definition ExitRoots_fields `{HashJSON} : list (field ExitRoots) :=
  let arg old v := decodeText (λ _, ArgUint64_UnmarshalText) old v in
  [("blockNumber", λ e v, x ← arg (er_BlockNumber e) v;
                          Ok (mkExitRoots x (er_Timestamp e) (er_MainnetExitRoot e) (er_RollupExitRoot e)));
   ("timestamp", λ e v, x ← arg (er_Timestamp e) v;
                        Ok (mkExitRoots (er_BlockNumber e) x (er_MainnetExitRoot e) (er_RollupExitRoot e)));
   ("mainnetExitRoot", λ e v, x ← Hash_UnmarshalJSON v;
                              Ok (mkExitRoots (er_BlockNumber e) (er_Timestamp e) x (er_RollupExitRoot e)));
   ("rollupExitRoot", λ e v, x ← Hash_UnmarshalJSON v;
                             Ok (mkExitRoots (er_BlockNumber e) (er_Timestamp e) (er_MainnetExitRoot e) x))]%string.
Definition decodeExitRoots `{HashJSON} : option ExitRoots → json → result (option ExitRoots) :=
  decodePtr emptyExitRoots (decodeStruct ExitRoots_fields).

(** ** client.go, zkevm.go *)

(** A request posted with a body that is JSON; an error is that of the URL or of the
    network, and the body of the response may fail to be read. *)
Record PostResponse := mkPostResponse { pr_StatusCode : Z; pr_Body : result string }.
Class HttpPost (W : Type) := http_Post : string → string → M W PostResponse.
Definition StatusOK : Z := 200.

Definition jsonRPCVersion : string := "2.0".
Record RpcClient := NewClient { cl_url : string }.

Section Client.
Context {W : Type} `{HttpPost W} `{HashJSON} `{CommonHex}.

Definition sendJSONRPC_HTTPRequest (url : string) (payload : json) : M W PostResponse := http_Post url (Marshal payload).

(** A call without parameters has a nil slice, whose JSON is null. *)
Definition paramsJSON (parameters : list json) : json :=
  match parameters with [] => JNull | _ => JArray parameters end.

Definition JSONRPCCall (url method : string) (parameters : list json) : M W Response :=
  let request := mkRequest jsonRPCVersion (JNumber "1") method (Some (paramsJSON parameters)) in
  httpRes ← sendJSONRPC_HTTPRequest url (Request_JSON request);
  resBody ← lift (pr_Body httpRes);
  if decide (pr_StatusCode httpRes ≠ StatusOK) then throw (Errorf "%v - %v") else
  v ← lift (Unmarshal resBody);
  lift (decodeResponse emptyResponse v).

(** A raw message that is nil is an empty text. *)
Definition UnmarshalRaw (raw : option json) : result json :=
  match raw with Some v => Ok v | None => Err ErrJSON end.

Definition Client_ExitRootsByGER (c : RpcClient) (globalExitRoot : Hash) : M W (option ExitRoots) :=
  response ← JSONRPCCall (cl_url c) "zkevm_getExitRootsByGER" [JString (Hash_Hex globalExitRoot)];
  match rs_Error response with
  | Some e => throw (as_error (ErrorObject_RPCError e))
  | None => v ← lift (UnmarshalRaw (rs_Result response)); lift (decodeExitRoots None v)
  end.

Definition Client_GetLatestGlobalExitRoot (c : RpcClient) : M W Hash :=
  response ← JSONRPCCall (cl_url c) "zkevm_getLatestGlobalExitRoot" [];
  match rs_Error response with
  | Some e => throw (as_error (ErrorObject_RPCError e))
  | None => v ← lift (UnmarshalRaw (rs_Result response)); result ← lift (decodeString "" v); mret (HexToHash result)
  end.

(** The client of the synchronizer. *)
Definition rpc_zkEVMClient (c : RpcClient) : zkEVMClientInterface W := {|
  GetLatestGlobalExitRoot := Client_GetLatestGlobalExitRoot c;
  ExitRootsByGER ger :=
    r ← Client_ExitRootsByGER c ger; mret ((λ e, (er_MainnetExitRoot e, er_RollupExitRoot e)) <$> r)
|}.
End Client.
