(* ===== verification/RpcTheorems.v ===== *)
(** * What the JSON-RPC client returns (jsonrpcclient)

    A node that answers requests with the responses of types/codec.go is understood by
    the client: the exit roots, the latest global exit root, and errors with their code,
    message and data come back as the node has them; whatever else the network does, the
    client returns an error. *)
From Stdlib Require Import Ascii.
From S2P Require Import Prelude Types Bytes Hash ClaimTypes MerkleStore Schema Storage MerkleTree BridgeCtrl Synchronizer.
From S2P Require Import Service Hex Json JsonFacts RpcClient.

#[local] Notation "c ::: s" := (String.String c%char s%string) (at level 60, right associativity).
#[local] Arguments String.append !_ _ / : simpl nomatch.

(** ** Texts of ASCII characters *)

Lemma Hash_Hex_valid h : validUtf8 (Hash_Hex h) = true.
Proof. apply ascii_valid, prefixed_ascii, EncodeToString_ascii, be_bytes_byte. Qed.
Lemma ArgUint64_valid n : validUtf8 (ArgUint64_MarshalText n) = true.
Proof.
  apply ascii_valid, prefixed_ascii, FormatUint_chars; [|unfold Base; lia]. intros d Hd. apply hexDigit_ascii. unfold Base in Hd. lia.
Qed.
Lemma ArgBytes_valid bs : Forall is_byte bs → validUtf8 (ArgBytes_MarshalText bs) = true.
Proof.
  intros Hb. unfold ArgBytes_MarshalText, encodeToHex. rewrite EncodeToString_even. by apply ascii_valid, prefixed_ascii, EncodeToString_ascii.
Qed.

(** ** Decimal numbers *)

Lemma scanInt_FormatUint n : 0 ≤ n → scanInt (FormatUint 10 n) = Some (FormatUint 10 n, ""%string).
Proof.
  intros Hn. unfold FormatUint. case_decide as Hz; [done|].
  destruct (formatDigits_head (Z.to_nat (Z.log2 n + 1)) 10 n "") as (d & s & Ef & Hd); [lia|split; [lia|apply log2_fuel; lia]|].
  pose proof (formatDigits_chars (λ c, isDigit c = true) 10 (Z.to_nat (Z.log2 n + 1)) n "" hexDigit_isDigit ltac:(lia) I) as Hc.
  rewrite Ef in *. assert (digits1 (hexDigit d ::: s) = Some (hexDigit d ::: s, ""%string)) as E1.
  { unfold digits1. by rewrite spanDigits_all. }
  assert (d = 1 ∨ d = 2 ∨ d = 3 ∨ d = 4 ∨ d = 5 ∨ d = 6 ∨ d = 7 ∨ d = 8 ∨ d = 9) as Hcases by lia.
  by repeat destruct Hcases as [->|Hcases]; [..|subst d].
Qed.

(** The digits of a number do not start with a minus. *)
Lemma FormatUint_sign n : 0 ≤ n → scanSign (FormatUint 10 n) = (""%string, FormatUint 10 n) ∧ splitSign (FormatUint 10 n) = (1, FormatUint 10 n).
Proof.
  intros Hn. pose proof (parse_FormatUint 10 n ltac:(lia) Hn) as E. split; [|by eapply parsed_no_sign; [|exact E]].
  destruct (FormatUint 10 n) as [|c s]; [done|]. apply parsed_head in E. destruct (decide (c = "-"%char)) as [->|Hc]; [done|].
  revert Hc. clear. by destruct c as [[] [] [] [] [] [] [] []].
Qed.

Lemma FormatInt_validNumber n : validNumber (FormatInt n) = true.
Proof.
  unfold validNumber, FormatInt, big_Text. apply bool_decide_eq_true. unfold scanNumber. case_decide as Hn.
  - cbn [String.append scanSign]. rewrite scanInt_FormatUint by lia. cbn. by rewrite !text_app_nil.
  - destruct (FormatUint_sign n ltac:(lia)) as [-> _]. rewrite scanInt_FormatUint by lia. cbn. by rewrite !text_app_nil.
Qed.

Lemma ParseUint_FormatUint n : 0 ≤ n < 2 ^ 64 → ParseUint (FormatUint 10 n) 10 64 = Ok n.
Proof.
  intros Hn. unfold ParseUint. rewrite decide_False by (apply FormatUint_nonempty; lia).
  eapply ParseUint_parses; [lia|lia|apply parse_FormatUint; lia|lia].
Qed.

Lemma ParseInt_FormatInt n : - 2 ^ 63 ≤ n < 2 ^ 63 → ParseInt (FormatInt n) 10 64 = Ok n.
Proof.
  intros Hn. unfold ParseInt, FormatInt, big_Text. case_decide as Hs.
  - change (splitSign ("-" +:+ FormatUint 10 (- n))) with (-1, FormatUint 10 (- n)). cbn beta iota.
    rewrite ParseUint_FormatUint by lia. cbn [mbind result_bind]. rewrite decide_True by lia.
    rewrite bool_decide_false by (change (64 - 1) with 63; lia). f_equal. lia.
  - destruct (FormatUint_sign n ltac:(lia)) as [_ ->]. rewrite ParseUint_FormatUint by lia. cbn [mbind result_bind].
    rewrite decide_False, bool_decide_false by (try change (64 - 1) with 63; lia). f_equal. lia.
Qed.

(** ** Requests and responses *)

(** How a node reads a request of types/codec.go. *)
Definition readRequest (body : string) : result Request :=
  v ← Unmarshal body; decodeStruct Request_fields emptyRequest v.

(** Errors that survive the JSON: the code is an int, the message is UTF-8. *)
Definition error_ok (err : RPCError) : Prop :=
  - 2 ^ 63 ≤ re_code err < 2 ^ 63 ∧ validUtf8 (re_err err) = true ∧ (∀ d, re_data err = Some d → Forall is_byte d).
(** Values that survive it inside a message. *)
Definition value_ok (v : json) : Prop := wfJson v ∧ jsonDepth v < maxNestingDepth.

Lemma readRequest_Request method params :
  validUtf8 method = true → value_ok params →
  let req := mkRequest jsonRPCVersion (JNumber "1") method (Some params) in readRequest (Marshal (Request_JSON req)) = Ok req.
Proof.
  intros Hm [Hw Hd] req. unfold readRequest. rewrite Unmarshal_Marshal; [reflexivity| |].
  - cbn. by repeat split.
  - cbn. pose proof (jsonDepth_nonneg params). lia.
Qed.

(** A member of a known name goes to its field. *)
Lemma decodeMember_name {A} (fields : list (field A)) a k v f :
  findField fields k = Some f → decodeMember fields a (k, v) = f a v.
Proof. unfold decodeMember. cbn [fst snd]. by intros ->. Qed.

(** Decode the members of an object one after the other; [rw] rewrites with what is known
    of the decoders of the fields. *)
Ltac decode_members rw :=
  cbn [decodeStruct fold_result app omitempty fmap option_fmap option_map];
  repeat (erewrite decodeMember_name by reflexivity; cbn [decodeString decodeText decodePtr mbind result_bind]; try rw;
          cbn [mbind result_bind fold_result]).

(** The object of an error is decoded into the object. *)
Lemma decode_ErrorObject err :
  error_ok err → ∀ e, e = mkErrorObject (ErrorCode err) (RPCError_Error err) (ErrorData err) →
  wfJson (ErrorObject_JSON e) ∧ jsonDepth (ErrorObject_JSON e) = 1 ∧
  decodeStruct ErrorObject_fields emptyErrorObject (ErrorObject_JSON e) = Ok e.
Proof.
  intros (Hc & Hm & Hdat) e ->. destruct err as [msg code data]. cbn [re_code re_err re_data] in *.
  assert (∀ old, decodeInt old (JNumber (FormatInt code)) = Ok code) as Ec.
  { intros old. unfold decodeInt, decodeNumber. by rewrite ParseInt_FormatInt. }
  pose proof (FormatInt_validNumber code) as Hv. destruct data as [d|].
  - specialize (Hdat d eq_refl). pose proof (ArgBytes_valid d Hdat). split; [by cbn; repeat split|]. split; [done|].
    unfold ErrorObject_JSON. cbn [eo_Code eo_Message eo_Data ErrorCode ErrorData RPCError_Error re_code re_err re_data].
    decode_members ltac:(rewrite Ec || rewrite ArgBytes_roundtrip by done). done.
  - split; [by cbn; repeat split|]. split; [done|].
    unfold ErrorObject_JSON. cbn [eo_Code eo_Message eo_Data ErrorCode ErrorData RPCError_Error re_code re_err re_data].
    decode_members ltac:(rewrite Ec). done.
Qed.

(** What the client reads from the response of [NewResponse]. *)
Definition received (req : Request) (reply : option json) (err : option RPCError) : Response :=
  mkResponse (rq_JSONRPC req) (rq_ID req) (match err with Some _ => None | None => Some (default JNull reply) end)
    ((λ err, mkErrorObject (ErrorCode err) (RPCError_Error err) (ErrorData err)) <$> err).

Lemma decodeAny_one old : decodeAny old (JNumber "1") = Ok (JNumber "1").
Proof. done. Qed.

Lemma Response_roundtrip req reply err :
  validUtf8 (rq_JSONRPC req) = true → rq_ID req = JNumber "1" → (∀ v, reply = Some v → value_ok v) → (∀ e, err = Some e → error_ok e) →
  (v ← Unmarshal (Response_Bytes (NewResponse req reply err)); decodeResponse emptyResponse v) = Ok (received req reply err).
Proof.
  intros Hj Hid Hr He. unfold Response_Bytes, received. destruct req as [j id m p]. cbn in Hj, Hid. subst id.
  destruct err as [err|]; unfold Response_MarshalJSON; cbn [NewResponse rs_Error rs_JSONRPC rs_ID rs_Result rq_JSONRPC rq_ID fmap option_fmap option_map].
  - destruct (decode_ErrorObject err (He err eq_refl) _ eq_refl) as (Hw & Hd & Ed).
    set (e := mkErrorObject (ErrorCode err) (RPCError_Error err) (ErrorData err)) in *.
    assert (decodePtr emptyErrorObject (decodeStruct ErrorObject_fields) None (ErrorObject_JSON e) = Ok (Some e)) as Ep
      by (unfold ErrorObject_JSON in *; cbn [decodePtr default]; by rewrite Ed).
    rewrite Unmarshal_Marshal; [| |].
    + cbn [mbind result_bind]. unfold decodeResponse. decode_members ltac:(rewrite decodeAny_one || (cbn [rs_Error emptyResponse]; rewrite Ep)). done.
    + cbn -[ErrorObject_JSON]. by split_and!.
    + cbn -[ErrorObject_JSON]. rewrite Hd. done.
  - assert (value_ok (default JNull reply)) as [Hw Hd] by (destruct reply as [v|]; [by apply Hr|done]).
    rewrite Unmarshal_Marshal; [| |].
    + cbn [mbind result_bind]. unfold decodeResponse. decode_members ltac:(rewrite decodeAny_one). done.
    + cbn. by repeat split.
    + cbn. pose proof (jsonDepth_nonneg (default JNull reply)). lia.
Qed.

(** ** The client and a node *)

Lemma M_bind_fst {S A B} (m : M S A) (f : A → M S B) s a : fst (m s) = Ok a → fst ((m ≫= f) s) = fst (f a (snd (m s))).
Proof. unfold mbind, M_bind. destruct (m s) as [r s']. cbn. by intros ->. Qed.
Lemma M_bind_fst_Err {S A B} (m : M S A) (f : A → M S B) s e : fst (m s) = Err e → fst ((m ≫= f) s) = Err e.
Proof. unfold mbind, M_bind. destruct (m s) as [r s']. cbn. by intros ->. Qed.
Lemma lift_fst {S A} (r : result A) (s : S) : fst (lift r s) = r.
Proof. done. Qed.
Lemma lift_bind_fst {S A B} (r : result A) (f : A → result B) (s : S) : fst ((a ← lift r; lift (f a)) s) = (a ← r; f a).
Proof. by destruct r. Qed.

(** go-ethereum reads a hash from the text it has written. *)
Class HashTextLaws `{HashJSON} `{CommonHex} := {
  Hash_UnmarshalJSON_Hex : ∀ h, is_hash h → Hash_UnmarshalJSON (JString (Hash_Hex h)) = Ok h;
  HexToHash_Hash_Hex : ∀ h, is_hash h → HexToHash (Hash_Hex h) = h
}.

Section Served.
Context {W : Type} `{HttpPost W} `{HashTextLaws}.
Context (url : string) (serve : string → json → option json * option RPCError).

(** A node that answers every request it can read with a response of types/codec.go, by
    the method and the parameters; the answers survive the JSON. *)
Class JsonRpcNode := {
  node_answers : ∀ body req params w, readRequest body = Ok req → rq_Params req = Some params →
    fst (http_Post url body w) =
    Ok (mkPostResponse StatusOK (Ok (Response_Bytes (NewResponse req (fst (serve (rq_Method req) params)) (snd (serve (rq_Method req) params))))));
  node_reply : ∀ method params v, fst (serve method params) = Some v → value_ok v;
  node_error : ∀ method params err, snd (serve method params) = Some err → error_ok err
}.

Context `{JsonRpcNode}.

Lemma JSONRPCCall_served method parameters w :
  validUtf8 method = true → value_ok (paramsJSON parameters) →
  fst (JSONRPCCall url method parameters w) =
  Ok (received (mkRequest jsonRPCVersion (JNumber "1") method (Some (paramsJSON parameters))) (fst (serve method (paramsJSON parameters)))
        (snd (serve method (paramsJSON parameters)))).
Proof.
  intros Hm Hp. set (req := mkRequest jsonRPCVersion (JNumber "1") method (Some (paramsJSON parameters))).
  pose proof (node_answers (Marshal (Request_JSON req)) req _ w (readRequest_Request method _ Hm Hp) eq_refl) as Ea.
  unfold JSONRPCCall, sendJSONRPC_HTTPRequest. fold req. rewrite (M_bind_fst _ _ _ _ Ea).
  cbn [pr_StatusCode pr_Body]. rewrite (M_bind_fst _ _ _ _ (lift_fst _ _)), decide_False by (unfold StatusOK; lia).
  rewrite <- (Response_roundtrip req _ _ eq_refl eq_refl (node_reply _ _) (node_error _ _)). apply lift_bind_fst.
Qed.

(** The parameters of the calls. *)
Lemma hash_param_ok h : value_ok (paramsJSON [JString (Hash_Hex h)]).
Proof. split; [|done]. split; [|done]. apply Hash_Hex_valid. Qed.

Definition exitRoots_ok (e : ExitRoots) : Prop :=
  0 ≤ er_BlockNumber e < 2 ^ 64 ∧ 0 ≤ er_Timestamp e < 2 ^ 64 ∧ is_hash (er_MainnetExitRoot e) ∧ is_hash (er_RollupExitRoot e).

Lemma decode_ExitRoots e : exitRoots_ok e → decodeExitRoots None (ExitRoots_JSON e) = Ok (Some e).
Proof.
  intros (Hb & Ht & Hm & Hr). unfold decodeExitRoots, ExitRoots_JSON. cbn [decodePtr default].
  decode_members ltac:((rewrite ArgUint64_roundtrip by done) || (rewrite Hash_UnmarshalJSON_Hex by done)). by destruct e.
Qed.

Lemma Client_ExitRootsByGER_served ger w :
  let answer := serve "zkevm_getExitRootsByGER" (JArray [JString (Hash_Hex ger)]) in
  let r := fst (Client_ExitRootsByGER (NewClient url) ger w) in
  (∀ err, snd answer = Some err → r = Err (as_error err)) ∧
  (snd answer = None → default JNull (fst answer) = JNull → r = Ok None) ∧
  (∀ e, snd answer = None → fst answer = Some (ExitRoots_JSON e) → exitRoots_ok e → r = Ok (Some e)).
Proof.
  intros answer r. pose proof (JSONRPCCall_served "zkevm_getExitRootsByGER" [JString (Hash_Hex ger)] w eq_refl (hash_param_ok ger)) as Ec.
  cbn [paramsJSON] in Ec. fold answer in Ec. unfold r, Client_ExitRootsByGER. cbn [cl_url]. rewrite (M_bind_fst _ _ _ _ Ec).
  destruct answer as [reply [err|]]; cbn -[decodeExitRoots].
  { split; [|split]; [|done..]. intros err' [= <-]. by destruct err. }
  split; [done|]. split.
  - intros _ ->. done.
  - intros e _ -> He. cbn -[decodeExitRoots]. by apply decode_ExitRoots.
Qed.

Lemma Client_GetLatestGlobalExitRoot_served w :
  let answer := serve "zkevm_getLatestGlobalExitRoot" JNull in
  let r := fst (Client_GetLatestGlobalExitRoot (NewClient url) w) in
  (∀ err, snd answer = Some err → r = Err (as_error err)) ∧
  (∀ g, snd answer = None → fst answer = Some (JString (Hash_Hex g)) → is_hash g → r = Ok g).
Proof.
  intros answer r. pose proof (JSONRPCCall_served "zkevm_getLatestGlobalExitRoot" [] w eq_refl ltac:(done)) as Ec.
  cbn [paramsJSON] in Ec. fold answer in Ec. unfold r, Client_GetLatestGlobalExitRoot. cbn [cl_url]. rewrite (M_bind_fst _ _ _ _ Ec).
  destruct answer as [reply [err|]]; cbn -[Hash_Hex].
  { split; [|done]. intros err' [= <-]. by destruct err. }
  split; [done|]. intros g _ -> Hg. change (Ok (HexToHash (Hash_Hex g)) = Ok g). by rewrite HexToHash_Hash_Hex.
Qed.

(** What the node says of its latest global exit root: an error, nothing, or the root
    with the exit roots it is made of. *)
Inductive trusted : result (option (Hash * ExitRoots)) → Prop :=
| trusted_no_answer err :
    snd (serve "zkevm_getLatestGlobalExitRoot" JNull) = Some err → trusted (Err (as_error err))
| trusted_none :
    serve "zkevm_getLatestGlobalExitRoot" JNull = (Some (JString (Hash_Hex 0)), None) → trusted (Ok None)
| trusted_error g err :
    serve "zkevm_getLatestGlobalExitRoot" JNull = (Some (JString (Hash_Hex g)), None) → is_hash g → g ≠ 0 →
    snd (serve "zkevm_getExitRootsByGER" (JArray [JString (Hash_Hex g)])) = Some err → trusted (Err (as_error err))
| trusted_unknown g reply :
    serve "zkevm_getLatestGlobalExitRoot" JNull = (Some (JString (Hash_Hex g)), None) → is_hash g → g ≠ 0 →
    serve "zkevm_getExitRootsByGER" (JArray [JString (Hash_Hex g)]) = (reply, None) → default JNull reply = JNull → trusted (Ok None)
| trusted_roots g e :
    serve "zkevm_getLatestGlobalExitRoot" JNull = (Some (JString (Hash_Hex g)), None) → is_hash g → g ≠ 0 →
    serve "zkevm_getExitRootsByGER" (JArray [JString (Hash_Hex g)]) = (Some (ExitRoots_JSON e), None) → exitRoots_ok e →
    trusted (Ok (Some (g, e))).
End Served.

Lemma on_world_fst {W A} (c : M W A) (y : SyncState W) r : fst (c (y_world y)) = r → ∃ w, on_world c y = (r, put_world w y).
Proof. unfold on_world, zoom. destruct (c (y_world y)) as [r' w]. cbn. intros <-. by exists w. Qed.

(** A new trusted exit root is stored with block 0 and announced; a known one changes
    nothing but the sequence of ids. *)
Definition store_trusted {W} (g : Hash) (e : ExitRoots) (networkID : Z) (y : SyncState W) : SyncState W :=
  let db := y_db y in
  let t := db_committed db in
  let row := mk_exit_root_row (sq_exit_root (db_seqs db)) 0 g [er_MainnetExitRoot e; er_RollupExitRoot e] networkID true in
  let known := bool_decide (UC_conflict 0 g networkID t) in
  let db' := mkDB (if known then t else on_exit_root (λ l, l ++ [row]) t) (db_tx db) (bump_exit_root (db_seqs db)) (db_faults db) in
  (if known then id else send_L2 (mkGlobalExitRoot 0 0 [er_MainnetExitRoot e; er_RollupExitRoot e] g networkID 0)) (put_db db' y).

Lemma store_trusted_runs {W} (g : Hash) (e : ExitRoots) networkID (y : SyncState W) :
  db_faults (y_db y) = [] →
  let ger := mkGlobalExitRoot 0 0 [er_MainnetExitRoot e; er_RollupExitRoot e] g networkID 0 in
  (isUpdated ← on_db (AddTrustedGlobalExitRoot ger NoTx); if isUpdated : bool then modify (send_L2 ger) else mret tt) y =
  (Ok tt, store_trusted g e networkID y).
Proof.
  intros Hf ger. destruct y as [w [t tx s faults] ctrl sy l1 wd ir ch2 ch1 cs]. cbn in Hf. subst faults.
  set (db := mkDB t tx s []). set (known := bool_decide (UC_conflict 0 g networkID t)).
  set (row := mk_exit_root_row (sq_exit_root s) 0 g [er_MainnetExitRoot e; er_RollupExitRoot e] networkID true).
  assert (AddTrustedGlobalExitRoot ger NoTx db =
    (Ok (negb known), mkDB (if known then t else on_exit_root (λ l, l ++ [row]) t) tx (bump_exit_root s) [])) as E.
  { unfold AddTrustedGlobalExitRoot.
    rewrite (M_bind_Ok _ _ _ (er_MainnetExitRoot e) db eq_refl), (M_bind_Ok _ _ _ (er_RollupExitRoot e) db eq_refl).
    unfold run, known. cbn -[UC_conflict decide bool_decide].
    case_decide; [rewrite bool_decide_true by done|rewrite bool_decide_false by done]; done. }
  unfold store_trusted. cbn [y_db db_committed db_seqs db_tx db_faults db]. fold row known.
  unfold mbind at 1, M_bind at 1, on_db at 1, zoom at 1. cbn [y_db]. rewrite E. by destruct known.
Qed.

(** C31: With the RPC client in front of a node that answers in JSON-RPC, a pass over the
    trusted state does what the node says: an error of the node, with its code, message and
    data, ends it; a zero or unknown global exit root changes nothing; otherwise the exit
    roots that the node gave for it are stored once, for this network, and announced when
    they are new. *)
Theorem syncTrustedState_served {W : Type} `{Keccak256} `{AbiToken} `{ethermanInterface W} `{HttpPost W} `{HashTextLaws}
    (url : string) (serve : string → json → option json * option RPCError) (cfg : SyncConfig) (y : SyncState W)
    (said : result (option (Hash * ExitRoots))) :
  JsonRpcNode url serve → db_faults (y_db y) = [] → trusted serve said →
  ∃ w, syncTrustedState (H1 := rpc_zkEVMClient (NewClient url)) cfg y =
    let y' := put_world w y in
    match said with
    | Ok (Some (g, e)) => (Ok tt, store_trusted g e (cf_networkID cfg) y')
    | Ok None => (Ok tt, y')
    | Err err => (Err err, y')
    | _ => (Panic, y')
    end.
Proof.
  intros Hnode Hf Hsaid. unfold syncTrustedState.
  destruct (Client_GetLatestGlobalExitRoot_served url serve (y_world y)) as [Herr Hok].
  assert (∀ g, serve "zkevm_getLatestGlobalExitRoot" JNull = (Some (JString (Hash_Hex g)), None) → is_hash g →
    fst (Client_GetLatestGlobalExitRoot (NewClient url) (y_world y)) = Ok g) as Hlatest.
  { intros g E Hg. apply Hok; [by rewrite E..|done]. }
  destruct Hsaid as [err E|E|g err E Hg Hz E2|g reply E Hg Hz E2 E3|g e E Hg Hz E2 He].
  - destruct (on_world_fst _ y _ (Herr err E)) as (w & Ew). exists w. by apply M_bind_Err.
  - destruct (on_world_fst _ y _ (Hlatest 0 E ltac:(done))) as (w & Ew). exists w. by rewrite (M_bind_Ok _ _ _ _ _ Ew).
  - destruct (on_world_fst _ y _ (Hlatest g E Hg)) as (w & Ew). rewrite (M_bind_Ok _ _ _ _ _ Ew), decide_False by done.
    destruct (Client_ExitRootsByGER_served url serve g w) as (Hr & _).
    destruct (on_world_fst (ExitRootsByGER (zkEVMClientInterface := rpc_zkEVMClient (NewClient url)) g) (put_world w y) (Err (as_error err))) as (w' & Ew').
    { cbn. by apply M_bind_fst_Err, Hr. }
    exists w'. by rewrite (M_bind_Err _ _ _ _ _ Ew').
  - destruct (on_world_fst _ y _ (Hlatest g E Hg)) as (w & Ew). rewrite (M_bind_Ok _ _ _ _ _ Ew), decide_False by done.
    destruct (Client_ExitRootsByGER_served url serve g w) as (_ & Hr & _). rewrite E2 in Hr.
    destruct (on_world_fst (ExitRootsByGER (zkEVMClientInterface := rpc_zkEVMClient (NewClient url)) g) (put_world w y) (Ok None)) as (w' & Ew').
    { cbn. by rewrite (M_bind_fst _ _ _ _ (Hr eq_refl E3)). }
    exists w'. by rewrite (M_bind_Ok _ _ _ _ _ Ew').
  - destruct (on_world_fst _ y _ (Hlatest g E Hg)) as (w & Ew). rewrite (M_bind_Ok _ _ _ _ _ Ew), decide_False by done.
    destruct (Client_ExitRootsByGER_served url serve g w) as (_ & _ & Hr). rewrite E2 in Hr.
    destruct (on_world_fst (ExitRootsByGER (zkEVMClientInterface := rpc_zkEVMClient (NewClient url)) g) (put_world w y)
      (Ok (Some (er_MainnetExitRoot e, er_RollupExitRoot e)))) as (w' & Ew').
    { cbn. by rewrite (M_bind_fst _ _ _ _ (Hr e eq_refl eq_refl He)). }
    exists w'. rewrite (M_bind_Ok _ _ _ _ _ Ew'). by apply store_trusted_runs.
Qed.
