(* ===== verification/AutoClaim.v ===== *)
(** * The auto claim service (autoclaimservice/autoclaim, autoclaimservice/blockchainmanager)

    A client of the bridge service: on every tick it asks for the bridges that are ready
    for its network, asks for their proofs, and claims them one by one or in groups.  The
    HTTP client, the JSON of the messages, the contracts of the network and the text of
    addresses are parameters.  A request is the endpoint with its arguments.  Pointers
    that may be nil are options: the proof of a response, the numbers that SetString
    does not read, and the transaction of a leaf type that is not known.  Log messages
    are left out, but not the nil pointers they dereference. *)
From S2P Require Import Prelude Types Bytes Hash GlobalIndex ClaimTypes Schema Storage Service.
From S2P Require Import NonceCache MonitorTxs CompressedTxs ClaimTxManager Hex.

(** ** Messages, contracts and configuration *)

Inductive Request :=
| PendingBridges (dest_net leaf_type : Z) (dest_addr : Address)
| MerkleProof (net_id deposit_cnt : Z)
| MerkleProofByGER (net_id deposit_cnt : Z) (ger : Hash).

(** A status and a body that may fail to be read. *)
Record HttpResponse := mkHttpResponse { hr_StatusCode : Z; hr_Body : result bytes }.
Definition StatusOK : Z := 200.
Class HttpClient (W : Type) := http_Do : Request → M W HttpResponse.

Record GetProofResponse := mkGetProofResponse { gp_Proof : option pb_Proof }.
Class Protojson := {
  Unmarshal_GetProofResponse : bytes → result GetProofResponse;
  Unmarshal_GetBridgesResponse : bytes → result (list pb_Deposit * Z)
}.

(** [common.FromHex]. *)
Class CommonFromHex := FromHex_bytes : string → bytes.

(** The arguments of ClaimAsset and ClaimMessage. *)
Record ClaimArgs := mkClaimArgs {
  ca_smtProof : list Hash;
  ca_smtRollupProof : list Hash;
  ca_globalIndex : option Z;
  ca_mainnetExitRoot : Hash;
  ca_rollupExitRoot : Hash;
  ca_origNet : Z;
  ca_origAddr : Address;
  ca_destNet : Z;
  ca_destAddr : Address;
  ca_amount : option Z;
  ca_metadata : bytes
}.

(** What the claim compressor takes per claim. *)
Record ClaimCallData := mkClaimCallData {
  cl_SmtProofLocalExitRoot : list Hash;
  cl_SmtProofRollupExitRoot : list Hash;
  cl_GlobalIndex : option Z;
  cl_OriginNetwork : Z;
  cl_OriginAddress : Address;
  cl_DestinationAddress : Address;
  cl_Amount : option Z;
  cl_Metadata : bytes;
  cl_IsMessage : bool
}.

Class AutoContracts (W : Type) := {
  smc_ClaimAsset : TransactOpts → ClaimArgs → M W BuiltTx;
  smc_ClaimMessage : TransactOpts → ClaimArgs → M W BuiltTx;
  smc_CompressClaims : Hash → Hash → list ClaimCallData → M W bytes;
  smc_SendCompressed : TransactOpts → bytes → M W BuiltTx
}.

Record AutoConfig := mkAutoConfig {
  ac_AuthorizedClaimMessageAddresses : list Address;
  ac_MaxNumberOfClaimsPerGroup : Z
}.

(** [ClaimCompressor]: whether the pointer is set. *)
Record bmClient := mkBmClient {
  bm_NetworkID : Z;
  bm_ClaimCompressor : bool;
  bm_auth : TransactOpts
}.

Section AutoClaim.
Context {W : Type} `{HttpClient W} `{Protojson} `{AutoContracts W} `{CommonHex} `{CommonFromHex} `{Keccak256}.
Context (cfg : AutoConfig) (bm : bmClient).

(** ** blockchainmanager/manager.go *)

Definition SendCompressedClaims (compressedTxData : bytes) : M W BuiltTx := smc_SendCompressed (bm_auth bm) compressedTxData.

(** An error of the contract is logged and an empty slice is returned. *)
Definition CompressClaimCall (mainnetExitRoot rollupExitRoot : Hash) (claimData : list ClaimCallData) : M W bytes :=
  r ← attempt (smc_CompressClaims mainnetExitRoot rollupExitRoot claimData);
  match r with
  | inl _ => mret []
  | inr compressedData => mret compressedData
  end.

(** No case of the switch: the transaction is nil and so is the error. *)
Definition callClaim (opts : TransactOpts) (leafType : Z) (args : ClaimArgs) : M W (option BuiltTx) :=
  if decide (leafType = LeafTypeAsset) then tx ← smc_ClaimAsset opts args; mret (Some tx) else
  if decide (leafType = LeafTypeMessage) then tx ← smc_ClaimMessage opts args; mret (Some tx) else
  mret None.

Definition SendClaim (leafType : Z) (args : ClaimArgs) : M W (option BuiltTx) := callClaim (bm_auth bm) leafType args.

Definition noSend (opts : TransactOpts) : TransactOpts :=
  mkTransactOpts true (to_Nonce opts) (to_GasPrice opts) (to_GasLimit opts).

Definition EstimateGasClaim (leafType : Z) (args : ClaimArgs) : M W (option BuiltTx) :=
  r ← attempt (callClaim (noSend (bm_auth bm)) leafType args);
  match r with
  | inl _ => throw (Errorf "failed to estimate gas tx, err: %v")
  | inr tx => mret tx
  end.

(** ** The requests *)

Definition proofRequest (req : Request) (msg : string) : M W GetProofResponse :=
  res ← http_Do req;
  if decide (hr_StatusCode res = StatusOK) then
    body ← lift (hr_Body res);
    lift (Unmarshal_GetProofResponse body)
  else throw (Errorf msg).

Definition getProof (bridge : pb_Deposit) : M W GetProofResponse :=
  proofRequest (MerkleProof (pd_NetworkId bridge) (pd_DepositCnt bridge))
    "error calling /merkle-proof endpoint. Status Code: %d".

Definition getProofByGER (bridge : pb_Deposit) (ger : Hash) : M W GetProofResponse :=
  proofRequest (MerkleProofByGER (pd_NetworkId bridge) (pd_DepositCnt bridge) ger)
    "error calling merkle-proof-by-ger endpoint. Status Code: %d".

(** The body stays empty when the status is not OK. *)
Definition getPendingBridges (leafType : Z) (destAddress : Address) : M W (list pb_Deposit * Z) :=
  res ← http_Do (PendingBridges (bm_NetworkID bm) leafType destAddress);
  body ← (if decide (hr_StatusCode res = StatusOK) then lift (hr_Body res) else mret []);
  lift (Unmarshal_GetBridgesResponse body).

Fixpoint messageBridges (addrs : list Address) (bridges : list pb_Deposit) : M W (list pb_Deposit) :=
  match addrs with
  | [] => mret bridges
  | addr :: addrs =>
      '(authorizedBridges, _) ← getPendingBridges LeafTypeMessage addr;
      messageBridges addrs (bridges ++ authorizedBridges)
  end.

Definition getBridgesToClaim : M W (list pb_Deposit) :=
  '(bridges, _) ← getPendingBridges LeafTypeAsset 0;
  messageBridges (ac_AuthorizedClaimMessageAddresses cfg) bridges.

(** ** The claims of a tick *)

Definition hash (data : list Hash) : Hash := keccak256 (concat (be_bytes 32 <$> data)).

(** var smtProof, smtRollupProof [32][32]byte, filled from the texts of the proof. *)
Definition smtProofs (p : pb_Proof) : result (list Hash * list Hash) :=
  fold_result (λ acc i,
    m ← at_index (pp_MerkleProof p) (Z.of_nat i);
    smtProof ← set_index acc.1 (Z.of_nat i) (HexToHash m);
    r ← at_index (pp_RollupMerkleProof p) (Z.of_nat i);
    smtRollupProof ← set_index acc.2 (Z.of_nat i) (HexToHash r);
    Ok (smtProof, smtRollupProof)) (replicate mtHeight 0, replicate mtHeight 0) (seq 0 (length (pp_MerkleProof p))).

(** The arguments of a claim from the messages, with the exit roots it is proved for. *)
Definition claimArgs (b : pb_Deposit) (p : pb_Proof) (mainnetExitRoot rollupExitRoot : Hash) : result ClaimArgs :=
  '(smtProof, smtRollupProof) ← smtProofs p;
  Ok (mkClaimArgs smtProof smtRollupProof (SetString0 (pd_GlobalIndex b)) mainnetExitRoot rollupExitRoot
        (pd_OrigNet b) (HexToAddress (pd_OrigAddr b)) (pd_DestNet b) (HexToAddress (pd_DestAddr b))
        (SetString0 (pd_Amount b)) (FromHex_bytes (pd_Metadata b))).

(** A field of a nil pointer. *)
Definition deref {A} (p : option A) : result A := match p with Some a => Ok a | None => Panic end.

(** The loop over the bridges: the proof of each, an error ends the tick. *)
Fixpoint collectProofs (get : pb_Deposit → M W GetProofResponse) (bridges : list pb_Deposit) (proofs : list GetProofResponse)
    : M W (list GetProofResponse) :=
  match bridges with
  | [] => mret proofs
  | b :: bridges => proof ← get b; collectProofs get bridges (proofs ++ [proof])
  end.

(** An error of a claim is logged: other claims can work. *)
Definition sendBridge (b : pb_Deposit) (proof : GetProofResponse) : M W unit :=
  p ← lift (deref (gp_Proof proof));
  args ← lift (claimArgs b p (HexToHash (pp_MainExitRoot p)) (HexToHash (pp_RollupExitRoot p)));
  r ← attempt (SendClaim (pd_LeafType b) args);
  match r with
  | inl _ => mret tt
  | inr tx => _ ← lift (deref tx); mret tt
  end.

Definition claimIndividually : M W unit :=
  bridges ← getBridgesToClaim;
  if decide (length bridges = 0%nat) then mret tt else
  proofs ← collectProofs getProof bridges [];
  if decide (length bridges ≠ length proofs)
  then throw (Errorf "error: bridges length and proofs length don't match in claimIndividually()") else
  forM_ (seq 0 (length bridges)) (λ i,
    b ← lift (at_index bridges (Z.of_nat i));
    proof ← lift (at_index proofs (Z.of_nat i));
    sendBridge b proof).

(** ** Groups *)

(** Slices past the end panic; a loop that makes no progress does not end. *)
Fixpoint arraySplitter_loop {T} (fuel : nat) (arr : list T) (size : Z) (chunks : list (list T)) : result (list (list T)) :=
  match fuel with
  | O => if decide (length arr = 0%nat) then Ok chunks else OutOfFuel
  | S fuel =>
      if decide (length arr = 0%nat) then Ok chunks else
      let size := if decide (Z.of_nat (length arr) < size) then Z.of_nat (length arr) else size in
      if decide (0 ≤ size ≤ Z.of_nat (length arr))
      then arraySplitter_loop fuel (drop (Z.to_nat size) arr) size (chunks ++ [take (Z.to_nat size) arr])
      else Panic
  end.
Definition arraySplitter {T} (fuel : nat) (arr : list T) (size : Z) : result (list (list T)) :=
  arraySplitter_loop fuel arr size [].

(** The claims of a group that the contract accepts; [None]: skipped. *)
Definition groupClaim (mainnetExitRoot rollupExitRoot : Hash) (b : pb_Deposit) (proof : GetProofResponse)
    : M W (option ClaimCallData) :=
  p ← lift (deref (gp_Proof proof));
  args ← lift (claimArgs b p mainnetExitRoot rollupExitRoot);
  r ← attempt (EstimateGasClaim (pd_LeafType b) args);
  mret (match r with
        | inl _ => None
        | inr _ => Some (mkClaimCallData (ca_smtProof args) (ca_smtRollupProof args) (ca_globalIndex args) (pd_OrigNet b)
                     (ca_origAddr args) (ca_destAddr args) (ca_amount args) (ca_metadata args)
                     (bool_decide (pd_LeafType b = LeafTypeMessage)))
        end).

Fixpoint groupClaims (mainnetExitRoot rollupExitRoot : Hash) (sb : list pb_Deposit) (sp : list GetProofResponse) (i : Z)
    (allClaimData : list ClaimCallData) : M W (list ClaimCallData) :=
  match sb with
  | [] => mret allClaimData
  | b :: sb =>
      proof ← lift (at_index sp i);
      claimData ← groupClaim mainnetExitRoot rollupExitRoot b proof;
      groupClaims mainnetExitRoot rollupExitRoot sb sp (i + 1) (allClaimData ++ option_list claimData)
  end.

(** A group with nothing to send ends the loop. *)
Fixpoint sendGroups (mainnetExitRoot rollupExitRoot : Hash) (splittedBridges : list (list pb_Deposit))
    (splittedProofs : list (list GetProofResponse)) (j : Z) : M W unit :=
  match splittedBridges with
  | [] => mret tt
  | sb :: splittedBridges =>
      sp ← lift (if decide (length sb = 0%nat) then Ok [] else at_index splittedProofs j);
      allClaimData ← groupClaims mainnetExitRoot rollupExitRoot sb sp 0 [];
      if decide (length allClaimData = 0%nat) then mret tt else
      compressedTxData ← CompressClaimCall mainnetExitRoot rollupExitRoot allClaimData;
      _ ← SendCompressedClaims compressedTxData;
      sendGroups mainnetExitRoot rollupExitRoot splittedBridges splittedProofs (j + 1)
  end.

Definition claimGrouped (fuel : nat) : M W unit :=
  bridges ← getBridgesToClaim;
  match bridges with
  | [] => mret tt
  | b :: rest =>
      proof ← getProof b;
      p ← lift (deref (gp_Proof proof));
      let mainnetExitRoot := HexToHash (pp_MainExitRoot p) in
      let rollupExitRoot := HexToHash (pp_RollupExitRoot p) in
      let ger := hash [mainnetExitRoot; rollupExitRoot] in
      proofs ← collectProofs (λ b, getProofByGER b ger) rest [proof];
      if decide (length bridges ≠ length proofs)
      then throw (Errorf "error: bridges length and proofs length don't match in claimGrouped()") else
      splittedBridges ← lift (arraySplitter fuel bridges (ac_MaxNumberOfClaimsPerGroup cfg));
      splittedProofs ← lift (arraySplitter fuel proofs (ac_MaxNumberOfClaimsPerGroup cfg));
      sendGroups mainnetExitRoot rollupExitRoot splittedBridges splittedProofs 0
  end.

(** The case of the ticker in [Start]: errors are logged. *)
Definition tick (fuel : nat) : M W unit :=
  _ ← attempt (if decide (ac_MaxNumberOfClaimsPerGroup cfg = 0 ∨ bm_ClaimCompressor bm = false)
               then claimIndividually else claimGrouped fuel);
  mret tt.

End AutoClaim.
