(* ===== verification/AutoClaimTheorems.v ===== *)
(** * What the auto claim service guarantees

    The chunks of [arraySplitter] are the array, and a tick ends because the guard of
    [Start] keeps the size that would not; a group that is compressed has between one and
    the maximum of claims, each accepted by the contract before; and the claims that are
    sent for the messages of the bridge service are the claims of the deposits. *)
From S2P Require Import Prelude Types Bytes Hash GlobalIndex ClaimTypes Schema Storage Service.
From S2P Require Import NonceCache MonitorTxs CompressedTxs ClaimTxManager Hex Invariants AutoClaim.

(** ** The chunks *)

Lemma arraySplitter_loop_Ok {T} fuel (arr : list T) size chunks :
  0 < size → (length arr ≤ fuel)%nat →
  ∃ cs, arraySplitter_loop fuel arr size chunks = Ok (chunks ++ cs) ∧ concat cs = arr ∧
    Forall (λ c, 0 < Z.of_nat (length c) ≤ size) cs ∧
    ∀ i c, cs !! i = Some c → (S i < length cs)%nat → Z.of_nat (length c) = size.
Proof.
  revert arr size chunks. induction fuel as [|fuel IH]; intros arr size chunks Hs Hf; cbn [arraySplitter_loop];
    (destruct (decide (length arr = 0%nat)) as [Hz|Hz]; [apply nil_length_inv in Hz as ->; exists []; by rewrite app_nil_r|]); [lia|].
  set (n := if decide (Z.of_nat (length arr) < size) then Z.of_nat (length arr) else size).
  assert (0 < n ≤ size ∧ n ≤ Z.of_nat (length arr) ∧ (n < size → n = Z.of_nat (length arr))) as (Hn & Hl & Hlast)
    by (unfold n; case_decide; lia).
  clearbody n. rewrite decide_True by lia. set (k := Z.to_nat n).
  destruct (IH (drop k arr) n (chunks ++ [take k arr])) as (cs & -> & Ec & Hall & Hfull); [lia|rewrite length_drop; lia|].
  exists (take k arr :: cs). rewrite <- app_assoc. split; [done|]. split; [cbn; by rewrite Ec, take_drop|]. split.
  - constructor; [rewrite length_take; lia|]. eapply Forall_impl; [exact Hall|]. cbn. lia.
  - assert (n < size → cs = []) as Hnil.
    { intros Hlt. rewrite drop_ge in Ec by (unfold k; rewrite (Hlast Hlt); lia).
      destruct cs as [|c cs]; [done|]. apply Forall_inv in Hall. destruct c; [cbn in Hall; lia|done]. }
    intros [|i] c Hi Hlen.
    + injection Hi as <-. rewrite length_take. destruct (decide (n < size)) as [Hlt|]; [|lia].
      rewrite (Hnil Hlt) in Hlen. cbn in Hlen. lia.
    + destruct (decide (n < size)) as [Hlt|]; [by rewrite (Hnil Hlt) in Hi|].
      assert (n = size) as <- by lia. apply (Hfull i c Hi). cbn in Hlen. lia.
Qed.

(** Arrays of the same length are split alike. *)
Lemma arraySplitter_map {T U} (f : T → U) fuel (arr : list T) size chunks cs :
  arraySplitter_loop fuel arr size chunks = Ok cs →
  arraySplitter_loop fuel (map f arr) size (map (map f) chunks) = Ok (map (map f) cs).
Proof.
  revert arr size chunks. induction fuel as [|fuel IH]; intros arr size chunks; cbn [arraySplitter_loop]; rewrite length_map.
  { case_decide; [by intros [= ->]|done]. }
  case_decide; [by intros [= ->]|]. case_decide; [|done]. intros E%IH. rewrite map_app in E. cbn [map] in E.
  by rewrite <- skipn_map, <- firstn_map in E.
Qed.

(** A size of zero makes no progress. *)
Lemma arraySplitter_zero {T} fuel (arr : list T) : arr ≠ [] → arraySplitter fuel arr 0 = OutOfFuel.
Proof.
  intros Ha. unfold arraySplitter. generalize (@nil (list T)). induction fuel as [|fuel IH]; intros chunks; cbn [arraySplitter_loop];
    (rewrite decide_False by (by intros ?%nil_length_inv)); [done|].
  rewrite (decide_False (P := Z.of_nat (length arr) < 0)) by lia. rewrite decide_True by lia. apply IH.
Qed.

(** ** A tick ends *)

(** The computation does not go round for ever. *)
Definition ends {W A} (c : M W A) : Prop := ∀ w, fst (c w) ≠ OutOfFuel.

Lemma ends_mret {W A} (a : A) : ends (W := W) (mret a).
Proof. done. Qed.
Lemma ends_throw {W A} e : ends (W := W) (A := A) (throw e).
Proof. done. Qed.
Lemma ends_lift {W A} (r : result A) : r ≠ OutOfFuel → ends (W := W) (lift r).
Proof. by intros Hr w. Qed.
Lemma ends_bind {W A B} (m : M W A) (f : A → M W B) : ends m → (∀ a, ends (f a)) → ends (m ≫= f).
Proof. intros Hm Hf w. specialize (Hm w). unfold mbind, M_bind. destruct (m w) as [[] w']; try done. apply Hf. Qed.
Lemma ends_attempt {W A} (m : M W A) : ends m → ends (attempt m).
Proof. intros Hm w. specialize (Hm w). unfold attempt. by destruct (m w) as [[] w']. Qed.
Lemma ends_forM {W A} (l : list A) (body : A → M W unit) : (∀ a, ends (body a)) → ends (forM_ l body).
Proof. intros Hb. induction l as [|x l IH]; [done|]. by apply ends_bind. Qed.
Lemma at_index_ends {A} (l : list A) i : at_index l i ≠ OutOfFuel.
Proof. unfold at_index. by repeat case_match. Qed.
Lemma set_index_ends {A} (l : list A) i x : set_index l i x ≠ OutOfFuel.
Proof. unfold set_index. by case_decide. Qed.
Lemma deref_ends {A} (p : option A) : deref p ≠ OutOfFuel.
Proof. by destruct p. Qed.
Lemma fold_result_ends {A B} (f : B → A → result B) b l : (∀ b x, f b x ≠ OutOfFuel) → fold_result f b l ≠ OutOfFuel.
Proof.
  intros Hf. revert b. induction l as [|x l IH]; intros b; [done|]. cbn. specialize (Hf b x).
  by destruct (f b x); [apply IH|..].
Qed.
#[export] Hint Resolve ends_mret ends_throw ends_lift at_index_ends set_index_ends deref_ends : bridge.

Ltac ends_step :=
  match goal with
  | |- ∀ _, _ => intro
  | |- ends (_ ≫= _) => apply ends_bind
  | |- ends (attempt _) => apply ends_attempt
  | |- ends (forM_ _ _) => apply ends_forM
  | |- ends (if _ then _ else _) => case_match
  | |- ends (match _ with _ => _ end) => case_match
  | _ => progress eauto with bridge
  end.
Ltac ends_auto := repeat ends_step.

(** The calls of the libraries end. *)
Class ServicesEnd (W : Type) `{HttpClient W} `{Protojson} `{AutoContracts W} := {
  http_ends : ∀ req, ends (http_Do req);
  body_ends : ∀ req w res w', http_Do req w = (Ok res, w') → hr_Body res ≠ OutOfFuel;
  proof_ends : ∀ body, Unmarshal_GetProofResponse body ≠ OutOfFuel;
  bridges_ends : ∀ body, Unmarshal_GetBridgesResponse body ≠ OutOfFuel;
  claimAsset_ends : ∀ opts args, ends (smc_ClaimAsset opts args);
  claimMessage_ends : ∀ opts args, ends (smc_ClaimMessage opts args);
  compress_ends : ∀ m r data, ends (smc_CompressClaims m r data);
  send_ends : ∀ opts data, ends (smc_SendCompressed opts data)
}.
#[export] Hint Resolve http_ends proof_ends bridges_ends claimAsset_ends claimMessage_ends compress_ends send_ends : bridge.

Section Ends.
Context {W : Type} `{SE : ServicesEnd W} `{CommonHex} `{CommonFromHex} `{Keccak256}.
Context (cfg : AutoConfig) (bm : bmClient).

(** The body of a response is read after the request. *)
Lemma ends_http {A} req (f : HttpResponse → M W A) :
  (∀ res, hr_Body res ≠ OutOfFuel → ends (f res)) → ends (http_Do req ≫= f).
Proof.
  intros Hf w. pose proof (http_ends req w) as Hr. unfold mbind, M_bind. destruct (http_Do req w) as [[res| | |] w'] eqn:E; try done.
  by eapply Hf, body_ends.
Qed.

Lemma ends_getPendingBridges leafType addr : ends (getPendingBridges bm leafType addr).
Proof. apply ends_http. intros res Hres. ends_auto. Qed.

Lemma ends_proofRequest req msg : ends (W := W) (proofRequest req msg).
Proof. apply ends_http. intros res Hres. ends_auto. Qed.
Hint Resolve ends_getPendingBridges ends_proofRequest : bridge.

Lemma ends_getBridgesToClaim : ends (getBridgesToClaim cfg bm).
Proof.
  unfold getBridgesToClaim. apply ends_bind; [auto with bridge|]. intros [bridges n].
  revert bridges. induction (ac_AuthorizedClaimMessageAddresses cfg) as [|a l IH]; intros bridges; cbn [messageBridges]; [done|].
  apply ends_bind; [auto with bridge|]. intros []. apply IH.
Qed.

Lemma ends_collectProofs get bridges proofs : (∀ b, ends (get b)) → ends (W := W) (collectProofs get bridges proofs).
Proof. intros Hg. revert proofs. induction bridges as [|b l IH]; intros proofs; cbn [collectProofs]; ends_auto. Qed.

Lemma claimArgs_ends b p m r : claimArgs b p m r ≠ OutOfFuel.
Proof.
  unfold claimArgs. assert (smtProofs p ≠ OutOfFuel) as Hp; [|by destruct (smtProofs p) as [[]| | |]].
  apply fold_result_ends. intros acc i. cbn.
  pose proof (at_index_ends (pp_MerkleProof p) (Z.of_nat i)). destruct (at_index (pp_MerkleProof p) (Z.of_nat i)) as [x| | |]; try done. cbn.
  pose proof (set_index_ends acc.1 (Z.of_nat i) (HexToHash x)). destruct (set_index acc.1 (Z.of_nat i) (HexToHash x)); try done. cbn.
  pose proof (at_index_ends (pp_RollupMerkleProof p) (Z.of_nat i)). destruct (at_index (pp_RollupMerkleProof p) (Z.of_nat i)) as [y| | |]; try done. cbn.
  pose proof (set_index_ends acc.2 (Z.of_nat i) (HexToHash y)). by destruct (set_index acc.2 (Z.of_nat i) (HexToHash y)).
Qed.

Lemma ends_callClaim opts leafType args : ends (W := W) (callClaim opts leafType args).
Proof. unfold callClaim. ends_auto. Qed.
Hint Resolve ends_getBridgesToClaim ends_collectProofs claimArgs_ends ends_callClaim : bridge.

Lemma ends_claimIndividually : ends (claimIndividually cfg bm).
Proof.
  unfold claimIndividually, sendBridge, SendClaim, getProof. ends_auto.
Qed.

Lemma ends_groupClaims m r sb sp i acc : ends (groupClaims bm m r sb sp i acc).
Proof.
  revert i acc. induction sb as [|b sb IH]; intros i acc; cbn [groupClaims]; [done|]. unfold groupClaim, EstimateGasClaim. ends_auto.
Qed.
Hint Resolve ends_claimIndividually ends_groupClaims : bridge.

Lemma ends_sendGroups m r sbs sps j : ends (sendGroups bm m r sbs sps j).
Proof.
  revert j. induction sbs as [|sb sbs IH]; intros j; cbn [sendGroups]; [done|].
  unfold CompressClaimCall, SendCompressedClaims. ends_auto. apply ends_lift. case_decide; auto with bridge.
Qed.

End Ends.

Lemma arraySplitter_ends {T} fuel (arr : list T) size :
  size ≠ 0 → (length arr ≤ fuel)%nat → arraySplitter fuel arr size ≠ OutOfFuel.
Proof.
  intros Hs Hf. destruct (decide (0 < size)) as [Hp|Hp].
  { by destruct (arraySplitter_loop_Ok fuel arr size [] Hp Hf) as (cs & E & _); unfold arraySplitter; rewrite E. }
  unfold arraySplitter. destruct fuel as [|fuel]; cbn [arraySplitter_loop]; (case_decide; [done|]); [lia|].
  rewrite (decide_False (P := Z.of_nat (length arr) < size)) by lia. by rewrite decide_False by lia.
Qed.

(** C30: A tick of the auto claim service ends: with a maximum of zero claims per group,
    for which arraySplitter goes round for ever, the claims are sent one by one.  The
    number of bridges is enough rounds for the loop. *)
Theorem tick_terminates {W : Type} `{SE : ServicesEnd W} `{CommonHex} `{CommonFromHex} `{Keccak256}
    (cfg : AutoConfig) (bm : bmClient) (fuel : nat) (w : W) :
  (∀ bridges w', getBridgesToClaim cfg bm w = (Ok bridges, w') → (length bridges ≤ fuel)%nat) →
  fst (tick cfg bm fuel w) ≠ OutOfFuel.
Proof.
  intros Hfuel. unfold tick.
  assert (fst ((if decide (ac_MaxNumberOfClaimsPerGroup cfg = 0 ∨ bm_ClaimCompressor bm = false)
                then claimIndividually cfg bm else claimGrouped cfg bm fuel) w) ≠ OutOfFuel) as He.
  { case_decide as Hg; [apply ends_claimIndividually|]. unfold claimGrouped.
    pose proof (ends_getBridgesToClaim cfg bm w) as Hb.
    destruct (getBridgesToClaim cfg bm w) as [[bridges| | |] w'] eqn:E; [|unfold mbind, M_bind; by rewrite E..].
    erewrite M_bind_Ok by exact E. specialize (Hfuel _ _ eq_refl). destruct bridges as [|b rest]; [done|].
    match goal with |- fst (?c w') ≠ _ => assert (ends c) as Hc; [|apply Hc] end.
    assert (∀ T (arr : list T), (length arr ≤ fuel)%nat → arraySplitter fuel arr (ac_MaxNumberOfClaimsPerGroup cfg) ≠ OutOfFuel) as Hsplit
      by (intros; apply arraySplitter_ends; [tauto|done]).
    apply ends_bind; [apply ends_proofRequest|]. intros proof. apply ends_bind; [auto with bridge|]. intros p.
    apply ends_bind; [apply ends_collectProofs; intros; apply ends_proofRequest|]. intros proofs. case_decide as Hlen; [done|].
    apply ends_bind; [apply ends_lift; auto|]. intros sbs.
    apply ends_bind; [apply ends_lift, Hsplit; lia|]. intros sps. apply ends_sendGroups. }
  revert He. match goal with |- fst (?c w) ≠ _ → _ => generalize c end. intros c Hc.
  unfold attempt, mbind, M_bind. by destruct (c w) as [[] ?].
Qed.

(** ** Claims that are sent *)

(** The calls of the contracts, in order, and whether they succeed. *)
Inductive Call :=
| CallClaim (isMessage : bool) (opts : TransactOpts) (args : ClaimArgs) (ok : bool)
| CallCompress (mainnetExitRoot rollupExitRoot : Hash) (claimData : list ClaimCallData)
| CallSend (opts : TransactOpts) (data : bytes).

(** The same contracts and requests, with a trace of the calls. *)
Definition traced {W A} (c : M W A) (call : result A → Call) : M (W * list Call) A := λ s,
  let '(r, w) := c s.1 in (r, (w, s.2 ++ [call r])).
Definition isOk {A} (r : result A) : bool := match r with Ok _ => true | _ => false end.

#[global] Instance traced_contracts {W} `{AutoContracts W} : AutoContracts (W * list Call) := {|
  smc_ClaimAsset opts args := traced (smc_ClaimAsset opts args) (λ r, CallClaim false opts args (isOk r));
  smc_ClaimMessage opts args := traced (smc_ClaimMessage opts args) (λ r, CallClaim true opts args (isOk r));
  smc_CompressClaims m r data := traced (smc_CompressClaims m r data) (λ _, CallCompress m r data);
  smc_SendCompressed opts data := traced (smc_SendCompressed opts data) (λ _, CallSend opts data)
|}.
#[global] Instance traced_http {W} `{HttpClient W} : HttpClient (W * list Call) := λ req s,
  let '(r, w) := http_Do req s.1 in (r, (w, s.2)).

(** The arguments of a claim as data of the compressor. *)
Definition callData_of (isMessage : bool) (args : ClaimArgs) : ClaimCallData :=
  mkClaimCallData (ca_smtProof args) (ca_smtRollupProof args) (ca_globalIndex args) (ca_origNet args) (ca_origAddr args)
    (ca_destAddr args) (ca_amount args) (ca_metadata args) isMessage.

(** The contract accepted the claim for these exit roots, without sending it. *)
Definition accepted (tr : list Call) (m r : Hash) (data : ClaimCallData) : Prop :=
  ∃ isMessage opts args, CallClaim isMessage opts args true ∈ tr ∧ to_NoSend opts = true ∧
    ca_mainnetExitRoot args = m ∧ ca_rollupExitRoot args = r ∧ data = callData_of isMessage args.

(** A call after the calls [tr]: claims are only estimated, and the claims that are
    compressed were accepted for the same exit roots, at least one and at most [max]. *)
Definition good_call (max : Z) (tr : list Call) (call : Call) : Prop :=
  match call with
  | CallClaim _ opts _ _ => to_NoSend opts = true
  | CallCompress m r data => 0 < Z.of_nat (length data) ≤ max ∧ Forall (accepted tr m r) data
  | CallSend _ _ => True
  end.
Definition good_calls (max : Z) (tr : list Call) : Prop :=
  ∀ tr1 call tr2, tr = tr1 ++ call :: tr2 → good_call max tr1 call.

Lemma good_calls_snoc max tr call : good_calls max tr → good_call max tr call → good_calls max (tr ++ [call]).
Proof.
  intros Htr Hc tr1 call' tr2 E. destruct tr2 as [|x tr2 _] using rev_ind.
  - apply app_inj_tail in E as [-> ->]. done.
  - rewrite app_comm_cons, app_assoc in E. apply app_inj_tail in E as [-> _]. by eapply Htr.
Qed.

Lemma accepted_snoc tr call m r data : accepted tr m r data → accepted (tr ++ [call]) m r data.
Proof. intros (b & o & a & Hin & Hrest). exists b, o, a. split; [|done]. apply elem_of_app. by left. Qed.

(** The chunks hold elements of the array, and no more than the size. *)
Lemma arraySplitter_sizes {T} (P : T → Prop) fuel (arr : list T) size max chunks cs :
  arraySplitter_loop fuel arr size chunks = Ok cs → size ≤ max → Forall P arr →
  Forall (λ c, Z.of_nat (length c) ≤ max ∧ Forall P c) chunks → Forall (λ c, Z.of_nat (length c) ≤ max ∧ Forall P c) cs.
Proof.
  revert arr size chunks. induction fuel as [|fuel IH]; intros arr size chunks E Hs Ha Hc; cbn [arraySplitter_loop] in E.
  { case_decide; by simplify_eq. }
  case_decide; [by simplify_eq|].
  set (n := if decide (Z.of_nat (length arr) < size) then Z.of_nat (length arr) else size) in *.
  assert (n ≤ max) by (unfold n; destruct (decide (Z.of_nat (length arr) < size)); lia). clearbody n. case_decide; [|done].
  eapply IH; [exact E|done|by apply Forall_drop|]. apply Forall_app. split; [done|]. constructor; [|done].
  split; [rewrite length_take; lia|by apply Forall_take].
Qed.

Lemma hoare_inv {S A} (I : S → Prop) (c : M S A) s : hoare I c (λ _, I) I → I s → I (snd (c s)).
Proof. intros Hc Hs. specialize (Hc s Hs). by destruct (c s) as [[] ?]. Qed.

(** The leaf types that the service is asked for. *)
Definition claimable_leaf (b : pb_Deposit) : Prop := pd_LeafType b = LeafTypeAsset ∨ pd_LeafType b = LeafTypeMessage.

(** Requests leave the trace alone. *)
Definition on_trace {W} (Q : list Call → Prop) (s : W * list Call) : Prop := Q (snd s).

Section Requests.
Context {W : Type} `{HttpClient W} `{Protojson} (cfg : AutoConfig) (bm : bmClient) (Q : list Call → Prop).

Local Abbreviation TS := (W * list Call)%type.
Local Abbreviation I := (on_trace (W := W) Q).

Lemma keeps_http req : keeps I (http_Do req).
Proof. intros [w tr] Hs. unfold http_Do, traced_http. cbn. by destruct (http_Do req w). Qed.
Hint Resolve keeps_http : bridge.

Lemma keeps_proofRequest req msg : keeps I (proofRequest (W := TS) req msg).
Proof. unfold proofRequest. keeps_auto. Qed.
Lemma keeps_getPendingBridges leafType addr : keeps I (getPendingBridges bm leafType addr).
Proof. unfold getPendingBridges. keeps_auto. Qed.
Hint Resolve keeps_proofRequest keeps_getPendingBridges : bridge.

Lemma keeps_getBridgesToClaim : keeps I (getBridgesToClaim cfg bm).
Proof.
  unfold getBridgesToClaim. apply keeps_bind; [auto with bridge|]. intros [bridges n]. revert bridges.
  induction (ac_AuthorizedClaimMessageAddresses cfg) as [|a l IH]; intros bridges; cbn [messageBridges]; [apply keeps_mret|].
  apply keeps_bind; [auto with bridge|]. intros []. apply IH.
Qed.

Lemma keeps_collectProofs get bridges proofs :
  (∀ b, keeps I (get b)) → keeps I (collectProofs (W := TS) get bridges proofs).
Proof. intros Hg. revert proofs. induction bridges as [|b l IH]; intros proofs; cbn [collectProofs]; keeps_auto. Qed.

End Requests.

Section Groups.
Context {W : Type} `{HttpClient W} `{Protojson} `{AutoContracts W} `{CommonHex} `{CommonFromHex} `{Keccak256}.
Context (cfg : AutoConfig) (bm : bmClient) (max : Z).

Local Abbreviation TS := (W * list Call)%type.
Definition tr_good : TS → Prop := on_trace (good_calls max).

Lemma claimArgs_fields b p m r args :
  claimArgs b p m r = Ok args → ca_mainnetExitRoot args = m ∧ ca_rollupExitRoot args = r ∧ ca_origNet args = pd_OrigNet b.
Proof. unfold claimArgs. destruct (smtProofs p) as [[]| | |]; [|done..]. by intros [= <-]. Qed.

(** The data collected so far was accepted. *)
Definition collected (m r : Hash) (acc : list ClaimCallData) (s : TS) : Prop :=
  tr_good s ∧ Forall (accepted (snd s) m r) acc.

Lemma collected_snoc m r acc w w' tr call :
  collected m r acc (w, tr) → good_call max tr call → collected m r acc (w', tr ++ [call]).
Proof.
  intros [Hg Ha] Hc. split; [by apply good_calls_snoc|]. eapply Forall_impl; [exact Ha|]. intros; by apply accepted_snoc.
Qed.

Lemma callClaim_asset opts args : callClaim (W := TS) opts LeafTypeAsset args = (tx ← smc_ClaimAsset opts args; mret (Some tx)).
Proof. done. Qed.
Lemma callClaim_message opts args :
  callClaim (W := TS) opts LeafTypeMessage args = (tx ← smc_ClaimMessage opts args; mret (Some tx)).
Proof. done. Qed.

(** A gas estimation; when the contract accepts it, the claim joins the group. *)
Lemma hoare_estimate m r acc isMessage leafType args :
  leafType = (if isMessage : bool then LeafTypeMessage else LeafTypeAsset) →
  ca_mainnetExitRoot args = m → ca_rollupExitRoot args = r →
  hoare (collected m r acc) (attempt (EstimateGasClaim bm leafType args))
    (λ res, collected m r (match res with inl _ => acc | inr _ => acc ++ [callData_of isMessage args] end)) tr_good.
Proof.
  intros -> Em Er. apply hoare_attempt. intros [w tr] Hs. unfold EstimateGasClaim.
  destruct isMessage; [rewrite callClaim_message|rewrite callClaim_asset]; unfold attempt, mbind, M_bind; cbn; unfold traced; cbn.
  1: destruct (smc_ClaimMessage (noSend (bm_auth bm)) args w) as [[] w'].
  5: destruct (smc_ClaimAsset (noSend (bm_auth bm)) args w) as [[] w'].
  all: cbn; match goal with |- context [CallClaim ?b ?o ?a ?k] =>
    pose proof (collected_snoc _ _ _ _ w' _ (CallClaim b o a k) Hs eq_refl) as Hs' end.
  all: try (apply Hs').
  all: split; [apply Hs'|]; apply Forall_app; split; [apply Hs'|]; constructor; [|done].
  all: eexists _, _, args; split; [apply elem_of_app; right; by left|done].
Qed.

Lemma hoare_lift_calls {A} (P : TS → Prop) (res : result A) :
  (∀ s, P s → tr_good s) → hoare P (lift res) (λ a s, res = Ok a ∧ P s) tr_good.
Proof. intros HP s Hs. unfold lift. destruct res; [done|by apply HP..]. Qed.

Lemma hoare_groupClaim m r acc b proof :
  claimable_leaf b →
  hoare (collected m r acc) (groupClaim bm m r b proof) (λ o, collected m r (acc ++ option_list o)) tr_good.
Proof.
  intros Hb. unfold groupClaim. assert (∀ s, collected m r acc s → tr_good s) as Hg by (by intros s []).
  eapply hoare_bind; [by apply hoare_lift_calls|]. intros p. apply hoare_pure. intros _.
  eapply hoare_bind; [by apply hoare_lift_calls|]. intros args. apply hoare_pure. intros (Em & Er & Eo)%claimArgs_fields.
  eapply hoare_bind; [apply (hoare_estimate _ _ _ (bool_decide (pd_LeafType b = LeafTypeMessage))); [|done..]|].
  { destruct Hb as [-> | ->]; done. }
  intros [e|tx]; apply hoare_ret; intros s; cbn; [by rewrite app_nil_r|]. unfold callData_of. by rewrite Eo.
Qed.

Lemma hoare_groupClaims m r sb sp i acc :
  Forall claimable_leaf sb →
  hoare (collected m r acc) (groupClaims bm m r sb sp i acc)
    (λ data s, collected m r data s ∧ (length data ≤ length acc + length sb)%nat) tr_good.
Proof.
  intros Hsb. revert i acc. induction Hsb as [|b sb Hb _ IH]; intros i acc; cbn [groupClaims].
  { apply hoare_ret. intros s Hs. split; [done|cbn; lia]. }
  eapply hoare_bind; [apply hoare_lift_calls; by intros s []|]. intros proof. apply hoare_pure. intros _.
  eapply hoare_bind; [by apply hoare_groupClaim|]. intros o.
  eapply hoare_conseq; [apply IH|done|]. intros data s [Hd Hl]. split; [done|].
  rewrite length_app in Hl. cbn. destruct o; cbn in Hl; lia.
Qed.

(** A call of the compressor; the cases are those of the contract. *)
Lemma keeps_compress m r data s :
  collected m r data s → 0 < Z.of_nat (length data) ≤ max → tr_good (snd (CompressClaimCall m r data s)).
Proof.
  intros [Hg Ha] Hl. destruct s as [w tr]. unfold CompressClaimCall, attempt, mbind, M_bind. cbn. unfold traced. cbn.
  destruct (smc_CompressClaims m r data w) as [[] w']; cbn; by apply good_calls_snoc.
Qed.

Lemma keeps_send data : keeps tr_good (SendCompressedClaims (W := TS) bm data).
Proof.
  intros [w tr] Hg. cbn. unfold traced. cbn. destruct (smc_SendCompressed (bm_auth bm) data w) as [[] w']; by apply good_calls_snoc.
Qed.

Lemma hoare_sendGroups m r sbs sps j :
  Forall (λ sb, Z.of_nat (length sb) ≤ max ∧ Forall claimable_leaf sb) sbs →
  hoare tr_good (sendGroups bm m r sbs sps j) (λ _, tr_good) tr_good.
Proof.
  intros Hsbs. revert j. induction Hsbs as [|sb sbs [Hlen Hsb] _ IH]; intros j; cbn [sendGroups]; [by apply hoare_ret|].
  eapply hoare_bind; [by apply hoare_lift_calls|]. intros sp. apply hoare_pure. intros _.
  eapply hoare_bind; [eapply hoare_conseq; [by apply hoare_groupClaims| |intros a s Hs; exact Hs]|].
  { intros s Hs. split; [done|constructor]. }
  intros data. cbn beta. case_decide as Hz; [apply hoare_ret; by intros s [[] _]|].
  eapply hoare_bind with (λ _, tr_good).
  { intros s [Hs Hl]. pose proof (keeps_compress m r data s Hs ltac:(cbn in Hl; lia)) as Hk.
    destruct (CompressClaimCall m r data s) as [[] ?]; done. }
  intros compressed. eapply hoare_bind; [by apply hoare_keeps; [apply keeps_send|]|]. intros tx. apply IH.
Qed.

End Groups.

(** C29: Whatever the services and contracts answer, as long as the bridges that are listed
    are assets or messages, the two kinds there are, grouped claiming sends no claim by
    itself; a group that is compressed has at least one claim and at most the configured
    number, and the contract accepted each of its claims before, with the same data and
    the exit roots of the group. *)
Theorem claimGrouped_safe {W : Type} `{HttpClient W} `{Protojson} `{AutoContracts W} `{CommonHex} `{CommonFromHex} `{Keccak256}
    (cfg : AutoConfig) (bm : bmClient) (fuel : nat) (w : W) :
  (∀ bridges s, getBridgesToClaim cfg bm (w, []) = (Ok bridges, s) → Forall claimable_leaf bridges) →
  good_calls (ac_MaxNumberOfClaimsPerGroup cfg) (snd (snd (claimGrouped cfg bm fuel (w, [] : list Call)))).
Proof.
  intros Hleaf. set (max := ac_MaxNumberOfClaimsPerGroup cfg). set (I := tr_good (W := W) max).
  change (I (snd (claimGrouped cfg bm fuel (w, [])))). assert (I (w, [])) as H0' by (by intros [] ? ?).
  pose proof (keeps_getBridgesToClaim cfg bm (good_calls max) (w, []) H0') as Hb. unfold claimGrouped.
  destruct (getBridgesToClaim cfg bm (w, [])) as [[bridges| | |] s] eqn:E; [|unfold mbind, M_bind; by rewrite E..].
  erewrite M_bind_Ok by exact E. specialize (Hleaf _ _ eq_refl). cbn in Hb.
  destruct bridges as [|b rest]; [done|].
  apply (hoare_inv I); [|done].
  eapply hoare_bind; [apply hoare_keeps; [apply keeps_proofRequest|done]|]. intros proof.
  eapply hoare_bind; [by apply (hoare_lift_calls max I)|]. intros p. apply hoare_pure. intros _.
  eapply hoare_bind; [apply hoare_keeps; [apply keeps_collectProofs; intros; apply keeps_proofRequest|done]|]. intros proofs.
  case_decide; [by apply hoare_throw|].
  eapply hoare_bind; [by apply (hoare_lift_calls max I)|]. intros sbs. apply hoare_pure. intros Es.
  eapply hoare_bind; [by apply (hoare_lift_calls max I)|]. intros sps. apply hoare_pure. intros _.
  apply hoare_sendGroups. eapply arraySplitter_sizes; [exact Es|done..].
Qed.
