(* ===== verification/AutoClaimServed.v ===== *)
(** * The auto claim service behind the bridge service

    What the bridge service writes in its messages, the auto claim service reads: the
    claim that it sends for a bridge is the claim that the deposit stands for, with the
    proofs that the service computed. *)
From S2P Require Import Prelude Types Bytes Hash GlobalIndex ClaimTypes Schema Storage Service.
From S2P Require Import NonceCache MonitorTxs CompressedTxs ClaimTxManager Hex Invariants AutoClaim AutoClaimTheorems.

(** go-ethereum reads the text of a hash, of an address and of bytes back. *)
Class CommonHexLaws `{CommonHex} `{CommonFromHex} := {
  HexToHash_Hex : ∀ h, 0 ≤ h < 2 ^ 256 → HexToHash (Hash_Hex h) = h;
  HexToAddress_Hex : ∀ a, 0 ≤ a < 2 ^ 160 → HexToAddress (Address_Hex a) = a;
  FromHex_Encode : ∀ bs, Forall is_byte bs → FromHex_bytes ("0x" +:+ EncodeToString bs) = bs
}.

(** A deposit, and the exit roots and proofs that the service computed for it. *)
Record Served := mkServed {
  sd_deposit : Deposit;
  sd_mainnetExitRoot : Hash;
  sd_rollupExitRoot : Hash;
  sd_proof : list Hash;
  sd_rollupProof : list Hash
}.

(** The fields have the width of the source. *)
Definition served_fits (s : Served) : Prop :=
  let d := sd_deposit s in
  (d_LeafType d = LeafTypeAsset ∨ d_LeafType d = LeafTypeMessage) ∧
  0 ≤ d_NetworkID d < 2 ^ 32 ∧ 0 ≤ d_DepositCount d < 2 ^ 32 ∧ 0 ≤ d_OriginalNetwork d < 2 ^ 32 ∧
  0 ≤ d_DestinationNetwork d < 2 ^ 32 ∧ 0 ≤ d_OriginalAddress d < 2 ^ 160 ∧ 0 ≤ d_DestinationAddress d < 2 ^ 160 ∧
  0 ≤ d_Amount d ∧ Forall is_byte (d_Metadata d) ∧ is_hash (sd_mainnetExitRoot s) ∧ is_hash (sd_rollupExitRoot s) ∧
  Forall is_hash (sd_proof s) ∧ Forall is_hash (sd_rollupProof s) ∧
  length (sd_proof s) = mtHeight ∧ length (sd_rollupProof s) = mtHeight.

(** The messages that the service makes of them. *)
Definition messages `{CommonHex} (s : Served) (b : pb_Deposit) (proof : GetProofResponse) : Prop :=
  pbDeposit (sd_deposit s) "" = Ok b ∧
  ∃ p, gp_Proof proof = Some p ∧
    proofResponse (mkGlobalExitRoot 0 0 [sd_mainnetExitRoot s; sd_rollupExitRoot s] 0 0 0) (sd_proof s) (sd_rollupProof s) = Ok p.

(** The parameters of a claim as the arguments of the contract. *)
Definition args_of (p : bridgeClaimXParams) : ClaimArgs :=
  mkClaimArgs (bp_smtProofLocalExitRoot p) (bp_smtProofRollupExitRoot p) (Some (bp_globalIndex p)) (bp_mainnetExitRoot p)
    (bp_rollupExitRoot p) (bp_originNetwork p) (bp_originTokenAddress p) (bp_destinationNetwork p) (bp_destinationAddress p)
    (Some (bp_amount p)) (bp_metadata p).

(** The claim of the deposit: that of [BuildSendClaim]. *)
Definition servedParams (s : Served) : bridgeClaimXParams :=
  let d := sd_deposit s in
  claimParams d (sd_proof s) (sd_rollupProof s)
    (globalIndexValue (bool_decide (d_NetworkID d = 0)) (d_NetworkID d - 1) (d_DepositCount d))
    (sd_mainnetExitRoot s) (sd_rollupExitRoot s).
Definition claim_of_served (opts : TransactOpts) (s : Served) (call : Call) : Prop :=
  ∃ ok, call = CallClaim (bool_decide (d_LeafType (sd_deposit s) = LeafTypeMessage)) opts (args_of (servedParams s)) ok.

(** A loop over the indices of two lists of the same length. *)
Lemma fold_result_seq {B} (g : nat → B) (f : B → nat → result B) b n :
  b = g 0%nat → (∀ i, (i < n)%nat → f (g i) i = Ok (g (S i))) → fold_result f b (seq 0 n) = Ok (g n).
Proof.
  intros -> Hf. assert (∀ k m, (k + m = n)%nat → fold_result f (g k) (seq k m) = Ok (g n)) as Hk; [|by apply Hk].
  intros k m. revert k. induction m as [|m IH]; intros k E; cbn [seq fold_result].
  { by assert (k = n) as -> by lia. }
  rewrite Hf by lia. cbn. apply IH. lia.
Qed.

Lemma proofResponse_eq (m r : Hash) (proof rollupProof : list Hash) :
  length rollupProof = length proof →
  proofResponse (mkGlobalExitRoot 0 0 [m; r] 0 0 0) proof rollupProof =
  Ok (mk_pb_Proof (Hash_Hex <$> rollupProof) (Hash_Hex <$> proof) (Hash_Hex m) (Hash_Hex r)).
Proof.
  intros Hl. unfold proofResponse.
  rewrite (fold_result_seq (λ i, (Hash_Hex <$> take i proof, Hash_Hex <$> take i rollupProof))); [|done|].
  { cbn [mbind result_bind]. by rewrite firstn_all, (take_ge rollupProof) by lia. }
  intros i Hi. destruct (lookup_lt_is_Some_2 proof i Hi) as [x Hx].
  destruct (lookup_lt_is_Some_2 rollupProof i ltac:(lia)) as [y Hy].
  rewrite (at_index_nat _ _ _ Hx), (at_index_nat _ _ _ Hy). cbn [mbind result_bind fst snd].
  by rewrite (take_S_r _ _ _ Hx), (take_S_r _ _ _ Hy), !fmap_app.
Qed.

Section Served.
Context {HX : CommonHex} {HB : CommonFromHex} {HL : CommonHexLaws}.

Lemma fmap_HexToHash hs : Forall is_hash hs → HexToHash <$> (Hash_Hex <$> hs) = hs.
Proof. induction 1 as [|h hs Hh _ IH]; [done|]. cbn. f_equal; [by apply HexToHash_Hex|exact IH]. Qed.

(** The arrays are filled with the hashes of the texts. *)
Lemma smtProofs_eq (p : pb_Proof) :
  length (pp_MerkleProof p) = mtHeight → length (pp_RollupMerkleProof p) = mtHeight →
  smtProofs p = Ok (HexToHash <$> pp_MerkleProof p, HexToHash <$> pp_RollupMerkleProof p).
Proof.
  intros Hm Hr. unfold smtProofs. rewrite Hm.
  set (fill := λ (l : list string) i, (HexToHash <$> take i l) ++ replicate (mtHeight - i) 0).
  assert (∀ l i x, length l = mtHeight → l !! i = Some x →
    set_index (fill l i) (Z.of_nat i) (HexToHash x) = Ok (fill l (S i))) as Hfill.
  { intros l i x Hl Hx. assert (i < mtHeight)%nat by (rewrite <- Hl; by apply lookup_lt_is_Some_1).
    rewrite set_index_Ok by (unfold fill; rewrite length_app, length_fmap, length_take, length_replicate; lia).
    f_equal. unfold fill. rewrite (take_S_r _ _ _ Hx), fmap_app, <- app_assoc.
    rewrite insert_app_r_alt by (rewrite length_fmap, length_take; lia).
    rewrite length_fmap, length_take, Nat.min_l, Nat.sub_diag by lia. f_equal.
    by replace (mtHeight - i)%nat with (S (mtHeight - S i)) by lia. }
  rewrite (fold_result_seq (λ i, (fill (pp_MerkleProof p) i, fill (pp_RollupMerkleProof p) i))); [|done|].
  - unfold fill. by rewrite !take_ge, Nat.sub_diag, !app_nil_r by lia.
  - intros i Hi. destruct (lookup_lt_is_Some_2 (pp_MerkleProof p) i ltac:(lia)) as [x Hx].
    destruct (lookup_lt_is_Some_2 (pp_RollupMerkleProof p) i ltac:(lia)) as [y Hy].
    rewrite (at_index_nat _ _ _ Hx). cbn [mbind result_bind fst snd]. rewrite Hfill by done. cbn [mbind result_bind fst snd].
    rewrite (at_index_nat _ _ _ Hy). cbn [mbind result_bind fst snd]. by rewrite Hfill.
Qed.

(** The texts of the messages are read as the claim of the deposit. *)
Lemma claimArgs_served s b proof :
  served_fits s → messages s b proof →
  pd_LeafType b = d_LeafType (sd_deposit s) ∧
  ∃ p, gp_Proof proof = Some p ∧
    claimArgs b p (HexToHash (pp_MainExitRoot p)) (HexToHash (pp_RollupExitRoot p)) = Ok (args_of (servedParams s)).
Proof.
  intros (Hleaf & Hn & Hc & Ho & Hd & Hoa & Hda & Ham & Hmd & Hm & Hr & Hp & Hrp & Hpl & Hrpl) (Eb & p & Ep & Er).
  set (d := sd_deposit s) in *. rewrite proofResponse_eq in Er by lia. injection Er as <-.
  set (flag := bool_decide (d_NetworkID d = 0)) in *.
  assert (GenerateGlobalIndex flag (if flag then 0 else u32 (d_NetworkID d - 1)) (d_DepositCount d) =
          Ok (globalIndexValue flag (d_NetworkID d - 1) (d_DepositCount d))) as Eg.
  { unfold flag. case_bool_decide; rewrite GenerateGlobalIndex_value by (try apply u32_range; lia); [done|].
    by rewrite u32_id by lia. }
  unfold pbDeposit in Eb. fold flag in Eb. rewrite Eg in Eb. injection Eb as <-. cbn.
  assert (u32 (d_LeafType d) = d_LeafType d) as El by (by destruct Hleaf as [-> | ->]).
  split; [done|]. eexists. split; [exact Ep|]. unfold claimArgs.
  rewrite smtProofs_eq by (cbn; by rewrite length_fmap). cbn [mbind result_bind pp_MerkleProof pp_RollupMerkleProof].
  rewrite !fmap_HexToHash by done. cbn.
  assert (0 ≤ globalIndexValue flag (d_NetworkID d - 1) (d_DepositCount d)) as Hg.
  { unfold globalIndexValue, flag. case_bool_decide; nia. }
  rewrite !HexToHash_Hex, !HexToAddress_Hex, !SetString0_pretty, FromHex_Encode by done.
  unfold args_of, servedParams, claimParams. cbn. fold d flag. by rewrite !u32_id.
Qed.

End Served.

Section Individually.
Context {W : Type} `{HttpClient W} `{Protojson} `{AutoContracts W} {HX : CommonHex} {HB : CommonFromHex} {HL : CommonHexLaws}.
Context (cfg : AutoConfig) (bm : bmClient).

Local Abbreviation TS := (W * list Call)%type.

(** The contract answers with a transaction or an error. *)
Definition answers {A} (c : M W A) : Prop := ∀ w, match fst (c w) with Ok _ | Err _ => True | _ => False end.

Context (Hasset : ∀ args, answers (smc_ClaimAsset (bm_auth bm) args)).
Context (Hmessage : ∀ args, answers (smc_ClaimMessage (bm_auth bm) args)).

Lemma sendBridge_served s b proof w tr :
  served_fits s → messages s b proof →
  ∃ w' call, sendBridge (W := TS) bm b proof (w, tr) = (Ok tt, (w', tr ++ [call])) ∧ claim_of_served (bm_auth bm) s call.
Proof.
  intros Hfits Hmsg. destruct (claimArgs_served s b proof Hfits Hmsg) as (El & p & Ep & Ea). unfold sendBridge. rewrite Ep.
  erewrite M_bind_Ok by reflexivity. rewrite Ea. erewrite M_bind_Ok by reflexivity. rewrite El. unfold SendClaim.
  set (args := args_of (servedParams s)). destruct Hfits as ([Hleaf|Hleaf] & _); rewrite Hleaf.
  - rewrite callClaim_asset. specialize (Hasset args w). unfold attempt, mbind, M_bind. cbn. unfold traced. cbn.
    destruct (smc_ClaimAsset (bm_auth bm) args w) as [[tx|e| |] w']; try done; cbn; eexists _, _; (split; [done|]);
      eexists; by rewrite Hleaf.
  - rewrite callClaim_message. specialize (Hmessage args w). unfold attempt, mbind, M_bind. cbn. unfold traced. cbn.
    destruct (smc_ClaimMessage (bm_auth bm) args w) as [[tx|e| |] w']; try done; cbn; eexists _, _; (split; [done|]);
      eexists; by rewrite Hleaf.
Qed.

(** The loop goes on after an error: one claim per bridge, in order. *)
Lemma sendAll_served ss bridges proofs k n w tr :
  Forall served_fits ss → (k + n = length ss)%nat →
  (∀ i s, ss !! i = Some s → ∃ b proof, bridges !! i = Some b ∧ proofs !! i = Some proof ∧ messages s b proof) →
  ∃ w' calls, forM_ (seq k n) (λ i, b ← lift (at_index bridges (Z.of_nat i)); proof ← lift (at_index proofs (Z.of_nat i));
                sendBridge (W := TS) bm b proof) (w, tr) = (Ok tt, (w', tr ++ calls)) ∧
    Forall2 (claim_of_served (bm_auth bm)) (drop k ss) calls.
Proof.
  intros Hss. revert k w tr. induction n as [|n IH]; intros k w tr Hk Hmsg; cbn [seq forM_].
  { exists w, []. rewrite app_nil_r, drop_ge by lia. by split; [|constructor]. }
  destruct (lookup_lt_is_Some_2 ss k ltac:(lia)) as [s Hs]. destruct (Hmsg k s Hs) as (b & proof & Hb & Hp & Hm).
  assert (served_fits s) as Hfits by (by eapply Forall_lookup_1).
  destruct (sendBridge_served s b proof w tr Hfits Hm) as (w1 & call & E & Hcall).
  rewrite (at_index_nat _ _ _ Hb), (at_index_nat _ _ _ Hp). erewrite M_bind_Ok; [|exact E].
  destruct (IH (S k) w1 (tr ++ [call]) ltac:(lia) Hmsg) as (w' & calls & E' & Hcalls).
  exists w', (call :: calls). split; [rewrite E'; by rewrite <- app_assoc|]. rewrite (drop_S _ _ _ Hs). by constructor.
Qed.

End Individually.

(** C28: When the bridges and proofs are messages of the bridge service, claiming
    individually calls the contract exactly once per bridge, in their order, with the
    parameters of the claim of the deposit: the global index, amount, addresses and
    metadata read back from the texts, and the proofs and exit roots of the service.  A
    claim that fails does not stop the next ones. *)
Theorem claimIndividually_served {W : Type} `{HttpClient W} `{Protojson} `{AutoContracts W} {HX : CommonHex}
    {HB : CommonFromHex} {HL : CommonHexLaws} (cfg : AutoConfig) (bm : bmClient) (w : W) s1 s2
    (ss : list Served) bridges proofs :
  (∀ args, answers (smc_ClaimAsset (bm_auth bm) args)) → (∀ args, answers (smc_ClaimMessage (bm_auth bm) args)) →
  getBridgesToClaim cfg bm (w, [] : list Call) = (Ok bridges, s1) →
  collectProofs getProof bridges [] s1 = (Ok proofs, s2) →
  length bridges = length ss → length proofs = length ss → Forall served_fits ss →
  (∀ i s, ss !! i = Some s → ∃ b proof, bridges !! i = Some b ∧ proofs !! i = Some proof ∧ messages s b proof) →
  ∃ w' calls, claimIndividually cfg bm (w, []) = (Ok tt, (w', calls)) ∧ Forall2 (claim_of_served (bm_auth bm)) ss calls.
Proof.
  intros Ha Hm Eb Ep Hlb Hlp Hfits Hmsg.
  assert (snd s1 = []) as Hs1.
  { pose proof (keeps_getBridgesToClaim (W := W) cfg bm (λ tr, tr = []) (w, []) eq_refl) as Hk. by rewrite Eb in Hk. }
  assert (snd s2 = []) as Hs2.
  { pose proof (keeps_collectProofs (W := W) (λ tr, tr = []) getProof bridges [] (λ b, keeps_proofRequest _ _ _) s1 Hs1) as Hk.
    by rewrite Ep in Hk. }
  unfold claimIndividually. erewrite M_bind_Ok by exact Eb. case_decide as Hz.
  { destruct ss; [|cbn in *; lia]. destruct s1 as [w1 tr]. cbn in Hs1. subst tr. exists w1, []. by split; [|constructor]. }
  erewrite M_bind_Ok by exact Ep. rewrite decide_False by lia. destruct s2 as [w2 tr]. cbn in Hs2. subst tr.
  destruct (sendAll_served bm Ha Hm ss bridges proofs 0 (length bridges) w2 []) as (w' & calls & E & Hcalls); [done..|].
  by exists w', calls.
Qed.
