(* ===== verification/AutoClaimWitnesses.v ===== *)
(** * The theorems of the auto claim service at concrete inputs *)
From S2P Require Import Prelude Types Bytes Hash GlobalIndex ClaimTypes Schema Storage Service.
From S2P Require Import NonceCache MonitorTxs CompressedTxs ClaimTxManager Hex Invariants AutoClaim AutoClaimTheorems.
From S2P Require Import AutoClaimServed.

(** The text of go-ethereum, without the checksum of addresses. *)
Definition decoded (s : string) : bytes := match DecodeHex s with Ok bs => bs | _ => [] end.
Definition toya_hex : CommonHex := {|
  Address_Hex a := EncodeToHex (be_bytes 20 a);
  HexToAddress s := SetBytes (decoded s);
  HexToHash s := SetBytes (decoded s);
  FromHex := decoded
|}.
Definition toya_fromHex : CommonFromHex := decoded.

Lemma decoded_Encode bs : Forall is_byte bs → decoded (EncodeToHex bs) = bs.
Proof.
  intros Hbs. unfold decoded, DecodeHex, EncodeToHex. by rewrite trim0x_0x, EncodeToString_even, DecodeString_EncodeToString.
Qed.

Definition toya_laws : @CommonHexLaws toya_hex toya_fromHex.
Proof.
  split.
  - intros h Hh. change (SetBytes (decoded (EncodeToHex (be_bytes 32 h))) = h).
    rewrite decoded_Encode, SetBytes_be_bytes by apply be_bytes_byte. by apply Z.mod_small.
  - intros a Ha. change (SetBytes (decoded (EncodeToHex (be_bytes 20 a))) = a).
    rewrite decoded_Encode, SetBytes_be_bytes by apply be_bytes_byte. by apply Z.mod_small.
  - intros bs Hbs. by apply decoded_Encode.
Qed.

(** Two bridges from mainnet; the contract refuses an amount of 5. *)
Definition toya_served (cnt amount : Z) : Served :=
  mkServed (mkDeposit cnt 0 0 7 amount 1 9 cnt 1 10 0 77 [1; 2] true) 100 200 (replicate 32 3) (replicate 32 0).
Definition toya_first : Served := toya_served 0 5.
Definition toya_second : Served := toya_served 1 6.

Definition toya_message {A} (default : A) (r : result A) : A := match r with Ok a => a | _ => default end.
Definition toya_bridge (s : Served) : pb_Deposit :=
  toya_message (mk_pb_Deposit 0 0 "" "" 0 "" 0 0 0 "" "" "" false "") (@pbDeposit toya_hex (sd_deposit s) "").
Definition toya_path (s : Served) : pb_Proof :=
  toya_message (mk_pb_Proof [] [] "" "")
    (proofResponse (mkGlobalExitRoot 0 0 [sd_mainnetExitRoot s; sd_rollupExitRoot s] 0 0 0) (sd_proof s) (sd_rollupProof s)).
Definition toya_proof (s : Served) : GetProofResponse := mkGetProofResponse (Some (toya_path s)).

Definition toya_http : HttpClient unit := λ req,
  match req with
  | PendingBridges _ leaf _ => mret (mkHttpResponse 200 (Ok [leaf]))
  | MerkleProof _ cnt | MerkleProofByGER _ cnt _ => mret (mkHttpResponse 200 (Ok [cnt]))
  end.
Definition toya_json : Protojson := {|
  Unmarshal_GetProofResponse body := Ok (toya_proof (if decide (body = [0]) then toya_first else toya_second));
  Unmarshal_GetBridgesResponse body :=
    Ok (if decide (body = [0]) then [toya_bridge toya_first; toya_bridge toya_second] else [], 2)
|}.
Definition toya_contracts : AutoContracts unit := {|
  smc_ClaimAsset _ args := if decide (ca_amount args = Some 5) then throw (ErrRPC "execution reverted") else mret (mkBuiltTx (Some 1) []);
  smc_ClaimMessage _ _ := mret (mkBuiltTx (Some 1) []);
  smc_CompressClaims _ _ _ := mret [8];
  smc_SendCompressed _ _ := mret (mkBuiltTx (Some 2) [8])
|}.
Definition toya_keccak : Keccak256 := λ bs, SetBytes (take 4 bs).
#[local] Existing Instances toya_hex toya_fromHex toya_laws toya_http toya_json toya_contracts toya_keccak.

Definition toya_bm : bmClient := mkBmClient 1 true (mkTransactOpts false None None 0).
Definition toya_cfg (max : Z) : AutoConfig := mkAutoConfig [9] max.

#[local] Instance toya_end : ServicesEnd unit.
Proof.
  split; try done; cbn.
  - intros []; done.
  - intros [] [] res [] [= <-]; done.
  - intros opts args. case_decide; done.
Qed.

Lemma tick_terminates_witness : fst (tick (toya_cfg 0) toya_bm 2 tt) ≠ OutOfFuel.
Proof. apply (tick_terminates (toya_cfg 0) toya_bm 2 tt). intros bridges w' E. vm_compute in E. injection E as <- _. cbn. lia. Defined.

Lemma claimGrouped_safe_witness :
  good_calls 2 (snd (snd (claimGrouped (toya_cfg 2) toya_bm 2 (tt, [])))).
Proof.
  apply (claimGrouped_safe (toya_cfg 2) toya_bm 2 tt). intros bridges s E. vm_compute in E. injection E as <- _.
  repeat constructor.
Defined.

Lemma toya_fits cnt amount : 0 ≤ cnt < 2 ^ 32 → 0 ≤ amount → served_fits (toya_served cnt amount).
Proof.
  intros Hc Ha. unfold served_fits, toya_served, is_hash, is_byte. cbn [sd_deposit sd_proof sd_rollupProof sd_mainnetExitRoot sd_rollupExitRoot].
  cbn [d_LeafType d_NetworkID d_DepositCount d_OriginalNetwork d_DestinationNetwork d_OriginalAddress d_DestinationAddress d_Amount d_Metadata].
  split; [by left|]. repeat (split; [lia|]). split; [repeat constructor; lia|]. repeat (split; [lia|]).
  repeat split; repeat constructor; lia.
Qed.

(** The first claim is refused, the second is sent. *)
Lemma claimIndividually_served_witness :
  ∃ w' calls, claimIndividually (toya_cfg 0) toya_bm (tt, []) = (Ok tt, (w', calls)) ∧
    Forall2 (claim_of_served (bm_auth toya_bm)) [toya_first; toya_second] calls.
Proof.
  eapply (claimIndividually_served (toya_cfg 0) toya_bm tt (tt, []) (tt, []) [toya_first; toya_second]
    [toya_bridge toya_first; toya_bridge toya_second] [toya_proof toya_first; toya_proof toya_second]).
  - intros args []. cbn. by case_decide.
  - by intros args [].
  - vm_compute. reflexivity.
  - vm_compute. reflexivity.
  - reflexivity.
  - reflexivity.
  - constructor; [|constructor; [|constructor]]; apply toya_fits; lia.
  - intros [|[|i]] s [= <-]; [exists (toya_bridge toya_first), (toya_proof toya_first)|exists (toya_bridge toya_second), (toya_proof toya_second)].
    all: split; [reflexivity|]; split; [reflexivity|]; split; [vm_compute; reflexivity|].
    all: eexists; split; [reflexivity|]; vm_compute; reflexivity.
Defined.

(** With groups of one, the first group has nothing that the contract accepts: the
    second is not tried. *)
Example claimGrouped_stops :
  claimGrouped (toya_cfg 1) toya_bm 2 (tt, []) =
    (Ok tt, (tt, [CallClaim false (noSend (bm_auth toya_bm)) (args_of (servedParams toya_first)) false])).
Proof. by vm_compute. Qed.
