(* ===== verification/SchemaInv.v ===== *)
(** * The constraints of the schema

    What PostgreSQL promises of the tables: the values of a serial column are distinct
    and below its sequence, keys are unique, and references are to rows that exist.  No
    statement of the storage breaks it, in a transaction or outside, whatever fails. *)
From S2P Require Import Prelude Types ClaimTypes Schema Storage Invariants.

(** ** Columns *)

Definition serial {R} (id : R → Z) (l : list R) (next : Z) : Prop := NoDup (id <$> l) ∧ Forall (λ r, id r < next) l.
Definition unique {R K} (key : R → K) (l : list R) : Prop := NoDup (key <$> l).
Definition refers {R} (P : Z → Prop) (f : R → Z) (l : list R) : Prop := Forall (λ r, P (f r)) l.

Lemma serial_mono {R} (id : R → Z) l n n' : serial id l n → n ≤ n' → serial id l n'.
Proof. intros [Hn Hl] Hle. split; [done|]. eapply Forall_impl; [exact Hl|]. simpl. lia. Qed.

Lemma serial_snoc {R} (id : R → Z) l n r : serial id l n → id r = n → serial id (l ++ [r]) (n + 1).
Proof.
  intros [Hn Hl] E. split.
  - rewrite fmap_app. apply NoDup_app. split; [done|]. split; [|apply NoDup_singleton].
    intros x (r' & -> & Hr')%list_elem_of_fmap Hx%list_elem_of_singleton. rewrite Forall_forall in Hl. specialize (Hl r' Hr'). lia.
  - apply Forall_app. split; [|constructor; [lia|done]]. eapply Forall_impl; [exact Hl|]. simpl. lia.
Qed.

Lemma unique_snoc {R K} (key : R → K) l r : unique key l → (key r ∉ (key <$> l)) → unique key (l ++ [r]).
Proof.
  intros Hl Hr. unfold unique. rewrite fmap_app. apply NoDup_app. split; [done|]. split; [|apply NoDup_singleton].
  intros x Hx ->%list_elem_of_singleton. done.
Qed.

Lemma unique_filter {R K} (key : R → K) (P : R → Prop) `{∀ r, Decision (P r)} l : unique key l → unique key (filter P l).
Proof. intros Hl. eapply sublist_NoDup; [exact Hl|]. apply fmap_sublist, sublist_filter. Qed.
Lemma Forall_filter {R} (Q P : R → Prop) `{∀ r, Decision (P r)} l : Forall Q l → Forall Q (filter P l).
Proof. rewrite !Forall_forall. intros Hl r [_ Hr]%list_elem_of_filter. by apply Hl. Qed.
Lemma serial_filter {R} (id : R → Z) (P : R → Prop) `{∀ r, Decision (P r)} l n : serial id l n → serial id (filter P l) n.
Proof. intros [Hn Hl]. split; [by apply (unique_filter id)|by apply Forall_filter]. Qed.

(** An UPDATE that leaves the column. *)
Lemma unique_fmap {R K} (key : R → K) (f : R → R) l : (∀ r, key (f r) = key r) → unique key l → unique key (f <$> l).
Proof. intros Hf Hl. unfold unique. rewrite <- list_fmap_compose. by erewrite list_fmap_ext by (intros; apply Hf). Qed.
Lemma serial_fmap {R} (id : R → Z) (f : R → R) l n : (∀ r, id (f r) = id r) → serial id l n → serial id (f <$> l) n.
Proof.
  intros Hf [Hn Hl]. split; [by apply (unique_fmap id)|]. apply Forall_fmap. eapply Forall_impl; [exact Hl|]. intros r. cbn. by rewrite Hf.
Qed.
Lemma refers_fmap {R} (P : Z → Prop) (c : R → Z) (f : R → R) l : (∀ r, c (f r) = c r) → refers P c l → refers P c (f <$> l).
Proof. intros Hf Hl. apply Forall_fmap. eapply Forall_impl; [exact Hl|]. intros r. cbn. by rewrite Hf. Qed.
Lemma refers_mono {R} (P Q : Z → Prop) (c : R → Z) l : (∀ z, P z → Q z) → refers P c l → refers Q c l.
Proof. intros HPQ Hl. eapply Forall_impl; [exact Hl|]. auto. Qed.
Lemma refers_snoc {R} (P : Z → Prop) (c : R → Z) l r : refers P c l → P (c r) → refers P c (l ++ [r]).
Proof. intros Hl Hr. apply Forall_app. split; [done|]. by constructor. Qed.

(** ** The tables *)

Definition claim_key (r : claim_row) : Z * Z * Z * bool := (cr_index r, cr_rollup_index r, cr_network_id r, cr_mainnet_flag r).
Definition ger_key (r : exit_root_row) : Z * Hash * Z := (er_block_id r, er_global_exit_root r, er_network_id r).
Definition token_key (r : token_wrapped_row) : Z * Z * Address := (tw_network_id r, tw_orig_net r, tw_orig_token_addr r).
Definition node_key (r : rht_row) : Hash * Z := (rh_key r, rh_deposit_id r).

Record tables_wf (t : Tables) (s : Seqs) : Prop := {
  wf_block : serial br_id (t_block t) (sq_block s);
  wf_exit_root : serial er_id (t_exit_root t) (sq_exit_root s);
  wf_deposit : serial dr_id (t_deposit t) (sq_deposit s);
  wf_rollup_exit : serial re_id (t_rollup_exit t) (sq_rollup_exit s);
  wf_remove : serial rm_id (t_remove_exit_root t) (sq_remove_exit_root s);
  wf_backward : serial bw_id (t_backward_let t) (sq_backward_let s);
  wf_forward : serial fw_id (t_forward_let t) (sq_forward_let s);
  wf_set_unset : serial su_id (t_set_unset_claim t) (sq_set_unset_claim s);
  wf_block_hash : unique br_block_hash (t_block t);
  wf_ger : unique ger_key (t_exit_root t);
  wf_claim : unique claim_key (t_claim t);
  wf_token : unique token_key (t_token_wrapped t);
  wf_rht : unique node_key (t_rht t);
  wf_root : unique rr_deposit_id (t_root t);
  wf_txs : unique m_DepositID (t_monitored_txs t);
  wf_groups : unique ge_GroupID (t_monitored_txs_group t);
  wf_status : unique s_NetworkID (t_status t);
  fk_exit_root : refers (block_exists t) er_block_id (t_exit_root t);
  fk_deposit : refers (block_exists t) dr_block_id (t_deposit t);
  fk_claim : refers (block_exists t) cr_block_id (t_claim t);
  fk_token : refers (block_exists t) tw_block_id (t_token_wrapped t);
  fk_rollup_exit : refers (block_exists t) re_block_id (t_rollup_exit t);
  fk_remove : refers (block_exists t) rm_block_id (t_remove_exit_root t);
  fk_backward : refers (block_exists t) bw_block_id (t_backward_let t);
  fk_forward : refers (block_exists t) fw_block_id (t_forward_let t);
  fk_set_unset : refers (block_exists t) su_block_id (t_set_unset_claim t);
  fk_root : refers (deposit_exists t) rr_deposit_id (t_root t);
  fk_rht : refers (deposit_exists t) rh_deposit_id (t_rht t)
}.

(** Sequences only grow. *)
Definition seqs_le (s s' : Seqs) : Prop :=
  sq_block s ≤ sq_block s' ∧ sq_exit_root s ≤ sq_exit_root s' ∧ sq_deposit s ≤ sq_deposit s' ∧
  sq_rollup_exit s ≤ sq_rollup_exit s' ∧ sq_remove_exit_root s ≤ sq_remove_exit_root s' ∧
  sq_backward_let s ≤ sq_backward_let s' ∧ sq_forward_let s ≤ sq_forward_let s' ∧
  sq_set_unset_claim s ≤ sq_set_unset_claim s'.

Lemma seqs_le_refl s : seqs_le s s.
Proof. unfold seqs_le. lia. Qed.
Lemma seqs_le_trans s1 s2 s3 : seqs_le s1 s2 → seqs_le s2 s3 → seqs_le s1 s3.
Proof. unfold seqs_le. lia. Qed.

Lemma tables_wf_mono t s s' : tables_wf t s → seqs_le s s' → tables_wf t s'.
Proof.
  intros [] (?&?&?&?&?&?&?&?). constructor; try done; by eapply serial_mono.
Qed.

(** A statement keeps the constraints, and the sequences grow also when it fails. *)
Definition stmt_wf {A} (q : stmt A) : Prop := ∀ t s, tables_wf t s →
  match q t s with
  | (inl _, s') => seqs_le s s'
  | (inr (_, t'), s') => seqs_le s s' ∧ tables_wf t' s'
  end.

Lemma stmt_query {A} (f : Tables → A) : stmt_wf (sql_query f).
Proof. intros t s Hwf. split; [apply seqs_le_refl|done]. Qed.
Lemma stmt_update f : (∀ t s, tables_wf t s → tables_wf (f t) s) → stmt_wf (sql_update f).
Proof. intros Hf t s Hwf. split; [apply seqs_le_refl|by apply Hf]. Qed.
Lemma stmt_exec f : (∀ t s t', tables_wf t s → f t = inr t' → tables_wf t' s) → stmt_wf (sql_exec f).
Proof.
  intros Hf t s Hwf. unfold sql_exec. destruct (f t) as [e|t'] eqn:E; [apply seqs_le_refl|].
  split; [apply seqs_le_refl|by eapply Hf].
Qed.

(** Only the named table changes; what is left are the goals about it. *)
Ltac wf_frame Hwf :=
  destruct Hwf; constructor; cbn; try done;
  try (eapply serial_mono; [eassumption|cbn; lia]);
  try (apply serial_snoc; done);
  try (apply refers_snoc; done);
  try (apply unique_snoc; done).

(** ** Statements *)

Lemma wf_delete_deposits (P : deposit_row → Prop) `{∀ r, Decision (P r)} t s :
  tables_wf t s → tables_wf (delete_deposits P t) s.
Proof.
  intros Hwf. pose proof Hwf as [].
  assert (∀ R (f : R → Z) (l : list R), refers (deposit_exists t) f l →
    refers (deposit_exists (delete_deposits P t)) f (filter (λ r, f r ∉ (dr_id <$> filter P (t_deposit t))) l)) as Hfk.
  { intros R f l Hl. apply Forall_forall. intros r [Hn Hr]%list_elem_of_filter. unfold refers in Hl. rewrite Forall_forall in Hl.
    specialize (Hl r Hr). unfold deposit_exists in *. cbn. apply list_elem_of_fmap in Hl as (d & E & Hd). apply list_elem_of_fmap.
    exists d. split; [done|]. apply list_elem_of_filter. split; [|done]. intros Hp. apply Hn. rewrite E. apply list_elem_of_fmap_2.
    by apply list_elem_of_filter. }
  wf_frame Hwf; [by apply serial_filter|by apply unique_filter..|by apply Forall_filter|by apply (Hfk _ rr_deposit_id)|by apply (Hfk _ rh_deposit_id)].
Qed.

Lemma wf_delete_blocks (P : block_row → Prop) `{∀ r, Decision (P r)} t s :
  tables_wf t s → tables_wf (delete_blocks P t) s.
Proof.
  intros Hwf0. set (gone := br_id <$> filter P (t_block t)).
  pose proof (wf_delete_deposits (λ r, dr_block_id r ∈ gone) t s Hwf0) as Hwf.
  assert (∀ R (f : R → Z) (l : list R), refers (block_exists t) f l →
    refers (block_exists (delete_blocks P t)) f (filter (λ r, f r ∉ gone) l)) as Hfk.
  { intros R f l Hl. apply Forall_forall. intros r [Hn Hr]%list_elem_of_filter. unfold refers in Hl. rewrite Forall_forall in Hl.
    destruct (Hl r Hr) as [Hz|Hb]; [by left|right]. cbn. apply list_elem_of_fmap in Hb as (b & E & Hb). apply list_elem_of_fmap.
    exists b. split; [done|]. apply list_elem_of_filter. split; [|done]. intros Hp. apply Hn. rewrite E. apply list_elem_of_fmap_2.
    by apply list_elem_of_filter. }
  wf_frame Hwf; try (by apply serial_filter); try (by apply unique_filter); try (by apply Hfk).
  all: apply (Hfk _ dr_block_id), Hwf0.
Qed.

Lemma bump_le s :
  seqs_le s (bump_block s) ∧ seqs_le s (bump_exit_root s) ∧ seqs_le s (bump_deposit s) ∧ seqs_le s (bump_rollup_exit s) ∧
  seqs_le s (bump_remove_exit_root s) ∧ seqs_le s (bump_backward_let s) ∧ seqs_le s (bump_forward_let s) ∧
  seqs_le s (bump_set_unset_claim s).
Proof. unfold seqs_le. cbn. lia. Qed.
Ltac bump := cbv beta iota zeta; match goal with |- seqs_le ?s _ => apply (bump_le s) end.

Lemma wf_insert_rht row t s t' : tables_wf t s → insert_rht row t = inr t' → tables_wf t' s.
Proof.
  intros Hwf E. unfold insert_rht in E. case_decide as Hk; [done|]. case_decide as Hd; [done|]. injection E as <-.
  wf_frame Hwf. apply unique_snoc; [done|]. intros (r & [=] & Hr)%list_elem_of_fmap. apply Hk, Exists_exists. by exists r.
Qed.

Lemma wf_copy_rht rows : ∀ t s t', tables_wf t s → copy_rht rows t = inr t' → tables_wf t' s.
Proof.
  induction rows as [|row rows IH]; intros t s t' Hwf E; cbn in E; [by simplify_eq|].
  destruct (insert_rht row t) as [e|t1] eqn:E1; [done|]. eapply IH; [|done]. by eapply wf_insert_rht.
Qed.

Lemma stmt_copy_rollup_exit rows : stmt_wf (copy_rollup_exit rows).
Proof.
  intros t s Hwf. revert t s Hwf. induction rows as [|[[[leaf rid] root] bid] rows IH]; intros t s Hwf; cbn.
  { split; [apply seqs_le_refl|done]. }
  case_decide as Hb; [|bump].
  match goal with |- context [copy_rollup_exit rows ?t1 ?s1] => assert (tables_wf t1 s1) as Hwf1; [|specialize (IH t1 s1 Hwf1)] end.
  { wf_frame Hwf. }
  destruct (copy_rollup_exit rows _ _) as [[e|[[] t']] s']; [|split; [|apply IH]]; (eapply seqs_le_trans; [|apply IH]); bump.
Qed.

(** ** The database *)

Definition db_wf (db : DB) : Prop :=
  tables_wf (db_committed db) (db_seqs db) ∧ ∀ t, db_tx db = Some (TxActive t) → tables_wf t (db_seqs db).

Lemma db_wf_next db b db1 : next_fault db = (b, db1) → db_wf db → db_wf db1.
Proof. unfold next_fault. destruct (db_faults db); by intros [= <- <-]. Qed.

Lemma db_wf_seqs c x s s' fs : db_wf (mkDB c x s fs) → seqs_le s s' → db_wf (mkDB c x s' fs).
Proof. intros [Hc Ht] Hs. split; [by eapply tables_wf_mono|]. intros t E. eapply tables_wf_mono; [by apply Ht|done]. Qed.

Lemma db_wf_tx db x : db_wf db → (∀ t, x ≠ Some (TxActive t)) → db_wf (set_tx x db).
Proof. intros [Hc Ht] Hx. split; [done|]. intros t E. by destruct (Hx t). Qed.

Lemma db_wf_abort h db : db_wf db → db_wf (abort_tx h db).
Proof. intros Hdb. destruct h; [done|]. apply db_wf_tx; [done|]. intros t. by destruct (db_tx db). Qed.

Lemma keeps_wf_run {A} h (q : stmt A) : stmt_wf q → keeps db_wf (run h q).
Proof.
  intros Hq db Hdb. unfold run. destruct (next_fault db) as [b db1] eqn:E. apply (db_wf_next _ _ _ E) in Hdb. clear E db.
  destruct b; [by apply db_wf_abort|]. destruct db1 as [c x s fs], h; cbn.
  - specialize (Hq c s (proj1 Hdb)). destruct (q c s) as [[e|[a t']] s']; cbn; [by eapply db_wf_seqs|].
    destruct Hq as [Hs Hwf]. split; [done|]. intros t E. eapply tables_wf_mono; [by apply Hdb|done].
  - destruct x as [[t|]|]; [|done..]. specialize (Hq t s (proj2 Hdb t eq_refl)).
    destruct (q t s) as [[e|[a t']] s']; cbn.
    + destruct Hdb as [Hc _]. split; [by eapply tables_wf_mono|done].
    + destruct Hq as [Hs Hwf], Hdb as [Hc _]. split; [by eapply tables_wf_mono|]. by intros t0 [= <-].
Qed.

Lemma keeps_wf_query {A} h (f : Tables → A) : keeps db_wf (run h (sql_query f)).
Proof. apply keeps_wf_run, stmt_query. Qed.

Lemma keeps_wf_Rollback h : keeps db_wf (Rollback h).
Proof.
  intros db Hdb. unfold Rollback. destruct h; [done|]. destruct (next_fault db) as [b db1] eqn:E.
  apply (db_wf_next _ _ _ E) in Hdb. destruct (db_tx db1); [|done]. by apply db_wf_tx.
Qed.
Lemma keeps_wf_Commit h : keeps db_wf (Commit h).
Proof.
  intros db Hdb. unfold Commit. destruct h; [done|]. destruct (next_fault db) as [b db1] eqn:E.
  apply (db_wf_next _ _ _ E) in Hdb. destruct (db_tx db1) as [[t|]|] eqn:Et; [destruct b|..]; try done; try (by apply db_wf_tx).
  split; [by apply Hdb|done].
Qed.
Lemma keeps_wf_Begin : keeps db_wf BeginDBTransaction.
Proof.
  intros db Hdb. unfold BeginDBTransaction. destruct (next_fault db) as [b db1] eqn:E.
  apply (db_wf_next _ _ _ E) in Hdb. destruct b; [done|]. destruct Hdb as [Hc _]. split; [exact Hc|]. cbn. intros t E1. injection E1 as <-. exact Hc.
Qed.
#[export] Hint Resolve keeps_wf_query keeps_wf_Rollback keeps_wf_Commit keeps_wf_Begin : bridge.

(** ** The methods of the storage *)

Lemma keeps_wf_AddBlock block h : keeps db_wf (AddBlock block h).
Proof.
  apply keeps_wf_run. intros t s Hwf. destruct (filter _ _) as [|r l] eqn:E; cbn.
  2: { split; [bump|]. eapply tables_wf_mono; [done|bump]. }
  split; [bump|]. assert (∀ z, block_exists t z → block_exists (on_block (λ l, l ++ [mk_block_row (sq_block s) (b_BlockNumber block)
    (b_BlockHash block) (b_NetworkID block)]) t) z) as Hb.
  { intros z [Hz|Hz]; [by left|right]. cbn. rewrite fmap_app. apply elem_of_app. by left. }
  wf_frame Hwf; try (eapply refers_mono; [exact Hb|done]).
  apply unique_snoc; [done|]. intros (r & Er & Hr)%list_elem_of_fmap. cbn in Er.
  assert (r ∈ filter (λ r, br_block_hash r = b_BlockHash block) (t_block t)) as Hin by (by apply list_elem_of_filter).
  rewrite E in Hin. by apply elem_of_nil in Hin.
Qed.

Lemma keeps_wf_Reset n net h : keeps db_wf (Reset n net h).
Proof. apply keeps_wf_run, stmt_update. intros. by apply wf_delete_blocks. Qed.
Lemma keeps_wf_ResetDeposits c net h : keeps db_wf (ResetDeposits c net h).
Proof.
  unfold ResetDeposits. case_decide; [auto with bridge|]. apply keeps_wf_run, stmt_update. intros. by apply wf_delete_deposits.
Qed.

(** A new row with a serial id and a reference. *)
Ltac wf_insert := apply keeps_wf_run; intros t s Hwf; cbn; repeat case_decide; cbn; first [bump | split; [bump|]; wf_frame Hwf].

Lemma keeps_wf_AddDeposit d h : keeps db_wf (AddDeposit d h).
Proof.
  apply keeps_wf_run. intros t s Hwf. case_decide; [|bump]. split; [bump|].
  match goal with |- tables_wf ?t' _ => assert (∀ z, deposit_exists t z → deposit_exists t' z) as Hd end.
  { intros z Hz. unfold deposit_exists in *. cbn. rewrite fmap_app. apply elem_of_app. by left. }
  wf_frame Hwf; eapply refers_mono; [exact Hd|done|exact Hd|done].
Qed.
Lemma keeps_wf_AddRollupExitLeaves rows h : keeps db_wf (AddRollupExitLeaves rows h).
Proof. apply keeps_wf_run, stmt_copy_rollup_exit. Qed.
Lemma keeps_wf_AddBackwardLET l h : keeps db_wf (AddBackwardLET l h).
Proof. wf_insert. Qed.
Lemma keeps_wf_AddForwardLET l h : keeps db_wf (AddForwardLET l h).
Proof. wf_insert. Qed.
Lemma keeps_wf_addSetUnsetClaim e b m r i g h : keeps db_wf (addSetUnsetClaim e b m r i g h).
Proof. wf_insert. Qed.

Lemma conflict_key g b n t : ¬ UC_conflict b g n t → (b, g, n) ∉ (ger_key <$> t_exit_root t).
Proof. intros Hn (r & [= -> -> ->] & Hr)%list_elem_of_fmap. apply Hn, Exists_exists. by exists r. Qed.

Lemma keeps_wf_AddGlobalExitRoot g h : keeps db_wf (AddGlobalExitRoot g h).
Proof.
  unfold AddGlobalExitRoot. apply keeps_bind; [auto with bridge|]. intros roots. apply keeps_wf_run. intros t s Hwf.
  case_decide as Hc; [bump|]. case_decide as Hb; [bump|]. split; [bump|].
  wf_frame Hwf. apply unique_snoc; [done|by apply conflict_key].
Qed.
Lemma keeps_wf_AddTrustedGlobalExitRoot g h : keeps db_wf (AddTrustedGlobalExitRoot g h).
Proof.
  unfold AddTrustedGlobalExitRoot. do 2 (apply keeps_bind; [auto with bridge|]; intros ?). apply keeps_wf_run. intros t s Hwf.
  case_decide as Hc; (split; [bump|]); [eapply tables_wf_mono; [done|bump]|].
  wf_frame Hwf; [apply unique_snoc; [done|by apply conflict_key]|apply refers_snoc; [done|by left]].
Qed.

Lemma keeps_wf_AddClaim c h : keeps db_wf (AddClaim c h).
Proof.
  apply keeps_wf_run, stmt_exec. intros t s t' Hwf E. case_decide as Hb; [done|]. case_decide as Hk; [done|]. injection E as <-.
  wf_frame Hwf. apply unique_snoc; [done|]. intros (r & [=] & Hr)%list_elem_of_fmap. apply Hk, Exists_exists. by exists r.
Qed.
Lemma keeps_wf_DeleteClaim g n h : keeps db_wf (DeleteClaimByGlobalIndex g n h).
Proof.
  apply keeps_wf_run, stmt_update. intros t s Hwf. wf_frame Hwf; [by apply unique_filter|by apply Forall_filter].
Qed.

Lemma keeps_wf_SetRoot r d n h : keeps db_wf (SetRoot r d n h).
Proof.
  apply keeps_wf_run, stmt_exec. intros t s t' Hwf E. case_decide as Hk; [done|]. case_decide as Hb; [done|]. injection E as <-. wf_frame Hwf.
Qed.
Lemma keeps_wf_Set k v d h : keeps db_wf (Set' k v d h).
Proof. apply keeps_wf_run, stmt_exec. intros t s t' Hwf E. by eapply wf_insert_rht. Qed.
Lemma keeps_wf_BulkSet rows h : keeps db_wf (BulkSet rows h).
Proof. apply keeps_wf_run, stmt_exec. intros t s t' Hwf E. by eapply wf_copy_rht. Qed.

(** An UPDATE of columns that are no keys. *)
Lemma wf_on_deposit f t s :
  tables_wf t s → (∀ d, dr_id (f d) = dr_id d ∧ dr_block_id (f d) = dr_block_id d) → tables_wf (on_deposit (fmap f) t) s.
Proof.
  intros Hwf Hf. assert (∀ z, deposit_exists t z → deposit_exists (on_deposit (fmap f) t) z) as Hd.
  { intros z (d & -> & Hd)%list_elem_of_fmap. unfold deposit_exists. cbn. rewrite <- list_fmap_compose.
    apply list_elem_of_fmap. exists d. split; [|done]. cbn. symmetry. apply Hf. }
  wf_frame Hwf; [apply serial_fmap; [apply Hf|done]|apply refers_fmap; [apply Hf|done]|eapply refers_mono; [exact Hd|done]..].
Qed.
Lemma wf_on_exit_root f t s :
  tables_wf t s → (∀ r, er_id (f r) = er_id r ∧ ger_key (f r) = ger_key r) → tables_wf (on_exit_root (fmap f) t) s.
Proof.
  intros Hwf Hf. wf_frame Hwf; [apply serial_fmap; [apply Hf|done]|apply unique_fmap; [apply Hf|done]|apply refers_fmap; [|done]].
  intros r. destruct (Hf r) as [_ E]. unfold ger_key in E. congruence.
Qed.

Lemma keeps_wf_IgnoreDeposit d h : keeps db_wf (IgnoreDeposit d h).
Proof. apply keeps_wf_run, stmt_update. intros t s Hwf. apply wf_on_deposit; [done|]. intros r. by case_decide. Qed.
Lemma keeps_wf_UpdateL2GER g h : keeps db_wf (UpdateL2GER g h).
Proof.
  unfold UpdateL2GER. do 2 (apply keeps_bind; [auto with bridge|]; intros ?). apply keeps_wf_run, stmt_update. intros t s Hwf.
  apply wf_on_exit_root; [done|]. intros r. by case_decide.
Qed.

Lemma wf_set_ready_upto bound (P : deposit_row → Prop) `{∀ d, Decision (P d)} t s :
  tables_wf t s → tables_wf (set_ready_upto bound P t) s.
Proof. intros Hwf. destruct bound as [c|]; [|done]. apply wf_on_deposit; [done|]. intros d. by case_decide. Qed.

Lemma keeps_wf_UpdateL1DepositsStatus r n h : keeps db_wf (UpdateL1DepositsStatus r n h).
Proof.
  apply keeps_wf_run, stmt_exec. intros t s t' Hwf E. destruct (scalar _) as [e|bound]; [done|]. injection E as <-. by apply wf_set_ready_upto.
Qed.
Lemma keeps_wf_UpdateL2DepositsStatus r rid n b h : keeps db_wf (UpdateL2DepositsStatus r rid n b h).
Proof.
  apply keeps_wf_run, stmt_exec. intros t s t' Hwf E. destruct (scalar _) as [e|[leaf|]]; [done| |by simplify_eq].
  destruct (scalar _) as [e|bound]; [done|]. injection E as <-. destruct b; by apply wf_set_ready_upto.
Qed.

Lemma keeps_wf_AddClaimTx now m h : keeps db_wf (AddClaimTx now m h).
Proof. apply keeps_wf_run, stmt_update. intros t s Hwf. case_decide; [done|]. wf_frame Hwf. Qed.
Lemma keeps_wf_UpdateClaimTx now m h : keeps db_wf (UpdateClaimTx now m h).
Proof.
  apply keeps_wf_run, stmt_update. intros t s Hwf. wf_frame Hwf. apply unique_fmap; [|done]. intros r. by case_decide.
Qed.
Lemma keeps_wf_AddMonitoredTxsGroup g h : keeps db_wf (AddMonitoredTxsGroup g h).
Proof.
  destruct g as [g|]; [|cbn; auto with bridge]. apply keeps_wf_run, stmt_exec. intros t s t' Hwf E. case_decide; [done|]. injection E as <-.
  wf_frame Hwf.
Qed.
Lemma keeps_wf_UpdateMonitoredTxsGroup g h : keeps db_wf (UpdateMonitoredTxsGroup g h).
Proof.
  destruct g as [g|]; [|cbn; auto with bridge]. apply keeps_wf_run, stmt_update. intros t s Hwf. wf_frame Hwf.
  apply unique_fmap; [|done]. intros r. by case_decide.
Qed.
Lemma keeps_wf_AddSyncStatus st h : keeps db_wf (AddSyncStatus st h).
Proof.
  apply keeps_wf_run, stmt_update. intros t s Hwf. wf_frame Hwf. case_decide as Hin; [|by apply unique_snoc].
  apply unique_fmap; [|done]. intros r. case_decide; congruence.
Qed.
#[export] Hint Resolve keeps_wf_AddBlock keeps_wf_Reset keeps_wf_ResetDeposits keeps_wf_AddDeposit keeps_wf_AddRollupExitLeaves
  keeps_wf_AddBackwardLET keeps_wf_AddForwardLET keeps_wf_addSetUnsetClaim keeps_wf_AddGlobalExitRoot
  keeps_wf_AddTrustedGlobalExitRoot keeps_wf_AddClaim keeps_wf_DeleteClaim keeps_wf_SetRoot keeps_wf_Set keeps_wf_BulkSet
  keeps_wf_IgnoreDeposit keeps_wf_UpdateL2GER keeps_wf_UpdateL1DepositsStatus keeps_wf_UpdateL2DepositsStatus
  keeps_wf_AddClaimTx keeps_wf_UpdateClaimTx keeps_wf_AddMonitoredTxsGroup keeps_wf_UpdateMonitoredTxsGroup
  keeps_wf_AddSyncStatus : bridge.
