(* ===== verification/TreeKeeps.v ===== *)
(** * Invariants of the database through the trees and the synchronizer

    A property of the database that the statements of the trees keep is kept by every
    operation of a tree, of the bridge controller, and by the rollback and the handlers
    of the synchronizer built on them. *)
From S2P Require Import Prelude Types Bytes Hash MerkleSpec ClaimTypes Schema MerkleStore Storage.
From S2P Require Import PgMerkleStore MerkleTree BridgeCtrl Synchronizer Invariants.

(** The statements that the trees and a rollback run. *)
Class StoreKeeps (I : DB → Prop) : Prop := {
  sk_query : ∀ A (f : Tables → A) h, keeps I (run h (sql_query f));
  sk_SetRoot : ∀ r d n h, keeps I (SetRoot r d n h);
  sk_BulkSet : ∀ rows h, keeps I (BulkSet rows h);
  sk_AddRollupExitLeaves : ∀ rows h, keeps I (AddRollupExitLeaves rows h);
  sk_Rollback : ∀ h, keeps I (Rollback h)
}.

Section Trees.
Context `{K : Keccak256} (I : DB → Prop) {SK : StoreKeeps I}.
Local Abbreviation T := (λ w : DB * MerkleTree, I (fst w)).
Local Abbreviation B := (λ w : DB * BridgeController, I (fst w)).

Hint Extern 1 (keeps _ (run _ (sql_query _))) => apply sk_query : bridge.

Lemma keeps_tree_store {A} (c : M DB A) : keeps I c → keeps T (on_store c).
Proof. by apply keeps_zoom. Qed.
Lemma keeps_tree_get : keeps T the_tree.
Proof. apply keeps_gets. Qed.
Lemma keeps_tree_set f : keeps T (set_tree f).
Proof. by apply keeps_modify. Qed.
Lemma keeps_tree_GetRoot c n h : keeps I (store_GetRoot c n h).
Proof. cbn. unfold GetRoot. keeps_auto. Qed.
Lemma keeps_tree_Get k h : keeps I (store_Get k h).
Proof. cbn. unfold Get. keeps_auto. Qed.
Lemma keeps_tree_GetLastDepositCount n h : keeps I (store_GetLastDepositCount n h).
Proof. cbn. unfold GetLastDepositCount. keeps_auto. Qed.
Lemma keeps_tree_SetRoot r d n h : keeps I (store_SetRoot r d n h).
Proof. apply sk_SetRoot. Qed.
Lemma keeps_tree_BulkSet rows h : keeps I (store_BulkSet rows h).
Proof. apply sk_BulkSet. Qed.
Hint Resolve keeps_tree_store keeps_tree_get keeps_tree_set keeps_tree_GetRoot keeps_tree_Get keeps_tree_GetLastDepositCount
  keeps_tree_SetRoot keeps_tree_BulkSet : bridge.

Lemma keeps_tree_getRoot h : keeps T (getRoot h).
Proof. unfold getRoot. keeps_auto. Qed.
Lemma keeps_tree_initSiblings_loop k index cur siblings h : keeps T (initSiblings_loop k index cur siblings h).
Proof. revert cur siblings. induction k as [|k IH]; intros cur siblings; cbn [initSiblings_loop]; keeps_auto. Qed.
Hint Resolve keeps_tree_initSiblings_loop keeps_tree_getRoot : bridge.
Lemma keeps_tree_assignSiblings h : keeps T (assignSiblings h).
Proof. unfold assignSiblings, initSiblings. keeps_auto. Qed.
Hint Resolve keeps_tree_assignSiblings : bridge.
Lemma keeps_tree_resetLeaf c h : keeps T (resetLeaf c h).
Proof. unfold resetLeaf. keeps_auto. Qed.
Lemma keeps_tree_rollbackMT n h : keeps T (rollbackMT n h).
Proof. unfold rollbackMT, nextDepositCount. keeps_auto. apply keeps_tree_store. keeps_auto. Qed.
Lemma keeps_tree_addLeaf id leaf index h : keeps T (addLeaf id leaf index h).
Proof. unfold addLeaf. keeps_auto. Qed.

Lemma keeps_tree_on_tree {A} tID (c : M (DB * MerkleTree) A) : keeps T c → keeps B (on_tree tID c).
Proof.
  intros Hc [s bt] Hs. unfold on_tree. destruct (at_index (bc_exitTrees bt) tID) as [mt| | |]; [|done..].
  specialize (Hc (s, mt) Hs). by destruct (c (s, mt)) as [r [s' mt']].
Qed.
Lemma keeps_tree_GetMerkleTreeID n : keeps B (GetMerkleTreeID n).
Proof. unfold GetMerkleTreeID. keeps_auto. Qed.
Hint Resolve keeps_tree_on_tree keeps_tree_GetMerkleTreeID keeps_tree_resetLeaf keeps_tree_rollbackMT keeps_tree_addLeaf : bridge.

Lemma keeps_tree_ctrl :
  (∀ d h, keeps B (BridgeCtrl.AddDeposit d h)) ∧ (∀ c n h, keeps B (ReorgMT c n h)) ∧ (∀ n h, keeps B (RollbackMT n h)) ∧
  (∀ n h, keeps B (GetExitRoot n h)) ∧ (∀ l h, keeps B (AddRollupExitLeaf l h)).
Proof.
  repeat match goal with |- _ ∧ _ => split end; intros;
    unfold BridgeCtrl.AddDeposit, ReorgMT, RollbackMT, GetExitRoot, AddRollupExitLeaf; keeps_auto.
  eapply (keeps_zoom _ I); [done..|]. unfold addRollupExitLeaf, storeLeaves. cbn.
  unfold GetLatestRollupExitLeaves, IsRollupExitRoot. pose proof sk_AddRollupExitLeaves. keeps_auto.
Qed.

(** ** The synchronizer *)

Context {W : Type} (cfg : SyncConfig) (fuel : nat).
Local Abbreviation Y := (λ y : SyncState W, I (y_db y)).

Lemma keeps_sync_db {A} (c : M DB A) : keeps I c → keeps Y (on_db c).
Proof. by apply keeps_zoom. Qed.
Lemma keeps_sync_ctrl {A} (c : M (DB * BridgeController) A) : keeps B c → keeps Y (on_ctrl c).
Proof. apply keeps_zoom; [done|]. by intros y []. Qed.
Lemma keeps_sync_Rollback h : keeps I (Rollback h).
Proof. apply sk_Rollback. Qed.
Hint Resolve keeps_sync_db keeps_sync_ctrl keeps_sync_Rollback : bridge.
Hint Extern 1 (keeps _ _) => apply keeps_tree_ctrl : bridge.

Lemma keeps_sync_rollbackMT_loop n : keeps Y (rollbackMT_loop cfg n).
Proof. induction n as [|n IH]; cbn [rollbackMT_loop]; keeps_auto. Qed.
Hint Resolve keeps_sync_rollbackMT_loop : bridge.
Lemma keeps_sync_rollback {A} e tx : keeps Y (rollback (A := A) cfg fuel e tx).
Proof. unfold rollback. keeps_auto. Qed.
Hint Resolve keeps_sync_rollback : bridge.
Lemma keeps_sync_or_rollback {A} tx (c : M (SyncState W) A) : keeps Y c → keeps Y (or_rollback cfg fuel tx c).
Proof. intros Hc. unfold or_rollback. keeps_auto. Qed.
Hint Resolve keeps_sync_or_rollback : bridge.
Lemma keeps_sync_GetNumberDeposits n b h : keeps I (GetNumberDeposits n b h).
Proof. unfold GetNumberDeposits. keeps_auto. Qed.
Hint Resolve keeps_sync_GetNumberDeposits : bridge.
Lemma keeps_sync_checkLET n r c m tx : keeps Y (checkLET cfg fuel n r c m tx).
Proof. unfold checkLET. keeps_auto. Qed.
Hint Resolve keeps_sync_checkLET : bridge.

(** The handlers that change an exit tree, when the statements they run keep the property
    too. *)
Context (HAdd : ∀ d h, keeps I (Storage.AddDeposit d h)).

Lemma keeps_sync_storeDeposit d tx : keeps Y (storeDeposit cfg fuel d tx).
Proof. unfold storeDeposit. keeps_auto. Qed.
Hint Resolve keeps_sync_storeDeposit : bridge.

Context (HReset : ∀ c n h, keeps I (ResetDeposits c n h)).
Context (HBack : ∀ l h, keeps I (AddBackwardLET l h)) (HForw : ∀ l h, keeps I (AddForwardLET l h)).

Lemma keeps_sync_trees :
  (∀ d id tx, keeps Y (processDeposit cfg fuel d id tx)) ∧
  (∀ l id n tx, keeps Y (processBackwardLETSovereign cfg fuel l id n tx)) ∧
  (∀ l id n tx, keeps Y (processForwardLETSovereign cfg fuel l id n tx)).
Proof.
  repeat match goal with |- _ ∧ _ => split end; intros;
    unfold processDeposit, processBackwardLETSovereign, processForwardLETSovereign; keeps_auto.
Qed.

End Trees.

#[export] Hint Resolve keeps_sync_or_rollback keeps_sync_rollback keeps_sync_storeDeposit keeps_sync_checkLET : bridge.
