(* ===== verification/SchemaTheorems.v ===== *)
(** * The schema holds in every run

    The synchronizer, the claim transaction manager with both monitors, and the request of
    the bridge service that writes reach the tables only through the storage, whose
    statements enforce the constraints of the schema.  So the constraints hold in every run,
    whatever the nodes answer, whatever connection fails, and whether a call returns, fails
    or panics: the uniqueness of keys that other theorems assume of the tables. *)
From S2P Require Import Prelude Types Bytes Hash GlobalIndex MerkleSpec ClaimTypes Schema MerkleStore Storage.
From S2P Require Import PgMerkleStore MerkleTree BridgeCtrl Synchronizer Service NonceCache MonitorTxs CompressedTxs.
From S2P Require Import Toy Invariants SyncTheorems ServiceTheorems ServicePages ClaimTxManager ClaimTxLoop ClaimWitnesses SchemaInv TreeKeeps.

Lemma keeps_gopanic {S A} (I : S → Prop) : keeps I (gopanic (A := A)).
Proof. by intros s Hs. Qed.
#[export] Hint Resolve keeps_gopanic : bridge.

(** ** Reads *)

Lemma keeps_wf_reads :
  (∀ n h, keeps db_wf (GetLastBlock n h)) ∧ (∀ n o h, keeps db_wf (GetPreviousBlock n o h)) ∧
  (∀ a n h, keeps db_wf (GetDeposit a n h)) ∧ (∀ a n h, keeps db_wf (GetNumberDeposits a n h)) ∧
  (∀ g h, keeps db_wf (GetL2ExitRootsByGER g h)) ∧ (∀ g h, keeps db_wf (GetL1ExitRootByGER g h)) ∧
  (∀ h, keeps db_wf (GetLatestL1SyncedExitRoot h)) ∧ (∀ a b c h, keeps db_wf (GetTokenMetadata a b c h)) ∧
  (∀ r n h, keeps db_wf (CheckIfRootExists r n h)) ∧ (∀ c n h, keeps db_wf (GetRoot c n h)) ∧ (∀ k h, keeps db_wf (Get k h)) ∧
  (∀ h, keeps db_wf (GetLatestRollupExitLeaves h)) ∧ (∀ r h, keeps db_wf (IsRollupExitRoot r h)) ∧
  (∀ r h, keeps db_wf (GetRollupExitLeavesByRoot r h)) ∧ (∀ n h, keeps db_wf (GetLastDepositCount n h)).
Proof.
  repeat match goal with |- _ ∧ _ => split end; intros; unfold GetLastBlock, GetPreviousBlock, GetDeposit, GetNumberDeposits, GetL2ExitRootsByGER, GetL1ExitRootByGER,
    GetLatestL1SyncedExitRoot, GetTokenMetadata, CheckIfRootExists, GetRoot, Get, GetLatestRollupExitLeaves, IsRollupExitRoot,
    GetRollupExitLeavesByRoot, GetLastDepositCount; keeps_auto.
Qed.

Lemma keeps_wf_reads2 :
  (∀ d h, keeps db_wf (GetDepositByDepositID d h)) ∧ (∀ a n d h, keeps db_wf (GetDepositCount a n d h)) ∧
  (∀ a n d l o h, keeps db_wf (GetDeposits a n d l o h)) ∧ (∀ c o n h, keeps db_wf (GetClaim c o n h)) ∧
  (∀ a h, keeps db_wf (GetClaimCount a h)) ∧ (∀ a l o h, keeps db_wf (Storage.GetClaims a l o h)) ∧
  (∀ r n h, keeps db_wf (GetDepositCountByRoot r n h)) ∧ (∀ n h, keeps db_wf (GetLastComputedRoot n h)) ∧
  (∀ d h, keeps db_wf (GetDepositsFromOtherL2ToClaim d h)) ∧ (∀ c n d h, keeps db_wf (GetLatestTrustedGERByDeposit c n d h)) ∧
  (∀ a n l m o f h, keeps db_wf (GetPendingDepositsToClaim a n l m o f h)) ∧
  (∀ g n b h, keeps db_wf (GetDepositCountByGER g n b h)) ∧ (∀ ss r h, keeps db_wf (GetClaimTxsByStatus ss r h)) ∧
  (∀ h, keeps db_wf (GetLatestMonitoredTxGroupID h)) ∧ (∀ ids h, keeps db_wf (GetMonitoredTxsGroups ids h)) ∧
  (∀ h, keeps db_wf (Storage.GetSyncStatus h)).
Proof.
  repeat match goal with |- _ ∧ _ => split end; intros; unfold GetDepositByDepositID, GetDepositCount, GetDeposits, GetClaim, GetClaimCount, Storage.GetClaims,
    GetDepositCountByRoot, GetLastComputedRoot, GetDepositsFromOtherL2ToClaim, GetLatestTrustedGERByDeposit,
    GetPendingDepositsToClaim, GetDepositCountByGER, GetClaimTxsByStatus, GetLatestMonitoredTxGroupID, GetMonitoredTxsGroups,
    Storage.GetSyncStatus; keeps_auto.
Qed.

(** Every read of the storage. *)
Ltac wf_read := first [apply keeps_wf_reads | apply keeps_wf_reads2].
#[export] Hint Extern 1 (keeps db_wf _) => wf_read : bridge.

(** ** Methods of several statements *)

Lemma keeps_wf_GetLatestTrustedExitRoot n h : keeps db_wf (GetLatestTrustedExitRoot n h).
Proof. unfold GetLatestTrustedExitRoot. keeps_auto. Qed.
Lemma keeps_wf_AddSetClaim c h : keeps db_wf (AddSetClaim c h).
Proof. apply keeps_wf_addSetUnsetClaim. Qed.
Lemma keeps_wf_AddUnsetClaim c h : keeps db_wf (AddUnsetClaim c h).
Proof. apply keeps_wf_addSetUnsetClaim. Qed.
Lemma keeps_wf_AddRemoveL2GER g h : keeps db_wf (AddRemoveL2GER g h).
Proof.
  unfold AddRemoveL2GER, found_or, bind_bigint. keeps_auto.
  - apply keeps_wf_run. intros t s Hwf. cbn. case_decide; [|bump]. split; [bump|]. wf_frame Hwf.
  - apply keeps_wf_run. intros t s Hwf. split; [apply seqs_le_refl|]. apply wf_on_exit_root; [done|]. intros r. by case_decide.
  - apply keeps_wf_run, stmt_update. intros t s Hwf. apply wf_on_deposit; [done|]. intros d. by case_decide.
Qed.
Lemma wf_on_token f t s :
  tables_wf t s → (∀ r, token_key (f r) = token_key r ∧ tw_block_id (f r) = tw_block_id r) →
  tables_wf (on_token_wrapped (fmap f) t) s.
Proof. intros Hwf Hf. wf_frame Hwf; [apply unique_fmap; [apply Hf|done]|apply refers_fmap; [apply Hf|done]]. Qed.

Lemma keeps_wf_token `{AbiToken} :
  (∀ t h, keeps db_wf (AddTokenWrapped t h)) ∧ (∀ n a h, keeps db_wf (Storage.GetTokenWrapped n a h)).
Proof.
  split; intros; [unfold AddTokenWrapped|unfold Storage.GetTokenWrapped]; keeps_auto.
  1: { apply keeps_wf_run, stmt_exec. intros tb s t' Hwf E. case_decide as Hb; [done|]. case_decide as Hk; [done|]. injection E as <-.
    wf_frame Hwf. apply unique_snoc; [done|]. intros (r & [=] & Hr)%list_elem_of_fmap. apply Hk, Exists_exists. by exists r. }
  all: apply keeps_wf_run, stmt_update; intros tb s Hwf; apply wf_on_token; [done|]; intros r; by destruct (decide (tw_orig_net r = _ ∧ _)).
Qed.
#[export] Hint Resolve keeps_wf_GetLatestTrustedExitRoot keeps_wf_AddSetClaim keeps_wf_AddUnsetClaim keeps_wf_AddRemoveL2GER : bridge.
#[export] Hint Extern 1 (keeps db_wf _) => apply keeps_wf_token : bridge.

(** ** Trees and controller *)

#[export] Instance wf_store_keeps : StoreKeeps db_wf.
Proof. constructor; intros; auto with bridge. Qed.

(** ** The synchronizer *)

Section Sync.
Context `{K : Keccak256} `{AbiToken} {W : Type} `{ethermanInterface W} `{zkEVMClientInterface W}.
Context (cfg : SyncConfig) (fuel : nat).
Local Abbreviation Y := (λ y : SyncState W, db_wf (y_db y)).

Lemma keeps_wf_sync_db {A} (c : M DB A) : keeps db_wf c → keeps Y (Synchronizer.on_db c).
Proof. by apply keeps_zoom. Qed.
Lemma keeps_wf_sync_ctrl {A} (c : M (DB * BridgeController) A) : keeps (λ w, db_wf (fst w)) c → keeps Y (on_ctrl c).
Proof. apply keeps_zoom; [done|]. by intros y []. Qed.
Lemma keeps_wf_sync_world {A} (c : M W A) : keeps Y (on_world c).
Proof. by apply (keeps_zoom _ (λ _, True)). Qed.
Lemma keeps_wf_sync_modify f : (∀ y, y_db (f y) = y_db y) → keeps Y (modify f).
Proof. intros Hf. apply keeps_modify. intros y. by rewrite Hf. Qed.
Hint Resolve keeps_wf_sync_db keeps_wf_sync_ctrl keeps_wf_sync_world : bridge.
Hint Extern 1 (keeps _ (modify _)) => apply keeps_wf_sync_modify; done : bridge.
Hint Extern 1 (keeps _ _) => apply keeps_tree_ctrl, wf_store_keeps : bridge.
Hint Extern 1 (keeps Y (rollback _ _ _ _)) => apply (keeps_sync_rollback db_wf) : bridge.
Hint Extern 1 (keeps Y (or_rollback _ _ _ _)) => apply (keeps_sync_or_rollback db_wf) : bridge.
Hint Extern 1 (keeps Y (storeDeposit _ _ _ _)) => apply (keeps_sync_storeDeposit db_wf) : bridge.
Hint Extern 1 (keeps Y (checkLET _ _ _ _ _ _ _)) => apply (keeps_sync_checkLET db_wf) : bridge.

(** The handlers of the events. *)
Lemma keeps_wf_processOrder block id tx flags el : keeps Y (processOrder cfg fuel block id tx flags el).
Proof.
  unfold processOrder, event_at, processVerifyBatch, processGlobalExitRoot, processDeposit, processClaim, processTokenWrapped,
    processRemoveL2GlobalExitRoot, processBackwardLETSovereign, processForwardLETSovereign, processUnsetClaimSovereign,
    processSetClaimSovereign. keeps_auto.
Qed.
Hint Resolve keeps_wf_processOrder : bridge.
Lemma keeps_wf_processOrders block id tx flags els : keeps Y (processOrders cfg fuel block id tx flags els).
Proof. revert flags. induction els as [|el els IH]; intros flags; cbn [processOrders]; keeps_auto. Qed.
Hint Resolve keeps_wf_processOrders : bridge.
Lemma keeps_wf_processBlock order flags block : keeps Y (processBlock cfg fuel order flags block).
Proof. unfold processBlock. keeps_auto. Qed.
Hint Resolve keeps_wf_processBlock : bridge.
Lemma keeps_wf_processBlocks order flags blocks : keeps Y (processBlocks cfg fuel order flags blocks).
Proof. revert flags. induction blocks as [|b blocks IH]; intros flags; cbn [processBlocks]; keeps_auto. Qed.
Hint Resolve keeps_wf_processBlocks : bridge.
Lemma keeps_wf_processBlockRange blocks order : keeps Y (processBlockRange cfg fuel blocks order).
Proof. unfold processBlockRange, notifyL1, notifyL2. keeps_auto. Qed.
Lemma keeps_wf_resetState n : keeps Y (resetState cfg fuel n).
Proof. unfold resetState. keeps_auto. Qed.
Hint Resolve keeps_wf_processBlockRange keeps_wf_resetState : bridge.

Lemma keeps_wf_checkReorg_loop n b d o : keeps Y (checkReorg_loop cfg n b d o).
Proof. revert b d o. induction n as [|n IH]; intros b d o; cbn [checkReorg_loop]; unfold chainBlock; keeps_auto. Qed.
Hint Resolve keeps_wf_checkReorg_loop : bridge.
Lemma keeps_wf_checkReorg b o : keeps Y (checkReorg cfg fuel b o).
Proof. unfold checkReorg. keeps_auto. Qed.
Hint Resolve keeps_wf_checkReorg : bridge.
Lemma keeps_wf_resetTo b : keeps Y (resetTo cfg fuel b).
Proof. unfold resetTo. keeps_auto. Qed.
Hint Resolve keeps_wf_resetTo : bridge.
Lemma keeps_wf_syncBlocks_step lp : keeps Y (syncBlocks_step cfg fuel lp).
Proof. unfold syncBlocks_step, clampRange, checkReceived, nextRange, storeStatus. keeps_auto. Qed.
Hint Resolve keeps_wf_syncBlocks_step : bridge.
Lemma keeps_wf_syncBlocks_loop n lp : keeps Y (syncBlocks_loop cfg fuel n lp).
Proof. revert lp. induction n as [|n IH]; intros lp; cbn [syncBlocks_loop]; keeps_auto. Qed.
Hint Resolve keeps_wf_syncBlocks_loop : bridge.
Lemma keeps_wf_Sync_loop n b : keeps Y (Sync_loop cfg fuel n b).
Proof.
  revert b. induction n as [|n IH]; intros b; cbn [Sync_loop]; unfold Sync_iteration, syncBlocks, lastBlockOrGenesis, syncTrustedState; keeps_auto.
Qed.
Hint Resolve keeps_wf_Sync_loop : bridge.
Lemma keeps_wf_Sync n : keeps Y (Sync cfg fuel n).
Proof. unfold Sync, lastBlockOrGenesis. keeps_auto. Qed.

End Sync.

(** ** The service *)

Section Service.
Context `{K : Keccak256} {C : Type} `{LruCache C} (s : bridgeService).
Local Abbreviation V := (λ w : DB * C, db_wf (fst w)).

Lemma keeps_wf_sv_db {A} (c : M DB A) : keeps db_wf c → keeps V (sv_db c).
Proof. by apply keeps_zoom. Qed.
Hint Resolve keeps_wf_sv_db : bridge.
Lemma keeps_wf_getNode k h : keeps V (getNode k h).
Proof.
  unfold getNode. apply keeps_bind.
  { intros w Hw. by destruct (cache_Get k (snd w)). }
  intros o. keeps_auto.
Qed.
Hint Resolve keeps_wf_getNode : bridge.
Lemma keeps_wf_getProof_loop k i cur sib h : keeps V (getProof_loop k i cur sib h).
Proof. revert cur sib. induction k as [|k IH]; intros cur sib; cbn [getProof_loop]; keeps_auto. Qed.
Hint Resolve keeps_wf_getProof_loop : bridge.
Lemma keeps_wf_GetClaimProofForCompressed ger cnt net h : keeps V (GetClaimProofForCompressed s ger cnt net h).
Proof. unfold GetClaimProofForCompressed, claimProofs, getRollupExitProof, getProof, orErrorf. keeps_auto. Qed.

End Service.

(** ** The claim transaction manager *)

Section Manager.
Context {W C SC : Type} `{NonceLru C} `{L2Node W} `{L1Node W} `{BridgeBinding W} `{ClaimCompressor W} `{LruCache SC}.
Context `{K : Keccak256} `{BridgeAbi} `{MapRange}.
Context (cfg : ManConfig) (groupCfg : ConfigGroupingClaims) (authGasLimit : option Z) (gasOffset : Z).
Context (service : bridgeService) (l2NetworkID rollupID : Z) (authFrom : Address).
Local Abbreviation MI := (λ m : ManState W C, db_wf (ms_db m)).
Local Abbreviation CI := (λ st : CtmState W C SC, db_wf (ms_db (tm_man st))).

Lemma keeps_wf_at_db {A} (c : M DB A) : keeps db_wf c → keeps MI (at_db c).
Proof. by apply keeps_zoom. Qed.
Lemma keeps_wf_at_node {A} (c : M W A) : keeps MI (at_node c).
Proof. by apply (keeps_zoom _ (λ _, True)). Qed.
Lemma keeps_wf_at_cache {A} (f : C → A * C) : keeps MI (at_cache f).
Proof. by apply (keeps_zoom _ (λ _, True)). Qed.
Hint Resolve keeps_wf_at_db keeps_wf_at_node keeps_wf_at_cache : bridge.

(** The monitor of single transactions. *)
Lemma keeps_wf_updateClaimTx m tx : keeps MI (updateClaimTx m tx).
Proof. unfold updateClaimTx. keeps_auto. Qed.
Lemma keeps_wf_commitOrRollback tx : keeps MI (commitOrRollback tx).
Proof. unfold commitOrRollback. keeps_auto. Qed.
Lemma keeps_wf_byHash_retry n h e : keeps MI (byHash_retry n h e).
Proof. revert e. induction n as [|n IH]; intros e; cbn [byHash_retry]; keeps_auto. Qed.
Hint Resolve keeps_wf_updateClaimTx keeps_wf_commitOrRollback keeps_wf_byHash_retry : bridge.
Lemma keeps_wf_checkTxHistory_loop retry hs f a : keeps MI (checkTxHistory_loop retry hs f a).
Proof.
  revert f a. induction hs as [|h hs IH]; intros f a; cbn [checkTxHistory_loop]; unfold CheckTxWasMined, findInPool; keeps_auto.
Qed.
Lemma keeps_wf_estimateGas_retry n m r : keeps MI (estimateGas_retry n m r).
Proof. revert r. induction n as [|n IH]; intros r; cbn [estimateGas_retry]; keeps_auto. Qed.
Hint Resolve keeps_wf_checkTxHistory_loop keeps_wf_estimateGas_retry : bridge.
Lemma keeps_wf_MonitorTxs retry : keeps MI (MonitorTxs retry rollupID).
Proof.
  unfold MonitorTxs, monitorTx, checkTxHistory, sendMonitoredTx, storeMonitoredTx, reviewFailed, checkIfClaimed, ReviewMonitoredTx,
    IsClaimed, GetNextNonce, NonceCache_Remove. keeps_auto.
Qed.

(** The monitor of grouped claims. *)
Lemma keeps_wf_forGroups body p : (∀ g, keeps MI (body g)) → keeps MI (forGroups body p).
Proof.
  intros Hb. unfold forGroups. generalize (range_history (dom (p_GroupTx p))). intros ids. revert p.
  induction ids as [|id ids IH]; intros p; cbn [forGroups_loop]; keeps_auto.
Qed.
Lemma keeps_wf_checkReceipts_loop i txs g : keeps MI (checkReceipts_loop i txs g).
Proof. revert i g. induction txs as [|tx txs IH]; intros i g; cbn [checkReceipts_loop]; unfold CheckTxWasMined; keeps_auto. Qed.
Lemma keeps_wf_outdate_loop i txs g : keeps MI (outdate_loop groupCfg i txs g).
Proof. revert i g. induction txs as [|tx txs IH]; intros i g; cbn [outdate_loop]; keeps_auto. Qed.
Lemma keeps_wf_storeGroups o n ids sc : keeps MI (storeGroups o n ids sc).
Proof. revert sc. induction ids as [|id ids IH]; intros sc; cbn [storeGroups]; keeps_auto. Qed.
Hint Resolve keeps_wf_forGroups keeps_wf_checkReceipts_loop keeps_wf_outdate_loop keeps_wf_storeGroups : bridge.
Lemma keeps_wf_Process p : keeps MI (Process groupCfg authGasLimit gasOffset p).
Proof.
  unfold Process, SendClaims, CheckReceipts, OutdateClaims, createNewGroups, CompressClaimCall, sendClaims_group, checkReceipts_group,
    outdate_group, CanSendNewClaimCall. keeps_auto; apply keeps_wf_forGroups; keeps_auto.
Qed.
Hint Resolve keeps_wf_Process : bridge.
Lemma keeps_wf_Execute sc tx : keeps MI (Execute sc tx).
Proof. unfold Execute. keeps_auto. Qed.
Lemma keeps_wf_getPendingTxs tx : keeps MI (getPendingTxs rollupID tx).
Proof. unfold getPendingTxs, orErr. keeps_auto. Qed.
Hint Resolve keeps_wf_Execute keeps_wf_getPendingTxs : bridge.
Lemma keeps_wf_MonitorCompressedTxs : keeps MI (MonitorCompressedTxs groupCfg authGasLimit gasOffset rollupID).
Proof. unfold MonitorCompressedTxs, internalMonitorTxs, GenerateStoreUpdate. keeps_auto. Qed.

(** The manager. *)
Lemma keeps_wf_on_man {A} (c : M (ManState W C) A) : keeps MI c → keeps CI (on_man c).
Proof. by apply keeps_zoom. Qed.
Lemma keeps_wf_on_db {A} (c : M DB A) : keeps db_wf c → keeps CI (ClaimTxManager.on_db c).
Proof. intros Hc. by apply keeps_wf_on_man, keeps_wf_at_db. Qed.
Lemma keeps_wf_on_node {A} (c : M W A) : keeps CI (on_node c).
Proof. apply keeps_wf_on_man, keeps_wf_at_node. Qed.
Lemma keeps_wf_on_service {A} (c : M (DB * SC) A) : keeps (λ w, db_wf (fst w)) c → keeps CI (on_service c).
Proof. by apply keeps_zoom. Qed.
Lemma keeps_wf_GetNextNonce a : keeps MI (GetNextNonce a).
Proof. unfold GetNextNonce. keeps_auto. Qed.
Hint Resolve keeps_wf_on_man keeps_wf_on_db keeps_wf_on_node keeps_wf_on_service keeps_wf_GetNextNonce
  keeps_wf_GetClaimProofForCompressed : bridge.
Lemma keeps_wf_rollbackState {A} tx e : keeps CI (rollbackState (A := A) tx e).
Proof. unfold rollbackState. keeps_auto. Qed.
Hint Resolve keeps_wf_rollbackState : bridge.
Lemma keeps_wf_orRollbackState {A} tx (c : M (CtmState W C SC) A) : keeps CI c → keeps CI (orRollbackState tx c).
Proof. intros Hc. unfold orRollbackState. keeps_auto. Qed.
Hint Resolve keeps_wf_orRollbackState : bridge.
Lemma keeps_wf_updateDepositsStatus ger : keeps CI (updateDepositsStatus l2NetworkID rollupID ger).
Proof. unfold updateDepositsStatus. keeps_auto. Qed.
Lemma keeps_wf_estimateClaim_retry n to v d r : keeps CI (estimateClaim_retry authFrom n to v d r).
Proof. revert r. induction n as [|n IH]; intros r; cbn [estimateClaim_retry]; keeps_auto. Qed.
Lemma keeps_wf_messageDeposits addrs ds tx : keeps CI (messageDeposits l2NetworkID addrs ds tx).
Proof. revert ds. induction addrs as [|a addrs IH]; intros ds; cbn [messageDeposits]; keeps_auto. Qed.
Hint Resolve keeps_wf_estimateClaim_retry keeps_wf_messageDeposits : bridge.
Lemma keeps_wf_addClaimTx d to v data g tx : keeps CI (addClaimTx cfg authFrom d to v data g tx).
Proof. unfold addClaimTx, estimateFailed. keeps_auto. Qed.
Hint Resolve keeps_wf_addClaimTx : bridge.
Lemma keeps_wf_processPendingDeposits ger : keeps CI (processPendingDeposits cfg service l2NetworkID authFrom ger).
Proof. unfold processPendingDeposits, depositsToClaim, trustedGER, claimDeposit. keeps_auto. Qed.

Lemma step_wf l e l' :
  step cfg groupCfg authGasLimit gasOffset service l2NetworkID rollupID authFrom l e l' → CI (lp_state l) → CI (lp_state l').
Proof.
  set (LI := λ l : Loop W C SC, CI (lp_state l)). change (step cfg groupCfg authGasLimit gasOffset service l2NetworkID rollupID authFrom l e l' → LI l → LI l').
  assert (∀ A (c : M (CtmState W C SC) A), keeps CI c → keeps LI (on_state c)) as Hst by (intros A c; by apply keeps_zoom).
  assert (∀ f, (∀ l, lp_state (f l) = lp_state l) → keeps LI (modify f)) as Hm.
  { intros f Hf. apply keeps_modify. intros l0. unfold LI. by rewrite Hf. }
  assert (keeps CI (monitorTxs cfg groupCfg authGasLimit gasOffset rollupID)) as Hmon.
  { apply keeps_wf_on_man. case_match; [apply keeps_wf_MonitorCompressedTxs|apply keeps_wf_MonitorTxs]. }
  assert (∀ (c : M (Loop W C SC) unit), keeps LI c → c l = (Ok tt, l') → LI l → LI l') as Hk.
  { intros c Hc E Hl. specialize (Hc l Hl). by rewrite E in Hc. }
  intros Hstep Hl. destruct Hstep as [netID l' E|ger l' E|l' E|l' E|n E|c1 ger c2 l' Ec E].
  - eapply Hk; [|exact E|done]. unfold onSynced. apply keeps_bind; [|intros _]; apply Hm; intros l0; by case_decide.
  - eapply Hk; [|exact E|done]. unfold onExitRootEvent, startGoroutine. keeps_auto; try (by apply Hm).
    apply Hst, keeps_wf_updateDepositsStatus.
  - eapply Hk; [|exact E|done]. unfold onCompressorTick, startGoroutine. keeps_auto; by apply Hm.
  - eapply Hk; [|exact E|done]. unfold onTick. keeps_auto.
  - done.
  - assert (keeps LI (goroutine cfg service l2NetworkID authFrom ger)) as Hg
      by (unfold goroutine; keeps_auto; apply Hst, keeps_wf_processPendingDeposits).
    specialize (Hg (set_goroutines (lp_started l) (c1 ++ c2) l) Hl). by rewrite E in Hg.
Qed.

End Manager.

(** A database that satisfies the constraints of the schema, in its committed tables and in
    an open transaction, satisfies them after any number of turns of the synchronizer, after
    every execution of the claim transaction manager, with either monitor, and after the
    request of the service that writes.  The statements enforce the constraints; that the
    programs reach the tables only through statements carries this over to their runs, where
    it gives the uniqueness of keys that other theorems start from. *)
Theorem schema_holds {W C SC : Type} `{K : Keccak256} `{AbiToken} `{ethermanInterface W} `{zkEVMClientInterface W}
    `{NonceLru C} `{L2Node W} `{L1Node W} `{BridgeBinding W} `{ClaimCompressor W} `{LruCache SC} `{BridgeAbi} `{MapRange} `{CommonHex}
    (syncCfg : SyncConfig) (fuel : nat) (cfg : ManConfig) (groupCfg : ConfigGroupingClaims) (authGasLimit : option Z)
    (gasOffset : Z) (service : bridgeService) (l2NetworkID rollupID : Z) (authFrom : Address) (db : DB) :
  db_wf db →
  (∀ (y : SyncState W) n, y_db y = db → db_wf (y_db (snd (Sync syncCfg fuel n y)))) ∧
  (∀ (l l' : Loop W C SC) tr, ms_db (tm_man (lp_state l)) = db →
     steps cfg groupCfg authGasLimit gasOffset service l2NetworkID rollupID authFrom l tr l' →
     db_wf (ms_db (tm_man (lp_state l')))) ∧
  (∀ (c : SC) net addr, db_wf (fst (snd (Service.GetTokenWrapped net addr (db, c))))).
Proof.
  intros Hdb. split; [|split].
  - intros y n E. apply keeps_wf_Sync. by rewrite E.
  - intros l l' tr E Hs. induction Hs as [|tr l1 e l2 _ IH Hstep]; [by rewrite E|]. eapply step_wf; [exact Hstep|exact IH].
  - intros c net addr. assert (keeps (λ w : DB * SC, db_wf (fst w)) (Service.GetTokenWrapped net addr)) as Hk; [|by apply Hk].
    unfold Service.GetTokenWrapped. apply keeps_bind; [|auto with bridge]. apply keeps_wf_sv_db, keeps_wf_token.
Qed.

(** The tables of six deposits of two networks, with their nodes and roots. *)
Definition toy_wf_db : DB := mkDB toyk_tables3 None (mkSeqs 3 1 7 2 1 1 1 1) [].
Lemma toy_wf : db_wf toy_wf_db.
Proof.
  split; [|done]. constructor; unfold serial, unique, refers; apply (bool_decide_unpack _); by vm_compute.
Qed.

Definition toy_zkevm : zkEVMClientInterface unit := {|
  GetLatestGlobalExitRoot := mret 5;
  ExitRootsByGER _ := mret (Some (1, 2))
|}.
Definition toy_wf_sync : SyncState unit := mkSyncState tt toy_wf_db (mkBridgeController [] (mkMerkleTree MaxInt32 3 0 []) ∅) false 0 0 0 [] [] [].

Lemma schema_holds_witness :
  db_wf (y_db (snd (Sync (K := toy_keccak) (H := toy_abi) (H0 := toy_etherman) (H1 := toy_zkevm) toy_cfg 1 1 toy_wf_sync))).
Proof.
  apply (schema_holds (C := gmap Address Z) (SC := list (Hash * list Hash)) (K := toy_keccak) (H := toy_abi) (H0 := toy_etherman)
           (H1 := toy_zkevm) (H2 := toyk_lru) (H3 := toyk_node) (H4 := toyk_l1) (H5 := toyk_binding) (H6 := toyk_compressor)
           (H7 := ServiceTheorems.toy_lru) (H8 := toyk_abi) (H9 := toyk_range) (H10 := toy_hex)
           toy_cfg 1 toyk_cfg toyk_group None 100 toyk_service 1 1 66 toy_wf_db).
  - exact toy_wf.
  - reflexivity.
Defined.
