(* ===== verification/SyncRange.v ===== *)
(** * A range of blocks

    What the synchronizer makes of a range of blocks, for the events that decide which
    claims exist: deposits, forward and backward updates of the local exit tree, claims and
    global exit roots.  The promise is a ledger, the leaves of the exit tree of the network
    and the claims made, which every event extends; the tables implement it before and
    after every block. *)
From S2P Require Import Prelude Types Bytes Hash MerkleSpec ClaimTypes Schema MerkleStore Storage.
From S2P Require Import PgMerkleStore MerkleTree MerkleTreeFacts BridgeCtrl Synchronizer Invariants.
From S2P Require Import StorageFacts SyncFacts ReorgFacts Toy SyncTheorems SyncDeposits SyncLET SyncRefinement.
From S2P Require Import ClaimStatus Etherman EthermanTheorems SchemaInv TreeKeeps SchemaTheorems.

(** ** The ledger *)

Record Ledger := mkLedger {
  lg_leaves : list Hash;
  lg_claims : list (Z * Z * Z * bool);
  lg_gers : list Hash
}.

(** The events that change the exit tree. *)
Definition tree_event (e : Event) : option TreeEvent :=
  match e with
  | EvDeposit d => Some (SyncRefinement.EvDeposit d)
  | EvForwardLET l => Some (SyncRefinement.EvForward l)
  | EvBackwardLET l => Some (SyncRefinement.EvBackward l)
  | _ => None
  end.

Section Ledger.
Context `{K : Keccak256} (cfg : SyncConfig) (Ht : nat) (children : Hash → option (list Hash)).

(** The leaf of a deposit does not depend on the block it is stored with. *)
Definition any_block : block_row := mk_block_row 0 0 0 0.

Definition new_claim_key (c : Claim) : Z * Z * Z * bool := (c_Index c, c_RollupIndex c, cf_networkID cfg, c_MainnetFlag c).

(** A claim is made once; the exit roots of a range differ, and on mainnet they come with
    their two roots, elsewhere without. *)
Inductive ledger_step (lg : Ledger) : Event → Ledger → Prop :=
| ledger_tree e ev ls' :
    tree_event e = Some ev → tree_step cfg any_block Ht children (lg_leaves lg) ev ls' →
    ledger_step lg e (mkLedger ls' (lg_claims lg) (lg_gers lg))
| ledger_claim c :
    new_claim_key c ∉ lg_claims lg →
    ledger_step lg (EvClaim c) (mkLedger (lg_leaves lg) (lg_claims lg ++ [new_claim_key c]) (lg_gers lg))
| ledger_ger g :
    g_GlobalExitRoot g ∉ lg_gers lg → length (g_ExitRoots g) = (if decide (cf_networkID cfg = 0) then 2%nat else 0%nat) →
    ledger_step lg (EvGlobalExitRoot g) (mkLedger (lg_leaves lg) (lg_claims lg) (lg_gers lg ++ [g_GlobalExitRoot g])).

Inductive ledger_steps (lg : Ledger) : list Event → Ledger → Prop :=
| ledger_nil : ledger_steps lg [] lg
| ledger_cons e es lg1 lg2 : ledger_step lg e lg1 → ledger_steps lg1 es lg2 → ledger_steps lg (e :: es) lg2.

Lemma ledger_cons_inv lg e es lg2 :
  ledger_steps lg (e :: es) lg2 → ∃ lg1, ledger_step lg e lg1 ∧ ledger_steps lg1 es lg2.
Proof. inversion 1; subst. eauto. Qed.

Lemma ledger_steps_app lg es1 es2 lg2 :
  ledger_steps lg (es1 ++ es2) lg2 → ∃ lg1, ledger_steps lg es1 lg1 ∧ ledger_steps lg1 es2 lg2.
Proof.
  revert lg. induction es1 as [|e es1 IH]; intros lg Hs; cbn in Hs.
  - exists lg. split; [constructor|done].
  - apply ledger_cons_inv in Hs as (lg1 & Hstep & Hrest). destruct (IH _ Hrest) as (lg' & H1 & H2). exists lg'.
    split; [by econstructor|done].
Qed.

Lemma tree_step_block b b' ls ev ls' : tree_step cfg b Ht children ls ev ls' → tree_step cfg b' Ht children ls ev ls'.
Proof.
  intros [d leaf Ec El Ha|fl leaves Er Ec Hl En Enc Ha|bl c Hc Er Ec En Enc Hn].
  - by apply step_deposit.
  - apply step_forward; try done. unfold forward_deposits in *. apply Forall2_same_length_lookup in Hl as [Hlen Hl].
    apply Forall2_same_length_lookup. rewrite length_imap in *. split; [done|]. intros i d leaf Hi Hleaf.
    rewrite list_lookup_imap in Hi. apply fmap_Some in Hi as (x & Hx & ->). eapply Hl in Hleaf; [|by rewrite list_lookup_imap, Hx].
    rewrite <- Hleaf. done.
  - by apply step_backward.
Qed.

End Ledger.

(** ** The other tables *)

Definition same_rest (t0 t : Tables) : Prop :=
  t_claim t = t_claim t0 ∧ t_exit_root t = t_exit_root t0 ∧ t_block t = t_block t0.

(** The open transaction has these claims and exit roots: no statement of the trees
    touches them. *)
Definition rest_frame (t0 : Tables) (db : DB) : Prop :=
  ∀ t, db_tx db = Some (TxActive t) → same_rest t0 t.

Lemma keeps_rest_run t0 {A} h (q : stmt A) :
  (∀ t s a t' s', q t s = (inr (a, t'), s') → same_rest t t') →
  keeps (rest_frame t0) (run h q).
Proof.
  intros Hq db Hdb. unfold run. destruct (next_fault db) as [b db1] eqn:E.
  apply next_fault_parts in E as (_ & Etx & _). unfold rest_frame in Hdb. rewrite <- Etx in Hdb. clear Etx db.
  assert (∀ h, rest_frame t0 (abort_tx h db1)) as Hab.
  { intros [|]; [exact Hdb|]. intros t. cbn. by destruct (db_tx db1). }
  destruct b; [apply Hab|]. destruct h.
  - destruct (q _ _) as [[e|[a t']] s']; cbn; exact Hdb.
  - destruct (db_tx db1) as [[t|]|] eqn:Et; [|by intros ?; cbn; rewrite Et..].
    destruct (q t (db_seqs db1)) as [[e|[a t']] s'] eqn:Eq; cbn; [by intros ?|].
    intros t1 [= <-]. destruct (Hdb t eq_refl) as (E1 & E2 & E3), (Hq _ _ _ _ _ Eq) as (E4 & E5 & E6). unfold same_rest. by rewrite E4, E5, E6.
Qed.

Ltac rest_stmt := intros; apply keeps_rest_run; intros ? ? ? ? ? E; unfold sql_query, sql_update, sql_exec in E;
  repeat case_match; simplify_eq; try done.

Lemma copy_rht_rest rows : ∀ t t', copy_rht rows t = inr t' → same_rest t t'.
Proof.
  induction rows as [|row rows IH]; intros t t' E; simpl in E; [by simplify_eq|].
  unfold insert_rht in E. repeat case_decide; [done..|]. by apply IH in E.
Qed.
Lemma copy_rollup_exit_rest rows : ∀ t s u t' s',
  copy_rollup_exit rows t s = (inr (u, t'), s') → same_rest t t'.
Proof.
  induction rows as [|row rows IH]; intros t s u t' s' E; cbn in E; [by simplify_eq|].
  repeat case_match; simplify_eq; try done; try (eapply IH in E; done).
Qed.

#[export] Instance rest_store_keeps t0 : StoreKeeps (rest_frame t0).
Proof.
  constructor.
  - rest_stmt.
  - rest_stmt.
  - intros. apply keeps_rest_run. unfold sql_exec. intros t s a t' s' E. destruct (copy_rht _ t) eqn:Ec; simplify_eq. eapply copy_rht_rest. exact Ec.
  - intros. apply keeps_rest_run. intros t s a t' s' E. by eapply copy_rollup_exit_rest.
  - intros h db Hdb. unfold Rollback. destruct h; [done|]. destruct (next_fault db) as [b db1] eqn:E.
    apply next_fault_parts in E as (_ & Etx & _). unfold rest_frame in Hdb. rewrite <- Etx in Hdb. destruct (db_tx db1) eqn:Et; [done|]. intros t. cbn. by rewrite Et.
Qed.

Section Range.
Context `{K : Keccak256} {W : Type} (cfg : SyncConfig) (Ht tID : nat) (children : Hash → option (list Hash)) (fuel : nat).
Context (Hht : (0 < Ht ≤ 64)%nat).
Local Abbreviation net := (cf_networkID cfg).

Lemma keeps_rest_handle t0 b ev : keeps (λ y : SyncState W, rest_frame t0 (y_db y)) (handle cfg b fuel ev).
Proof.
  assert (∀ c n h, keeps (rest_frame t0) (ResetDeposits c n h)) as Hr.
  { intros. unfold ResetDeposits. case_decide; [apply keeps_throw|rest_stmt]. }
  destruct ev; apply (keeps_sync_trees (rest_frame t0)); try exact Hr; rest_stmt.
Qed.

(** ** The handlers *)

(** The handler of an event, and the flags after it. *)
Definition handle_event (b : block_row) (e : Event) : M (SyncState W) unit :=
  match e with
  | EvClaim c => processClaim cfg fuel c (br_id b) InTx
  | EvGlobalExitRoot g => processGlobalExitRoot cfg fuel g (br_id b) InTx
  | _ => match tree_event e with Some ev => handle cfg b fuel ev | None => gopanic end
  end.
Definition event_flags (flags : bool * bool) (e : Event) : bool * bool :=
  match e with EvGlobalExitRoot g => ger_flags flags g | _ => flags end.

(** The exit roots of mainnet have their two roots. *)
Definition roots_wf (t : Tables) : Prop :=
  ∀ r, r ∈ t_exit_root t → er_network_id r = 0 → length (er_exit_roots r) = 2%nat.

(** What the flags promise: there is an exit root to tell the managers about. *)
Definition flags_ok (flags : bool * bool) (t : Tables) : Prop :=
  (flags.1 = true → ∃ r, r ∈ t_exit_root t ∧ er_allowed r = true ∧ 0 < er_block_id r ∧ er_network_id r = 0) ∧
  (flags.2 = true → ∃ r, r ∈ t_exit_root t ∧ er_allowed r = true ∧ er_network_id r = net).

(** The tables of the transaction of block [b], besides the tree. *)
Record others (hs : list Hash) (b : block_row) (lg : Ledger) (flags : bool * bool) (t : Tables) : Prop := {
  ot_blocks : br_block_hash <$> t_block t = hs;
  ot_claims : claim_key <$> t_claim t = lg_claims lg;
  ot_roots : roots_wf t;
  ot_gers : ∀ r, r ∈ t_exit_root t → er_block_id r = br_id b → er_global_exit_root r ∈ lg_gers lg;
  ot_flags : flags_ok flags t
}.

(** The state in the middle of block [b]. *)
Record in_block (hs : list Hash) (b : block_row) (lg : Ledger) (flags : bool * bool) (y : SyncState W) : Prop := {
  ib_tree : implements cfg b Ht children tID (lg_leaves lg) y;
  ib_wf : db_wf (y_db y);
  ib_id : 0 < br_id b;
  ib_others : ∀ t, db_tx (y_db y) = Some (TxActive t) → others hs b lg flags t;
  ib_committed : roots_wf (db_committed (y_db y))
}.

Lemma wf_keeps_handle b ev : keeps (λ y : SyncState W, db_wf (y_db y)) (handle cfg b fuel ev).
Proof. destruct ev; apply (keeps_sync_trees db_wf); auto with bridge. Qed.

Lemma handle_tree hs b lg flags y e ev ls' :
  in_block hs b lg flags y → tree_event e = Some ev → tree_step cfg any_block Ht children (lg_leaves lg) ev ls' →
  ∃ y', handle_event b e y = (Ok tt, y') ∧ in_block hs b (mkLedger ls' (lg_claims lg) (lg_gers lg)) flags y' ∧
    db_committed (y_db y') = db_committed (y_db y).
Proof.
  intros [Himp Hwf Hid Hot Hc] Ee Hstep.
  destruct (handle_refines cfg b Ht children fuel tID Hht _ ls' ev y Himp (tree_step_block _ _ _ _ _ _ _ _ Hstep))
    as (y' & E & Himp' & Ec).
  exists y'. split; [destruct e; cbn in Ee; simplify_eq; exact E|]. split; [|done].
  destruct Himp as (lds & t & _ & Hbs & _). pose proof (ts_tx _ _ _ _ _ _ (bs_tree _ _ _ _ _ _ _ Hbs)) as Htx.
  pose proof (keeps_rest_handle t b ev y) as Hr. pose proof (wf_keeps_handle b ev y Hwf) as Hwf'.
  rewrite E in Hr, Hwf'. cbn in Hr, Hwf'. destruct (Hot t Htx) as [H0 H1 H2 H3 H4].
  assert (∀ t', db_tx (y_db y') = Some (TxActive t') → same_rest t t') as Hsame.
  { apply Hr. intros t1 E1. rewrite Htx in E1. by injection E1 as <-. }
  constructor; [done..| |by rewrite Ec]. intros t' Htx'. destruct (Hsame t' Htx') as (Ecl & Eer & Eb).
  constructor; cbn; unfold roots_wf, flags_ok; by rewrite ?Ecl, ?Eer, ?Eb.
Qed.

(** A statement on other tables. *)
Lemma in_block_stmt {A} (c : M DB A) hs b lg lg' flags flags' y t a t' s' :
  in_block hs b lg flags y → db_tx (y_db y) = Some (TxActive t) → keeps db_wf c →
  c (y_db y) = (Ok a, with_tables InTx t' s' (y_db y)) →
  t_deposit t' = t_deposit t → t_block t' = t_block t → t_root t' = t_root t → t_rht t' = t_rht t →
  sq_deposit s' = sq_deposit (db_seqs (y_db y)) →
  lg_leaves lg' = lg_leaves lg → others hs b lg' flags' t' →
  ∃ y', on_db c y = (Ok a, y') ∧ in_block hs b lg' flags' y' ∧ db_tx (y_db y') = Some (TxActive t') ∧
    db_committed (y_db y') = db_committed (y_db y).
Proof.
  intros [Himp Hwf Hid Hot Hc] Htx Hk E Ed Eb Er Eh Es El Hot'.
  destruct Himp as (lds & t0 & Elds & Hbs & Hknown & Hlen1 & Hlen2).
  pose proof (bs_tree _ _ _ _ _ _ _ Hbs) as [Hf Htx0 _ _ _ _]. assert (t0 = t) as -> by congruence.
  exists (put_db (with_tables InTx t' s' (y_db y)) y). split; [by apply on_db_eq|]. split; [|done].
  constructor; [| |done| |done].
  - exists lds, t'. rewrite El. split; [done|]. split; [by eapply block_state_ext|]. by rewrite Eh.
  - specialize (Hk (y_db y) Hwf). by rewrite E in Hk.
  - intros t1. cbn. intros [= <-]. done.
Qed.

Lemma in_block_tables hs b lg flags y :
  in_block hs b lg flags y → ∃ t, db_tx (y_db y) = Some (TxActive t) ∧ db_faults (y_db y) = [] ∧ block_exists t (br_id b).
Proof.
  intros [(lds & t & _ & [Hts _ Hb _ _] & _) _ _ _ _]. exists t. split; [apply Hts|]. split; [apply Hts|].
  right. by apply list_elem_of_fmap_2.
Qed.

Lemma handle_claim hs b lg flags y c :
  in_block hs b lg flags y → new_claim_key cfg c ∉ lg_claims lg →
  ∃ y', handle_event b (EvClaim c) y = (Ok tt, y') ∧
    in_block hs b (mkLedger (lg_leaves lg) (lg_claims lg ++ [new_claim_key cfg c]) (lg_gers lg)) flags y' ∧
    db_committed (y_db y') = db_committed (y_db y).
Proof.
  intros Hin Hnew. destruct (in_block_tables _ _ _ _ _ Hin) as (t & Htx & Hfl & Hb). cbn [handle_event]. unfold processClaim.
  match goal with |- context [AddClaim ?x InTx] => set (c1 := x) end.
  destruct (ib_others _ _ _ _ _ Hin t Htx) as [H0 H1 H2 H3 H4].
  set (row := mk_claim_row net (c_Index c) (c_OriginalNetwork c) (c_OriginalAddress c) (c_Amount c) (c_DestinationAddress c)
    (br_id b) (c_TxHash c) (c_RollupIndex c) (c_MainnetFlag c) (c_GlobalIndex c)).
  destruct (in_block_stmt (AddClaim c1 InTx) hs b lg (mkLedger (lg_leaves lg) (lg_claims lg ++ [new_claim_key cfg c]) (lg_gers lg))
    flags flags y t tt (on_claim (λ l, l ++ [row]) t) (db_seqs (y_db y)))
    as (y' & E & Hin' & _ & Ec); [done|done|apply keeps_wf_AddClaim| |done..| |].
  - apply (run_live InTx _ _ t); [by cbn; rewrite Htx|done|]. unfold sql_exec. cbn. rewrite decide_False by (intros Hn; apply Hn; exact Hb). rewrite decide_False; [reflexivity|].
    intros (r & Hr & E1 & E2 & E3 & E4)%Exists_exists. apply Hnew. rewrite <- H1. apply list_elem_of_fmap. exists r.
    split; [|done]. unfold claim_key, new_claim_key. congruence.
  - constructor; [done| |done..]. cbn. by rewrite fmap_app, H1.
  - exists y'. split; [by apply or_rollback_Ok|done].
Qed.

(** ** Exit roots *)

(** The exit roots whose two roots are now known. *)
Lemma handle_UpdateL2GER hs b lg flags roots gers : ∀ y,
  length roots = 2%nat → in_block hs b lg flags y →
  ∃ y', forM_ gers (λ ger, or_rollback cfg fuel InTx (on_db (UpdateL2GER (set_g_ExitRoots roots ger) InTx))) y = (Ok tt, y') ∧
    in_block hs b lg flags y' ∧ db_committed (y_db y') = db_committed (y_db y).
Proof.
  intros y Hlen. revert y. destruct roots as [|r0 [|r1 [|]]]; [done|done| |done]. induction gers as [|g gers IH]; intros y Hin.
  { by exists y. }
  destruct (in_block_tables _ _ _ _ _ Hin) as (t & Htx & Hfl & Hb). destruct (ib_others _ _ _ _ _ Hin t Htx) as [H0 H1 H2 H3 H4].
  cbn [forM_]. set (f := λ r, if decide (er_id r = g_ID g) then set_er_exit_roots [r0; r1] r else r).
  assert (∀ r, er_block_id (f r) = er_block_id r ∧ er_global_exit_root (f r) = er_global_exit_root r ∧
    er_network_id (f r) = er_network_id r ∧ er_allowed (f r) = er_allowed r) as Hf by (intros r; unfold f; by case_decide).
  destruct (in_block_stmt (UpdateL2GER (set_g_ExitRoots [r0; r1] g) InTx) hs b lg lg flags flags y t tt
      (on_exit_root (fmap f) t) (db_seqs (y_db y))) as (y1 & E1 & Hin1 & _ & Ec1); [done|done|apply keeps_wf_UpdateL2GER| |done..| |].
  { unfold UpdateL2GER. cbn. by apply (run_live InTx _ _ t); [cbn; rewrite Htx| |]. }
  { constructor; [done|done|..]; cbn.
    - intros r (r' & -> & Hr')%list_elem_of_fmap. destruct (Hf r') as (_ & _ & -> & _). intros Hn. unfold f.
      case_decide; [done|]. by apply H2.
    - intros r (r' & -> & Hr')%list_elem_of_fmap. destruct (Hf r') as (-> & -> & _ & _). by apply H3.
    - destruct H4 as [Hf1 Hf2]. split; intros Ef; [destruct (Hf1 Ef) as (r & Hr & ?)|destruct (Hf2 Ef) as (r & Hr & ?)];
        exists (f r); (split; [by apply list_elem_of_fmap_2|]); destruct (Hf r) as (E1 & _ & E3 & E4); by rewrite ?E1, E3, E4. }
  destruct (IH y1 Hin1) as (y' & E & Hin' & Ec). exists y'. split; [|split; [done|congruence]].
  erewrite M_bind_Ok; [exact E|]. apply or_rollback_Ok. exact E1.
Qed.

(** The exit root of the event, with the roots that are known. *)
Lemma handle_AddGER hs b lg flags flags' y g :
  in_block hs b lg flags y → g_GlobalExitRoot g ∉ lg_gers lg → g_BlockID g = br_id b → g_NetworkID g = net →
  length (g_ExitRoots g) = 2%nat ∨ (length (g_ExitRoots g) = 0%nat ∧ net ≠ 0) →
  (flags'.1 = true → flags.1 = true ∨ net = 0) →
  ∃ y', or_rollback cfg fuel InTx (on_db (AddGlobalExitRoot g InTx)) y = (Ok tt, y') ∧
    in_block hs b (mkLedger (lg_leaves lg) (lg_claims lg) (lg_gers lg ++ [g_GlobalExitRoot g])) flags' y' ∧
    db_committed (y_db y') = db_committed (y_db y).
Proof.
  intros Hin Hnew Hb Hn Hlen Hfl'. destruct (in_block_tables _ _ _ _ _ Hin) as (t & Htx & Hfl & Hex).
  destruct (ib_others _ _ _ _ _ Hin t Htx) as [H0 H1 H2 H3 [Hf1 _]].
  assert (∃ roots, exit_roots_column (g_ExitRoots g) = Ok roots ∧ (net = 0 → length roots = 2%nat)) as (roots & Er & Hroots).
  { destruct (g_ExitRoots g) as [|r0 [|r1 [|]]]; cbn in Hlen; [|lia| |lia]; eexists; (split; [reflexivity|]); [|done].
    destruct Hlen as [|[_ ?]]; [lia|done]. }
  set (row := mk_exit_root_row (sq_exit_root (db_seqs (y_db y))) (g_BlockID g) (g_GlobalExitRoot g) roots (g_NetworkID g) true).
  set (t' := on_exit_root (λ l, l ++ [row]) t).
  assert (∀ r, r ∈ t_exit_root t' ↔ r ∈ t_exit_root t ∨ r = row) as Hrows by (intros r; cbn; by rewrite elem_of_app, list_elem_of_singleton).
  destruct (in_block_stmt (AddGlobalExitRoot g InTx) hs b lg
    (mkLedger (lg_leaves lg) (lg_claims lg) (lg_gers lg ++ [g_GlobalExitRoot g])) flags flags' y t tt t' (bump_exit_root (db_seqs (y_db y))))
    as (y' & E' & Hin' & _ & Ec'); [done|done|apply keeps_wf_AddGlobalExitRoot| |done..| |].
  - unfold AddGlobalExitRoot. rewrite Er. erewrite M_bind_Ok by reflexivity. apply (run_live InTx _ _ t); [by cbn; rewrite Htx|done|].
    rewrite decide_False. 2: { intros (r & Hr & E1 & E2 & _)%Exists_exists. apply Hnew. rewrite <- E2. apply H3; [done|congruence]. }
    rewrite decide_False by (rewrite Hb; intros Hne; by apply Hne). reflexivity.
  - constructor; [done|done|..]; cbn [lg_gers].
    + intros r [Hr| ->]%Hrows; [by apply H2|]. intros E0. apply Hroots. cbn in E0. congruence.
    + intros r [Hr| ->]%Hrows; [|intros _; apply elem_of_app; right; by left]. intros E0. apply elem_of_app. left. by apply H3.
    + split; intros Ef.
      * destruct (Hfl' Ef) as [Ef1|E0]; [destruct (Hf1 Ef1) as (r & Hr & ?); exists r; rewrite Hrows; tauto|].
        exists row. rewrite Hrows. split; [by right|]. cbn. rewrite Hb, Hn. split; [done|]. split; [apply (ib_id _ _ _ _ _ Hin)|done].
      * exists row. rewrite Hrows. split; [by right|done].
  - exists y'. split; [by apply or_rollback_Ok|done].
Qed.

(** An exit root of mainnet, when there is one, comes with its roots. *)
Lemma GetL1ExitRootByGER_ok ger db :
  db_faults db = [] → roots_wf (db_committed db) →
  ∃ r, GetL1ExitRootByGER ger NoTx db = (r, db) ∧
    (r = Err ErrStorageNotFound ∨ ∃ g, r = Ok g ∧ length (g_ExitRoots g) = 2%nat).
Proof.
  intros Hf Hc. unfold GetL1ExitRootByGER. erewrite M_bind_Ok by (by apply run_query_live).
  destruct (head _) as [row|] eqn:Erow; [|exists (Err ErrStorageNotFound); split; [done|by left]].
  apply head_Some_elem_of, sort_desc_elem, list_elem_of_filter in Erow as [Hn Hrow].
  specialize (Hc row Hrow (proj2 (proj2 (proj2 Hn)))). destruct (er_exit_roots row) as [|r0 [|r1 [|]]]; try done.
  eexists. split; [reflexivity|]. right. by eexists.
Qed.

Lemma handle_ger hs b lg flags y g :
  in_block hs b lg flags y → g_GlobalExitRoot g ∉ lg_gers lg →
  length (g_ExitRoots g) = (if decide (net = 0) then 2%nat else 0%nat) →
  ∃ y', handle_event b (EvGlobalExitRoot g) y = (Ok tt, y') ∧
    in_block hs b (mkLedger (lg_leaves lg) (lg_claims lg) (lg_gers lg ++ [g_GlobalExitRoot g])) (ger_flags flags g) y' ∧
    db_committed (y_db y') = db_committed (y_db y).
Proof.
  intros Hin Hnew Hlen. destruct (in_block_tables _ _ _ _ _ Hin) as (t & Htx & Hfl & Hex). pose proof (ib_committed _ _ _ _ _ Hin) as Hc.
  assert (∀ A (f : Tables → A), run NoTx (sql_query f) (y_db y) = (Ok (f (db_committed (y_db y))), y_db y)) as Hq
    by (intros; by apply run_query_live).
  cbn [handle_event]. unfold processGlobalExitRoot. cbn [g_ExitRoots g_GlobalExitRoot place_ger]. unfold ger_flags.
  rewrite Hlen. case_decide as Hn.
  - rewrite !decide_True by done.
    assert (∃ gers, on_db (GetL2ExitRootsByGER (g_GlobalExitRoot g) NoTx) y = (Ok gers, y)) as (gers & E).
    { eexists. rewrite <- (put_db_same y) at 2. apply on_db_eq. unfold GetL2ExitRootsByGER. by erewrite M_bind_Ok by apply Hq. }
    erewrite M_bind_Ok by (apply attempt_Ok, E). erewrite M_bind_Ok by reflexivity.
    destruct (handle_UpdateL2GER hs b lg flags (g_ExitRoots g) gers y Hlen Hin) as (y1 & E1 & Hin1 & Ec1).
    destruct (handle_AddGER hs b lg flags (true, flags.2) y1 (place_ger cfg (br_id b) g)) as (y' & E' & Hin' & Ec'); [done..|by left|by right|].
    exists y'. split; [|split; [done|congruence]]. by erewrite M_bind_Ok by exact E1.
  - rewrite !decide_False, !decide_True by lia.
    destruct (GetL1ExitRootByGER_ok (g_GlobalExitRoot g) (y_db y) Hfl Hc) as (r & Er & Hr).
    assert (on_db (GetL1ExitRootByGER (g_GlobalExitRoot g) NoTx) y = (r, y)) as E by (rewrite <- (put_db_same y) at 2; by apply on_db_eq).
    destruct Hr as [->|(ger & -> & Hger)].
    + erewrite M_bind_Ok by (apply attempt_Err, E). erewrite M_bind_Ok by reflexivity.
      destruct (handle_AddGER hs b lg flags (flags.1, true) y (place_ger cfg (br_id b) g)) as (y' & E' & Hin' & Ec'); [done..|by right|by left|]. eauto.
    + erewrite M_bind_Ok by (apply attempt_Ok, E). erewrite M_bind_Ok by reflexivity.
      destruct (handle_AddGER hs b lg flags (flags.1, true) y (set_g_ExitRoots (g_ExitRoots ger) (place_ger cfg (br_id b) g)))
        as (y' & E' & Hin' & Ec'); [done..|by left|by left|]. eauto.
Qed.

(** ** Blocks *)

Lemma handle_event_steps hs b lg flags y e lg' :
  in_block hs b lg flags y → ledger_step cfg Ht children lg e lg' →
  ∃ y', handle_event b e y = (Ok tt, y') ∧ in_block hs b lg' (event_flags flags e) y' ∧ db_committed (y_db y') = db_committed (y_db y).
Proof.
  intros Hin [e' ev ls' Ee Hstep|c Hnew|g Hnew Hlen].
  - assert (event_flags flags e' = flags) as -> by (by destruct e'). by eapply handle_tree.
  - by apply handle_claim.
  - by apply handle_ger.
Qed.

(** The element of an order that stands for an event calls its handler. *)
Lemma processOrder_event `{AbiToken} (block : Block) b flags el e (y y' : SyncState W) :
  event_lookup block el = Some e → is_Some (tree_event e) ∨ (∃ c, e = EvClaim c) ∨ (∃ g, e = EvGlobalExitRoot g) →
  br_block_num b = b_BlockNumber block → handle_event b e y = (Ok tt, y') →
  processOrder cfg fuel block (br_id b) InTx flags el y = (Ok (event_flags flags e), y').
Proof.
  assert (∀ A (l : list A) pos x (z : SyncState W), at_pos pos l = Some x → event_at l pos z = (Ok x, z)) as Hat.
  { intros A l pos x z. unfold at_pos, event_at. case_decide as Hp; [|done]. intros Hx. pose proof (lookup_lt_Some _ _ _ Hx).
    rewrite decide_False by lia. unfold lift. replace pos with (Z.of_nat (Z.to_nat pos)) by lia. by rewrite (at_index_nat _ _ x). }
  intros Hl Hk Hn E. unfold event_lookup in Hl. unfold processOrder.
  destruct (o_Name el); apply fmap_Some in Hl as (x & Hx & ->); cbn in Hk, E;
    try (by destruct Hk as [[]|[[]|[]]]); erewrite M_bind_Ok by (apply Hat, Hx); rewrite <- ?Hn; by erewrite M_bind_Ok by exact E.
Qed.

Lemma ledger_step_kind lg e lg' :
  ledger_step cfg Ht children lg e lg' → is_Some (tree_event e) ∨ (∃ c, e = EvClaim c) ∨ (∃ g, e = EvGlobalExitRoot g).
Proof. intros [e' ev ls' Ee _|c _|g _ _]; [left; by rewrite Ee|right; left; eauto|right; right; eauto]. Qed.

Lemma processOrders_steps `{AbiToken} (block : Block) hs b els : ∀ es lg lg' flags (y : SyncState W),
  br_block_num b = b_BlockNumber block → mapM (event_lookup block) els = Some es →
  in_block hs b lg flags y → ledger_steps cfg Ht children lg es lg' →
  ∃ flags' y', processOrders cfg fuel block (br_id b) InTx flags els y = (Ok flags', y') ∧ in_block hs b lg' flags' y' ∧
    db_committed (y_db y') = db_committed (y_db y).
Proof.
  induction els as [|el els IH]; intros es lg lg' flags y Hn Hm Hin Hsteps; cbn in Hm.
  { injection Hm as <-. inversion Hsteps; subst. by exists flags, y. }
  destruct (event_lookup block el) as [e|] eqn:Ee; cbn in Hm; [|done]. destruct (mapM _ els) as [es'|] eqn:Em; cbn in Hm; [|done].
  injection Hm as <-. apply ledger_cons_inv in Hsteps as (lg1 & Hstep & Hrest).
  destruct (handle_event_steps hs b lg flags y e lg1 Hin Hstep) as (y1 & E1 & Hin1 & Ec1).
  destruct (IH es' lg1 lg' _ y1 Hn eq_refl Hin1 Hrest) as (flags' & y' & E & Hin' & Ec). exists flags', y'.
  split; [|split; [done|congruence]]. cbn [processOrders].
  erewrite M_bind_Ok; [exact E|]. eapply processOrder_event; [done|by eapply ledger_step_kind|done|done].
Qed.

(** Between blocks, when all blocks of the network are at most [num]: the committed tables
    implement the ledger. *)
Record between (lg : Ledger) (num : Z) (flags : bool * bool) (hs : list Hash) (y : SyncState W) : Prop := {
  bt_faults : db_faults (y_db y) = [];
  bt_tx : db_tx (y_db y) = None;
  bt_wf : db_wf (y_db y);
  bt_seq : 0 < sq_block (db_seqs (y_db y));
  bt_roots : roots_wf (db_committed (y_db y));
  bt_flags : flags_ok flags (db_committed (y_db y));
  bt_claims : claim_key <$> t_claim (db_committed (y_db y)) = lg_claims lg;
  bt_hashes : br_block_hash <$> t_block (db_committed (y_db y)) = hs;
  bt_top : ∀ b, b ∈ t_block (db_committed (y_db y)) → br_network_id b = net → br_block_num b ≤ num;
  bt_tree : ∃ lds, fst <$> lds = lg_leaves lg ∧ deposit_log net lds (db_committed (y_db y)) ∧
    stored Ht net lds (tables_view (db_committed (y_db y)) (db_seqs (y_db y))) ∧
    ids_below (db_committed (y_db y)) (db_seqs (y_db y)) ∧
    bc_merkleTreeIDs (y_ctrl y) !! net = Some (Z.of_nat tID) ∧
    (∃ mt, bc_exitTrees (y_ctrl y) !! tID = Some mt ∧ tree_ok Ht net (fst <$> lds) mt) ∧
    (∀ r, r ∈ t_rht (db_committed (y_db y)) → children (rh_key r) = Some (rh_value r)) ∧
    Z.of_nat (length lds) < 2 ^ 32 ∧ (length lds ≤ 2 ^ Ht)%nat
}.

Lemma deposit_log_block lds t s block :
  deposit_log net lds t → tables_wf t s →
  deposit_log net lds (on_block (λ l, l ++ [mk_block_row (sq_block s) (b_BlockNumber block) (b_BlockHash block) (b_NetworkID block)]) t).
Proof.
  intros [H1 H2 H3 H4 H5 H6] Hwf. set (b0 := mk_block_row _ _ _ _). destruct (wf_block _ _ Hwf) as [Hnd Hlt]. rewrite Forall_forall in Hlt.
  assert (∀ d b, d ∈ t_deposit t → dr_network_id d = net → b ∈ t_block t ++ [b0] → br_id b = dr_block_id d → b ∈ t_block t) as Hold.
  { intros d b Hd Hdn [Hb| ->%list_elem_of_singleton]%elem_of_app E; [done|]. destruct (H5 d Hd Hdn) as (b' & Hb' & E' & _).
    specialize (Hlt b' Hb'). cbn in *. lia. }
  constructor; cbn; [done| |done|done| |].
  - rewrite fmap_app. apply NoDup_app. split; [done|]. split; [|apply NoDup_singleton].
    intros x (b & -> & Hb)%list_elem_of_fmap E%list_elem_of_singleton. specialize (Hlt b Hb). cbn in E. lia.
  - intros d Hd Hdn. destruct (H5 d Hd Hdn) as (b & Hb & ?). exists b. split; [|done]. apply elem_of_app. by left.
  - intros d1 d2 b1 b2 Hd1 Hd2 Hb1 Hb2 Hn1 Hn2 E1 E2. apply (H6 d1 d2); eauto.
Qed.

(** The row of a new block opens the block. *)
Lemma open_block `{AbiToken} lg num flags hs (y : SyncState W) block :
  between lg num flags hs y → num ≤ b_BlockNumber block → b_BlockHash block ∉ hs → b_NetworkID block = net →
  ∃ b y1 y2, on_db BeginDBTransaction y = (Ok InTx, y1) ∧ on_db (AddBlock block InTx) y1 = (Ok (br_id b), y2) ∧
    br_block_num b = b_BlockNumber block ∧ br_block_hash b = b_BlockHash block ∧
    in_block (hs ++ [b_BlockHash block]) b lg flags y2.
Proof.
  intros [Hf Htx Hwf Hsq Hroots Hfl Hcl Hhs Htop (lds & Els & Hlog & Hst & Hids & Htid & Htree & Hknown & Hl1 & Hl2)] Hnum Hnew Hnet.
  set (c0 := db_committed (y_db y)) in *. set (s := db_seqs (y_db y)) in *.
  set (b := mk_block_row (sq_block s) (b_BlockNumber block) (b_BlockHash block) (b_NetworkID block)).
  set (t' := on_block (λ l, l ++ [b]) c0).
  set (db1 := mkDB c0 (Some (TxActive c0)) s []). set (db2 := mkDB c0 (Some (TxActive t')) (bump_block s) []).
  assert (BeginDBTransaction (y_db y) = (Ok InTx, db1)) as E1 by (by apply Begin_live).
  assert (AddBlock block InTx db1 = (Ok (br_id b), db2)) as E2.
  { unfold AddBlock. apply (run_live InTx _ db1 c0); [done|done|]. rewrite filter_none; [reflexivity|].
    intros r Hr E. apply Hnew. rewrite <- Hhs, <- E. by apply list_elem_of_fmap_2. }
  exists b, (put_db db1 y), (put_db db2 y). split; [by apply on_db_eq|]. split; [by apply (on_db_eq _ (put_db db1 y))|].
  split; [done|]. split; [done|].
  constructor; [|..|exact Hsq| |exact Hroots].
  - exists lds, t'. split; [done|]. split; [|done]. constructor; cbn.
    + constructor; [done..| | |done|done].
      * eapply stored_ext; [..|exact Hst]; done.
      * exact Hids.
    + apply (deposit_log_block lds c0 s block); [exact Hlog|exact (proj1 Hwf)].
    + apply elem_of_app. right. by left.
    + done.
    + intros b' [Hb'| ->%list_elem_of_singleton]%elem_of_app Hn'; [|done]. specialize (Htop b' Hb' Hn'). cbn. lia.
  - pose proof (keeps_wf_Begin (y_db y) Hwf) as Hw. rewrite E1 in Hw. pose proof (keeps_wf_AddBlock block InTx db1 Hw) as Hw2.
    by rewrite E2 in Hw2.
  - intros t [= <-]. constructor; [cbn; by rewrite fmap_app, Hhs|done|done| |done]. cbn. intros r Hr E. exfalso.
    destruct Hwf as [Hwf _]. pose proof (fk_exit_root _ _ Hwf) as Hfk. unfold refers in Hfk. rewrite Forall_forall in Hfk.
    destruct (Hfk r Hr) as [E0|(b' & Eb & Hb')%list_elem_of_fmap]; [lia|].
    destruct (wf_block _ _ Hwf) as [_ Hlt]. rewrite Forall_forall in Hlt. specialize (Hlt b' Hb'). fold s in Hlt. lia.
Qed.

Lemma processBlock_steps `{AbiToken} order lg lg' num flags hs (y : SyncState W) block es :
  between lg num flags hs y → num ≤ b_BlockNumber block → b_BlockHash block ∉ hs →
  replay order block = Some es → ledger_steps cfg Ht children lg es lg' →
  ∃ flags' y', processBlock cfg fuel order flags block y = (Ok flags', y') ∧
    between lg' (b_BlockNumber block) flags' (hs ++ [b_BlockHash block]) y'.
Proof.
  intros Hbt Hnum Hnew Hrep Hsteps. set (block1 := set_b_NetworkID net block).
  destruct (open_block lg num flags hs y block1) as (b & y1 & y2 & E1 & E2 & Hbn & _ & Hin); [done..|].
  destruct (processOrders_steps block1 (hs ++ [b_BlockHash block]) b (default [] (order !! b_BlockHash block)) es lg lg' flags y2)
    as (flags' & y3 & E3 & Hin3 & _); [done|exact Hrep|exact Hin|done|].
  destruct (in_block_tables _ _ _ _ _ Hin3) as (t & Htx & Hfl & _).
  exists flags', (put_db (mkDB t None (db_seqs (y_db y3)) []) y3). split.
  - unfold processBlock. erewrite M_bind_Ok by exact E1. cbn beta zeta. fold block1.
    erewrite M_bind_Ok by (apply or_rollback_Ok, E2). erewrite M_bind_Ok by exact E3.
    erewrite M_bind_Ok by (apply or_rollback_Ok, on_db_eq, (Commit_live _ t); done). done.
  - destruct Hin3 as [(lds & t0 & Els & [[Hf Htx0 Hst Hids Htid Htree] Hlog Hb Hbnet Htop] & Hknown & Hl1 & Hl2) Hwf Hid Hot _].
    assert (t0 = t) as -> by congruence. destruct (Hot t Htx) as [H0 H1 H2 H3 H4].
    constructor; cbn; try done.
    + split; [by apply Hwf|done].
    + destruct Hwf as [_ Hwf]. destruct (wf_block _ _ (Hwf t Htx)) as [_ Hlt]. rewrite Forall_forall in Hlt. specialize (Hlt b Hb). lia.
    + intros b' Hb' Hn'. specialize (Htop b' Hb' Hn'). cbn in Hbn. lia.
    + exists lds. done.
Qed.

Lemma processBlocks_steps `{AbiToken} order blocks : ∀ xss lg lg' num flags hs (y : SyncState W),
  between lg num flags hs y → StronglySorted Z.le (num :: (b_BlockNumber <$> blocks)) → NoDup (b_BlockHash <$> blocks) →
  (∀ h, h ∈ b_BlockHash <$> blocks → h ∉ hs) →
  Forall2 (λ b xs, replay order b = Some xs) blocks xss → ledger_steps cfg Ht children lg (concat xss) lg' →
  ∃ flags' num' y', processBlocks cfg fuel order flags blocks y = (Ok flags', y') ∧
    between lg' num' flags' (hs ++ (b_BlockHash <$> blocks)) y'.
Proof.
  induction blocks as [|block blocks IH]; intros xss lg lg' num flags hs y Hbt Hs Hnd Hnew Hrep Hsteps.
  { apply Forall2_nil_inv_l in Hrep as ->. inversion Hsteps; subst. exists flags, num, y. cbn. by rewrite app_nil_r. }
  apply Forall2_cons_inv_l in Hrep as (es & xss' & Hes & Hrep & ->). cbn [concat] in Hsteps.
  apply ledger_steps_app in Hsteps as (lg1 & Hs1 & Hs2). rewrite fmap_cons in *.
  apply StronglySorted_inv in Hs as [Hs Hall]. apply Forall_cons in Hall as [Hle _]. apply NoDup_cons in Hnd as [Hni Hnd].
  destruct (processBlock_steps order lg lg1 num flags hs y block es) as (flags1 & y1 & E1 & Hbt1); [done..| |done|done|].
  { apply Hnew. by left. }
  destruct (IH xss' lg1 lg' (b_BlockNumber block) flags1 (hs ++ [b_BlockHash block]) y1) as (flags' & num' & y' & E & Hbt'); [done..| |done|done|].
  { intros h Hh [Hin| ->%list_elem_of_singleton]%elem_of_app; [|done]. apply (Hnew h); [by right|done]. }
  exists flags', num', y'. cbn [processBlocks]. erewrite M_bind_Ok by exact E1. split; [done|]. by rewrite <- app_assoc in Hbt'.
Qed.

(** ** The notifications *)

Lemma between_ext lg num flags hs y y' :
  between lg num flags hs y → y_db y' = y_db y → y_ctrl y' = y_ctrl y → between lg num (false, false) hs y'.
Proof. intros [] E1 E2. constructor; rewrite ?E1, ?E2; try done. Qed.

Lemma notifyL1_ok lg num flags hs y :
  between lg num flags hs y → flags.1 = true → ∃ y', notifyL1 cfg y = (Ok tt, y') ∧ y_db y' = y_db y ∧ y_ctrl y' = y_ctrl y.
Proof.
  intros Hbt Hf1. destruct (proj1 (bt_flags _ _ _ _ _ Hbt) Hf1) as (r & Hr & Ha & Hb & Hn).
  assert (∃ ger root, on_db (GetLatestL1SyncedExitRoot NoTx) y = (Ok ger, y) ∧ at_index (g_ExitRoots ger) 1 = Ok root)
    as (ger & root & E & Eroot).
  { setoid_rewrite <- (put_db_same y) at 2. unfold GetLatestL1SyncedExitRoot.
    match goal with |- context [sql_query ?f] => set (f0 := f) end.
    destruct (f0 (db_committed (y_db y))) as [row|] eqn:Erow.
    - pose proof Erow as Hrow. apply head_Some_elem_of, sort_desc_elem, list_elem_of_filter in Hrow as [Hn0 Hrow].
      pose proof (bt_roots _ _ _ _ _ Hbt row Hrow (proj2 (proj2 Hn0))) as Hl. destruct (er_exit_roots row) as [|r0 [|r1 [|]]] eqn:El; try done.
      eexists _, r1. split; [apply on_db_eq; erewrite M_bind_Ok by (apply run_query_live; [done|apply Hbt]); rewrite Erow, El; reflexivity|done].
    - exfalso. unfold f0 in Erow. apply head_None in Erow. apply (elem_of_nil r). rewrite <- Erow. apply sort_desc_elem.
      by apply list_elem_of_filter. }
  unfold notifyL1. erewrite M_bind_Ok by exact E. rewrite Eroot. erewrite M_bind_Ok by reflexivity. erewrite M_bind_Ok by reflexivity.
  case_decide; by eexists.
Qed.

Lemma notifyL2_ok lg num flags hs y :
  between lg num flags hs y → flags.2 = true → ∃ y', notifyL2 cfg y = (Ok tt, y') ∧ y_db y' = y_db y ∧ y_ctrl y' = y_ctrl y.
Proof.
  intros Hbt Hf2. destruct (proj2 (bt_flags _ _ _ _ _ Hbt) Hf2) as (r & Hr & Ha & Hn).
  assert (∃ res, GetLatestTrustedExitRoot net NoTx (y_db y) = (res, y_db y) ∧ (res = Err ErrL1GERNotFound ∨ ∃ ger, res = Ok ger)) as (res & E & Hres).
  { unfold GetLatestTrustedExitRoot. erewrite M_bind_Ok by (apply run_query_live; [done|apply Hbt]).
    destruct (head _) as [row|] eqn:Erow.
    - case_decide as Hl.
      + destruct (er_exit_roots row) as [|r0 [|r1 [|]]]; try done. eexists. split; [reflexivity|]. right. by eexists.
      + destruct (GetL1ExitRootByGER_ok (er_global_exit_root row) (y_db y)) as (res & E & [->|(g & -> & Hg)]); [apply Hbt..| |].
        * exists (Err ErrL1GERNotFound). split; [|by left]. apply M_bind_Err. by erewrite M_bind_Ok by (apply attempt_Err, E).
        * eexists. split; [|right; by eexists]. erewrite M_bind_Ok; [reflexivity|]. by erewrite M_bind_Ok by (apply attempt_Ok, E).
    - exfalso. apply head_None in Erow. apply (elem_of_nil r). rewrite <- Erow. apply sort_desc_elem. by apply list_elem_of_filter. }
  assert (on_db (GetLatestTrustedExitRoot net NoTx) y = (res, y)) as E' by (rewrite <- (put_db_same y) at 2; by apply on_db_eq).
  unfold notifyL2. destruct Hres as [->|(ger & ->)].
  - erewrite M_bind_Ok by (apply attempt_Err, E'). by exists y.
  - erewrite M_bind_Ok by (apply attempt_Ok, E'). by eexists.
Qed.

Lemma processBlockRange_steps `{AbiToken} order blocks xss lg lg' num hs (y : SyncState W) :
  between lg num (false, false) hs y → StronglySorted Z.le (num :: (b_BlockNumber <$> blocks)) → NoDup (b_BlockHash <$> blocks) →
  (∀ h, h ∈ b_BlockHash <$> blocks → h ∉ hs) →
  Forall2 (λ b xs, replay order b = Some xs) blocks xss → ledger_steps cfg Ht children lg (concat xss) lg' →
  ∃ num' y', processBlockRange cfg fuel blocks order y = (Ok tt, y') ∧
    between lg' num' (false, false) (hs ++ (b_BlockHash <$> blocks)) y'.
Proof.
  intros Hbt Hs Hnd Hnew Hrep Hsteps.
  destruct (processBlocks_steps order blocks xss lg lg' num (false, false) hs y) as ([f1 f2] & num' & y1 & E1 & Hbt1); [done..|].
  unfold processBlockRange. erewrite M_bind_Ok by exact E1. cbn beta iota.
  assert (∃ y2, (if f1 then notifyL1 cfg else mret tt) y1 = (Ok tt, y2) ∧ y_db y2 = y_db y1 ∧ y_ctrl y2 = y_ctrl y1) as (y2 & E2 & Ed2 & Ec2).
  { destruct f1; [by eapply notifyL1_ok|by exists y1]. }
  assert (between lg' num' (f1, f2) (hs ++ (b_BlockHash <$> blocks)) y2) as Hbt2.
  { destruct Hbt1. constructor; rewrite ?Ed2, ?Ec2; done. }
  assert (∃ y3, (if f2 then notifyL2 cfg else mret tt) y2 = (Ok tt, y3) ∧ y_db y3 = y_db y2 ∧ y_ctrl y3 = y_ctrl y2) as (y3 & E3 & Ed3 & Ec3).
  { destruct f2; [by eapply notifyL2_ok|by exists y2]. }
  exists num', y3. split; [by erewrite M_bind_Ok by exact E2|]. by eapply between_ext.
Qed.

End Range.
