(* ===== verification/SyncServed.v ===== *)
(** * From the logs of the chain to the proofs of the service

    The reader, the synchronizer, the trees, the storage and the service together: the
    last range of blocks of a network that is being synchronized. *)
From S2P Require Import Prelude Types Bytes Hash MerkleSpec ClaimTypes Schema MerkleStore Storage.
From S2P Require Import PgMerkleStore MerkleTree MerkleTreeFacts BridgeCtrl Synchronizer Invariants.
From S2P Require Import StorageFacts SyncFacts ReorgFacts Toy SyncTheorems SyncDeposits SyncLET SyncRefinement.
From S2P Require Import Etherman EthermanTheorems Service ServiceTheorems SchemaInv SchemaTheorems SyncRange.

Section Served.
Context `{K : Keccak256} {HB : Bindings} `{HA : AbiToken} {W : Type} `{C : !ethClienter W}.
Context (cfg : SyncConfig) (Ht tID : nat) (children : Hash → option (list Hash)) (fuel : nat) (SCAddresses : list Address).
Context (Hht : (0 < Ht ≤ 64)%nat).
Local Abbreviation net := (cf_networkID cfg).
Local Abbreviation betw := (between cfg Ht tID children).
#[local] Instance client : ethermanInterface W := etherman_Client SCAddresses.

(** The range as the reader returns it, stored. *)
Lemma range_stored lg lg' num hs (y : SyncState W) fromBlock toBlock w' logs os :
  betw lg num (false, false) hs y →
  FilterLogs (mkFilterQuery fromBlock (Some toBlock) SCAddresses queryTopics) (y_world y) = (Ok logs, w') →
  grouped (log_id <$> logs) → StronglySorted Z.le (num :: (lg_BlockNumber <$> logs)) →
  (∀ h, h ∈ lg_BlockHash <$> logs → h ∉ hs) →
  Forall2 emits logs os → ledger_steps cfg Ht children lg (omap id os) lg' →
  ∃ blocks order num' y', on_world (GetRollupInfoByBlockRange fromBlock toBlock) y = (Ok (blocks, order), put_world w' y) ∧
    processBlockRange cfg fuel blocks order (put_world w' y) = (Ok tt, y') ∧
    betw lg' num' (false, false) (hs ++ (b_BlockHash <$> blocks)) y'.
Proof.
  intros Hbt Hlogs Hg Hsort Hnew Hos Hsteps.
  destruct (Client_reads SCAddresses fromBlock (Some toBlock) (y_world y) w' logs os) as (ids & blocks & order & E & Hr & Hsub); [done..|].
  destruct (rd_replay _ _ _ Hr) as (xss & Hrep & Hx).
  assert ((b_BlockHash <$> blocks) `sublist_of` (lg_BlockHash <$> logs) ∧
          (b_BlockNumber <$> blocks) `sublist_of` (lg_BlockNumber <$> logs)) as [Hh Hn].
  { split; [apply (fmap_sublist fst) in Hsub|apply (fmap_sublist snd) in Hsub]; by rewrite <- !list_fmap_compose in Hsub. }
  destruct (processBlockRange_steps cfg Ht tID children fuel Hht order blocks xss lg lg' num hs (put_world w' y))
    as (num' & y' & E' & Hbt').
  - destruct Hbt. by constructor.
  - eapply StronglySorted_sublist; [|exact Hsort]. by apply sublist_skip.
  - apply (rd_nodup _ _ _ Hr).
  - intros h Hh0. apply Hnew. by eapply elem_of_sublist.
  - exact Hrep.
  - cbn in Hx. by rewrite Hx.
  - exists blocks, order, num', y'. split; [|done]. unfold on_world, zoom. cbn. by rewrite E.
Qed.

(** The status of the synchronization is a table of its own. *)
Lemma between_status lg num hs (y : SyncState W) st :
  betw lg num (false, false) hs y →
  ∃ y', on_db (AddSyncStatus st NoTx) y = (Ok tt, y') ∧ betw lg num (false, false) hs y' ∧ y_synced y' = y_synced y ∧
    y_chSynced y' = y_chSynced y.
Proof.
  intros Hbt. pose proof (bt_faults _ _ _ _ _ _ _ _ _ Hbt) as Hf. set (t := db_committed (y_db y)).
  match goal with |- ∃ y', on_db ?c y = _ ∧ _ => assert (∃ t', c (y_db y) = (Ok tt, with_tables NoTx t' (db_seqs (y_db y)) (y_db y)) ∧
    ∃ f, t' = on_status f t) as (t' & E & f & ->) end.
  { unfold AddSyncStatus. eexists. split; [by apply (run_live NoTx _ _ t)|]. by eexists. }
  pose proof (keeps_wf_AddSyncStatus st NoTx (y_db y) (bt_wf _ _ _ _ _ _ _ _ _ Hbt)) as Hwf. rewrite E in Hwf.
  exists (put_db (with_tables NoTx (on_status f t) (db_seqs (y_db y)) (y_db y)) y). split; [by apply on_db_eq|]. split; [|done].
  destruct Hbt as [? ? ? ? ? ? ? ? ? (lds & H1 & H2 & H3 & H4 & H5 & H6)]. constructor; try done.
  exists lds. split; [done|]. split; [destruct H2; by constructor|]. split; [|done].
  eapply stored_ext; [..|exact H3]; done.
Qed.

(** ** The last range *)

Lemma step_catches_up lg lg' num hs (y : SyncState W) lp w' logs os :
  betw lg num (false, false) hs y → y_synced y = false →
  cf_forceSyncChunk cfg = false → cf_genBlockNumber cfg < lp_fromBlock lp ≤ lp_toBlock lp → lp_lastKnownBlock lp = lp_toBlock lp →
  FilterLogs (mkFilterQuery (lp_fromBlock lp) (Some (lp_toBlock lp)) SCAddresses queryTopics) (y_world y) = (Ok logs, w') →
  grouped (log_id <$> logs) → StronglySorted Z.le (num :: (lg_BlockNumber <$> logs)) →
  (∀ h, h ∈ lg_BlockHash <$> logs → h ∉ hs) →
  Forall2 emits logs os → ledger_steps cfg Ht children lg (omap id os) lg' →
  ∃ b num' hs' y', syncBlocks_step cfg fuel lp y = (Ok (inr b), y') ∧ betw lg' num' (false, false) hs' y' ∧ y_synced y' = true.
Proof.
  intros Hbt Hsync Hforce [Hgen Hfrom] Hknown Hlogs Hg Hsort Hnew Hos Hsteps.
  destruct (range_stored lg lg' num hs y (lp_fromBlock lp) (lp_toBlock lp) w' logs os) as (blocks & order & num' & y1 & Er & Ep & Hbt1); [done..|].
  unfold syncBlocks_step. erewrite (M_bind_Ok _ _ _ lp y) by (unfold clampRange; by rewrite decide_False by lia).
  rewrite decide_False by lia. erewrite M_bind_Ok by exact Er. cbn beta iota.
  erewrite (M_bind_Ok _ _ _ blocks (put_world w' y)) by (rewrite !decide_False by lia; done).
  erewrite (M_bind_Ok _ _ _ (inr blocks) (put_world w' y)).
  2: { unfold checkReceived. erewrite M_bind_Ok by reflexivity. cbn. by rewrite Hsync. }
  cbn beta iota. erewrite M_bind_Ok by exact Ep. rewrite Hforce. erewrite M_bind_Ok by reflexivity.
  unfold nextRange. erewrite M_bind_Ok by reflexivity. cbn [lp_lastKnownBlock lp_toBlock lp_lastBlockSynced].
  rewrite decide_True by lia. destruct (y_synced y1) eqn:Es.
  - erewrite M_bind_Ok by reflexivity. by eexists _, num', _, y1.
  - set (y2 := mark_synced cfg y1).
    assert (betw lg' num' (false, false) (hs ++ (b_BlockHash <$> blocks)) y2) as Hbt2 by (destruct Hbt1; by constructor).
    destruct (between_status lg' num' _ y2 (mkSyncStatus net 100 0 true) Hbt2) as (y' & E & Hbt' & Es' & _).
    eexists _, num', _, y'. split; [|split; [done|by rewrite Es']].
    erewrite M_bind_Ok; [reflexivity|]. erewrite M_bind_Ok by reflexivity. unfold storeStatus.
    by erewrite M_bind_Ok by (apply attempt_Ok, E).
Qed.

(** ** The proofs *)

Lemma between_view lg num hs (y : SyncState W) :
  betw lg num (false, false) hs y →
  ∃ lds, fst <$> lds = lg_leaves lg ∧ stored Ht net lds (tables_view (db_committed (y_db y)) (db_seqs (y_db y))) ∧
    rht_functional (tables_view (db_committed (y_db y)) (db_seqs (y_db y))) ∧
    pg_mview NoTx (y_db y) = Some (tables_view (db_committed (y_db y)) (db_seqs (y_db y))) ∧
    Z.of_nat (length lds) < 2 ^ 32 ∧ (length lds ≤ 2 ^ Ht)%nat.
Proof.
  intros [Hf _ _ _ _ _ _ _ _ (lds & H1 & _ & H3 & _ & _ & _ & Hk & Hl1 & Hl2)]. exists lds. split; [done|]. split; [done|].
  split; [|split; [unfold pg_mview; by rewrite Hf|done]].
  intros r1 r2 Hr1 Hr2 E. apply Hk in Hr1, Hr2. congruence.
Qed.

End Served.

(** C1: From the logs of the chain to the proofs of the service.  A network is being
    synchronized, its tables implement a ledger, and the last range of blocks is read:
    its logs come in order, from new blocks, and stand for events that the ledger allows.
    Then the turn of the synchronizer stores the range and the network is synced; the exit
    tree in memory has the root of the leaves of the new ledger and the table of the claims
    its claims; and for every deposit in it, under every root since, the service serves a
    proof that the verification accepts. *)
Theorem last_range_served `{K : Keccak256} {HB : Bindings} `{HA : AbiToken} {W SC : Type} `{C : !ethClienter W}
    {HC : LruCache SC} {HCL : LruCacheLaws SC} (cfg : SyncConfig) (Ht tID : nat) (children : Hash → option (list Hash))
    (fuel : nat) (SCAddresses : list Address) (svc : bridgeService) (lg lg' : Ledger) (num : Z) (hs : list Hash)
    (y : SyncState W) (lp : SyncLoop) (w' : W) (logs : list Log) (os : list (option Event)) :
  (0 < Ht ≤ 64)%nat → sv_height svc = Z.of_nat Ht →
  between cfg Ht tID children lg num (false, false) hs y → y_synced y = false →
  cf_forceSyncChunk cfg = false → cf_genBlockNumber cfg < lp_fromBlock lp ≤ lp_toBlock lp → lp_lastKnownBlock lp = lp_toBlock lp →
  FilterLogs (mkFilterQuery (lp_fromBlock lp) (Some (lp_toBlock lp)) SCAddresses queryTopics) (y_world y) = (Ok logs, w') →
  grouped (log_id <$> logs) → StronglySorted Z.le (num :: (lg_BlockNumber <$> logs)) →
  (∀ h, h ∈ lg_BlockHash <$> logs → h ∉ hs) →
  Forall2 emits logs os → ledger_steps cfg Ht children lg (omap id os) lg' →
  ∃ b y', syncBlocks_step (H0 := etherman_Client SCAddresses) cfg fuel lp y = (Ok (inr b), y') ∧ y_synced y' = true ∧
    fst (on_ctrl (GetExitRoot (cf_networkID cfg) NoTx) y') = Ok (mroot Ht (lg_leaves lg')) ∧
    claim_key <$> t_claim (db_committed (y_db y')) = lg_claims lg' ∧
    ∀ (i n : nat) leaf (c : SC), lg_leaves lg' !! i = Some leaf → (i < n ≤ length (lg_leaves lg'))%nat →
      (∀ k x, cached c k x → children k = Some x) →
      ∃ proof c', getProof svc (Z.of_nat i) (mroot Ht (take n (lg_leaves lg'))) NoTx (y_db y', c) = (Ok proof, (y_db y', c')) ∧
        calculateRoot leaf proof (Z.of_nat i) (Z.of_nat Ht) = Ok (mroot Ht (take n (lg_leaves lg'))).
Proof.
  intros Hht Hsv Hbt Hs Hforce Hrange Hknown Hlogs Hg Hsort Hnew Hos Hsteps.
  destruct (step_catches_up cfg Ht tID children fuel SCAddresses Hht lg lg' num hs y lp w' logs os)
    as (b & num' & hs' & y' & E & Hbt' & Hs'); [done..|].
  exists b, y'. split; [done|]. split; [done|].
  destruct (between_view cfg Ht tID children lg' num' hs' y' Hbt') as (lds & Elds & Hst & Hfun & Hv & Hl1 & Hl2). rewrite <- Elds.
  destruct Hbt' as [_ _ _ _ _ _ Hcl _ _ (lds0 & E0 & _ & _ & _ & Htid & Htree & Hk & _)].
  split; [erewrite GetExitRoot_view; [done|done|done|done| |lia|done]; by rewrite Elds, <- E0|]. split; [done|].
  intros i n leaf c Hleaf [Hi Hn] Hc. rewrite length_fmap in Hn.
  destruct (getProof_Ok svc Ht (cf_networkID cfg) lds n i NoTx (y_db y') c _ Hst Hfun Hv) as (c' & Ep & _); try done; try lia.
  { intros k x r Hx Hr Er. apply Hc in Hx. apply Hk in Hr. subst k. congruence. }
  exists (path_of Ht i (take n (fst <$> lds))), c'. split; [done|].
  rewrite <- (path_accepted Ht i n (fst <$> lds)) by lia. unfold leaf_at. by rewrite Hleaf.
Qed.
