(* ===== verification/SyncServedWitness.v ===== *)
(** * A range of one block: a deposit, an exit root and a claim

    The concrete run of [last_range_served], on three stored leaves. *)
From S2P Require Import Prelude Types Bytes Hash MerkleSpec ClaimTypes Schema MerkleStore Storage.
From S2P Require Import PgMerkleStore MerkleTree MerkleTreeFacts BridgeCtrl Synchronizer Invariants.
From S2P Require Import StorageFacts SyncFacts ReorgFacts Toy SyncTheorems SyncDeposits SyncLET SyncRefinement.
From S2P Require Import Etherman EthermanTheorems Service ServiceTheorems SchemaInv SchemaTheorems SyncRange SyncServed.

#[local] Existing Instance toy_keccak.

(** A deposit event carries its count in the data. *)
Definition toyr_bindings : Bindings := {|
  ParseUpdateRemovalHashChainValue _ := Err (Errorf "no event");
  ParseUpdateHashChainValue _ := Ok 9;
  ParseUpdateL1InfoTree _ := Err (Errorf "no event");
  ParseBridgeEvent l := Ok (mkBridgeEvent 0 0 100 0 200 5 [1] (default 0 (head (lg_Data l))));
  ParseClaimEventOld _ := Err (Errorf "no event");
  ParseClaimEvent _ := Ok (mkNewClaimEvent (2 ^ 64 + 5) 0 100 200 7);
  ParseNewWrappedToken _ := Err (Errorf "no event");
  ParseVerifyBatchesTrustedAggregator _ := Err (Errorf "no event");
  ParseVerifyBatches _ := Err (Errorf "no event");
  ParseUpdatedUnsetGlobalIndexHashChain _ := Err (Errorf "no event");
  ParseSetClaim _ := Err (Errorf "no event");
  ParseBackwardLET _ := Err (Errorf "no event");
  ParseForwardLET _ := Err (Errorf "no event");
  NewTypeLeaves := Ok tt;
  UnpackValues _ := Ok [AbiSlice []]
|}.
#[local] Existing Instance toyr_bindings.
Definition toyr_logs : list Log :=
  [mkLog [signatureHash "BridgeEvent(uint8,uint32,address,uint32,address,uint256,bytes,uint32)"] [3] 13 5005 71;
   mkLog [signatureHash "UpdateHashChainValue(bytes32,bytes32)"] [] 13 5005 71;
   mkLog [signatureHash "ClaimEvent(uint256,uint32,address,address,uint256)"] [] 13 5005 72].
Definition toyr_client : ethClienter unit := {|
  FilterLogs _ := mret toyr_logs;
  ClientHeaderByNumber _ := throw (Errorf "no header")
|}.
#[local] Existing Instance toyr_client.

Definition toyr_deposit : Deposit := mkDeposit 0 0 0 100 5 0 200 3 0 13 0 71 [1] false.
Definition toyr_claim : Claim := mkClaim true 0 5 0 100 7 200 0 13 0 72 "18446744073709551621".
Definition toyr_ger : GlobalExitRoot := mkGlobalExitRoot 0 13 [] 9 0 0.
Definition toyr_leaf : Hash := Eval vm_compute in match HashDeposit toyr_deposit with Ok h => h | _ => 0 end.
Definition toyr_ls : list Hash := [111; 222; 333; toyr_leaf].
Definition toyr_ledger : Ledger := mkLedger [111; 222; 333] [] [].
Definition toyr_ledger' : Ledger := mkLedger toyr_ls [(5, 0, 1, true)] [9].

Definition toyr_nodes : list (Hash * list Hash) := Eval vm_compute in
  ((λ r, (rh_key r, rh_value r)) <$> t_rht (db_committed toy_w3.1)) ++ ((λ r, (r.1.1, r.1.2)) <$> path_rows 3 3 toyr_ls 0).
Definition toyr_children (p : Hash) : option (list Hash) := snd <$> head (filter (λ n, n.1 = p) toyr_nodes).
Definition toyr_state : SyncState unit := mkSyncState tt toy_w3.1 (y_ctrl toy_bstate) false 0 0 0 [] [] [].
Definition toyr_lp : SyncLoop := mkSyncLoop 13 20 20 (emptyBlock 12 1003).

Lemma toyr_emits : Forall2 emits toyr_logs [Some (EvDeposit toyr_deposit); Some (EvGlobalExitRoot toyr_ger); Some (EvClaim toyr_claim)].
Proof. repeat constructor. Qed.

(** Logs of one block are grouped. *)
Lemma grouped_const x ids : Forall (λ y, y = x) ids → grouped ids.
Proof.
  intros Hall l1 a l2 z l3 -> _. rewrite Forall_app, !Forall_cons, Forall_app, Forall_cons in Hall. destruct Hall as (_ & -> & Hl2 & -> & _).
  done.
Qed.

Lemma toyr_steps :
  ledger_steps toy_cfg 3 toyr_children toyr_ledger [EvDeposit toyr_deposit; EvGlobalExitRoot toyr_ger; EvClaim toyr_claim] toyr_ledger'.
Proof.
  eapply ledger_cons.
  { apply (ledger_tree _ _ _ toyr_ledger _ (SyncRefinement.EvDeposit toyr_deposit) toyr_ls); [done|].
    apply (step_deposit _ _ _ _ [111; 222; 333] toyr_deposit toyr_leaf); [done|by vm_compute|].
    split; [simpl; lia|]. split; [by vm_compute|]. split; [apply (bool_decide_unpack _); by vm_compute|].
    intros p l r (h & Hh & E). do 3 (destruct h as [|h]; [vm_compute in E; injection E as <- <- <-; by vm_compute|]). lia. }
  eapply ledger_cons; [apply ledger_ger; [apply (bool_decide_unpack _); by vm_compute|done]|].
  eapply ledger_cons; [apply ledger_claim; apply (bool_decide_unpack _); by vm_compute|]. apply ledger_nil.
Qed.

Lemma toyr_between : between toy_cfg 3 0 toyr_children toyr_ledger 12 (false, false) [1001; 1002; 1003] toyr_state.
Proof.
  pose proof toy_block_state as [[_ _ Hst Hids Htid Htree] Hlog _ _ Htop].
  constructor; try done.
  - split; [|done]. constructor; unfold serial, unique, refers; apply (bool_decide_unpack _); by vm_compute.
  - intros r Hr%elem_of_nil. done.
  - exists toy_leaves3. split; [done|]. split; [done|]. split; [exact Hst|]. split; [exact Hids|]. split; [done|]. split; [exact Htree|].
    split; [|split; [by vm_compute|simpl; lia]]. apply Forall_forall. apply (bool_decide_unpack _). by vm_compute.
Qed.

Lemma last_range_served_witness :
  ∃ b y', syncBlocks_step (H := toy_abi) (H0 := etherman_Client []) toy_cfg 1 toyr_lp toyr_state = (Ok (inr b), y') ∧ y_synced y' = true ∧
    fst (on_ctrl (GetExitRoot 1 NoTx) y') = Ok (mroot 3 toyr_ls) ∧
    claim_key <$> t_claim (db_committed (y_db y')) = [(5, 0, 1, true)] ∧
    ∀ (i n : nat) leaf (c : list (Hash * list Hash)), toyr_ls !! i = Some leaf → (i < n ≤ length toyr_ls)%nat →
      (∀ k x, cached (C := list (Hash * list Hash)) (LruCacheLaws := toy_lru_laws) c k x → toyr_children k = Some x) →
      ∃ proof c', getProof (HC := toy_lru) toy_service (Z.of_nat i) (mroot 3 (take n toyr_ls)) NoTx (y_db y', c) = (Ok proof, (y_db y', c')) ∧
        calculateRoot leaf proof (Z.of_nat i) 3 = Ok (mroot 3 (take n toyr_ls)).
Proof.
  apply (last_range_served (HA := toy_abi) (HC := toy_lru) (HCL := toy_lru_laws) toy_cfg 3 0 toyr_children 1 [] toy_service toyr_ledger toyr_ledger' 12
    [1001; 1002; 1003] toyr_state toyr_lp tt toyr_logs
    [Some (EvDeposit toyr_deposit); Some (EvGlobalExitRoot toyr_ger); Some (EvClaim toyr_claim)]).
  - lia.
  - reflexivity.
  - exact toyr_between.
  - reflexivity.
  - reflexivity.
  - cbn. lia.
  - reflexivity.
  - reflexivity.
  - apply (grouped_const (5005, 13)). by repeat constructor.
  - repeat constructor; cbn; lia.
  - intros h Hh. apply (bool_decide_unpack _). cbn in Hh. repeat (apply elem_of_cons in Hh as [->|Hh]; [by vm_compute|]). by apply elem_of_nil in Hh.
  - exact toyr_emits.
  - exact toyr_steps.
Defined.
