(* ===== verification/TxHistory.v ===== *)
(** * The stored history of a group (claimtxman/types/monitoredtx.go)

    [ToJson] and [NewTxHistoryV2FromJson] write and read the column in which a group
    keeps the transactions it has sent; the tables of [Schema] hold the value itself, and
    the round trip below is what makes that right.  The remaining methods of an entry and
    of a monitored transaction follow. *)
From Stdlib Require Import Ascii.
From S2P Require Import Prelude Types Bytes Hash ClaimTypes MerkleStore Schema Storage MerkleTree BridgeCtrl Synchronizer.
From S2P Require Import Service Hex Json JsonFacts GoTime RpcClient RpcTheorems NonceCache MonitorTxs CompressedTxs.

(** ** JSON *)

Section History.
Context `{TimeZone} `{HashJSON}.

Definition entry_JSON (e : TxHashHistoryEntry) : result json :=
  createdAt ← Time_MarshalJSON (th_CreatedAt e);
  Ok (JObject [("TxHash", JString (Hash_Hex (th_TxHash e)));
               ("ReceiptStatus", match th_ReceiptStatus e with Some n => JNumber (FormatUint 10 n) | None => JNull end);
               ("CreatedAt", JString createdAt)]%string).

(** The slice is nil until an entry is added to it. *)
Definition history_JSON (t : TxHistoryV2) : result json :=
  l ← fold_result (λ acc e, v ← entry_JSON e; Ok (acc ++ [v])) [] (tv_TxHashes t);
  Ok (JObject [("Version", JNumber (FormatUint 10 (tv_Version t)));
               ("TxHashes", match l with [] => JNull | _ => JArray l end)]%string).

Definition ToJson (t : option TxHistoryV2) : result string :=
  match t with
  | None => Ok ""%string
  | Some t => b ← history_JSON t; Ok (Marshal b)
  end.

Definition emptyEntry : TxHashHistoryEntry := mkTxHashHistoryEntry 0 None 0.
Definition entry_fields : list (field TxHashHistoryEntry) :=
  [("TxHash", λ e v, x ← Hash_UnmarshalJSON v; Ok (mkTxHashHistoryEntry x (th_ReceiptStatus e) (th_CreatedAt e)));
   ("ReceiptStatus", λ e v, x ← decodePtr 0 decodeUint64 (th_ReceiptStatus e) v;
                            Ok (mkTxHashHistoryEntry (th_TxHash e) x (th_CreatedAt e)));
   ("CreatedAt", λ e v, x ← Time_UnmarshalJSON (th_CreatedAt e) v;
                        Ok (mkTxHashHistoryEntry (th_TxHash e) (th_ReceiptStatus e) x))]%string.
Definition history_fields : list (field TxHistoryV2) :=
  [("Version", λ t v, x ← decodeUint64 (tv_Version t) v; Ok (mkTxHistoryV2 x (tv_TxHashes t)));
   ("TxHashes", λ t v, x ← decodeSlice emptyEntry (decodeStruct entry_fields) (tv_TxHashes t) v;
                       Ok (mkTxHistoryV2 (tv_Version t) x))]%string.

Definition NewTxHistoryV2FromJson (jsonStr : string) : result (option TxHistoryV2) :=
  if decide (jsonStr = ""%string) then Ok None else
  v ← Unmarshal jsonStr;
  txHistory ← decodeStruct history_fields (mkTxHistoryV2 0 []) v;
  Ok (Some txHistory).
End History.

(** ** Methods *)

Definition IsFailed (t : TxHashHistoryEntry) : bool :=
  match th_ReceiptStatus t with None => false | Some s => bool_decide (s = ReceiptStatusFailed) end.
Definition IsSuccessful (t : TxHashHistoryEntry) : bool :=
  match th_ReceiptStatus t with None => false | Some s => bool_decide (s = ReceiptStatusSuccessful) end.
Definition Outdate : TxHashHistoryEntry → TxHashHistoryEntry := set_ReceiptStatus ReceiptStatusOutdated.
Definition GetTxsDepositIDString (m : MonitoredTxGroup) : string :=
  foldl (λ acc tx, acc +:+ pretty (m_DepositID tx) +:+ " ")%string ""%string (gr_Txs m).

Definition MonitoredTxStatus_String (s : MonitoredTxStatus) : string :=
  match s with
  | MonitoredTxStatusCreated => "created"
  | MonitoredTxStatusFailed => "failed"
  | MonitoredTxStatusConfirmed => "confirmed"
  | MonitoredTxStatusCompressing => "compressing"
  | MonitoredTxStatusClaiming => "claimiming"
  end.
Definition MonitoredTxGroupStatus_String (s : MonitoredTxGroupStatus) : string :=
  match s with
  | MonitoredTxGroupStatusCreated => "created"
  | MonitoredTxGroupStatusClaiming => "claiming"
  | MonitoredTxGroupStatussFailed => "failed"
  | MonitoredTxGroupStatusConfirmed => "confirmed"
  end.

Section Ranges.
Context `{MapRange}.

Definition HistoryHashSlice (mTx : MonitoredTx) : list bytes := be_bytes 32 <$> range_history (m_History mTx).
Definition HistoryHashesString (mTx : MonitoredTx) : string :=
  snd (foldl (λ '(firstTime, fullHistory) h,
    (false, (if firstTime : bool then fullHistory else fullHistory +:+ ",") +:+ Hash_Hex h)%string) (true, ""%string) (range_history (m_History mTx))).
End Ranges.

(** ** The round trip *)

Definition entry_ok (e : TxHashHistoryEntry) : Prop :=
  is_hash (th_TxHash e) ∧ (∀ n, th_ReceiptStatus e = Some n → 0 ≤ n < 2 ^ 64) ∧ 86400 ≤ th_CreatedAt e / nanos < 253370764800.
Definition history_ok (t : TxHistoryV2) : Prop := 0 ≤ tv_Version t < 2 ^ 64 ∧ Forall entry_ok (tv_TxHashes t).

Section HistoryTheorems.
Context `{TimeZone} `{HashTextLaws}.

Lemma FormatUint_validNumber n : 0 ≤ n → validNumber (FormatUint 10 n) = true.
Proof. intros Hn. pose proof (FormatInt_validNumber n) as Hv. unfold FormatInt, big_Text in Hv. by rewrite decide_False in Hv by lia. Qed.

Lemma decodeUint64_FormatUint old n : 0 ≤ n < 2 ^ 64 → decodeUint64 old (JNumber (FormatUint 10 n)) = Ok n.
Proof. intros Hn. unfold decodeUint64, decodeNumber. by rewrite ParseUint_FormatUint. Qed.

(** An entry is written as an object of depth one that decodes to it. *)
Lemma entry_roundtrip e :
  zone_ok → entry_ok e →
  ∃ v, entry_JSON e = Ok v ∧ wfJson v ∧ jsonDepth v = 1 ∧ decodeStruct entry_fields emptyEntry v = Ok e.
Proof.
  intros Hz (Hh & Hs & Ht). destruct (Time_MarshalJSON_ok (th_CreatedAt e) Hz Ht) as (s & Es).
  destruct (Time_roundtrip _ _ Hz Es) as [Ed Hv]. unfold entry_JSON. rewrite Es. eexists. split; [done|].
  pose proof (Hash_Hex_valid (th_TxHash e)) as Hx. destruct e as [h [n|] t]; cbn [th_TxHash th_ReceiptStatus th_CreatedAt] in *.
  - specialize (Hs n eq_refl). pose proof (FormatUint_validNumber n ltac:(lia)).
    split; [by apply wfJson_object; repeat (apply List.Forall_cons; [split; [reflexivity|assumption || exact I]|])|]. split; [reflexivity|].
    decode_members ltac:((rewrite Hash_UnmarshalJSON_Hex by done) || (rewrite decodeUint64_FormatUint by done) || rewrite Ed). done.
  - split; [by apply wfJson_object; repeat (apply List.Forall_cons; [split; [reflexivity|assumption || exact I]|])|]. split; [reflexivity|].
    decode_members ltac:((rewrite Hash_UnmarshalJSON_Hex by done) || rewrite Ed). done.
Qed.
End HistoryTheorems.

Section HistoryRoundtrip.
Context `{TimeZone} `{HashTextLaws}.

(** The entries are written one by one, and decode to themselves. *)
Lemma entries_roundtrip l acc acc' :
  zone_ok → Forall entry_ok l →
  ∃ vs, fold_result (λ acc e, v ← entry_JSON e; Ok (acc ++ [v])) acc l = Ok (acc ++ vs) ∧ length vs = length l ∧
    Forall (λ v, wfJson v ∧ jsonDepth v = 1) vs ∧
    fold_result (λ acc x, a ← decodeStruct entry_fields emptyEntry x; Ok (acc ++ [a])) acc' vs = Ok (acc' ++ l).
Proof.
  intros Hz Hl. revert acc acc'. induction Hl as [|e l He _ IH]; intros acc acc'.
  { exists []. by rewrite !app_nil_r. }
  destruct (entry_roundtrip e Hz He) as (v & Ev & Hw & Hd & Ed). destruct (IH (acc ++ [v]) (acc' ++ [e])) as (vs & Evs & Hlen & Hvs & Eds).
  exists (v :: vs). cbn [fold_result]. rewrite Ev, Ed. cbn [mbind result_bind length]. rewrite Evs, Eds, <- !app_assoc.
  split; [done|]. split; [by rewrite Hlen|]. split; [by constructor|done].
Qed.

Lemma jsonDepth_list vs : Forall (λ v, wfJson v ∧ jsonDepth v = 1) vs → jsonDepth (JArray vs) ≤ 2.
Proof.
  intros Hvs. cbn. enough (foldr (λ x n, Z.max (jsonDepth x) n) 0 vs ≤ 1) by lia.
  induction Hvs as [|v vs [_ Hd] _ IH]; cbn; lia.
Qed.
End HistoryRoundtrip.

(** C32: What the storage writes for the history of a group it reads back: the version, the
    hashes, the status of every receipt and the nanosecond of every transaction, in order,
    for a history that is missing, empty or not; the zone of the machine does not matter. *)
Theorem history_roundtrip `{TimeZone} `{HashTextLaws} (t : option TxHistoryV2) :
  zone_ok → (∀ h, t = Some h → history_ok h) →
  ∃ s, ToJson t = Ok s ∧ NewTxHistoryV2FromJson s = Ok t.
Proof.
  intros Hz Ht. destruct t as [[ver l]|]; [|by exists ""%string]. destruct (Ht _ eq_refl) as [Hver Hl]. cbn in Hver, Hl.
  destruct (entries_roundtrip l [] [] Hz Hl) as (vs & Evs & Hlen & Hvs & Eds). cbn [app] in *.
  set (body := match vs with [] => JNull | _ => JArray vs end).
  set (v := JObject [("Version", JNumber (FormatUint 10 ver)); ("TxHashes", body)]%string).
  assert (decodeSlice emptyEntry (decodeStruct entry_fields) [] body = Ok l) as Eb.
  { unfold body. destruct vs; [|done]. by destruct l. }
  assert (wfJson body ∧ jsonDepth body ≤ 2) as [Hwb Hdb].
  { unfold body. pose proof (jsonDepth_list vs Hvs). destruct vs; [done|]. split; [|done]. apply wfJson_array.
    eapply Forall_impl; [exact Hvs|]. by intros ? []. }
  assert (Unmarshal (Marshal v) = Ok v) as Eu.
  { apply Unmarshal_Marshal.
    - apply wfJson_object. repeat (apply List.Forall_cons; [split; [reflexivity|]|]); [apply FormatUint_validNumber; lia|done|constructor].
    - unfold v. cbn [jsonDepth foldr snd]. unfold maxNestingDepth. lia. }
  exists (Marshal v). unfold ToJson, history_JSON. cbn [tv_TxHashes tv_Version]. rewrite Evs. split; [done|].
  unfold NewTxHistoryV2FromJson. rewrite decide_False by done. rewrite Eu. cbn [mbind result_bind]. unfold v.
  decode_members ltac:((rewrite decodeUint64_FormatUint by done) || (cbn [tv_TxHashes]; rewrite Eb)). done.
Qed.
