(* ===== verification/Startup.v ===== *)
(** * Start-up (config/config.go, config/network.go, cmd/run.go, the constructors of
    etherman/etherman.go and autoclaimservice/blockchainmanager/manager.go)

    Which configurations are accepted, and which goroutines the command starts for one:
    a synchronizer per network, the goroutine that tells every network that L1 is synced,
    and per rollup a claim transaction manager or, without managers, a channel monitor.
    Reading files and the environment (viper), dialling nodes, the database and the
    servers are outside: their outcomes are parameters.  [log.Fatal] ends the process as a
    panic does.  A channel is known by its name and its position. *)
From S2P Require Import Prelude Types Bytes Hash ClaimTypes MerkleStore Schema Storage MerkleTree BridgeCtrl Synchronizer Service.
From S2P Require Import NonceCache MonitorTxs CompressedTxs ClaimTxManager Hex AutoClaim.

(** ** Configuration *)

Record NetworkConfig := mkNetworkConfig {
  nc_L1GenBlockNumber : Z;
  nc_L2GenBlockNumbers : list Z;
  nc_PolygonBridgeAddress : Address;
  nc_PolygonZkEVMGlobalExitRootAddress : Address;
  nc_PolygonRollupManagerAddress : Address;
  nc_L2ClaimCompressorAddress : Address;
  nc_L2PolygonBridgeAddresses : list Address;
  nc_RequireSovereignChainSmcs : list bool;
  nc_L2PolygonZkEVMGlobalExitRootAddresses : list Address
}.

(** The fields that the start uses. *)
Record Config := mkConfig {
  co_L1URL : string;
  co_L2URLs : list string;
  co_SyncInterval : Z;
  co_SyncChunkSize : Z;
  co_ForceL2SyncChunk : bool;
  co_ForceL1SyncChunk : bool;
  co_ClaimTxManagerEnabled : bool;
  co_NetworkConfig : NetworkConfig
}.
Definition set_NetworkConfig (n : NetworkConfig) (c : Config) : Config :=
  mkConfig (co_L1URL c) (co_L2URLs c) (co_SyncInterval c) (co_SyncChunkSize c) (co_ForceL2SyncChunk c) (co_ForceL1SyncChunk c)
    (co_ClaimTxManagerEnabled c) n.

Section Networks.
Context `{CommonHex}.

Definition defaultNetwork : string := "mainnet".
Definition networkConfigs : list (string * NetworkConfig) :=
  let zero := HexToAddress "0x0000000000000000000000000000000000000000" in
  [(defaultNetwork, mkNetworkConfig 16896718 [0]
      (HexToAddress "0x2a3DD3EB832aF982ec71669E178424b10Dca2EDe") (HexToAddress "0x580bda1e7A0CFAe92Fa7F6c20A3794F169CE3CFb")
      zero zero [HexToAddress "0x2a3DD3EB832aF982ec71669E178424b10Dca2EDe"] [false] [zero]);
   ("testnet", mkNetworkConfig 8572995 [0]
      (HexToAddress "0xF6BEEeBB578e214CA9E23B0e9683454Ff88Ed2A7") (HexToAddress "0x4d9427DCA0406358445bC0a8F88C26b704004f74")
      zero zero [HexToAddress "0xF6BEEeBB578e214CA9E23B0e9683454Ff88Ed2A7"] [false] [zero]);
   ("internaltestnet", mkNetworkConfig 7674349 [0]
      (HexToAddress "0x47c1090bc966280000Fe4356a501f1D0887Ce840") (HexToAddress "0xA379Dd55Eb12e8FCdb467A814A15DE2b29677066")
      zero zero [HexToAddress "0xfC5b0c5F677a3f3E29DB2e98c9eD455c7ACfCf03"] [false] [zero]);
   ("local", mkNetworkConfig 1 [0]
      (HexToAddress "0xFe12ABaa190Ef0c8638Ee0ba9F828BF41368Ca0E") (HexToAddress "0x8A791620dd6260079BF849Dc5567aDC3F2FdC318")
      (HexToAddress "0xB7f8BC63BbcaD18155201308C8f3540b07f84F5e") (HexToAddress "0x2279B7A0a67DB372996a5FaB50D91eAA73d2eBe6")
      [HexToAddress "0xFe12ABaa190Ef0c8638Ee0ba9F828BF41368Ca0E"] [false] [HexToAddress "0xa40d5f56745a118d0906a34e69aec8c0db1cb8fa"])]%string.

Fixpoint findNetwork (network : string) (l : list (string * NetworkConfig)) : option NetworkConfig :=
  match l with
  | [] => None
  | (name, n) :: l => if decide (name = network) then Some n else findNetwork network l
  end.
Definition zeroNetworkConfig : NetworkConfig := mkNetworkConfig 0 [] 0 0 0 0 [] [] [].

(** A name that is not known is the default network. *)
Definition loadNetworkConfig (network : string) (cfg : Config) : Config :=
  match findNetwork network networkConfigs with
  | Some n => set_NetworkConfig n cfg
  | None => set_NetworkConfig (default zeroNetworkConfig (findNetwork defaultNetwork networkConfigs)) cfg
  end.

(** [decoded] is what viper makes of the file and the environment, [isSet] whether the
    section NetworkConfig is among it. *)
Definition Load (decoded : result Config) (isSet : bool) (network : string) : result Config :=
  cfg ← decoded;
  if isSet && bool_decide (network ≠ ""%string) then Err (Errorf "network details are provided in the config file (the [NetworkConfig] section) and as a flag (the --network or -n). Configure it only once and try again please") else
  if negb isSet && bool_decide (network = ""%string) then Err (Errorf "network details are not provided. Please configure the [NetworkConfig] section in your config file, or provide a --network flag") else
  let cfg := if negb isSet && bool_decide (network ≠ ""%string) then loadNetworkConfig network cfg else cfg in
  let n := co_NetworkConfig cfg in
  if decide (length (nc_L2PolygonZkEVMGlobalExitRootAddresses n) ≠ length (nc_RequireSovereignChainSmcs n) ∨
             length (nc_RequireSovereignChainSmcs n) ≠ length (nc_L2PolygonBridgeAddresses n) ∨
             length (nc_L2PolygonBridgeAddresses n) ≠ length (co_L2URLs cfg) ∨
             length (co_L2URLs cfg) ≠ length (nc_L2GenBlockNumbers n))
  then Err (Errorf "the length of RequireSovereignChainSmcs, L2PolygonZkEVMGlobalExitRootAddresses, L2PolygonBridgeAddresses, L2GenBlockNumbers and L2URLs must be the same")
  else Ok cfg.
End Networks.

(** ** Clients *)

(** Dialling a node, binding a contract of it, and the network of its bridge. *)
Class EthNodes := {
  node_Dial : string → result unit;
  node_Bind : string → Address → result unit;
  node_NetworkID : string → Address → result Z
}.

Record EthClient := mkEthClient {
  ec_URL : string; ec_NetworkID : Z; ec_SCAddresses : list Address; ec_ClaimCompressor : bool; ec_Sovereign : bool
}.

Section Start.
Context `{EthNodes}.

Definition NewClient (cfg : Config) (polygonBridgeAddr polygonZkEVMGlobalExitRootAddress polygonRollupManagerAddress : Address) : result EthClient :=
  node_Dial (co_L1URL cfg);;
  node_Bind (co_L1URL cfg) polygonBridgeAddr;;
  node_Bind (co_L1URL cfg) polygonBridgeAddr;;
  node_Bind (co_L1URL cfg) polygonZkEVMGlobalExitRootAddress;;
  node_Bind (co_L1URL cfg) polygonRollupManagerAddress;;
  Ok (mkEthClient (co_L1URL cfg) 0 [polygonZkEVMGlobalExitRootAddress; polygonBridgeAddr; polygonRollupManagerAddress] false false).

Definition NewL2Client (url : string) (polygonBridgeAddress claimCompressorAddress polygonZkEVMGlobalExitRootAddress : Address)
    (sovereignChain : bool) : result EthClient :=
  node_Dial url;;
  node_Bind url polygonBridgeAddress;;
  node_Bind url polygonBridgeAddress;;
  (if decide (claimCompressorAddress = 0) then Ok tt else node_Bind url claimCompressorAddress);;
  networkID ← node_NetworkID url polygonBridgeAddress;
  if decide (networkID = 0) then Err (Errorf "l2 networkID received is 0. It can't be the same value as L1") else
  (if sovereignChain
   then node_Bind url polygonZkEVMGlobalExitRootAddress;; node_Bind url polygonZkEVMGlobalExitRootAddress;; node_Bind url polygonBridgeAddress
   else Ok tt);;
  Ok (mkEthClient url networkID
        (polygonBridgeAddress :: if sovereignChain then [polygonZkEVMGlobalExitRootAddress] else [])
        (bool_decide (claimCompressorAddress ≠ 0)) sovereignChain).

(** The client of the auto claim service; [signer] is what the keystore and the node give. *)
Definition bmNewClient (l2RPC : string) (polygonBridgeAddress claimCompressorAddress : Address) (signer : result TransactOpts) : result bmClient :=
  node_Dial l2RPC;;
  node_Bind l2RPC polygonBridgeAddress;;
  (if decide (claimCompressorAddress = 0) then Ok tt else node_Bind l2RPC claimCompressorAddress);;
  networkID ← node_NetworkID l2RPC polygonBridgeAddress;
  auth ← signer;
  Ok (mkBmClient networkID (bool_decide (claimCompressorAddress ≠ 0)) auth).

(** [for i, x := range l], collecting what the body makes. *)
Fixpoint rangeM {A B} (body : Z → A → result B) (i : Z) (l : list A) : result (list B) :=
  match l with
  | [] => Ok []
  | x :: l => b ← body i x; bs ← rangeM body (i + 1) l; Ok (b :: bs)
  end.

Definition newEthermans (c : Config) : result (EthClient * list EthClient) :=
  let n := co_NetworkConfig c in
  l1Etherman ← NewClient c (nc_PolygonBridgeAddress n) (nc_PolygonZkEVMGlobalExitRootAddress n) (nc_PolygonRollupManagerAddress n);
  if decide (length (nc_L2PolygonBridgeAddresses n) ≠ length (co_L2URLs c)) then Panic else
  l2Ethermans ← rangeM (λ i addr,
    url ← at_index (co_L2URLs c) i;
    ger ← at_index (nc_L2PolygonZkEVMGlobalExitRootAddresses n) i;
    sovereign ← at_index (nc_RequireSovereignChainSmcs n) i;
    NewL2Client url addr (nc_L2ClaimCompressorAddress n) ger sovereign) 0 (nc_L2PolygonBridgeAddresses n);
  Ok (l1Etherman, l2Ethermans).

(** ** Goroutines *)

Inductive chan := chSynced | chExitRootEvent (i : Z) | chSyncedL2 (i : Z).

(** The client of the trusted sequencer is its URL; nil channels and clients are absent. *)
Inductive goroutine :=
| RunSynchronizer (cfg : SyncConfig) (etherman : EthClient) (zkEVMClient : option string) (chExitRootEventL2 : option chan)
    (chsExitRootEvent : list chan) (synced : chan)
| ForwardSynced (from : chan) (to : list chan)
| StartClaimTxManager (chGER synced : chan) (l1URL l2URL : string) (networkID : Z) (bridgeAddr : Address) (rollupID : Z)
| MonitorChannel (chGER synced : chan) (networkID : Z).

(** The fields that [NewSynchronizer] keeps, on L1 and on another network. *)
Definition newSyncConfig (c : Config) (networkID genBlockNumber : Z) (chs : list chan) (allNetworkIDs : list Z) (sovereignChain : bool) : SyncConfig :=
  if decide (networkID = 0)
  then mkSyncConfig networkID genBlockNumber (co_SyncChunkSize c) (co_SyncInterval c) allNetworkIDs false (co_ForceL1SyncChunk c) (length chs)
  else mkSyncConfig networkID genBlockNumber (co_SyncChunkSize c) (co_SyncInterval c) [] sovereignChain (co_ForceL2SyncChunk c) 0.

(** The channels that the loop over the rollups makes. *)
Definition chsExitRootEvents (l2Ethermans : list EthClient) : list chan := chExitRootEvent ∘ Z.of_nat <$> seq 0 (length l2Ethermans).
Definition chsSyncedL2s (l2Ethermans : list EthClient) : list chan := chSyncedL2 ∘ Z.of_nat <$> seq 0 (length l2Ethermans).

Definition startSynchronizers (c : Config) (l2Ethermans : list EthClient) : result (list goroutine) :=
  let n := co_NetworkConfig c in
  rangeM (λ i l2EthermanClient,
    url ← at_index (co_L2URLs c) i;
    genBlockNumber ← at_index (nc_L2GenBlockNumbers n) i;
    sovereign ← at_index (nc_RequireSovereignChainSmcs n) i;
    Ok (RunSynchronizer (newSyncConfig c (ec_NetworkID l2EthermanClient) genBlockNumber [] [] sovereign) l2EthermanClient (Some url)
          (Some (chExitRootEvent i)) [] (chSyncedL2 i))) 0 l2Ethermans.

(** The client, the nonce cache, the signer and the constructor of a manager succeed or
    not ([newManager]), where a failure is fatal. *)
Definition startManagers (c : Config) (l2Ethermans : list EthClient) (networkIDs : list Z) (newManager : Z → result unit) : result (list goroutine) :=
  if co_ClaimTxManagerEnabled c then
    rangeM (λ i url,
      addr ← at_index (nc_L2PolygonBridgeAddresses (co_NetworkConfig c)) i;
      match newManager i with Err _ => Panic | r => r end;;
      l2 ← at_index l2Ethermans i;
      chGER ← at_index (chsExitRootEvents l2Ethermans) i;
      synced ← at_index (chsSyncedL2s l2Ethermans) i;
      networkID ← at_index networkIDs (i + 1);
      Ok (StartClaimTxManager chGER synced (co_L1URL c) url networkID addr (ec_NetworkID l2))) 0 (co_L2URLs c)
  else
    rangeM (λ i chGER,
      synced ← at_index (chsSyncedL2s l2Ethermans) i;
      networkID ← at_index networkIDs (i + 1);
      Ok (MonitorChannel chGER synced networkID)) 0 (chsExitRootEvents l2Ethermans).

(** The migrations, the two connections to the database, the controller and the server
    succeed or not ([prepare]). *)
Definition start (loaded : result Config) (prepare : list Z → result unit) (newManager : Z → result unit) : result (list goroutine) :=
  c ← loaded;
  '(l1Etherman, l2Ethermans) ← newEthermans c;
  let networkIDs := ec_NetworkID l1Etherman :: (ec_NetworkID <$> l2Ethermans) in
  prepare networkIDs;;
  syncs ← startSynchronizers c l2Ethermans;
  let chs := chsExitRootEvents l2Ethermans in
  let l1 := RunSynchronizer (newSyncConfig c (ec_NetworkID l1Etherman) (nc_L1GenBlockNumber (co_NetworkConfig c)) chs networkIDs false) l1Etherman
              None None chs chSynced in
  claims ← startManagers c l2Ethermans networkIDs newManager;
  Ok (syncs ++ [l1; ForwardSynced chSynced (chsSyncedL2s l2Ethermans)] ++ claims).
End Start.

(** ** Theorems *)








(** ** Outcomes *)


Section Outcomes.
Context `{EthNodes}.






End Outcomes.










(** Two rollups, the second a sovereign chain, with managers. *)
Definition toys_hex : CommonHex := {| Address_Hex _ := ""%string; HexToAddress _ := 0; HexToHash _ := 0; FromHex _ := [] |}.
Definition toys_nodes : EthNodes := {|
  node_Dial _ := Ok tt; node_Bind _ _ := Ok tt; node_NetworkID url _ := Ok (if decide (url = "http://one"%string) then 1 else 2)
|}.
Definition toys_config : Config :=
  mkConfig "http://l1" ["http://one"; "http://two"]%string 2 100 false false true
    (mkNetworkConfig 10 [0; 5] 101 102 103 0 [201; 202] [false; true] [301; 302]).


(** A list that is too short is refused; without the check, the start would panic. *)
Example Load_refuses :
  let short := set_NetworkConfig (mkNetworkConfig 10 [0; 5] 101 102 103 0 [201; 202] [false] [301; 302]) toys_config in
  Load (H := toys_hex) (Ok short) true "" = Err (Errorf "the length of RequireSovereignChainSmcs, L2PolygonZkEVMGlobalExitRootAddresses, L2PolygonBridgeAddresses, L2GenBlockNumbers and L2URLs must be the same") ∧
  start (H := toys_nodes) (Ok short) (λ _, Ok tt) (λ _, Ok tt) = Panic.
Proof. by vm_compute. Qed.
