(* ===== verification/RpcWitness.v ===== *)
(** * The RPC client in front of a concrete node, and a concrete history

    The run of [syncTrustedState_served] against a node with one global exit root, and
    [history_roundtrip] for a history of two transactions. *)
From S2P Require Import Prelude Types Bytes Hash ClaimTypes MerkleStore Schema Storage MerkleTree BridgeCtrl Synchronizer.
From S2P Require Import Toy SyncTheorems Service Hex SchemaInv SchemaTheorems Json JsonFacts RpcClient RpcTheorems AutoClaimServed AutoClaimWitnesses.
From S2P Require Import GoTime TxHistory.

#[local] Existing Instance toy_keccak.
#[local] Existing Instance toy_abi.
#[local] Existing Instance toy_etherman.
#[local] Existing Instance toya_hex.

(** A hash is a string of 32 bytes behind 0x. *)
#[local] Instance toyj_hash : HashJSON := λ v,
  match v with
  | JString s => if decide (length (decoded s) = 32%nat) then Ok (SetBytes (decoded s)) else Err (Errorf "hex string has the wrong length")
  | _ => Err (Errorf "non-string")
  end.

#[local] Instance toyj_laws : HashTextLaws.
Proof.
  assert (∀ h, decoded (Hash_Hex h) = be_bytes 32 h) as Ed by (intros h; apply decoded_Encode, be_bytes_byte).
  assert (∀ h, is_hash h → SetBytes (be_bytes 32 h) = h) as Es by (intros h Hh; rewrite SetBytes_be_bytes; by apply Z.mod_small).
  split; intros h Hh.
  - unfold Hash_UnmarshalJSON, toyj_hash. rewrite Ed, be_bytes_length, decide_True by done. by rewrite Es.
  - change (SetBytes (decoded (Hash_Hex h)) = h). rewrite Ed. by apply Es.
Qed.

Definition toyj_roots : ExitRoots := mkExitRoots 17 1700000000 111 222.
Definition toyj_serve (method : string) (params : json) : option json * option RPCError :=
  if decide (method = "zkevm_getLatestGlobalExitRoot"%string) then (Some (JString (Hash_Hex 9)), None) else
  if decide (method = "zkevm_getExitRootsByGER"%string) then (Some (ExitRoots_JSON toyj_roots), None)
  else (None, Some (NewRPCError NotFoundErrorCode "the method does not exist")).

(** The node answers a request it cannot read with a status of its own. *)
#[local] Instance toyj_http : HttpPost unit := λ _ body,
  match readRequest body with
  | Ok req =>
      let answer := toyj_serve (rq_Method req) (default JNull (rq_Params req)) in
      mret (mkPostResponse StatusOK (Ok (Response_Bytes (NewResponse req (fst answer) (snd answer)))))
  | _ => mret (mkPostResponse 400 (Ok "bad request"%string))
  end.

Lemma toyj_node : JsonRpcNode "http://node" toyj_serve.
Proof.
  split; unfold toyj_serve.
  - intros body req params w E Ep. unfold http_Post, toyj_http. rewrite E, Ep. done.
  - intros method params v. repeat case_decide; intros [= <-]; by vm_compute.
  - intros method params err. repeat case_decide; intros [= <-]. split; [done|]. split; [by vm_compute|done].
Qed.

Lemma syncTrustedState_served_witness :
  ∃ w, syncTrustedState (H1 := rpc_zkEVMClient (NewClient "http://node")) toy_cfg toy_wf_sync =
    (Ok tt, store_trusted 9 toyj_roots 1 (put_world w toy_wf_sync)).
Proof.
  apply (syncTrustedState_served "http://node" toyj_serve toy_cfg toy_wf_sync (Ok (Some (9, toyj_roots)))); [exact toyj_node|done|].
  apply trusted_roots; [done|by split|done..|]. by repeat split.
Defined.

(** Two hours east of Greenwich; a transaction that failed and one that is pending. *)
#[local] Instance toyj_zone : TimeZone := λ _, 7200.
Definition toyj_history : TxHistoryV2 :=
  mkTxHistoryV2 1 [mkTxHashHistoryEntry 77 (Some ReceiptStatusFailed) 1700000000123450000;
                   mkTxHashHistoryEntry 78 None 1700000060000000000].

Lemma history_roundtrip_witness :
  ∃ s, ToJson (Some toyj_history) = Ok s ∧ NewTxHistoryV2FromJson s = Ok (Some toyj_history).
Proof.
  apply (history_roundtrip (Some toyj_history)); [by intros s|]. intros h [= <-]. split; [done|].
  repeat (apply List.Forall_cons; [split; [unfold is_hash; cbn; lia|split; [by intros n [= <-]|by vm_compute]]|]). apply List.Forall_nil.
Defined.
