(* ===== verification/Metrics.v ===== *)
(** * The metrics of the service (metrics/prometheus.go)

    The package keeps one map per kind of metric, from names to the collectors that it
    registered with the default registerer of Prometheus, and does nothing until [Init].
    The library of Prometheus is a parameter ([Prometheus]) with its documented laws
    ([PrometheusLaws]).  The six kinds have the same code with other types: the functions
    of a kind are instances of one definition on the map of the kind. *)
From Stdlib Require Import Ascii SpecFloat.
From S2P Require Import Prelude.

(** ** Floating-point numbers

    A [float64] is a binary64 number; conversions and divisions round to the nearest
    even number. *)
Definition float64 : Type := spec_float.

(** [float64(z)], and [Float64] of a [big.Int]. *)
Definition float64_of (z : Z) : float64 := binary_normalize 53 1024 z 0 false.

(** [float64(d) / float64(time.Second)] of a [time.Duration] in nanoseconds. *)
Definition inSeconds (d : Z) : float64 := SFdiv 53 1024 (float64_of d) (float64_of (10 ^ 9)).

(** ** The library of Prometheus *)

(** The fields that the options of all kinds share. *)
Record Opts := mk_Opts {
  Namespace : string;
  Subsystem : string;
  Name : string;
  Help : string;
  ConstLabels : list (string * string);
}.

Record CounterVecOpts := mk_CounterVecOpts { CounterOpts : Opts; cv_Labels : list string }.
Record HistogramVecOpts := mk_HistogramVecOpts { HistogramOpts : Opts; hv_Labels : list string }.

(** The literal [{Name: name, Help: help}]. *)
Definition optsOf (name help : string) : Opts := mk_Opts "" "" name help [].

Inductive Kind := KGauge | KCounter | KCounterVec | KHistogram | KHistogramVec | KSummary.
#[global] Instance Kind_eq_dec : EqDecision Kind.
Proof. solve_decision. Defined.
#[global] Instance Opts_eq_dec : EqDecision Opts.
Proof. solve_decision. Defined.

(** What a collector is made from: [NewGauge(opts)], [NewCounterVec(opts, labels)]... *)
Record Desc := mk_Desc { desc_kind : Kind; desc_opts : Opts; desc_labels : list string }.

(** The methods of a metric that the package calls. *)
Inductive Update :=
| Set_ (v : float64)
| Inc
| Dec
| Add (v : float64)
| Observe (v : float64).

(** The state of the library holds the metrics with their values and the default
    registry.  [None] is a panic. *)
Class Prometheus := {
  Collector : Type;
  Prom : Type;
  NewCollector : Desc → Prom → option (Collector * Prom);
  MustRegister : Collector → Prom → option Prom;
  Unregister : Collector → Prom → Prom * bool;
  WithLabelValues : Collector → list string → Prom → option (Collector * Prom);
  Apply : Collector → Update → Prom → option Prom;
}.

(** Names of metrics and labels: [[a-zA-Z_:][a-zA-Z0-9_:]*] and [[a-zA-Z_][a-zA-Z0-9_]*];
    labels that start with two underscores are reserved. *)
Definition isLetter (c : ascii) : bool :=
  let n := nat_of_ascii c in
  ((65 <=? n) && (n <=? 90) || (97 <=? n) && (n <=? 122) || (n =? 95))%nat.
Definition isDigit (c : ascii) : bool := let n := nat_of_ascii c in ((48 <=? n) && (n <=? 57))%nat.
Fixpoint allChars (p : ascii → bool) (s : string) : bool :=
  match s with EmptyString => true | String.String c s' => p c && allChars p s' end.
Definition isColon (c : ascii) : bool := (nat_of_ascii c =? 58)%nat.
Definition validName (s : string) : bool :=
  match s with
  | EmptyString => false
  | String.String c s' =>
      (isLetter c || isColon c) && allChars (λ c, isLetter c || isColon c || isDigit c) s'
  end.
Definition validLabel (s : string) : bool :=
  match s with
  | EmptyString => false
  | String.String c s' =>
      isLetter c && allChars (λ c, isLetter c || isDigit c) s' && negb (String.prefix "__" s)
  end.

(** Options that set a name and a help text only. *)
Definition plain (o : Opts) : Prop :=
  Namespace o = ""%string ∧ Subsystem o = ""%string ∧ ConstLabels o = [] ∧ validName (Name o) = true.
Definition plainDesc (d : Desc) : Prop :=
  plain (desc_opts d) ∧ Forall (λ l, validLabel l = true) (desc_labels d) ∧ NoDup (desc_labels d).
#[global] Instance plain_dec o : Decision (plain o).
Proof. unfold plain. apply _. Defined.

(** The methods of a kind that never panic: [Add] of a counter panics on a negative value. *)
Definition applicable (k : Kind) (u : Update) : bool :=
  match k, u with
  | KGauge, (Set_ _ | Inc | Dec | Add _) => true
  | KCounter, Inc => true
  | (KHistogram | KSummary), Observe _ => true
  | _, _ => false
  end.

(** The documented behaviour of the registry, for collectors without constant labels: a
    collector is registered when its name is not in use and the name was never used with
    another help text or other labels ([dims] remembers them for the lifetime of the
    registry, also after [Unregister]); a name in use makes [MustRegister] panic; metrics
    are not registered or unregistered by their use. *)
Class PrometheusLaws `{Prometheus} := {
  origin : Collector → Desc;
  registered : Prom → Collector → Prop;
  used : Prom → gset string;
  dims : Prom → gmap string (list string * string);
  same_registry (p p' : Prom) : Prop :=
    (∀ c, registered p' c ↔ registered p c) ∧ used p' = used p ∧ dims p' = dims p;
  NewCollector_plain d p :
    plainDesc d → ∃ c p', NewCollector d p = Some (c, p');
  NewCollector_law d p c p' :
    NewCollector d p = Some (c, p') →
    origin c = d ∧ ¬ registered p c ∧ same_registry p p';
  MustRegister_plain c p :
    plainDesc (origin c) → ¬ registered p c →
    Name (desc_opts (origin c)) ∉ used p →
    dims p !! Name (desc_opts (origin c)) ∈
      [None; Some (desc_labels (origin c), Help (desc_opts (origin c)))] →
    is_Some (MustRegister c p);
  MustRegister_used c p :
    plainDesc (origin c) → Name (desc_opts (origin c)) ∈ used p → MustRegister c p = None;
  MustRegister_law c p p' :
    plainDesc (origin c) → MustRegister c p = Some p' →
    (∀ c', registered p' c' ↔ c' = c ∨ registered p c') ∧
    used p' = {[ Name (desc_opts (origin c)) ]} ∪ used p ∧
    dims p' = <[ Name (desc_opts (origin c)) :=
                 (desc_labels (origin c), Help (desc_opts (origin c))) ]> (dims p);
  Unregister_law c p :
    plainDesc (origin c) → registered p c →
    ∃ p', Unregister c p = (p', true) ∧
      (∀ c', registered p' c' ↔ c' ≠ c ∧ registered p c') ∧
      used p' = used p ∖ {[ Name (desc_opts (origin c)) ]} ∧ dims p' = dims p;
  WithLabelValues_law c ls p c' p' :
    WithLabelValues c ls p = Some (c', p') → same_registry p p';
  Apply_law c u p p' : Apply c u p = Some p' → same_registry p p';
  Apply_total c u p : applicable (desc_kind (origin c)) u = true → is_Some (Apply c u p);
}.

(** ** The variables of the package *)

Section Metrics.
Context `{Prometheus}.

Record Vars := mk_Vars {
  initialized : bool;
  gauges : gmap string Collector;
  counters : gmap string Collector;
  counterVecs : gmap string Collector;
  histograms : gmap string Collector;
  histogramVecs : gmap string Collector;
  summaries : gmap string Collector;
  prom : Prom;
}.

Definition mapOf (k : Kind) (v : Vars) : gmap string Collector :=
  match k with
  | KGauge => gauges v | KCounter => counters v | KCounterVec => counterVecs v
  | KHistogram => histograms v | KHistogramVec => histogramVecs v | KSummary => summaries v
  end.

Definition withMap (k : Kind) (f : gmap string Collector → gmap string Collector) (v : Vars) : Vars :=
  let '(mk_Vars i g c cv h hv s p) := v in
  match k with
  | KGauge => mk_Vars i (f g) c cv h hv s p
  | KCounter => mk_Vars i g (f c) cv h hv s p
  | KCounterVec => mk_Vars i g c (f cv) h hv s p
  | KHistogram => mk_Vars i g c cv (f h) hv s p
  | KHistogramVec => mk_Vars i g c cv h (f hv) s p
  | KSummary => mk_Vars i g c cv h hv (f s) p
  end.

Definition withProm (p : Prom) (v : Vars) : Vars :=
  let '(mk_Vars i g c cv h hv s _) := v in mk_Vars i g c cv h hv s p.

(** Before [Init] the maps are nil. *)
Definition zeroVars (p : Prom) : Vars := mk_Vars false ∅ ∅ ∅ ∅ ∅ ∅ p.

(** A call of the library that may panic. *)
Definition call_prom {A} (f : Prom → option (A * Prom)) : M Vars A := λ v,
  match f (prom v) with
  | Some (a, p) => (Ok a, withProm p v)
  | None => (Panic, v)
  end.
Definition call_prom_ (f : Prom → option Prom) : M Vars unit :=
  call_prom (λ p, p' ← f p; Some (tt, p')).

(** [initOnce.Do]: [initialized] is set by the first call and tells the others. *)
Definition Init : M Vars unit :=
  v ← get;
  if initialized v then mret tt else put (mk_Vars true ∅ ∅ ∅ ∅ ∅ ∅ (prom v)).

Definition ifInitialized (c : M Vars unit) : M Vars unit :=
  v ← get; if initialized v then c else mret tt.

(** ** Registering *)
Definition registerIfNotExists (d : Desc) : M Vars unit :=
  let name := Name (desc_opts d) in
  v ← get;
  match mapOf (desc_kind d) v !! name with
  | Some _ => mret tt
  | None =>
      c ← call_prom (NewCollector d);
      call_prom_ (MustRegister c);;
      modify (withMap (desc_kind d) (λ m, <[name := c]> m))
  end.

Definition registerGaugeIfNotExists (opts : Opts) := registerIfNotExists (mk_Desc KGauge opts []).
Definition registerCounterIfNotExists (opts : Opts) := registerIfNotExists (mk_Desc KCounter opts []).
Definition registerCounterVecIfNotExists (opts : CounterVecOpts) :=
  registerIfNotExists (mk_Desc KCounterVec (CounterOpts opts) (cv_Labels opts)).
Definition registerHistogramIfNotExists (opts : Opts) := registerIfNotExists (mk_Desc KHistogram opts []).
Definition registerHistogramVecIfNotExists (opts : HistogramVecOpts) :=
  registerIfNotExists (mk_Desc KHistogramVec (HistogramOpts opts) (hv_Labels opts)).
Definition registerSummaryIfNotExists (opts : Opts) := registerIfNotExists (mk_Desc KSummary opts []).

Definition RegisterGauges (opts : list Opts) := ifInitialized (forM_ opts registerGaugeIfNotExists).
Definition RegisterCounters (opts : list Opts) := ifInitialized (forM_ opts registerCounterIfNotExists).
Definition RegisterCounterVecs (opts : list CounterVecOpts) :=
  ifInitialized (forM_ opts registerCounterVecIfNotExists).
Definition RegisterHistograms (opts : list Opts) := ifInitialized (forM_ opts registerHistogramIfNotExists).
Definition RegisterHistogramVecs (opts : list HistogramVecOpts) :=
  ifInitialized (forM_ opts registerHistogramVecIfNotExists).
Definition RegisterSummaries (opts : list Opts) := ifInitialized (forM_ opts registerSummaryIfNotExists).

(** ** Unregistering *)
Definition unregisterIfExists (k : Kind) (name : string) : M Vars unit :=
  v ← get;
  match mapOf k v !! name with
  | None => mret tt
  | Some c =>
      ok ← call_prom (λ p : Prom, let '(p', ok) := Unregister c p in Some (ok, p'));
      if ok : bool then modify (withMap k (delete name)) else mret tt
  end.

Definition unregisterGaugeIfExists := unregisterIfExists KGauge.
Definition unregisterCounterIfExists := unregisterIfExists KCounter.
Definition unregisterCounterVecIfExists := unregisterIfExists KCounterVec.
Definition unregisterHistogramIfExists := unregisterIfExists KHistogram.
Definition unregisterHistogramVecIfExists := unregisterIfExists KHistogramVec.
Definition unregisterSummaryIfExists := unregisterIfExists KSummary.

Definition UnregisterGauges (names : list string) := ifInitialized (forM_ names unregisterGaugeIfExists).
Definition UnregisterCounters (names : list string) := ifInitialized (forM_ names unregisterCounterIfExists).
Definition UnregisterCounterVecs (names : list string) :=
  ifInitialized (forM_ names unregisterCounterVecIfExists).
Definition UnregisterHistogram (names : list string) :=
  ifInitialized (forM_ names unregisterHistogramIfExists).
Definition UnregisterHistogramVecs (names : list string) :=
  ifInitialized (forM_ names unregisterHistogramVecIfExists).
Definition UnregisterSummaries (names : list string) := ifInitialized (forM_ names unregisterSummaryIfExists).

(** ** Looking up: nil and false are [None] *)
Definition lookupMetric (k : Kind) (name : string) : M Vars (option Collector) :=
  v ← get;
  if initialized v then mret (mapOf k v !! name) else mret None.

Definition Gauge := lookupMetric KGauge.
Definition Counter := lookupMetric KCounter.
Definition CounterVec := lookupMetric KCounterVec.
Definition Histogram := lookupMetric KHistogram.
Definition HistogramVec := lookupMetric KHistogramVec.
Definition Summary := lookupMetric KSummary.

(** ** Updating *)
Definition updateMetric (look : M Vars (option Collector)) (u : Update) : M Vars unit :=
  ifInitialized (
    oc ← look;
    match oc with Some c => call_prom_ (Apply c u) | None => mret tt end).

Definition GaugeSet (name : string) (value : float64) := updateMetric (Gauge name) (Set_ value).
Definition GaugeInc (name : string) := updateMetric (Gauge name) Inc.
Definition GaugeDec (name : string) := updateMetric (Gauge name) Dec.
Definition CounterInc (name : string) := updateMetric (Counter name) Inc.
Definition CounterAdd (name : string) (value : float64) := updateMetric (Counter name) (Add value).
Definition HistogramObserve (name : string) (value : float64) := updateMetric (Histogram name) (Observe value).

(** [vec.WithLabelValues(label)] makes the child metric of the label on its first use. *)
Definition updateVec (look : M Vars (option Collector)) (label : string) (u : Update) : M Vars unit :=
  ifInitialized (
    oc ← look;
    match oc with
    | Some cv => c ← call_prom (WithLabelValues cv [label]); call_prom_ (Apply c u)
    | None => mret tt
    end).

Definition CounterVecInc (name label : string) := updateVec (CounterVec name) label Inc.
Definition CounterVecAdd (name label : string) (value : float64) :=
  updateVec (CounterVec name) label (Add value).
Definition HistogramVecObserve (name label : string) (value : float64) :=
  updateVec (HistogramVec name) label (Observe value).

End Metrics.
