(* ===== verification/SyncMetrics.v ===== *)
(** * The metrics of a synchronizer (synchronizer/metrics/metrics.go)

    One set of metrics per network, told apart by a prefix with the number of the
    network; the synchronizer of the network keeps the prefix and updates its metrics by
    name. *)
From S2P Require Import Prelude Metrics.

Definition InitializationTimeName : string := "initialization_time".
Definition FullTrustedSyncTimeName : string := "full_trusted_sync_time".
Definition FullL1SyncTimeName : string := "full_L1_sync_time".
Definition FullSyncIterationTimeName : string := "full_L1_sync_time".
Definition ReadL1DataTimeName : string := "read_L1_data_time".
Definition ProcessL1DataTimeName : string := "process_L1_data_time".
Definition GetTrustedGerTimeName : string := "get_trusted_ger_time".
Definition GetTrustedExitRootsTimeName : string := "get_trusted_exitroots_time".
Definition DepositAmountName : string := "deposit_amount".
Definition ClaimAmountName : string := "claim_amount".
Definition DepositCounterName : string := "processed_deposit_counter".
Definition L1GERCounterName : string := "processed_L1GER_counter".
Definition L2GERCounterName : string := "processed_L2GER_counter".
Definition RemoveL2GERCounterName : string := "processed_remove_L2GER_counter".
Definition VerifyBatchCounterName : string := "processed_verifyBatch_counter".
Definition ClaimCounterName : string := "processed_claim_counter".
Definition ReorgCounterName : string := "reorg_counter".
Definition ReorgedBlockCounterName : string := "reorged_block_counter".
Definition WrappedTokensCounterName : string := "processed_wrapped_tokens_counter".
Definition CurrentPendingBridgesToClaimName : string := "current_pending_bridges_to_claim".
Definition LatestBlockSyncedName : string := "latest_block_synced".
Definition LatestBlockRollupInfoName : string := "latest_block_rollup_info".

Record Metrics := mk_Metrics { prefix : string }.

(** The prefix with the number of the network in decimal. *)
Definition prefixOf (networkID : Z) : string := "synchronizer_networkID_" +:+ (pretty networkID +:+ "_").

Definition gaugeOpts (prefix : string) : list Opts :=
    [ optsOf (prefix +:+ CurrentPendingBridgesToClaimName)
        "[SYNCHRONIZER] current pending deposits to claim";
      optsOf (prefix +:+ LatestBlockSyncedName)
        "[SYNCHRONIZER] latest block synced";
      optsOf (prefix +:+ LatestBlockRollupInfoName)
        "[SYNCHRONIZER] latest block rollup info" ].

Definition counterOpts (prefix : string) : list Opts :=
    [ optsOf (prefix +:+ DepositCounterName)
        "[SYNCHRONIZER] count processed deposit events";
      optsOf (prefix +:+ L1GERCounterName)
        "[SYNCHRONIZER] count processed L1 GER events";
      optsOf (prefix +:+ L2GERCounterName)
        "[SYNCHRONIZER] count processed L2 GER events";
      optsOf (prefix +:+ RemoveL2GERCounterName)
        "[SYNCHRONIZER] count processed remove L2 GER events";
      optsOf (prefix +:+ VerifyBatchCounterName)
        "[SYNCHRONIZER] count processed verify batch events";
      optsOf (prefix +:+ ClaimCounterName)
        "[SYNCHRONIZER] count processed claim events";
      optsOf (prefix +:+ ReorgCounterName)
        "[SYNCHRONIZER] count the number of reorgs";
      optsOf (prefix +:+ ReorgedBlockCounterName)
        "[SYNCHRONIZER] count the reorged blocks";
      optsOf (prefix +:+ WrappedTokensCounterName)
        "[SYNCHRONIZER] count the wrapped tokens" ].

Definition histogramOpts (prefix : string) : list Opts :=
    [ optsOf (prefix +:+ InitializationTimeName)
        "[SYNCHRONIZER] initialization time";
      optsOf (prefix +:+ FullTrustedSyncTimeName)
        "[SYNCHRONIZER] full trusted state synchronization time";
      optsOf (prefix +:+ FullL1SyncTimeName)
        "[SYNCHRONIZER] full L1 synchronization time";
      optsOf (prefix +:+ FullSyncIterationTimeName)
        "[SYNCHRONIZER] full synchronization iteration time";
      optsOf (prefix +:+ ReadL1DataTimeName)
        "[SYNCHRONIZER] read L1 data time";
      optsOf (prefix +:+ ProcessL1DataTimeName)
        "[SYNCHRONIZER] process L1 data time";
      optsOf (prefix +:+ GetTrustedGerTimeName)
        "[SYNCHRONIZER] get trusted GER time";
      optsOf (prefix +:+ GetTrustedExitRootsTimeName)
        "[SYNCHRONIZER] get trusted ExitRoots time";
      optsOf (prefix +:+ DepositAmountName)
        "[SYNCHRONIZER] deposit amount";
      optsOf (prefix +:+ ClaimAmountName)
        "[SYNCHRONIZER] claim amount" ].

Section Calls.
Context `{Prometheus}.

Definition Register (networkID : Z) : M Vars Metrics :=
  let prefix := prefixOf networkID in
  RegisterHistograms (histogramOpts prefix);;
  RegisterCounters (counterOpts prefix);;
  RegisterGauges (gaugeOpts prefix);;
  mret (mk_Metrics prefix).

Definition LatestBlockSynced (m : Metrics) (blockNumber : Z) := GaugeSet (prefix m +:+ LatestBlockSyncedName) (float64_of blockNumber).
Definition LatestBlockRollupInfo (m : Metrics) (blockNumber : Z) := GaugeSet (prefix m +:+ LatestBlockRollupInfoName) (float64_of blockNumber).
Definition IncrementsPendingBridgesToClaim (m : Metrics) := GaugeInc (prefix m +:+ CurrentPendingBridgesToClaimName).
Definition DecrementsPendingBridgesToClaim (m : Metrics) := GaugeDec (prefix m +:+ CurrentPendingBridgesToClaimName).
Definition DepositAmount (m : Metrics) (amount : Z) := HistogramObserve (prefix m +:+ DepositAmountName) (float64_of amount).
Definition ClaimAmount (m : Metrics) (amount : Z) := HistogramObserve (prefix m +:+ ClaimAmountName) (float64_of amount).
Definition InitializationTime (m : Metrics) (lastProcessTime : Z) := HistogramObserve (prefix m +:+ InitializationTimeName) (inSeconds lastProcessTime).
Definition FullTrustedSyncTime (m : Metrics) (lastProcessTime : Z) := HistogramObserve (prefix m +:+ FullTrustedSyncTimeName) (inSeconds lastProcessTime).
Definition FullL1SyncTime (m : Metrics) (lastProcessTime : Z) := HistogramObserve (prefix m +:+ FullL1SyncTimeName) (inSeconds lastProcessTime).
Definition FullSyncIterationTime (m : Metrics) (lastProcessTime : Z) := HistogramObserve (prefix m +:+ FullSyncIterationTimeName) (inSeconds lastProcessTime).
Definition ReadL1DataTime (m : Metrics) (lastProcessTime : Z) := HistogramObserve (prefix m +:+ ReadL1DataTimeName) (inSeconds lastProcessTime).
Definition ProcessL1DataTime (m : Metrics) (lastProcessTime : Z) := HistogramObserve (prefix m +:+ ProcessL1DataTimeName) (inSeconds lastProcessTime).
Definition GetTrustedGerTime (m : Metrics) (lastProcessTime : Z) := HistogramObserve (prefix m +:+ GetTrustedGerTimeName) (inSeconds lastProcessTime).
Definition GetTrustedExitRootsTime (m : Metrics) (lastProcessTime : Z) := HistogramObserve (prefix m +:+ GetTrustedExitRootsTimeName) (inSeconds lastProcessTime).
Definition DepositCounter (m : Metrics) := CounterInc (prefix m +:+ DepositCounterName).
Definition ClaimCounter (m : Metrics) := CounterInc (prefix m +:+ ClaimCounterName).
Definition VerifyBatchCounter (m : Metrics) := CounterInc (prefix m +:+ VerifyBatchCounterName).
Definition RemoveL2GERCounter (m : Metrics) := CounterInc (prefix m +:+ RemoveL2GERCounterName).
Definition L2GERCounter (m : Metrics) := CounterInc (prefix m +:+ L2GERCounterName).
Definition L1GERCounter (m : Metrics) := CounterInc (prefix m +:+ L1GERCounterName).
Definition ReorgCounter (m : Metrics) := CounterInc (prefix m +:+ ReorgCounterName).
Definition ReorgedBlocksCounter (m : Metrics) := CounterInc (prefix m +:+ ReorgedBlockCounterName).
Definition WrappedTokensCounter (m : Metrics) := CounterInc (prefix m +:+ WrappedTokensCounterName).

(** A call through the interface. *)
Inductive MetricsInterface :=
| CallLatestBlockSynced (blockNumber : Z)
| CallLatestBlockRollupInfo (blockNumber : Z)
| CallIncrementsPendingBridgesToClaim
| CallDecrementsPendingBridgesToClaim
| CallDepositAmount (amount : Z)
| CallClaimAmount (amount : Z)
| CallInitializationTime (lastProcessTime : Z)
| CallFullTrustedSyncTime (lastProcessTime : Z)
| CallFullL1SyncTime (lastProcessTime : Z)
| CallFullSyncIterationTime (lastProcessTime : Z)
| CallReadL1DataTime (lastProcessTime : Z)
| CallProcessL1DataTime (lastProcessTime : Z)
| CallGetTrustedGerTime (lastProcessTime : Z)
| CallGetTrustedExitRootsTime (lastProcessTime : Z)
| CallDepositCounter
| CallClaimCounter
| CallVerifyBatchCounter
| CallRemoveL2GERCounter
| CallL2GERCounter
| CallL1GERCounter
| CallReorgCounter
| CallReorgedBlocksCounter
| CallWrappedTokensCounter.

Definition invoke (m : Metrics) (c : MetricsInterface) : M Vars unit :=
  match c with
  | CallLatestBlockSynced blockNumber => LatestBlockSynced m blockNumber
  | CallLatestBlockRollupInfo blockNumber => LatestBlockRollupInfo m blockNumber
  | CallIncrementsPendingBridgesToClaim => IncrementsPendingBridgesToClaim m
  | CallDecrementsPendingBridgesToClaim => DecrementsPendingBridgesToClaim m
  | CallDepositAmount amount => DepositAmount m amount
  | CallClaimAmount amount => ClaimAmount m amount
  | CallInitializationTime lastProcessTime => InitializationTime m lastProcessTime
  | CallFullTrustedSyncTime lastProcessTime => FullTrustedSyncTime m lastProcessTime
  | CallFullL1SyncTime lastProcessTime => FullL1SyncTime m lastProcessTime
  | CallFullSyncIterationTime lastProcessTime => FullSyncIterationTime m lastProcessTime
  | CallReadL1DataTime lastProcessTime => ReadL1DataTime m lastProcessTime
  | CallProcessL1DataTime lastProcessTime => ProcessL1DataTime m lastProcessTime
  | CallGetTrustedGerTime lastProcessTime => GetTrustedGerTime m lastProcessTime
  | CallGetTrustedExitRootsTime lastProcessTime => GetTrustedExitRootsTime m lastProcessTime
  | CallDepositCounter => DepositCounter m
  | CallClaimCounter => ClaimCounter m
  | CallVerifyBatchCounter => VerifyBatchCounter m
  | CallRemoveL2GERCounter => RemoveL2GERCounter m
  | CallL2GERCounter => L2GERCounter m
  | CallL1GERCounter => L1GERCounter m
  | CallReorgCounter => ReorgCounter m
  | CallReorgedBlocksCounter => ReorgedBlocksCounter m
  | CallWrappedTokensCounter => WrappedTokensCounter m
  end.
End Calls.
