(* ===== verification/EthMetrics.v ===== *)
(** * The metrics of the event readers (etherman/metrics/metrics.go)

    The prefix of the names is a variable of the package, which all clients share: every
    [Register] overwrites it. *)
From S2P Require Import Prelude Metrics.

Definition ReadAndProcessAllEventsTimeName : string := "read_and_process_all_event_time".
Definition ProcessAllEventTimeName : string := "process_all_event_time".
Definition ProcessSingleEventTimeName : string := "process_single_event_time".
Definition GetEventsTimeName : string := "get_events_time".
Definition EventCounterName : string := "processed_events_counter".

Definition ethPrefixOf (networkID : Z) : string := "etherman_networkID_" +:+ pretty networkID +:+ "_".

Definition ethCounterOpts (Prefix : string) : list Opts :=
    [ optsOf (Prefix +:+ EventCounterName)
        "[ETHERMAN] count processed events" ].

Definition ethHistogramOpts (Prefix : string) : list Opts :=
    [ optsOf (Prefix +:+ ReadAndProcessAllEventsTimeName)
        "[ETHERMAN] read and process all event time";
      optsOf (Prefix +:+ ProcessAllEventTimeName)
        "[ETHERMAN] process all event time";
      optsOf (Prefix +:+ ProcessSingleEventTimeName)
        "[ETHERMAN] process single event time";
      optsOf (Prefix +:+ GetEventsTimeName)
        "[ETHERMAN] get L1 events time" ].

Section Calls.
Context `{Prometheus}.

(** The variable [Prefix] beside the variables of package metrics. *)
Record EthVars := mk_EthVars { Prefix : string; vars : Vars }.

Definition onVars {A} (c : M Vars A) : M EthVars A := zoom vars (λ v e, mk_EthVars (Prefix e) v) c.

Definition Register (networkID : Z) : M EthVars unit :=
  modify (λ e, mk_EthVars (ethPrefixOf networkID) (vars e));;
  e ← get;
  onVars (RegisterCounters (ethCounterOpts (Prefix e)));;
  onVars (RegisterHistograms (ethHistogramOpts (Prefix e))).

Definition ReadAndProcessAllEventsTime (lastProcessTime : Z) : M EthVars unit :=
  e ← get; onVars (HistogramObserve (Prefix e +:+ ReadAndProcessAllEventsTimeName) (inSeconds lastProcessTime)).
Definition ProcessAllEventTime (lastProcessTime : Z) : M EthVars unit :=
  e ← get; onVars (HistogramObserve (Prefix e +:+ ProcessAllEventTimeName) (inSeconds lastProcessTime)).
Definition ProcessSingleEventTime (lastProcessTime : Z) : M EthVars unit :=
  e ← get; onVars (HistogramObserve (Prefix e +:+ ProcessSingleEventTimeName) (inSeconds lastProcessTime)).
Definition GetEventsTime (lastProcessTime : Z) : M EthVars unit :=
  e ← get; onVars (HistogramObserve (Prefix e +:+ GetEventsTimeName) (inSeconds lastProcessTime)).
Definition EventCounter : M EthVars unit :=
  e ← get; onVars (CounterInc (Prefix e +:+ EventCounterName)).
End Calls.
