(* ===== verification/ApiMetrics.v ===== *)
(** * The metrics of the API (server/metrics/metrics.go)

    A counter and a histogram of the latency per endpoint. *)
From S2P Require Import Prelude Metrics.

Definition Prefix : string := "api_".
Definition CheckAPILatencyName : string := Prefix +:+ "check_api_latency".
Definition GetBridgesLatencyName : string := Prefix +:+ "get_bridges_latency".
Definition GetClaimsLatencyName : string := Prefix +:+ "get_claims_latency".
Definition GetProofLatencyName : string := Prefix +:+ "get_proof_latency".
Definition GetBridgeLatencyName : string := Prefix +:+ "get_bridge_latency".
Definition GetTokenWrappedLatencyName : string := Prefix +:+ "get_wrapped_token_latency".
Definition GetProofByGERLatencyName : string := Prefix +:+ "get_proof_by_ger_latency".
Definition GetPendingBridgesToClaimLatencyName : string := Prefix +:+ "get_pending_bridges_to_claim_latency".
Definition CheckAPICounterName : string := Prefix +:+ "check_api_counter".
Definition GetBridgesCounterName : string := Prefix +:+ "get_bridges_counter".
Definition GetClaimsCounterName : string := Prefix +:+ "get_claims_counter".
Definition GetProofCounterName : string := Prefix +:+ "get_proof_counter".
Definition GetBridgeCounterName : string := Prefix +:+ "get_bridge_counter".
Definition GetTokenWrappedCounterName : string := Prefix +:+ "get_wrapped_token_counter".
Definition GetProofByGERCounterName : string := Prefix +:+ "get_proof_by_ger_counter".
Definition GetPendingBridgesToClaimCounterName : string := Prefix +:+ "get_pending_bridges_to_claim_counter".

Definition apiCounterOpts : list Opts :=
    [ optsOf CheckAPICounterName
        "[API] count the number of requests to CheckAPI endpoint";
      optsOf GetBridgesCounterName
        "[API] count the number of requests to GetBridges endpoint";
      optsOf GetClaimsCounterName
        "[API] count the number of requests to GetClaims endpoint";
      optsOf GetProofCounterName
        "[API] count the number of requests to GetProof endpoint";
      optsOf GetBridgeCounterName
        "[API] count the number of requests to GetBridge endpoint";
      optsOf GetTokenWrappedCounterName
        "[API] count the number of requests to GetTokenWrapped endpoint";
      optsOf GetProofByGERCounterName
        "[API] count the number of requests to GetProofByGER endpoint";
      optsOf GetPendingBridgesToClaimCounterName
        "[API] count the number of requests to GetPendingBridgesToClaim endpoint" ].

Definition apiHistogramOpts : list Opts :=
    [ optsOf CheckAPILatencyName
        "[API] measures the latency of the CheckAPI endpoint";
      optsOf GetBridgesLatencyName
        "[API] measures the latency of the GetBridges endpoint";
      optsOf GetClaimsLatencyName
        "[API] measures the latency of the GetClaims endpoint";
      optsOf GetProofLatencyName
        "[API] measures the latency of the GetProof endpoint";
      optsOf GetBridgeLatencyName
        "[API] measures the latency of the GetBridge endpoint";
      optsOf GetTokenWrappedLatencyName
        "[API] measures the latency of the GetTokenWrapped endpoint";
      optsOf GetProofByGERLatencyName
        "[API] measures the latency of the GetProofByGER endpoint";
      optsOf GetPendingBridgesToClaimLatencyName
        "[API] measures the latency of the GetPendingBridgesToClaim endpoint" ].

Section Calls.
Context `{Prometheus}.

(** The argument is not used. *)
Definition Register (networkID : Z) : M Vars unit :=
  RegisterCounters apiCounterOpts;;
  RegisterHistograms apiHistogramOpts.

Definition CheckAPILatency (lastProcessTime : Z) : M Vars unit := HistogramObserve CheckAPILatencyName (inSeconds lastProcessTime).
Definition GetBridgesLatency (lastProcessTime : Z) : M Vars unit := HistogramObserve GetBridgesLatencyName (inSeconds lastProcessTime).
Definition GetClaimsLatency (lastProcessTime : Z) : M Vars unit := HistogramObserve GetClaimsLatencyName (inSeconds lastProcessTime).
Definition GetProofLatency (lastProcessTime : Z) : M Vars unit := HistogramObserve GetProofLatencyName (inSeconds lastProcessTime).
Definition GetBridgeLatency (lastProcessTime : Z) : M Vars unit := HistogramObserve GetBridgeLatencyName (inSeconds lastProcessTime).
Definition GetTokenWrappedLatency (lastProcessTime : Z) : M Vars unit := HistogramObserve GetTokenWrappedLatencyName (inSeconds lastProcessTime).
Definition GetProofByGERLatency (lastProcessTime : Z) : M Vars unit := HistogramObserve GetProofByGERLatencyName (inSeconds lastProcessTime).
Definition GetPendingBridgesToClaimLatency (lastProcessTime : Z) : M Vars unit := HistogramObserve GetPendingBridgesToClaimLatencyName (inSeconds lastProcessTime).
Definition CheckAPICounter : M Vars unit := CounterInc CheckAPICounterName.
Definition GetBridgesCounter : M Vars unit := CounterInc GetBridgesCounterName.
Definition GetClaimsCounter : M Vars unit := CounterInc GetClaimsCounterName.
Definition GetProofCounter : M Vars unit := CounterInc GetProofCounterName.
Definition GetBridgeCounter : M Vars unit := CounterInc GetBridgeCounterName.
Definition GetTokenWrappedCounter : M Vars unit := CounterInc GetTokenWrappedCounterName.
Definition GetProofByGERCounter : M Vars unit := CounterInc GetProofByGERCounterName.
Definition GetPendingBridgesToClaimCounter : M Vars unit := CounterInc GetPendingBridgesToClaimCounterName.
End Calls.
