(* ===== verification/MetricsFacts.v ===== *)
(** * The metrics package and the registry of Prometheus agree

    The maps of the package hold registered collectors under their own names, one kind
    per name, through every sequence of calls; and what one registration does. *)
From S2P Require Import Prelude Metrics Invariants.

Section MetricsFacts.
Context `{PL : PrometheusLaws}.

#[local] Abbreviation nameOf d := (Name (desc_opts d)).

(** ** The maps *)
Lemma mapOf_withMap_eq k f v : mapOf k (withMap k f v) = f (mapOf k v).
Proof. by destruct v, k. Qed.
Lemma mapOf_withMap_ne k k' f v : k ≠ k' → mapOf k (withMap k' f v) = mapOf k v.
Proof. by destruct v, k, k'. Qed.
Lemma prom_withMap k f v : prom (withMap k f v) = prom v.
Proof. by destruct v, k. Qed.
Lemma initialized_withMap k f v : initialized (withMap k f v) = initialized v.
Proof. by destruct v, k. Qed.
Lemma mapOf_withProm k p v : mapOf k (withProm p v) = mapOf k v.
Proof. by destruct v, k. Qed.
Lemma prom_withProm p v : prom (withProm p v) = p.
Proof. by destruct v. Qed.
Lemma initialized_withProm p v : initialized (withProm p v) = initialized v.
Proof. by destruct v. Qed.

Lemma lookup_withMap_insert k k' n n' c v c' :
  mapOf k (withMap k' (λ m, <[n' := c']> m) v) !! n = Some c →
  (k = k' ∧ n = n' ∧ c = c') ∨ mapOf k v !! n = Some c.
Proof.
  destruct (decide (k = k')) as [<-|Hk]; [|rewrite mapOf_withMap_ne by done; by right].
  rewrite mapOf_withMap_eq, lookup_insert_Some. naive_solver.
Qed.

Lemma lookup_withMap_delete k k' n n' c v :
  mapOf k (withMap k' (delete n') v) !! n = Some c → (k ≠ k' ∨ n ≠ n') ∧ mapOf k v !! n = Some c.
Proof.
  destruct (decide (k = k')) as [<-|Hk]; [|rewrite mapOf_withMap_ne by done; by auto].
  rewrite mapOf_withMap_eq, lookup_delete_Some. naive_solver.
Qed.

(** ** The agreement *)
Record agrees (v : Vars) : Prop := {
  agrees_registered k n c : mapOf k v !! n = Some c → registered (prom v) c;
  agrees_plain k n c : mapOf k v !! n = Some c → plainDesc (origin c);
  agrees_kind k n c : mapOf k v !! n = Some c → desc_kind (origin c) = k;
  agrees_name k n c : mapOf k v !! n = Some c → nameOf (origin c) = n;
  agrees_used k n c : mapOf k v !! n = Some c → n ∈ used (prom v);
  agrees_unique k k' n c c' : mapOf k v !! n = Some c → mapOf k' v !! n = Some c' → k = k';
}.

Lemma agrees_empty i p : agrees (mk_Vars i ∅ ∅ ∅ ∅ ∅ ∅ p).
Proof. by split; intros k; destruct k; simpl; intros *; rewrite lookup_empty. Qed.

Lemma agrees_same v p : agrees v → same_registry (prom v) p → agrees (withProm p v).
Proof.
  intros [Hr Hp Hk Hn Hu Hq] (Hreg & Hus & _).
  split; intros *; rewrite ?mapOf_withProm, ?prom_withProm, ?Hus, ?Hreg; eauto.
Qed.

Lemma agrees_insert v c p :
  agrees v → plainDesc (origin c) → MustRegister c (prom v) = Some p →
  agrees (withMap (desc_kind (origin c)) (λ m, <[nameOf (origin c) := c]> m) (withProm p v)).
Proof.
  intros [Hr Hp Hk Hn Hu Hq] Hc HM.
  assert (nameOf (origin c) ∉ used (prom v)) as Hfresh.
  { intros Hin. rewrite MustRegister_used in HM; done. }
  destruct (MustRegister_law c _ _ Hc HM) as (Hreg & Hus & _).
  split; intros *; rewrite ?prom_withMap, ?prom_withProm, ?Hus, ?Hreg;
    intros [(-> & -> & ->)|Hl]%lookup_withMap_insert; rewrite ?mapOf_withProm in *; eauto.
  - set_solver.
  - pose proof (Hu _ _ _ Hl). set_solver.
  - intros [(-> & Heq & ->)|Hl']%lookup_withMap_insert; rewrite ?mapOf_withProm in *; eauto.
    destruct Hfresh. eauto.
  - intros [(-> & -> & ->)|Hl']%lookup_withMap_insert; rewrite ?mapOf_withProm in *; eauto.
    destruct Hfresh. eauto.
Qed.

Lemma agrees_delete v k n c :
  agrees v → mapOf k v !! n = Some c →
  ∃ p, Unregister c (prom v) = (p, true) ∧ agrees (withMap k (delete n) (withProm p v)).
Proof.
  intros [Hr Hp Hk Hn Hu Hq] Hc.
  destruct (Unregister_law c (prom v)) as (p & HU & Hreg & Hus & _); [by eauto..|].
  exists p. split; [done|]. rewrite (Hn _ _ _ Hc) in Hus.
  assert (∀ k' n' c', (k' ≠ k ∨ n' ≠ n) → mapOf k' v !! n' = Some c' → n' ≠ n) as Hne.
  { intros k' n' c' [Hd|Hd] Hl ->; [|done]. destruct Hd. by eapply Hq. }
  split; intros *; rewrite ?prom_withMap, ?prom_withProm, ?Hus, ?Hreg;
    intros [Hd Hl]%lookup_withMap_delete; rewrite ?mapOf_withProm in *; eauto.
  - split; [|by eauto]. intros ->. apply (Hne _ _ _ Hd Hl).
    rewrite <- (Hn _ _ _ Hl). by eapply Hn.
  - pose proof (Hne _ _ _ Hd Hl). pose proof (Hu _ _ _ Hl). set_solver.
  - intros [_ Hl']%lookup_withMap_delete. rewrite ?mapOf_withProm in *. eauto.
Qed.

(** ** Every operation keeps it *)
Lemma keeps_call_prom {A} (f : Prom → option (A * Prom)) :
  (∀ p a p', f p = Some (a, p') → same_registry p p') → keeps agrees (call_prom f).
Proof.
  intros Hf v Hv. unfold call_prom. destruct (f (prom v)) as [[a p]|] eqn:E; [|done].
  apply agrees_same; eauto.
Qed.

Lemma keeps_call_prom_ (f : Prom → option Prom) :
  (∀ p p', f p = Some p' → same_registry p p') → keeps agrees (call_prom_ f).
Proof. intros Hf. apply keeps_call_prom. intros p [] p' Hp. destruct (f p) eqn:E; simplify_eq/=. eauto. Qed.

Lemma keeps_ifInitialized (c : M Vars unit) : keeps agrees c → keeps agrees (ifInitialized c).
Proof. intros Hc. unfold ifInitialized. keeps_auto. Qed.

Lemma keeps_Init : keeps agrees Init.
Proof.
  intros v Hv. unfold Init, get, put, mbind, M_bind. destruct (initialized v); [done|]. apply agrees_empty.
Qed.

(** The outcome of a registration: nothing, a panic, or a new collector. *)
Lemma registerIfNotExists_cases d v r v' :
  registerIfNotExists d v = (r, v') → plainDesc d →
  (is_Some (mapOf (desc_kind d) v !! nameOf d) ∧ r = Ok tt ∧ v' = v) ∨
  (mapOf (desc_kind d) v !! nameOf d = None ∧
   ∃ c p1, NewCollector d (prom v) = Some (c, p1) ∧
     match MustRegister c p1 with
     | Some p2 => r = Ok tt ∧
         v' = withMap (desc_kind d) (λ m, <[nameOf d := c]> m) (withProm p2 (withProm p1 v))
     | None => r = Panic ∧ v' = withProm p1 v
     end).
Proof.
  intros E Hd. unfold registerIfNotExists in E. mstep E. injection E0 as <- <-.
  destruct (mapOf _ v !! _) as [c|] eqn:El; [left; injection E as <- <-; eauto|right]. split; [done|].
  destruct (NewCollector_plain d (prom v) Hd) as (c & p1 & HN). exists c, p1. split; [done|].
  rewrite (M_bind_Ok _ _ _ c (withProm p1 v)) in E by (unfold call_prom; by rewrite HN).
  unfold mbind, M_bind, call_prom_, call_prom in E. rewrite prom_withProm in E.
  destruct (MustRegister c p1) as [p2|]; simpl in E; by injection E as <- <-.
Qed.

Lemma keeps_registerIfNotExists d : plainDesc d → keeps agrees (registerIfNotExists d).
Proof.
  intros Hd v Hv. destruct (registerIfNotExists d v) as [r v'] eqn:E. simpl.
  apply registerIfNotExists_cases in E as [(_ & _ & ->)|(Hnone & c & p1 & HN & HM)]; [done| |done].
  destruct (NewCollector_law _ _ _ _ HN) as (Ho & _ & Hsame). subst d.
  pose proof (agrees_same _ _ Hv Hsame) as Hv1.
  destruct (MustRegister c p1) as [p2|] eqn:EM; destruct HM as [_ ->]; [|done].
  apply agrees_insert; [done..|]. by rewrite prom_withProm.
Qed.

(** Unregistering never fails, and removes the collector. *)
Lemma unregisterIfExists_spec k n v :
  agrees v → ∃ v', unregisterIfExists k n v = (Ok tt, v') ∧ mapOf k v' !! n = None ∧
    (∀ c, mapOf k v !! n = Some c → ¬ registered (prom v') c) ∧ agrees v'.
Proof.
  intros Hv. unfold unregisterIfExists, get, mbind, M_bind.
  destruct (mapOf k v !! n) as [c|] eqn:El; [|by exists v].
  destruct (agrees_delete v k n c Hv El) as (p & HU & Ha). unfold call_prom. rewrite HU.
  eexists. split; [done|]. split; [by rewrite mapOf_withMap_eq, lookup_delete_eq|]. split; [|done].
  intros c' [= <-]. rewrite prom_withMap, prom_withProm.
  destruct (Unregister_law c (prom v)) as (p' & HU' & Hreg & _);
    [by apply (agrees_plain _ Hv k n)|by apply (agrees_registered _ Hv k n)|].
  rewrite HU in HU'. injection HU' as <-. rewrite Hreg. tauto.
Qed.

Lemma keeps_unregisterIfExists k n : keeps agrees (unregisterIfExists k n).
Proof. intros v Hv. destruct (unregisterIfExists_spec k n v Hv) as (v' & E & _ & _ & Ha). by rewrite E. Qed.

Lemma keeps_lookupMetric k n : keeps agrees (lookupMetric k n).
Proof. unfold lookupMetric. keeps_auto. Qed.

Lemma keeps_updateMetric look u : keeps agrees look → keeps agrees (updateMetric look u).
Proof.
  intros Hl. apply keeps_ifInitialized. keeps_auto. apply keeps_call_prom_. intros ??. apply Apply_law.
Qed.

Lemma keeps_updateVec look label u : keeps agrees look → keeps agrees (updateVec look label u).
Proof.
  intros Hl. apply keeps_ifInitialized. keeps_auto.
  - apply keeps_call_prom. intros ???. apply WithLabelValues_law.
  - apply keeps_call_prom_. intros ??. apply Apply_law.
Qed.
End MetricsFacts.

#[export] Hint Resolve keeps_ifInitialized keeps_Init keeps_registerIfNotExists keeps_unregisterIfExists
  keeps_lookupMetric keeps_updateMetric keeps_updateVec : bridge.
