(* ===== verification/MetricsUse.v ===== *)
(** * The metrics that the service asks for

    The tables of the three packages as lists of collectors, the names of which determine
    the collector, and what a registration of the service does: it succeeds, and stores
    exactly what it asks for. *)
From Stdlib Require Import Ascii.
From S2P Require Import Prelude Metrics Invariants MetricsFacts.
From S2P Require Import SyncMetrics EthMetrics ApiMetrics.

#[global] Instance Desc_eq_dec : EqDecision Desc.
Proof. solve_decision. Defined.

Abbreviation nameOf d := (Name (desc_opts d)).

(** ** Texts *)
Lemma allChars_app p s t : allChars p (s +:+ t) = allChars p s && allChars p t.
Proof.
  induction s as [|c s IH]; [done|]. change (String.String c s +:+ t) with (String.String c (s +:+ t)).
  simpl. rewrite IH. by rewrite andb_assoc.
Qed.

Lemma append_assoc s t u : (s +:+ t) +:+ u = s +:+ t +:+ u.
Proof.
  induction s as [|c s IH]; [done|].
  change (String.String c ((s +:+ t) +:+ u) = String.String c (s +:+ t +:+ u)). by rewrite IH.
Qed.

Lemma allChars_impl (p q : ascii → bool) s :
  (∀ c, p c = true → q c = true) → allChars p s = true → allChars q s = true.
Proof. intros Hpq. induction s as [|c s IH]; [done|]. simpl. rewrite !andb_true_iff. intros []. auto. Qed.

Lemma pretty_N_go_digits x s : allChars isDigit s = true → allChars isDigit (pretty_N_go x s) = true.
Proof.
  revert s. induction (N.lt_wf_0 x) as [x _ IH]. intros s Hs.
  assert (x = 0 ∨ 0 < x)%N as [->|Hx] by lia; [by rewrite pretty_N_go_0|].
  rewrite pretty_N_go_step by done. apply IH; [by apply N.div_lt|].
  simpl. rewrite Hs, andb_true_r. pose proof (N.mod_lt x 10 ltac:(done)) as Hm.
  revert Hm. generalize (x mod 10)%N as m. intros m Hm.
  unfold pretty_N_char. do 10 (destruct m as [|m] using N.peano_ind; [done|clear IHm]). lia.
Qed.

Lemma pretty_digits n : 0 ≤ n → allChars isDigit (pretty n) = true.
Proof.
  intros Hn. destruct n as [|p|p]; [done| |lia]. apply (pretty_N_go_digits (N.pos p) ""). done.
Qed.

(** Digits up to the first underscore. *)
Lemma digits_sep a b x y :
  allChars isDigit a = true → allChars isDigit b = true →
  a +:+ "_" +:+ x = b +:+ "_" +:+ y → a = b ∧ x = y.
Proof.
  revert b. induction a as [|c a IH]; intros [|c' b] Ha Hb Heq; simpl in Ha, Hb.
  - injection Heq. done.
  - injection Heq as <- _. done.
  - injection Heq as -> _. done.
  - apply andb_true_iff in Ha as [_ Ha], Hb as [_ Hb]. injection Heq as -> Heq.
    destruct (IH b Ha Hb Heq) as [-> ->]. done.
Qed.

Lemma prefixOf_inj n n' x y :
  0 ≤ n → 0 ≤ n' → prefixOf n +:+ x = prefixOf n' +:+ y → n = n' ∧ x = y.
Proof.
  intros Hn Hn' Heq. unfold prefixOf in Heq. rewrite !append_assoc in Heq. apply (inj (String.append _)) in Heq.
  apply digits_sep in Heq as [Heq ->]; [|by apply pretty_digits..]. by apply (inj pretty) in Heq.
Qed.

Lemma ethPrefixOf_inj n n' x y :
  0 ≤ n → 0 ≤ n' → ethPrefixOf n +:+ x = ethPrefixOf n' +:+ y → n = n' ∧ x = y.
Proof.
  intros Hn Hn' Heq. unfold ethPrefixOf in Heq. rewrite !append_assoc in Heq. apply (inj (String.append _)) in Heq.
  apply digits_sep in Heq as [Heq ->]; [|by apply pretty_digits..]. by apply (inj pretty) in Heq.
Qed.

(** ** The tables *)
Definition entries (k : Kind) (opts : list Opts) : list Desc := (λ o, mk_Desc k o []) <$> opts.

Definition syncDescs (p : string) : list Desc :=
  entries KHistogram (histogramOpts p) ++ entries KCounter (counterOpts p) ++ entries KGauge (gaugeOpts p).
Definition ethDescs (p : string) : list Desc :=
  entries KCounter (ethCounterOpts p) ++ entries KHistogram (ethHistogramOpts p).
Definition apiDescs : list Desc := entries KCounter apiCounterOpts ++ entries KHistogram apiHistogramOpts.

(** The same collector under a longer name. *)
Definition prefixed (p : string) (d : Desc) : Desc :=
  mk_Desc (desc_kind d)
    (mk_Opts (Namespace (desc_opts d)) (Subsystem (desc_opts d)) (p +:+ nameOf d) (Help (desc_opts d))
       (ConstLabels (desc_opts d))) (desc_labels d).

Lemma syncDescs_prefixed p : syncDescs p = prefixed p <$> syncDescs "".
Proof. reflexivity. Qed.
Lemma ethDescs_prefixed p : ethDescs p = prefixed p <$> ethDescs "".
Proof. reflexivity. Qed.

(** The first entry of every kind and name: the others find it registered. *)
Definition sameMetric (d d0 : Desc) : Prop := desc_kind d0 = desc_kind d ∧ nameOf d0 = nameOf d.
#[global] Instance sameMetric_dec d d0 : Decision (sameMetric d d0).
Proof. unfold sameMetric. apply _. Defined.

Fixpoint firsts (seen ds : list Desc) : list Desc :=
  match ds with
  | [] => []
  | d :: ds' =>
      if decide (Exists (sameMetric d) seen) then firsts seen ds' else d :: firsts (d :: seen) ds'
  end.

Lemma firsts_prefixed p seen ds :
  firsts (prefixed p <$> seen) (prefixed p <$> ds) = prefixed p <$> firsts seen ds.
Proof.
  revert seen. induction ds as [|d ds IH]; intros seen; [done|]. cbn [firsts fmap list_fmap].
  assert (Exists (sameMetric (prefixed p d)) (prefixed p <$> seen) ↔ Exists (sameMetric d) seen) as Hiff.
  { rewrite Exists_fmap. unfold compose, sameMetric. simpl.
    split; intros He; eapply Exists_impl; try exact He; intros d0 [Hk Hn]; (split; [done|]).
    - by apply (inj (String.append p)) in Hn.
    - simpl. f_equal. exact Hn. }
  repeat case_decide; try tauto; [apply IH|]. rewrite fmap_cons. f_equal. apply (IH (d :: seen)).
Qed.

Definition syncTable : list Desc := firsts [] (syncDescs "").

(** The collectors that the service asks for. *)
Inductive programDesc : Desc → Prop :=
| pd_sync n d : 0 ≤ n → d ∈ syncTable → programDesc (prefixed (prefixOf n) d)
| pd_eth n d : 0 ≤ n → d ∈ ethDescs "" → programDesc (prefixed (ethPrefixOf n) d)
| pd_api d : d ∈ apiDescs → programDesc d.

(** No table has a name twice. *)
Definition namesFunctional (l : list Desc) : Prop := Forall (λ d, Forall (λ d', nameOf d = nameOf d' → d = d') l) l.

Lemma namesFunctional_elem l d d' : namesFunctional l → d ∈ l → d' ∈ l → nameOf d = nameOf d' → d = d'.
Proof.
  intros Hl Hd Hd'. apply (proj1 (Forall_forall _ _) Hl), Forall_forall with (x := d') in Hd; done.
Qed.

Lemma tables_functional : namesFunctional syncTable ∧ namesFunctional (ethDescs "") ∧ namesFunctional apiDescs.
Proof. apply (bool_decide_unpack _). vm_compute. exact I. Qed.

Definition headChar (s : string) : option ascii :=
  match s with EmptyString => None | String.String c _ => Some c end.

Lemma api_head d : d ∈ apiDescs → headChar (nameOf d) = Some "a"%char.
Proof.
  assert (Forall (λ d, headChar (nameOf d) = Some "a"%char) apiDescs) as Hall.
  { apply (bool_decide_unpack _). vm_compute. exact I. }
  rewrite Forall_forall in Hall. apply Hall.
Qed.

Lemma programDesc_functional d d' : programDesc d → programDesc d' → nameOf d = nameOf d' → d = d'.
Proof.
  destruct tables_functional as (Hs & He & Ha).
  intros [n e Hn Hd|n e Hn Hd|e Hd] [n' e' Hn' Hd'|n' e' Hn' Hd'|e' Hd'] Heq;
    try (apply api_head in Hd as Hh; rewrite Heq in Hh; discriminate Hh);
    try (apply api_head in Hd' as Hh; rewrite <- Heq in Hh; discriminate Hh); try discriminate Heq.
  - apply prefixOf_inj in Heq as [-> Heq]; [|done..]. f_equal. by apply (namesFunctional_elem _ _ _ Hs).
  - apply ethPrefixOf_inj in Heq as [-> Heq]; [|done..]. f_equal. by apply (namesFunctional_elem _ _ _ He).
  - by apply (namesFunctional_elem _ _ _ Ha).
Qed.

(** All names are valid names of metrics. *)
Definition nameChar (c : ascii) : bool := isLetter c || isColon c || isDigit c.

Lemma validName_prefixed c p s :
  isLetter c = true → allChars nameChar p = true → allChars nameChar s = true →
  validName (String.String c p +:+ s) = true.
Proof.
  intros Hc Hp Hs. change (String.String c p +:+ s) with (String.String c (p +:+ s)).
  unfold validName. fold nameChar. rewrite Hc. simpl. change (allChars nameChar (p +:+ s) = true).
  by rewrite allChars_app, Hp, Hs.
Qed.

Lemma pretty_nameChars n : 0 ≤ n → allChars nameChar (pretty n +:+ "_") = true.
Proof.
  intros Hn. rewrite allChars_app, andb_true_r. apply allChars_impl with isDigit; [|by apply pretty_digits].
  intros c Hc. unfold nameChar. by rewrite Hc, orb_true_r.
Qed.

Definition plainTable (d : Desc) : Prop :=
  Namespace (desc_opts d) = ""%string ∧ Subsystem (desc_opts d) = ""%string ∧ ConstLabels (desc_opts d) = [] ∧
  desc_labels d = [] ∧ allChars nameChar (nameOf d) = true.

Lemma tables_plain d : d ∈ syncTable ∨ d ∈ ethDescs "" ∨ d ∈ apiDescs → plainTable d.
Proof.
  assert (Forall plainTable (syncTable ++ ethDescs "" ++ apiDescs)) as Hall.
  { unfold plainTable. apply (bool_decide_unpack _). vm_compute. exact I. }
  rewrite <- !elem_of_app. rewrite Forall_forall in Hall. apply Hall.
Qed.

Lemma plainDesc_intro d :
  Namespace (desc_opts d) = ""%string → Subsystem (desc_opts d) = ""%string → ConstLabels (desc_opts d) = [] →
  desc_labels d = [] → validName (nameOf d) = true → plainDesc d.
Proof. intros H1 H2 H3 H4 H5. split; [done|]. rewrite H4. split; constructor. Qed.

Lemma programDesc_plain d : programDesc d → plainDesc d.
Proof.
  intros [n e Hn Hd|n e Hn Hd|e Hd].
  1,2: destruct (tables_plain e) as (H1 & H2 & H3 & H4 & H5); [by auto|];
    apply plainDesc_intro; [done..|];
    apply validName_prefixed; [done| |exact H5]; apply (pretty_nameChars n) in Hn; exact Hn.
  destruct (tables_plain e) as (H1 & H2 & H3 & H4 & H5); [by auto|].
  apply plainDesc_intro; [done..|]. apply api_head in Hd.
  destruct (nameOf e) as [|c s]; [done|]. injection Hd as ->. exact H5.
Qed.

(** ** Registering *)
Section Use.
Context `{PL : PrometheusLaws}.

(** The collector is in the map of its kind. *)
Definition stored (v : Vars) (d : Desc) : Prop :=
  ∃ c, mapOf (desc_kind d) v !! nameOf d = Some c ∧ origin c = d.

(** A collector of the service is stored or its name is free. *)
Record ready (v : Vars) : Prop := {
  ready_initialized : initialized v = true;
  ready_agrees : agrees v;
  ready_free d : programDesc d →
    stored v d ∨ (nameOf d ∉ used (prom v) ∧ dims (prom v) !! nameOf d = None);
}.

Lemma stored_insert v c p d :
  agrees v → MustRegister c (prom v) = Some p → plainDesc (origin c) →
  stored (withMap (desc_kind (origin c)) (λ m, <[nameOf (origin c) := c]> m) (withProm p v)) d ↔
  d = origin c ∨ stored v d.
Proof.
  intros Hv HM Hp. split.
  - intros (c' & [(Hk & Hn & ->)|Hl]%lookup_withMap_insert & Ho); [by left|right].
    rewrite mapOf_withProm in Hl. by exists c'.
  - intros [->|(c' & Hl & Ho)].
    + exists c. by rewrite mapOf_withMap_eq, lookup_insert_eq.
    + exists c'. split; [|done]. destruct (decide (desc_kind d = desc_kind (origin c))) as [Hk|Hk].
      * rewrite Hk, mapOf_withMap_eq, mapOf_withProm, lookup_insert_ne, <- Hk; [done|].
        intros Hn. pose proof (agrees_used _ Hv _ _ _ Hl) as Hu. rewrite <- Hn in Hu.
        by rewrite (MustRegister_used _ _ Hp Hu) in HM.
      * by rewrite mapOf_withMap_ne, mapOf_withProm.
Qed.

Lemma register_program v d :
  ready v → programDesc d →
  ∃ v', registerIfNotExists d v = (Ok tt, v') ∧ ready v' ∧ ∀ d', stored v' d' ↔ d' = d ∨ stored v d'.
Proof.
  intros [Hi Hv Hf] Hd. pose proof (programDesc_plain _ Hd) as Hp.
  destruct (registerIfNotExists d v) as [r v'] eqn:E.
  apply registerIfNotExists_cases in E as [([c Hc] & -> & ->)|(Hnone & c & p1 & HN & HM)]; [| |done].
  - exists v. split; [done|]. split; [done|]. intros d'. split; [by right|]. intros [->|]; [|done].
    destruct (Hf d Hd) as [|[Hu _]]; [done|]. destruct Hu. by eapply agrees_used.
  - destruct (Hf d Hd) as [(c' & Hc' & _)|[Hu Hdims]]; [by rewrite Hnone in Hc'|].
    destruct (NewCollector_law _ _ _ _ HN) as (Ho & Hnr & Hsame). pose proof Hsame as (Hr & Hus & Hds).
    pose proof (agrees_same _ _ Hv Hsame) as Hv1. subst d.
    assert (is_Some (MustRegister c p1)) as [p2 HR].
    { apply MustRegister_plain; [done|by rewrite Hr|by rewrite Hus|]. rewrite Hds, Hdims. by left. }
    rewrite HR in HM. destruct HM as [-> ->]. destruct (MustRegister_law _ _ _ Hp HR) as (_ & Hus2 & Hds2).
    assert (MustRegister c (prom (withProm p1 v)) = Some p2) as HR' by (by rewrite prom_withProm).
    assert (∀ d', stored (withProm p1 v) d' ↔ stored v d') as Hst.
    { intros d'. unfold stored. by setoid_rewrite mapOf_withProm. }
    eexists. split; [done|]. split; [split|].
    + by rewrite initialized_withMap, !initialized_withProm.
    + by apply agrees_insert.
    + intros d' Hd'. rewrite stored_insert, Hst by done. rewrite prom_withMap, prom_withProm.
      destruct (Hf d' Hd') as [|[Hu' Hdims']]; [by auto|].
      destruct (decide (nameOf d' = nameOf (origin c))) as [Hn|Hn].
      { left. left. by apply programDesc_functional. }
      right. rewrite Hus2, Hds2, Hus, Hds, lookup_insert_ne by done. split; [set_solver|done].
    + intros d'. by rewrite stored_insert, Hst.
Qed.

(** A list of registrations stores the first entry of every kind and name. *)
Lemma register_descs ds seen v :
  ready v → Forall programDesc (firsts seen ds) → Forall (stored v) seen →
  ∃ v', forM_ ds registerIfNotExists v = (Ok tt, v') ∧ ready v' ∧
    ∀ d', stored v' d' ↔ d' ∈ firsts seen ds ∨ stored v d'.
Proof.
  revert seen v. induction ds as [|d ds IH]; intros seen v Hv Hf Hs.
  { exists v. split; [done|]. split; [done|]. intros d'. set_solver. }
  cbn [firsts forM_] in *. case_decide as Hex.
  - apply Exists_exists in Hex as (d0 & Hd0 & Hk & Hn).
    rewrite Forall_forall in Hs. destruct (Hs d0 Hd0) as (c & Hc & _). rewrite Hk, Hn in Hc.
    assert (registerIfNotExists d v = (Ok tt, v)) as E.
    { unfold registerIfNotExists, get, mbind, M_bind. by rewrite Hc. }
    rewrite (M_bind_Ok _ _ _ _ _ E). apply IH; [done..|]. by apply Forall_forall.
  - apply Forall_cons in Hf as [Hd Hf]. destruct (register_program v d Hv Hd) as (v1 & E & Hv1 & Hst).
    rewrite (M_bind_Ok _ _ _ _ _ E).
    destruct (IH (d :: seen) v1) as (v2 & E2 & Hv2 & Hst2); [done..| |].
    { apply Forall_cons. split; [apply Hst; by left|]. eapply Forall_impl; [exact Hs|].
      intros d0 Hd0. apply Hst. by right. }
    exists v2. split; [done|]. split; [done|]. intros d'. rewrite Hst2, Hst, elem_of_cons. tauto.
Qed.
End Use.
