(* ===== verification/MetricsTheorems.v ===== *)
(** * Theorems about the metrics

    Through every sequence of calls the maps of the package and the registry agree; the
    three packages that use it never make it panic, whatever the networks and the order of
    their calls; and a call of a synchronizer reaches the metric of its network. *)
From Stdlib Require Import Ascii SpecFloat.
From S2P Require Import Prelude Metrics Invariants MetricsFacts.
From S2P Require Import SyncMetrics EthMetrics ApiMetrics MetricsUse.

(** ** The package *)

(** The calls of package metrics that change its variables. *)
Inductive Op :=
| OpInit
| OpRegisterGauges (opts : list Opts)
| OpRegisterCounters (opts : list Opts)
| OpRegisterCounterVecs (opts : list CounterVecOpts)
| OpRegisterHistograms (opts : list Opts)
| OpRegisterHistogramVecs (opts : list HistogramVecOpts)
| OpRegisterSummaries (opts : list Opts)
| OpUnregisterGauges (names : list string)
| OpUnregisterCounters (names : list string)
| OpUnregisterCounterVecs (names : list string)
| OpUnregisterHistogram (names : list string)
| OpUnregisterHistogramVecs (names : list string)
| OpUnregisterSummaries (names : list string)
| OpGaugeSet (name : string) (value : float64)
| OpGaugeInc (name : string)
| OpGaugeDec (name : string)
| OpCounterInc (name : string)
| OpCounterAdd (name : string) (value : float64)
| OpCounterVecInc (name label : string)
| OpCounterVecAdd (name label : string) (value : float64)
| OpHistogramObserve (name : string) (value : float64)
| OpHistogramVecObserve (name label : string) (value : float64).

(** The collectors that an operation asks for. *)
Definition opDescs (op : Op) : list Desc :=
  match op with
  | OpRegisterGauges opts => (λ o, mk_Desc KGauge o []) <$> opts
  | OpRegisterCounters opts => (λ o, mk_Desc KCounter o []) <$> opts
  | OpRegisterCounterVecs opts => (λ o, mk_Desc KCounterVec (CounterOpts o) (cv_Labels o)) <$> opts
  | OpRegisterHistograms opts => (λ o, mk_Desc KHistogram o []) <$> opts
  | OpRegisterHistogramVecs opts => (λ o, mk_Desc KHistogramVec (HistogramOpts o) (hv_Labels o)) <$> opts
  | OpRegisterSummaries opts => (λ o, mk_Desc KSummary o []) <$> opts
  | _ => []
  end.

Section Package.
Context `{PL : PrometheusLaws}.

Definition exec (op : Op) : M Vars unit :=
  match op with
  | OpInit => Init
  | OpRegisterGauges opts => RegisterGauges opts
  | OpRegisterCounters opts => RegisterCounters opts
  | OpRegisterCounterVecs opts => RegisterCounterVecs opts
  | OpRegisterHistograms opts => RegisterHistograms opts
  | OpRegisterHistogramVecs opts => RegisterHistogramVecs opts
  | OpRegisterSummaries opts => RegisterSummaries opts
  | OpUnregisterGauges names => UnregisterGauges names
  | OpUnregisterCounters names => UnregisterCounters names
  | OpUnregisterCounterVecs names => UnregisterCounterVecs names
  | OpUnregisterHistogram names => UnregisterHistogram names
  | OpUnregisterHistogramVecs names => UnregisterHistogramVecs names
  | OpUnregisterSummaries names => UnregisterSummaries names
  | OpGaugeSet name value => GaugeSet name value
  | OpGaugeInc name => GaugeInc name
  | OpGaugeDec name => GaugeDec name
  | OpCounterInc name => CounterInc name
  | OpCounterAdd name value => CounterAdd name value
  | OpCounterVecInc name label => CounterVecInc name label
  | OpCounterVecAdd name label value => CounterVecAdd name label value
  | OpHistogramObserve name value => HistogramObserve name value
  | OpHistogramVecObserve name label value => HistogramVecObserve name label value
  end.

(** The states of the package; a call may panic half way and be recovered. *)
Inductive reachable (p0 : Prom) : Vars → Prop :=
| reach_start : reachable p0 (zeroVars p0)
| reach_exec v op r v' :
    reachable p0 v → Forall plainDesc (opDescs op) → exec op v = (r, v') → reachable p0 v'.

Lemma keeps_forM_fmap {A B} (I : Vars → Prop) (f : A → B) (body : B → M Vars unit) (Q : B → Prop) l :
  Forall Q (f <$> l) → (∀ b, Q b → keeps I (body b)) → keeps I (forM_ l (λ a, body (f a))).
Proof.
  intros HQ Hb. induction l as [|a l IH]; [apply keeps_mret|]. inversion HQ; subst.
  cbn [forM_]. apply keeps_bind; auto.
Qed.

Lemma keeps_exec op : Forall plainDesc (opDescs op) → keeps agrees (exec op).
Proof.
  intros Hop. destruct op; cbn [exec opDescs] in *;
    try (apply keeps_ifInitialized;
         apply (keeps_forM_fmap agrees _ registerIfNotExists plainDesc); [exact Hop|apply keeps_registerIfNotExists]);
    try (apply keeps_ifInitialized, keeps_forM; intros; apply keeps_unregisterIfExists);
    try apply keeps_updateVec; try apply keeps_updateMetric; try apply keeps_lookupMetric; apply keeps_Init.
Qed.

Lemma reachable_agrees p0 v : reachable p0 v → agrees v.
Proof.
  induction 1 as [|v op r v' Hv IH Hop E]; [apply agrees_empty|].
  pose proof (keeps_exec op Hop v IH) as Hk. by rewrite E in Hk.
Qed.

(** C36: in every state that calls of the package lead to, panics included, each collector
    in a map is registered in Prometheus with the kind of the map and the name of its key,
    no other kind has the name, and removing it succeeds: afterwards the name is free in
    the map and the collector is not registered. *)
Theorem package_agrees p0 v :
  reachable p0 v →
  ∀ k n,
    (∀ c, mapOf k v !! n = Some c →
       registered (prom v) c ∧ desc_kind (origin c) = k ∧ Name (desc_opts (origin c)) = n ∧
       ∀ k' c', mapOf k' v !! n = Some c' → k' = k) ∧
    ∃ v', unregisterIfExists k n v = (Ok tt, v') ∧ mapOf k v' !! n = None ∧
      ∀ c, mapOf k v !! n = Some c → ¬ registered (prom v') c.
Proof.
  intros Hv%reachable_agrees k n. split.
  - intros c Hc. split; [by eapply agrees_registered|]. split; [by eapply agrees_kind|].
    split; [by eapply agrees_name|]. intros k' c' Hc'. by eapply agrees_unique.
  - destruct (unregisterIfExists_spec k n v Hv) as (v' & E & Hn & Hr & _). eauto.
Qed.
End Package.

(** ** The registrations of the service *)
Section Registrations.
Context `{PL : PrometheusLaws}.

(** Equal from every state after [Init]. *)
Definition eq_init {A} (c c' : M Vars A) : Prop := ∀ v, initialized v = true → c v = c' v.

Lemma eq_init_bind {A} (c c' : M Vars unit) (k k' : M Vars A) :
  eq_init c c' → keeps (λ v, initialized v = true) c' → eq_init k k' → eq_init (c;; k) (c';; k').
Proof.
  intros Hc Hk HK v Hv. unfold mbind, M_bind. rewrite (Hc v Hv). specialize (Hk v Hv).
  destruct (c' v) as [[] v']; [by apply HK|done..].
Qed.

Lemma initialized_register d : keeps (λ v, initialized v = true) (registerIfNotExists d).
Proof.
  unfold registerIfNotExists. keeps_auto; intros v Hv.
  - unfold call_prom. case_match; [|done]. case_match. by destruct v.
  - unfold call_prom_, call_prom. case_match; [|done]. case_match. by destruct v.
  - simpl. by rewrite initialized_withMap.
Qed.

Lemma initialized_registers ds : keeps (λ v, initialized v = true) (forM_ ds registerIfNotExists).
Proof. apply keeps_forM, initialized_register. Qed.

Lemma forM_entries k opts v :
  forM_ opts (λ o, registerIfNotExists (mk_Desc k o [])) v = forM_ (entries k opts) registerIfNotExists v.
Proof.
  revert v. induction opts as [|o opts IH]; intros v; [done|]. cbn [forM_ entries fmap list_fmap].
  unfold mbind, M_bind. destruct (registerIfNotExists _ v) as [[] v']; [apply IH|done..].
Qed.

Lemma forM_app {A} (l1 l2 : list A) (body : A → M Vars unit) v :
  forM_ (l1 ++ l2) body v = (forM_ l1 body;; forM_ l2 body) v.
Proof.
  revert v. induction l1 as [|x l1 IH]; intros v; [done|]. cbn [app forM_]. rewrite M_bind_assoc.
  destruct (body x v) as [[] v'] eqn:E;
    [by rewrite !(M_bind_Ok _ _ _ _ _ E)|unfold mbind, M_bind; by rewrite E..].
Qed.

Lemma ifInitialized_entries k opts :
  eq_init (ifInitialized (forM_ opts (λ o, registerIfNotExists (mk_Desc k o []))))
    (forM_ (entries k opts) registerIfNotExists).
Proof. intros v Hv. unfold ifInitialized, get, mbind, M_bind. rewrite Hv. apply forM_entries. Qed.

Lemma sync_Register_eq n :
  eq_init (SyncMetrics.Register n)
    (forM_ (syncDescs (prefixOf n)) registerIfNotExists;; mret (mk_Metrics (prefixOf n))).
Proof.
  intros v Hv. unfold SyncMetrics.Register, syncDescs.
  transitivity ((forM_ (entries KHistogram (histogramOpts (prefixOf n))) registerIfNotExists;;
    (forM_ (entries KCounter (counterOpts (prefixOf n))) registerIfNotExists;;
     forM_ (entries KGauge (gaugeOpts (prefixOf n))) registerIfNotExists;;
     mret (mk_Metrics (prefixOf n)))) v).
  - revert v Hv. repeat apply eq_init_bind; try apply ifInitialized_entries; try apply initialized_registers. done.
  - unfold mbind, M_bind. rewrite forM_app. unfold mbind, M_bind. destruct (forM_ _ _ v) as [[] v1]; [|done..].
    rewrite forM_app. unfold mbind, M_bind. by destruct (forM_ _ _ v1) as [[] v2].
Qed.

Lemma eth_Register_eq n e :
  initialized (vars e) = true →
  EthMetrics.Register n e =
    onVars (forM_ (ethDescs (ethPrefixOf n)) registerIfNotExists) (mk_EthVars (ethPrefixOf n) (vars e)).
Proof.
  intros Hv. destruct e as [q v]. cbn [vars] in *.
  unfold EthMetrics.Register, ethDescs, onVars, zoom, modify, get. unfold mbind, M_bind.
  cbn beta iota delta [vars EthMetrics.Prefix]. rewrite forM_app. unfold mbind, M_bind. unfold RegisterCounters, registerCounterIfNotExists.
  rewrite ifInitialized_entries by done.
  pose proof (initialized_registers (entries KCounter (ethCounterOpts (ethPrefixOf n))) v Hv) as Hi.
  destruct (forM_ _ _ v) as [[] v1]; cbn beta iota delta [vars EthMetrics.Prefix snd] in *; [|done..].
  unfold RegisterHistograms, registerHistogramIfNotExists.
  by rewrite (ifInitialized_entries _ _ v1 Hi).
Qed.

Lemma api_Register_eq n : eq_init (ApiMetrics.Register n) (forM_ apiDescs registerIfNotExists).
Proof.
  intros v Hv. unfold ApiMetrics.Register, apiDescs. rewrite forM_app. revert v Hv.
  apply eq_init_bind; [apply ifInitialized_entries|apply initialized_registers|apply ifInitialized_entries].
Qed.
End Registrations.
