(* ===== verification/MetricsService.v ===== *)
(** * The metrics of the running service

    The three packages run together: the service registers metrics for its networks and
    updates them, in any order.  No sequence of these calls panics; a call of a
    synchronizer reaches the metric of its own network. *)
From Stdlib Require Import Ascii SpecFloat.
From S2P Require Import Prelude Metrics Invariants MetricsFacts.
From S2P Require Import SyncMetrics EthMetrics ApiMetrics MetricsUse MetricsTheorems.

(** ** The calls and their metrics *)

(** The metric of a call: its kind, the name after the prefix, and the text with which it
    is registered.  [FullSyncIterationTime] has the name of [FullL1SyncTime]. *)
Definition syncDescOf (call : MetricsInterface) : Desc :=
  match call with
  | CallLatestBlockSynced _ =>
      mk_Desc KGauge (optsOf LatestBlockSyncedName "[SYNCHRONIZER] latest block synced") []
  | CallLatestBlockRollupInfo _ =>
      mk_Desc KGauge (optsOf LatestBlockRollupInfoName "[SYNCHRONIZER] latest block rollup info") []
  | CallIncrementsPendingBridgesToClaim =>
      mk_Desc KGauge (optsOf CurrentPendingBridgesToClaimName "[SYNCHRONIZER] current pending deposits to claim") []
  | CallDecrementsPendingBridgesToClaim =>
      mk_Desc KGauge (optsOf CurrentPendingBridgesToClaimName "[SYNCHRONIZER] current pending deposits to claim") []
  | CallDepositAmount _ =>
      mk_Desc KHistogram (optsOf DepositAmountName "[SYNCHRONIZER] deposit amount") []
  | CallClaimAmount _ =>
      mk_Desc KHistogram (optsOf ClaimAmountName "[SYNCHRONIZER] claim amount") []
  | CallInitializationTime _ =>
      mk_Desc KHistogram (optsOf InitializationTimeName "[SYNCHRONIZER] initialization time") []
  | CallFullTrustedSyncTime _ =>
      mk_Desc KHistogram (optsOf FullTrustedSyncTimeName "[SYNCHRONIZER] full trusted state synchronization time") []
  | CallFullL1SyncTime _ =>
      mk_Desc KHistogram (optsOf FullL1SyncTimeName "[SYNCHRONIZER] full L1 synchronization time") []
  | CallFullSyncIterationTime _ =>
      mk_Desc KHistogram (optsOf FullSyncIterationTimeName "[SYNCHRONIZER] full L1 synchronization time") []
  | CallReadL1DataTime _ =>
      mk_Desc KHistogram (optsOf ReadL1DataTimeName "[SYNCHRONIZER] read L1 data time") []
  | CallProcessL1DataTime _ =>
      mk_Desc KHistogram (optsOf ProcessL1DataTimeName "[SYNCHRONIZER] process L1 data time") []
  | CallGetTrustedGerTime _ =>
      mk_Desc KHistogram (optsOf GetTrustedGerTimeName "[SYNCHRONIZER] get trusted GER time") []
  | CallGetTrustedExitRootsTime _ =>
      mk_Desc KHistogram (optsOf GetTrustedExitRootsTimeName "[SYNCHRONIZER] get trusted ExitRoots time") []
  | CallDepositCounter =>
      mk_Desc KCounter (optsOf DepositCounterName "[SYNCHRONIZER] count processed deposit events") []
  | CallClaimCounter =>
      mk_Desc KCounter (optsOf ClaimCounterName "[SYNCHRONIZER] count processed claim events") []
  | CallVerifyBatchCounter =>
      mk_Desc KCounter (optsOf VerifyBatchCounterName "[SYNCHRONIZER] count processed verify batch events") []
  | CallRemoveL2GERCounter =>
      mk_Desc KCounter (optsOf RemoveL2GERCounterName "[SYNCHRONIZER] count processed remove L2 GER events") []
  | CallL2GERCounter =>
      mk_Desc KCounter (optsOf L2GERCounterName "[SYNCHRONIZER] count processed L2 GER events") []
  | CallL1GERCounter =>
      mk_Desc KCounter (optsOf L1GERCounterName "[SYNCHRONIZER] count processed L1 GER events") []
  | CallReorgCounter =>
      mk_Desc KCounter (optsOf ReorgCounterName "[SYNCHRONIZER] count the number of reorgs") []
  | CallReorgedBlocksCounter =>
      mk_Desc KCounter (optsOf ReorgedBlockCounterName "[SYNCHRONIZER] count the reorged blocks") []
  | CallWrappedTokensCounter =>
      mk_Desc KCounter (optsOf WrappedTokensCounterName "[SYNCHRONIZER] count the wrapped tokens") []
  end.

Definition syncUpdate (call : MetricsInterface) : Update :=
  match call with
  | CallLatestBlockSynced blockNumber => Set_ (float64_of blockNumber)
  | CallLatestBlockRollupInfo blockNumber => Set_ (float64_of blockNumber)
  | CallIncrementsPendingBridgesToClaim => Inc
  | CallDecrementsPendingBridgesToClaim => Dec
  | CallDepositAmount amount => Observe (float64_of amount)
  | CallClaimAmount amount => Observe (float64_of amount)
  | CallInitializationTime lastProcessTime => Observe (inSeconds lastProcessTime)
  | CallFullTrustedSyncTime lastProcessTime => Observe (inSeconds lastProcessTime)
  | CallFullL1SyncTime lastProcessTime => Observe (inSeconds lastProcessTime)
  | CallFullSyncIterationTime lastProcessTime => Observe (inSeconds lastProcessTime)
  | CallReadL1DataTime lastProcessTime => Observe (inSeconds lastProcessTime)
  | CallProcessL1DataTime lastProcessTime => Observe (inSeconds lastProcessTime)
  | CallGetTrustedGerTime lastProcessTime => Observe (inSeconds lastProcessTime)
  | CallGetTrustedExitRootsTime lastProcessTime => Observe (inSeconds lastProcessTime)
  | CallDepositCounter => Inc
  | CallClaimCounter => Inc
  | CallVerifyBatchCounter => Inc
  | CallRemoveL2GERCounter => Inc
  | CallL2GERCounter => Inc
  | CallL1GERCounter => Inc
  | CallReorgCounter => Inc
  | CallReorgedBlocksCounter => Inc
  | CallWrappedTokensCounter => Inc
  end.

(** The calls of the event readers. *)
Inductive EthCall :=
| CallReadAndProcessAllEventsTime (lastProcessTime : Z)
| CallProcessAllEventTime (lastProcessTime : Z)
| CallProcessSingleEventTime (lastProcessTime : Z)
| CallGetEventsTime (lastProcessTime : Z)
| CallEventCounter.

Definition ethDescOf (call : EthCall) : Desc :=
  match call with
  | CallReadAndProcessAllEventsTime _ =>
      mk_Desc KHistogram (optsOf ReadAndProcessAllEventsTimeName "[ETHERMAN] read and process all event time") []
  | CallProcessAllEventTime _ =>
      mk_Desc KHistogram (optsOf ProcessAllEventTimeName "[ETHERMAN] process all event time") []
  | CallProcessSingleEventTime _ =>
      mk_Desc KHistogram (optsOf ProcessSingleEventTimeName "[ETHERMAN] process single event time") []
  | CallGetEventsTime _ =>
      mk_Desc KHistogram (optsOf GetEventsTimeName "[ETHERMAN] get L1 events time") []
  | CallEventCounter =>
      mk_Desc KCounter (optsOf EventCounterName "[ETHERMAN] count processed events") []
  end.

Definition ethUpdate (call : EthCall) : Update :=
  match call with
  | CallEventCounter => Inc
  | CallReadAndProcessAllEventsTime lastProcessTime | CallProcessAllEventTime lastProcessTime |
    CallProcessSingleEventTime lastProcessTime | CallGetEventsTime lastProcessTime => Observe (inSeconds
    lastProcessTime)
  end.

(** The calls of the API. *)
Inductive ApiCall :=
| CallCheckAPILatency (lastProcessTime : Z)
| CallGetBridgesLatency (lastProcessTime : Z)
| CallGetClaimsLatency (lastProcessTime : Z)
| CallGetProofLatency (lastProcessTime : Z)
| CallGetBridgeLatency (lastProcessTime : Z)
| CallGetTokenWrappedLatency (lastProcessTime : Z)
| CallGetProofByGERLatency (lastProcessTime : Z)
| CallGetPendingBridgesToClaimLatency (lastProcessTime : Z)
| CallCheckAPICounter
| CallGetBridgesCounter
| CallGetClaimsCounter
| CallGetProofCounter
| CallGetBridgeCounter
| CallGetTokenWrappedCounter
| CallGetProofByGERCounter
| CallGetPendingBridgesToClaimCounter.

Definition apiMetricOf (call : ApiCall) : Kind * string :=
  match call with
  | CallCheckAPILatency _ => (KHistogram, CheckAPILatencyName)
  | CallGetBridgesLatency _ => (KHistogram, GetBridgesLatencyName)
  | CallGetClaimsLatency _ => (KHistogram, GetClaimsLatencyName)
  | CallGetProofLatency _ => (KHistogram, GetProofLatencyName)
  | CallGetBridgeLatency _ => (KHistogram, GetBridgeLatencyName)
  | CallGetTokenWrappedLatency _ => (KHistogram, GetTokenWrappedLatencyName)
  | CallGetProofByGERLatency _ => (KHistogram, GetProofByGERLatencyName)
  | CallGetPendingBridgesToClaimLatency _ => (KHistogram, GetPendingBridgesToClaimLatencyName)
  | CallCheckAPICounter => (KCounter, CheckAPICounterName)
  | CallGetBridgesCounter => (KCounter, GetBridgesCounterName)
  | CallGetClaimsCounter => (KCounter, GetClaimsCounterName)
  | CallGetProofCounter => (KCounter, GetProofCounterName)
  | CallGetBridgeCounter => (KCounter, GetBridgeCounterName)
  | CallGetTokenWrappedCounter => (KCounter, GetTokenWrappedCounterName)
  | CallGetProofByGERCounter => (KCounter, GetProofByGERCounterName)
  | CallGetPendingBridgesToClaimCounter => (KCounter, GetPendingBridgesToClaimCounterName)
  end.

Definition apiUpdate (call : ApiCall) : Update :=
  match call with
  | CallCheckAPICounter | CallGetBridgesCounter | CallGetClaimsCounter | CallGetProofCounter |
    CallGetBridgeCounter | CallGetTokenWrappedCounter | CallGetProofByGERCounter |
    CallGetPendingBridgesToClaimCounter => Inc
  | CallCheckAPILatency lastProcessTime | CallGetBridgesLatency lastProcessTime | CallGetClaimsLatency
    lastProcessTime | CallGetProofLatency lastProcessTime | CallGetBridgeLatency lastProcessTime |
    CallGetTokenWrappedLatency lastProcessTime | CallGetProofByGERLatency lastProcessTime |
    CallGetPendingBridgesToClaimLatency lastProcessTime => Observe (inSeconds lastProcessTime)
  end.

Section Service.
Context `{PL : PrometheusLaws}.

Definition ethInvoke (call : EthCall) : M EthVars unit :=
  match call with
  | CallReadAndProcessAllEventsTime t => ReadAndProcessAllEventsTime t
  | CallProcessAllEventTime t => ProcessAllEventTime t
  | CallProcessSingleEventTime t => ProcessSingleEventTime t
  | CallGetEventsTime t => GetEventsTime t
  | CallEventCounter => EventCounter
  end.

Definition apiInvoke (call : ApiCall) : M Vars unit :=
  match call with
  | CallCheckAPILatency t => CheckAPILatency t
  | CallGetBridgesLatency t => GetBridgesLatency t
  | CallGetClaimsLatency t => GetClaimsLatency t
  | CallGetProofLatency t => GetProofLatency t
  | CallGetBridgeLatency t => GetBridgeLatency t
  | CallGetTokenWrappedLatency t => GetTokenWrappedLatency t
  | CallGetProofByGERLatency t => GetProofByGERLatency t
  | CallGetPendingBridgesToClaimLatency t => GetPendingBridgesToClaimLatency t
  | CallCheckAPICounter => CheckAPICounter
  | CallGetBridgesCounter => GetBridgesCounter
  | CallGetClaimsCounter => GetClaimsCounter
  | CallGetProofCounter => GetProofCounter
  | CallGetBridgeCounter => GetBridgeCounter
  | CallGetTokenWrappedCounter => GetTokenWrappedCounter
  | CallGetProofByGERCounter => GetProofByGERCounter
  | CallGetPendingBridgesToClaimCounter => GetPendingBridgesToClaimCounter
  end.

Lemma invoke_eq m call :
  invoke m call =
  updateMetric (lookupMetric (desc_kind (syncDescOf call)) (prefix m +:+ nameOf (syncDescOf call)))
    (syncUpdate call).
Proof. by destruct call. Qed.

Lemma ethInvoke_eq call e :
  ethInvoke call e =
  onVars (updateMetric (lookupMetric (desc_kind (ethDescOf call)) (EthMetrics.Prefix e +:+ nameOf (ethDescOf call)))
    (ethUpdate call)) e.
Proof. by destruct call. Qed.

Lemma apiInvoke_eq call :
  apiInvoke call = updateMetric (lookupMetric (fst (apiMetricOf call)) (snd (apiMetricOf call))) (apiUpdate call).
Proof. by destruct call. Qed.

Lemma syncDescOf_table call : syncDescOf call ∈ syncTable.
Proof. destruct call; apply (bool_decide_unpack _); vm_compute; exact I. Qed.
Lemma ethDescOf_table call : ethDescOf call ∈ ethDescs "".
Proof. destruct call; apply (bool_decide_unpack _); vm_compute; exact I. Qed.
Lemma apiMetricOf_table call :
  ∃ d, d ∈ apiDescs ∧ desc_kind d = fst (apiMetricOf call) ∧ nameOf d = snd (apiMetricOf call).
Proof.
  assert (Exists (λ d, desc_kind d = fst (apiMetricOf call) ∧ nameOf d = snd (apiMetricOf call)) apiDescs) as He.
  { destruct call; apply (bool_decide_unpack _); vm_compute; exact I. }
  by apply Exists_exists in He.
Qed.

(** ** Updates *)
Lemma ready_withProm v p : ready v → same_registry (prom v) p → ready (withProm p v).
Proof.
  intros [Hi Ha Hf] Hs. pose proof Hs as (_ & Hu & Hd). split.
  - by rewrite initialized_withProm.
  - by apply agrees_same.
  - intros d Hp. unfold stored. rewrite mapOf_withProm, prom_withProm, Hu, Hd. by apply Hf.
Qed.

Lemma updateMetric_some k n u v c :
  initialized v = true → mapOf k v !! n = Some c →
  updateMetric (lookupMetric k n) u v = call_prom_ (Apply c u) v.
Proof.
  intros Hi Hc. unfold updateMetric, lookupMetric, ifInitialized, get, mbind, M_bind.
  rewrite !Hi. cbn beta iota delta [mret M_ret]. by rewrite Hc.
Qed.

Lemma updateMetric_none k n u v :
  (initialized v = true → mapOf k v !! n = None) → updateMetric (lookupMetric k n) u v = (Ok tt, v).
Proof.
  intros Hc. unfold updateMetric, lookupMetric, ifInitialized, get, mbind, M_bind.
  destruct (initialized v) eqn:Hi; [|done]. rewrite ?Hi. cbn beta iota delta [mret M_ret]. by rewrite Hc.
Qed.

Lemma updateMetric_ready k n u v :
  ready v → applicable k u = true →
  ∃ p, updateMetric (lookupMetric k n) u v = (Ok tt, withProm p v) ∧ same_registry (prom v) p.
Proof.
  intros [Hi Ha Hf] Hu. destruct (mapOf k v !! n) as [c|] eqn:Hc.
  - rewrite (updateMetric_some _ _ _ _ _ Hi Hc).
    destruct (Apply_total c u (prom v)) as [p Hp]; [by rewrite (agrees_kind _ Ha _ _ _ Hc)|].
    exists p. split; [|by eapply Apply_law]. unfold call_prom_, call_prom. by rewrite Hp.
  - rewrite updateMetric_none by done. exists (prom v). split; [by destruct v|]. done.
Qed.

(** ** The running service *)
Inductive Action :=
| RegisterSync (networkID : Z)
| RegisterEth (networkID : Z)
| RegisterApi
| CallSync (networkID : Z) (call : MetricsInterface)
| CallEth (call : EthCall)
| CallApi (call : ApiCall).

Definition act (a : Action) : M EthVars unit :=
  match a with
  | RegisterSync n => onVars (SyncMetrics.Register n);; mret tt
  | RegisterEth n => EthMetrics.Register n
  | RegisterApi => onVars (ApiMetrics.Register 0)
  | CallSync n call => onVars (invoke (mk_Metrics (prefixOf n)) call)
  | CallEth call => ethInvoke call
  | CallApi call => onVars (apiInvoke call)
  end.

(** [metrics.Init()] is called when the metrics are enabled. *)
Definition service (enabled : bool) (acts : list Action) : M EthVars unit :=
  (if enabled then onVars Init else mret tt) ;; forM_ acts act.

Definition startState (p0 : Prom) : EthVars := mk_EthVars "" (zeroVars p0).

Definition validAction (a : Action) : Prop :=
  match a with RegisterSync n | RegisterEth n | CallSync n _ => 0 ≤ n < 2 ^ 32 | _ => True end.

(** What an action stores, and the prefix it leaves. *)
Definition actDescs (a : Action) : list Desc :=
  match a with
  | RegisterSync n => prefixed (prefixOf n) <$> syncTable
  | RegisterEth n => prefixed (ethPrefixOf n) <$> ethDescs ""
  | RegisterApi => apiDescs
  | _ => []
  end.
Definition nextPrefix (q : string) (a : Action) : string :=
  match a with RegisterEth n => ethPrefixOf n | _ => q end.

(** No other code of the process uses the names of the service. *)
Definition serviceName (s : string) : bool :=
  String.prefix "synchronizer_networkID_" s || String.prefix "etherman_networkID_" s || String.prefix "api_" s.
Definition clean (p : Prom) : Prop :=
  ∀ s, serviceName s = true → s ∉ used p ∧ (dims p !! s) = None.

Lemma firsts_syncDescs p : firsts [] (syncDescs p) = prefixed p <$> syncTable.
Proof. rewrite syncDescs_prefixed. apply (firsts_prefixed p []). Qed.
Lemma firsts_ethDescs p : firsts [] (ethDescs p) = prefixed p <$> ethDescs "".
Proof. rewrite ethDescs_prefixed, (firsts_prefixed p []). f_equal. Qed.
Lemma firsts_apiDescs : firsts [] apiDescs = apiDescs.
Proof. by vm_compute. Qed.

Lemma actDescs_program a : validAction a → Forall programDesc (actDescs a).
Proof.
  intros Ha. apply Forall_forall. intros d Hd. destruct a; simpl in Ha; try (by apply elem_of_nil in Hd).
  - apply list_elem_of_fmap in Hd as (e & -> & He). apply pd_sync; [lia|done].
  - apply list_elem_of_fmap in Hd as (e & -> & He). apply pd_eth; [lia|done].
  - by apply pd_api.
Qed.

(** An update of the service changes values only. *)
Lemma act_update k n u e :
  ready (vars e) → applicable k u = true →
  ∃ e', onVars (updateMetric (lookupMetric k n) u) e = (Ok tt, e') ∧ ready (vars e') ∧
    (∀ d, stored (vars e') d ↔ d ∈ @nil Desc ∨ stored (vars e) d) ∧ EthMetrics.Prefix e' = EthMetrics.Prefix e.
Proof.
  intros Hr Hu. destruct (updateMetric_ready k n u _ Hr Hu) as (p & E & Hs).
  exists (mk_EthVars (EthMetrics.Prefix e) (withProm p (vars e))). unfold onVars, zoom. rewrite E.
  split; [done|]. split; [by apply ready_withProm|]. split; [|done].
  intros d. unfold stored. cbn [vars]. rewrite mapOf_withProm. rewrite elem_of_nil. tauto.
Qed.

Lemma act_spec a e :
  ready (vars e) → validAction a →
  ∃ e', act a e = (Ok tt, e') ∧ ready (vars e') ∧
    (∀ d, stored (vars e') d ↔ d ∈ actDescs a ∨ stored (vars e) d) ∧
    EthMetrics.Prefix e' = nextPrefix (EthMetrics.Prefix e) a.
Proof.
  intros Hr Ha. pose proof (actDescs_program a Ha) as Hp. pose proof (ready_initialized _ Hr) as Hi.
  destruct a as [n|n| |n call|call|call]; cbn [act actDescs nextPrefix] in *.
  - rewrite <- firsts_syncDescs in Hp |- *.
    destruct (register_descs _ [] _ Hr Hp) as (v' & E & Hr' & Hst); [constructor|].
    exists (mk_EthVars (EthMetrics.Prefix e) v'). split; [|done].
    unfold onVars, zoom, mbind, M_bind. rewrite (sync_Register_eq n _ Hi). unfold mbind, M_bind. by rewrite E.
  - rewrite <- firsts_ethDescs in Hp |- *.
    destruct (register_descs _ [] _ Hr Hp) as (v' & E & Hr' & Hst); [constructor|].
    exists (mk_EthVars (ethPrefixOf n) v'). split; [|done].
    rewrite eth_Register_eq by done. unfold onVars, zoom. cbn [vars]. by rewrite E.
  - rewrite <- firsts_apiDescs in Hp |- *.
    destruct (register_descs _ [] _ Hr Hp) as (v' & E & Hr' & Hst); [constructor|].
    exists (mk_EthVars (EthMetrics.Prefix e) v'). split; [|done].
    unfold onVars, zoom. rewrite (api_Register_eq 0 _ Hi). by rewrite E.
  - rewrite invoke_eq. apply act_update; [done|]. by destruct call.
  - rewrite ethInvoke_eq. apply act_update; [done|]. by destruct call.
  - rewrite apiInvoke_eq. apply act_update; [done|]. by destruct call.
Qed.

Lemma acts_spec acts e :
  ready (vars e) → Forall validAction acts →
  ∃ e', forM_ acts act e = (Ok tt, e') ∧ ready (vars e') ∧
    (∀ d, stored (vars e') d ↔ Exists (λ a, d ∈ actDescs a) acts ∨ stored (vars e) d) ∧
    EthMetrics.Prefix e' = foldl nextPrefix (EthMetrics.Prefix e) acts.
Proof.
  revert e. induction acts as [|a acts IH]; intros e Hr Hv.
  { exists e. split; [done|]. split; [done|]. split; [|done]. intros d. rewrite Exists_nil. tauto. }
  apply Forall_cons in Hv as [Ha Hv]. destruct (act_spec a e Hr Ha) as (e1 & E1 & Hr1 & Hs1 & Hq1).
  destruct (IH e1 Hr1 Hv) as (e2 & E2 & Hr2 & Hs2 & Hq2).
  exists e2. cbn [forM_ foldl]. rewrite (M_bind_Ok _ _ _ _ _ E1), <- Hq1. split; [done|]. split; [done|].
  split; [|done]. intros d. rewrite Hs2, Hs1, Exists_cons. tauto.
Qed.

Lemma prefix_append p s : String.prefix p (p +:+ s) = true.
Proof.
  induction p as [|c p IH]; [by destruct s|]. change (String.String c p +:+ s) with (String.String c (p +:+ s)).
  simpl. by destruct (ascii_dec c c).
Qed.

Lemma programDesc_serviceName d : programDesc d → serviceName (nameOf d) = true.
Proof.
  unfold serviceName. intros [n e Hn He|n e Hn He|e He].
  - unfold prefixed, prefixOf. cbn [desc_opts Name]. by rewrite append_assoc, prefix_append.
  - unfold prefixed, ethPrefixOf. cbn [desc_opts Name]. by rewrite append_assoc, prefix_append, orb_true_r.
  - assert (Forall (λ d, String.prefix "api_" (nameOf d) = true) apiDescs) as Hall.
    { apply (bool_decide_unpack _). vm_compute. exact I. }
    rewrite Forall_forall in Hall. by rewrite (Hall e He), orb_true_r.
Qed.

Lemma ready_Init p0 : clean p0 → ready (mk_Vars true ∅ ∅ ∅ ∅ ∅ ∅ p0).
Proof.
  intros Hc. split; [done|apply agrees_empty|]. intros d Hd. right. by apply Hc, programDesc_serviceName.
Qed.

Lemma service_spec p0 acts :
  clean p0 → Forall validAction acts →
  ∃ e', service true acts (startState p0) = (Ok tt, e') ∧ ready (vars e') ∧
    (∀ d, stored (vars e') d ↔ Exists (λ a, d ∈ actDescs a) acts) ∧
    EthMetrics.Prefix e' = foldl nextPrefix ""%string acts.
Proof.
  intros Hc Hv. destruct (acts_spec acts (mk_EthVars "" (mk_Vars true ∅ ∅ ∅ ∅ ∅ ∅ p0))) as (e' & E & Hr & Hs & Hq);
    [by apply ready_Init|done|].
  exists e'. split; [exact E|]. split; [done|]. split; [|done]. intros d. rewrite Hs. split; [|by left].
  intros [|(c & Hl & _)]; [done|]. destruct (desc_kind d); simpl in Hl; by rewrite lookup_empty in Hl.
Qed.

(** Without [Init] nothing is touched but the prefix of the event readers. *)
Lemma act_disabled a e :
  initialized (vars e) = false → ∃ e', act a e = (Ok tt, e') ∧ vars e' = vars e.
Proof.
  intros Hi. destruct e as [q v]. cbn [vars] in Hi.
  destruct a as [n|n| |n call|call|call]; cbn [act].
  4: rewrite invoke_eq. 5: rewrite ethInvoke_eq. 6: rewrite apiInvoke_eq.
  4-6: exists (mk_EthVars q v); (split; [|done]); unfold onVars, zoom; cbn [vars];
    rewrite updateMetric_none by (rewrite Hi; discriminate); done.
  1: exists (mk_EthVars q v). 2: exists (mk_EthVars (ethPrefixOf n) v). 3: exists (mk_EthVars q v).
  1-3: split; [|done]; unfold onVars, zoom, SyncMetrics.Register, EthMetrics.Register, ApiMetrics.Register,
    RegisterHistograms, RegisterCounters, RegisterGauges, ifInitialized, onVars, zoom, modify, get, mbind, M_bind;
    cbn beta iota delta [vars EthMetrics.Prefix]; rewrite ?Hi;
    cbn beta iota delta [vars EthMetrics.Prefix mret M_ret]; rewrite ?Hi;
    cbn beta iota delta [vars EthMetrics.Prefix mret M_ret]; rewrite ?Hi; done.
Qed.

Lemma acts_disabled acts e :
  initialized (vars e) = false → ∃ e', forM_ acts act e = (Ok tt, e') ∧ vars e' = vars e.
Proof.
  revert e. induction acts as [|a acts IH]; intros e Hi; [by exists e|].
  destruct (act_disabled a e Hi) as (e1 & E1 & Hv1). cbn [forM_]. rewrite (M_bind_Ok _ _ _ _ _ E1).
  destruct (IH e1) as (e2 & E2 & Hv2); [by rewrite Hv1|]. exists e2. split; [done|]. by rewrite Hv2.
Qed.

(** A collector of the service is in the maps when it was asked for, and only then. *)
Lemma stored_lookup v d c :
  ready v → programDesc d → mapOf (desc_kind d) v !! nameOf d = Some c → stored v d.
Proof.
  intros Hr Hd Hl. destruct (ready_free _ Hr d Hd) as [|[Hu _]]; [done|].
  destruct Hu. by eapply agrees_used; [apply Hr|].
Qed.

Lemma requested_sync acts n call :
  Forall validAction acts → 0 ≤ n < 2 ^ 32 →
  Exists (λ a, prefixed (prefixOf n) (syncDescOf call) ∈ actDescs a) acts ↔ RegisterSync n ∈ acts.
Proof.
  intros Hv Hn. rewrite Exists_exists. split; [intros (a & Ha & Hd)|intros Ha; exists (RegisterSync n)].
  - rewrite Forall_forall in Hv. specialize (Hv a Ha).
    destruct a as [n'|n'| | | |]; cbn [actDescs] in Hd; try (by apply elem_of_nil in Hd).
    + apply list_elem_of_fmap in Hd as (d & Heq & _). apply (f_equal (λ d, nameOf d)) in Heq.
      cbn [prefixed desc_opts Name] in Heq. apply prefixOf_inj in Heq as [-> _]; [done|lia|simpl in Hv; lia].
    + apply list_elem_of_fmap in Hd as (d & Heq & _). apply (f_equal (λ d, headChar (nameOf d))) in Heq. discriminate Heq.
    + apply api_head in Hd. discriminate Hd.
  - split; [done|]. cbn [actDescs]. apply list_elem_of_fmap_2, syncDescOf_table.
Qed.

(** A call of a synchronizer in a state of the service. *)
Lemma sync_call_reaches acts v n call :
  Forall validAction acts → 0 ≤ n < 2 ^ 32 → ready v →
  (∀ d, stored v d ↔ Exists (λ a, d ∈ actDescs a) acts) →
  (RegisterSync n ∈ acts →
   ∃ c, registered (prom v) c ∧ origin c = prefixed (prefixOf n) (syncDescOf call) ∧
     invoke (mk_Metrics (prefixOf n)) call v = call_prom_ (Apply c (syncUpdate call)) v) ∧
  (RegisterSync n ∉ acts → invoke (mk_Metrics (prefixOf n)) call v = (Ok tt, v)).
Proof.
  intros Hv Hn Hr Hs. specialize (Hs (prefixed (prefixOf n) (syncDescOf call))).
  rewrite requested_sync in Hs by done. rewrite invoke_eq. split; intros Ha.
  - apply Hs in Ha as (c & Hl & Ho). exists c. split; [by eapply agrees_registered; [apply Hr|]|].
    split; [done|]. apply updateMetric_some; [apply Hr|exact Hl].
  - apply updateMetric_none. intros _. apply eq_None_not_Some. intros [c Hl]. apply Ha, Hs.
    eapply stored_lookup; [done| |exact Hl]. apply pd_sync; [lia|apply syncDescOf_table].
Qed.

(** C35: no sequence of registrations and updates of the three packages panics, for any
    networks and in any order, when no other code of the process registers their names.
    With the metrics enabled, a call of the synchronizer of a network that registered is
    afterwards exactly the update of the metric of that network that is registered in
    Prometheus under the name and the text of the call, and of a network that did not
    register it changes nothing.  With the metrics disabled neither the variables of the
    package nor Prometheus change. *)
Theorem service_metrics p0 acts :
  clean p0 → Forall validAction acts →
  (∃ e', service true acts (startState p0) = (Ok tt, e') ∧
     ∀ n call, 0 ≤ n < 2 ^ 32 →
       (RegisterSync n ∈ acts →
        ∃ c, registered (prom (vars e')) c ∧ origin c = prefixed (prefixOf n) (syncDescOf call) ∧
          invoke (mk_Metrics (prefixOf n)) call (vars e') = call_prom_ (Apply c (syncUpdate call)) (vars e')) ∧
       (RegisterSync n ∉ acts → invoke (mk_Metrics (prefixOf n)) call (vars e') = (Ok tt, vars e'))) ∧
  (∃ e', service false acts (startState p0) = (Ok tt, e') ∧ vars e' = zeroVars p0).
Proof.
  intros Hc Hv. split.
  - destruct (service_spec p0 acts Hc Hv) as (e' & E & Hr & Hs & _). exists e'. split; [done|].
    intros n call Hn. by apply sync_call_reaches.
  - destruct (acts_disabled acts (startState p0)) as (e' & E & Hz); [done|]. exists e'. split; [exact E|done].
Qed.

(** The two durations of a pass are observed by one histogram. *)
Lemma iteration_time_shared m t :
  invoke m (CallFullSyncIterationTime t) = invoke m (CallFullL1SyncTime t) ∧
  Forall (λ d, Help (desc_opts d) ≠ "[SYNCHRONIZER] full synchronization iteration time"%string) syncTable.
Proof. split; [done|]. apply (bool_decide_unpack _). vm_compute. exact I. Qed.

(** Every event reader updates the metrics of the network that was registered last. *)
Lemma eth_call_last p0 acts acts' n e' call :
  clean p0 → Forall validAction (acts ++ RegisterEth n :: acts') →
  (∀ n', RegisterEth n' ∉ acts') →
  service true (acts ++ RegisterEth n :: acts') (startState p0) = (Ok tt, e') →
  ∃ c, origin c = prefixed (ethPrefixOf n) (ethDescOf call) ∧
    ethInvoke call e' = onVars (call_prom_ (Apply c (ethUpdate call))) e'.
Proof.
  intros Hc Hv Hlast E. destruct (service_spec p0 _ Hc Hv) as (e & E' & Hr & Hs & Hq).
  rewrite E in E'. injection E' as <-.
  assert (EthMetrics.Prefix e' = ethPrefixOf n) as HP.
  { rewrite Hq, foldl_app. cbn [foldl nextPrefix]. generalize (ethPrefixOf n) as q. clear -Hlast.
    induction acts' as [|a acts' IH]; intros q; [done|]. cbn [foldl].
    destruct a; cbn [nextPrefix]; try (apply IH; intros n'' Hin; by apply (Hlast n''); right).
    destruct (Hlast networkID). by left. }
  destruct (Hs (prefixed (ethPrefixOf n) (ethDescOf call))) as [_ (c & Hl & Ho)].
  { apply Exists_exists. exists (RegisterEth n). split; [set_solver|].
    apply list_elem_of_fmap_2, ethDescOf_table. }
  exists c. split; [done|]. rewrite ethInvoke_eq, HP. unfold onVars, zoom.
  by rewrite (updateMetric_some _ _ _ _ c (ready_initialized _ Hr) Hl).
Qed.

(** Without the registration of the API, which the service never calls, the calls of the
    endpoints change nothing. *)
Lemma api_call_unregistered p0 acts e' call :
  clean p0 → Forall validAction acts → RegisterApi ∉ acts →
  service true acts (startState p0) = (Ok tt, e') →
  apiInvoke call (vars e') = (Ok tt, vars e').
Proof.
  intros Hc Hv Ha E. destruct (service_spec p0 acts Hc Hv) as (e & E' & Hr & Hs & _).
  rewrite E in E'. injection E' as <-. rewrite apiInvoke_eq. apply updateMetric_none. intros _.
  destruct (apiMetricOf_table call) as (d & Hd & <- & <-).
  apply eq_None_not_Some. intros [c Hl]. apply stored_lookup in Hl; [|done|by apply pd_api].
  apply Hs, Exists_exists in Hl as (a & Hin & Hda).
  destruct a; cbn [actDescs] in Hda; try (by apply elem_of_nil in Hda); [| |done].
  all: apply list_elem_of_fmap in Hda as (d' & -> & _); apply api_head in Hd; discriminate Hd.
Qed.
End Service.
