(* ===== verification/MetricsWitness.v ===== *)
(** * A registry, and runs of the metrics on it

    An instance of [Prometheus] that satisfies its laws: the registered collectors by name,
    the labels and help texts ever used, and a log of the updates; with it the theorems
    about the metrics are applied to concrete runs. *)
From Stdlib Require Import Ascii SpecFloat.
From S2P Require Import Prelude Metrics Invariants MetricsFacts.
From S2P Require Import SyncMetrics EthMetrics ApiMetrics MetricsUse MetricsTheorems MetricsService.

Record ToyProm := mk_ToyProm {
  tp_reg : gmap string (nat * Desc);
  tp_dims : gmap string (list string * string);
  tp_log : list ((nat * Desc) * Update);
}.

Definition toyName (c : nat * Desc) : string := Name (desc_opts (snd c)).
Definition toyDims (c : nat * Desc) : list string * string := (desc_labels (snd c), Help (desc_opts (snd c))).

(** A new collector differs from the one that is registered under its name. *)
Definition toyNew (d : Desc) (p : ToyProm) : option ((nat * Desc) * ToyProm) :=
  let id := match tp_reg p !! Name (desc_opts d) with Some (i, _) => S i | None => O end in
  Some ((id, d), p).

Definition toyRegister (c : nat * Desc) (p : ToyProm) : option ToyProm :=
  match tp_reg p !! toyName c with
  | Some _ => None
  | None =>
      if decide (tp_dims p !! toyName c = None ∨ tp_dims p !! toyName c = Some (toyDims c)) then
        Some (mk_ToyProm (<[toyName c := c]> (tp_reg p)) (<[toyName c := toyDims c]> (tp_dims p)) (tp_log p))
      else None
  end.

Definition toyUnregister (c : nat * Desc) (p : ToyProm) : ToyProm * bool :=
  match tp_reg p !! toyName c with
  | Some _ => (mk_ToyProm (delete (toyName c) (tp_reg p)) (tp_dims p) (tp_log p), true)
  | None => (p, false)
  end.

#[global] Instance toyPrometheus : Prometheus := {|
  Collector := nat * Desc;
  Prom := ToyProm;
  NewCollector := toyNew;
  MustRegister := toyRegister;
  Unregister := toyUnregister;
  WithLabelValues c ls p := Some (c, p);
  Apply c u p := Some (mk_ToyProm (tp_reg p) (tp_dims p) (tp_log p ++ [(c, u)]));
|}.

Definition toyRegistered (p : ToyProm) (c : nat * Desc) : Prop := tp_reg p !! toyName c = Some c.

Lemma toyNew_fresh d p c p' : toyNew d p = Some (c, p') → snd c = d ∧ ¬ toyRegistered p c ∧ p' = p.
Proof.
  intros [= <- <-]. split; [done|]. split; [|done]. unfold toyRegistered, toyName. simpl.
  destruct (tp_reg p !! _) as [[i d']|]; [|done]. intros [= Hi _]. lia.
Qed.

Lemma toyRegister_law c p p' :
  toyRegister c p = Some p' →
  (∀ c', toyRegistered p' c' ↔ c' = c ∨ toyRegistered p c') ∧
  dom (tp_reg p') = {[toyName c]} ∪ dom (tp_reg p) ∧ tp_dims p' = <[toyName c := toyDims c]> (tp_dims p).
Proof.
  unfold toyRegister. destruct (tp_reg p !! toyName c) eqn:E; [done|]. case_decide; [|done].
  intros [= <-]. split; [|split; [apply dom_insert_L|done]]. intros c'. unfold toyRegistered. simpl.
  destruct (decide (toyName c' = toyName c)) as [Hn|Hn].
  - rewrite Hn, lookup_insert_eq, E. naive_solver.
  - rewrite lookup_insert_ne by done. naive_solver.
Qed.

Lemma toyUnregister_law c p :
  toyRegistered p c →
  ∃ p', toyUnregister c p = (p', true) ∧ (∀ c', toyRegistered p' c' ↔ c' ≠ c ∧ toyRegistered p c') ∧
    dom (tp_reg p') = dom (tp_reg p) ∖ {[toyName c]} ∧ tp_dims p' = tp_dims p.
Proof.
  unfold toyRegistered, toyUnregister. intros E. rewrite E. eexists. split; [done|]. simpl.
  split; [|split; [apply dom_delete_L|done]]. intros c'.
  destruct (decide (toyName c' = toyName c)) as [Hn|Hn].
  - rewrite Hn, lookup_delete_eq, E. naive_solver.
  - rewrite lookup_delete_ne by done. naive_solver.
Qed.

#[global] Instance toyLaws : PrometheusLaws.
Proof.
  refine {| origin := λ c : @Collector toyPrometheus, snd c; registered := toyRegistered;
    used := λ p : @Prom toyPrometheus, dom (tp_reg p); dims := tp_dims |}.
  - intros d p _. by do 2 eexists.
  - intros d p c p' (Hd & Hr & ->)%toyNew_fresh. by repeat split.
  - intros c p _ _ Hu Hd. cbn. unfold toyRegister.
    rewrite (proj1 (not_elem_of_dom _ _) Hu). case_decide as Hn; [done|]. destruct Hn.
    apply elem_of_cons in Hd as [|Hd%list_elem_of_singleton]; auto.
  - intros c p _ Hu. cbn. unfold toyRegister. apply elem_of_dom in Hu as [c' Hc].
    unfold toyName. by rewrite Hc.
  - intros c p p' _. apply toyRegister_law.
  - intros c p _. apply toyUnregister_law.
  - intros c ls p c' p' [= <- <-]. by repeat split.
  - intros c u p p' [= <-]. by repeat split.
  - intros c u p _. by eexists.
Defined.

Definition emptyProm : @Prom toyPrometheus := mk_ToyProm ∅ ∅ [].

Lemma emptyProm_clean : clean emptyProm.
Proof.
  intros s _. cbn. split; [|apply lookup_empty]. rewrite dom_empty_L. apply not_elem_of_empty.
Qed.

(** ** A gauge *)
Definition toyOp : Op := OpRegisterGauges [optsOf "blocks" "blocks seen"].
Definition gaugeState : Vars := snd (exec toyOp (snd (exec OpInit (zeroVars emptyProm)))).

Lemma gaugeState_reachable : reachable emptyProm gaugeState.
Proof.
  apply (reach_exec _ (snd (exec OpInit (zeroVars emptyProm))) toyOp (Ok tt)); [|apply Forall_singleton|reflexivity].
  - apply (reach_exec _ (zeroVars emptyProm) OpInit (Ok tt)); [apply reach_start|constructor|reflexivity].
  - by apply plainDesc_intro.
Qed.

Lemma package_agrees_witness :
  is_Some (mapOf KGauge gaugeState !! "blocks"%string) ∧
  ∃ v', unregisterIfExists KGauge "blocks" gaugeState = (Ok tt, v') ∧ mapOf KGauge v' !! "blocks"%string = None.
Proof.
  split; [vm_compute; by eexists|].
  destruct (proj2 (package_agrees emptyProm gaugeState gaugeState_reachable KGauge "blocks"%string))
    as (v' & E & Hn & _).
  by exists v'.
Defined.

(** ** Two networks *)
Definition twoNetworks : list Action :=
  [ RegisterEth 0; RegisterEth 1; RegisterSync 0; CallSync 0 CallDepositCounter; CallEth CallEventCounter;
    RegisterSync 1; RegisterSync 0; CallSync 1 (CallLatestBlockSynced 1200); CallApi (CallGetProofLatency 2500000) ].

Lemma twoNetworks_valid : Forall validAction twoNetworks.
Proof. repeat (apply Forall_cons; split; [cbn; lia || done|]). constructor. Qed.

Definition twoNetworksEnd : EthVars := snd (service true twoNetworks (startState emptyProm)).

Lemma service_metrics_witness :
  ∃ e' c, service true twoNetworks (startState emptyProm) = (Ok tt, e') ∧
    origin c = prefixed (prefixOf 1) (syncDescOf CallClaimCounter) ∧
    invoke (mk_Metrics (prefixOf 1)) CallClaimCounter (vars e') =
    call_prom_ (Apply c (syncUpdate CallClaimCounter)) (vars e').
Proof.
  destruct (service_metrics emptyProm twoNetworks emptyProm_clean twoNetworks_valid) as [(e' & E & Hcalls) _].
  destruct (Hcalls 1 CallClaimCounter ltac:(lia)) as [Hreg _].
  destruct Hreg as (c & _ & Ho & Ec); [by do 5 right; left|].
  exists e', c. split; [exact E|]. split; [exact Ho|exact Ec].
Defined.

(** The updates of the run, by name: the event of network 0 is counted for network 1, and
    the latency of the API is lost. *)
Example twoNetworks_log :
  ((λ x, (toyName (fst x), snd x)) <$> tp_log (prom (vars twoNetworksEnd))) =
  [ ("synchronizer_networkID_0_processed_deposit_counter"%string, Inc);
    ("etherman_networkID_1_processed_events_counter"%string, Inc);
    ("synchronizer_networkID_1_latest_block_synced"%string, Set_ (S754_finite false 5277655813324800 (-42))) ].
Proof. vm_compute. reflexivity. Qed.
