(* ===== verification/Log.v ===== *)
(** * The logger (log/log.go)

    A wrapper of the sugared logger of zap, with a root logger that is made when it is
    first needed.  zap and tracerr are parameters.  The functions of the package call the
    methods of the root logger, which call zap: zap is told to skip these frames, so that
    an entry names the code that logged it. *)
From Stdlib Require Import Ascii.
From S2P Require Import Prelude.



(** ** The libraries *)

(** An argument of a logging function: an error or any other value, with its text. *)
Inductive Arg :=
| ArgError (e : error)
| ArgValue (text : string).

(** A frame of a stack trace of tracerr. *)
Record Frame := mk_Frame { Path : string; Line : Z; Func : string }.

Inductive Level := DebugLevel | InfoLevel | WarnLevel | ErrorLevel | FatalLevel.

Record ZapConfig := mk_ZapConfig {
  zc_Production : bool;
  zc_ColorLevels : bool;
  zc_Level : Level;
  zc_OutputPaths : list string;
  zc_InitialFields : list (string * Arg);
}.

(** [l.x.Error(args...)], [l.x.Errorf(template, args...)], [l.x.Errorw(msg, kv...)]. *)
Inductive ZapCall :=
| ZapPrint (level : Level) (args : list Arg)
| ZapPrintf (level : Level) (template : string) (args : list Arg)
| ZapPrintw (level : Level) (msg : string) (kv : list Arg).

Class LogLibs := {
  ZapLogger : Type;
  ParseLevel : string → option Level;
  Build : ZapConfig → result ZapLogger;
  With : list Arg → ZapLogger → ZapLogger;
  AddCallerSkip : Z → ZapLogger → ZapLogger;
  callerSkip : ZapLogger → Z;
  StackTrace : error → list Frame;
  errorText : error → string;
  Version : string;
  Getpid : string;
}.

(** The frames that a logger skips: none when it is built, more by the option, kept by
    fields. *)
Class LogLibsLaws `{LogLibs} := {
  callerSkip_Build cfg l : Build cfg = Ok l → callerSkip l = 0;
  callerSkip_With kv l : callerSkip (With kv l) = callerSkip l;
  callerSkip_Add n l : callerSkip (AddCallerSkip n l) = callerSkip l + n;
}.

(** ** The package *)
Inductive LogEnvironment := EnvironmentProduction | EnvironmentDevelopment | OtherEnvironment (s : string).

Record Config := mk_Config { Environment : LogEnvironment; cfg_Level : string; Outputs : list string }.

Section Log.
Context `{LogLibs}.

Record Logger := mk_Logger { x : ZapLogger }.

(** The root logger, nil at first, and what was handed to zap. *)
Record LogState := mk_LogState { root : option Logger; entries : list (ZapLogger * ZapCall) }.

Definition emit (l : Logger) (c : ZapCall) : M LogState unit :=
  modify (λ s, mk_LogState (root s) (entries s ++ [(x l, c)])).
(** [Fatal] of zap writes the entry and ends the process, here a panic. *)
Definition emitFatal (l : Logger) (c : ZapCall) : M LogState unit := emit l c;; gopanic.

Definition NewLogger (cfg : Config) : result ZapLogger :=
  match ParseLevel (cfg_Level cfg) with
  | None => Err (Errorf "error on setting log level")
  | Some level =>
      let production := match Environment cfg with EnvironmentProduction => true | _ => false end in
      let zapCfg := mk_ZapConfig production (negb production) level (Outputs cfg)
        [("version"%string, ArgValue Version); ("pid"%string, ArgValue Getpid)] in
      logger ← Build zapCfg;
      Ok (AddCallerSkip 2 logger)
  end.

Definition storeRoot (cfg : Config) : M LogState unit :=
  match NewLogger cfg with
  | Ok zapLogger => modify (λ s, mk_LogState (Some (mk_Logger zapLogger)) (entries s))
  | _ => gopanic
  end.

Definition Init (cfg : Config) : M LogState unit := storeRoot cfg.

Definition getDefaultLog : M LogState Logger :=
  s ← get;
  match root s with
  | Some l => mret l
  | None =>
      storeRoot (mk_Config EnvironmentDevelopment "debug" ["stderr"%string]);;
      s ← get;
      match root s with Some l => mret l | None => gopanic end
  end.

Definition Logger_WithFields (l : Logger) (keyValuePairs : list Arg) : Logger :=
  mk_Logger (With keyValuePairs (x l)).

Definition WithFields (keyValuePairs : list Arg) : M LogState Logger :=
  d ← getDefaultLog;
  let l := Logger_WithFields d keyValuePairs in
  mret (mk_Logger (AddCallerSkip (-1) (x l))).

(** ** Stack traces *)
Definition newline : string := String.String (ascii_of_nat 10) EmptyString.

Definition sprintStackTrace (st : list Frame) : string :=
  let st := if decide (0 < length st)%nat then take (length st - 1) st else st in
  foldl (λ builder f, builder +:+ newline +:+ Path f +:+ ":" +:+ pretty (Line f) +:+ " " +:+ Func f +:+ "()")
    ""%string st +:+ newline.

Fixpoint firstError (args : list Arg) : option error :=
  match args with
  | [] => None
  | ArgError e :: _ => Some e
  | _ :: args' => firstError args'
  end.

Definition appendStackTraceMaybeArgs (args : list Arg) : list Arg :=
  match firstError args with
  | Some err => args ++ [ArgValue (sprintStackTrace (StackTrace err))]
  | None => args
  end.

(** The elements at odd positions. *)
Fixpoint odds {A} (l : list A) : list A :=
  match l with
  | _ :: y :: l' => y :: odds l'
  | _ => []
  end.

Definition appendStackTraceMaybeKV (msg : string) (kv : list Arg) : string :=
  match firstError (odds kv) with
  | Some err => msg +:+ ": " +:+ errorText err +:+ sprintStackTrace (StackTrace err) +:+ newline
  | None => msg
  end.

(** ** The methods of a logger *)
Definition Logger_Debug (l : Logger) (args : list Arg) := emit l (ZapPrint DebugLevel args).
Definition Logger_Info (l : Logger) (args : list Arg) := emit l (ZapPrint InfoLevel args).
Definition Logger_Warn (l : Logger) (args : list Arg) := emit l (ZapPrint WarnLevel args).
Definition Logger_Error (l : Logger) (args : list Arg) := emit l (ZapPrint ErrorLevel args).
Definition Logger_Fatal (l : Logger) (args : list Arg) := emitFatal l (ZapPrint FatalLevel args).
Definition Logger_Debugf (l : Logger) (template : string) (args : list Arg) := emit l (ZapPrintf DebugLevel template args).
Definition Logger_Infof (l : Logger) (template : string) (args : list Arg) := emit l (ZapPrintf InfoLevel template args).
Definition Logger_Warnf (l : Logger) (template : string) (args : list Arg) := emit l (ZapPrintf WarnLevel template args).
Definition Logger_Errorf (l : Logger) (template : string) (args : list Arg) := emit l (ZapPrintf ErrorLevel template args).
Definition Logger_Fatalf (l : Logger) (template : string) (args : list Arg) := emitFatal l (ZapPrintf FatalLevel template args).
Definition Logger_Debugw (l : Logger) (msg : string) (kv : list Arg) := emit l (ZapPrintw DebugLevel msg kv).
Definition Logger_Infow (l : Logger) (msg : string) (kv : list Arg) := emit l (ZapPrintw InfoLevel msg kv).
Definition Logger_Warnw (l : Logger) (msg : string) (kv : list Arg) := emit l (ZapPrintw WarnLevel msg kv).
Definition Logger_Errorw (l : Logger) (msg : string) (kv : list Arg) := emit l (ZapPrintw ErrorLevel msg kv).
Definition Logger_Fatalw (l : Logger) (msg : string) (kv : list Arg) := emitFatal l (ZapPrintw FatalLevel msg kv).

(** ** The functions of the package *)
Definition Debug (args : list Arg) := l ← getDefaultLog; Logger_Debug l args.
Definition Info (args : list Arg) := l ← getDefaultLog; Logger_Info l args.
Definition Warn (args : list Arg) := l ← getDefaultLog; Logger_Warn l args.
Definition Error (args : list Arg) := l ← getDefaultLog; Logger_Error l (appendStackTraceMaybeArgs args).
Definition Fatal (args : list Arg) := l ← getDefaultLog; Logger_Fatal l (appendStackTraceMaybeArgs args).
Definition Debugf (template : string) (args : list Arg) :=
  l ← getDefaultLog; Logger_Debugf l template args.
Definition Infof (template : string) (args : list Arg) :=
  l ← getDefaultLog; Logger_Infof l template args.
Definition Warnf (template : string) (args : list Arg) :=
  l ← getDefaultLog; Logger_Warnf l template args.
Definition log_Errorf (template : string) (args : list Arg) :=
  l ← getDefaultLog; Logger_Errorf l template (appendStackTraceMaybeArgs args).
Definition Fatalf (template : string) (args : list Arg) :=
  l ← getDefaultLog; Logger_Fatalf l template (appendStackTraceMaybeArgs args).
Definition Debugw (msg : string) (kv : list Arg) := l ← getDefaultLog; Logger_Debugw l msg kv.
Definition Infow (msg : string) (kv : list Arg) := l ← getDefaultLog; Logger_Infow l msg kv.
Definition Warnw (msg : string) (kv : list Arg) := l ← getDefaultLog; Logger_Warnw l msg kv.
Definition Errorw (msg : string) (kv : list Arg) := l ← getDefaultLog; Logger_Errorw l (appendStackTraceMaybeKV msg kv) kv.
Definition Fatalw (msg : string) (kv : list Arg) := l ← getDefaultLog; Logger_Fatalw l (appendStackTraceMaybeKV msg kv) kv.

(** ** Which code an entry names *)

(** A use of the package: a function of it, or a method of a logger that [WithFields]
    and further fields made. *)
Inductive Use :=
| UseFunc (f : M LogState unit)
| UseMethod (fields : list Arg) (more : list (list Arg)) (m : Logger → M LogState unit).

Definition use (u : Use) : M LogState unit :=
  match u with
  | UseFunc f => f
  | UseMethod fields more m => l ← WithFields fields; m (foldl Logger_WithFields l more)
  end.

(** The functions and the methods that log. *)
Inductive isFunc : M LogState unit → Prop :=
| isDebug args : isFunc (Debug args)
| isInfo args : isFunc (Info args)
| isWarn args : isFunc (Warn args)
| isError args : isFunc (Error args)
| isFatal args : isFunc (Fatal args)
| isDebugf t args : isFunc (Debugf t args)
| isInfof t args : isFunc (Infof t args)
| isWarnf t args : isFunc (Warnf t args)
| isErrorf t args : isFunc (log_Errorf t args)
| isFatalf t args : isFunc (Fatalf t args)
| isDebugw m kv : isFunc (Debugw m kv)
| isInfow m kv : isFunc (Infow m kv)
| isWarnw m kv : isFunc (Warnw m kv)
| isErrorw m kv : isFunc (Errorw m kv)
| isFatalw m kv : isFunc (Fatalw m kv).

Inductive isMethod : (Logger → M LogState unit) → Prop :=
| isEmit (c : ZapCall) : isMethod (λ l, emit l c)
| isEmitFatal (c : ZapCall) : isMethod (λ l, emitFatal l c).

(** The frames of this package between the caller and zap. *)
Definition frames (u : Use) : Z := match u with UseFunc _ => 2 | UseMethod _ _ _ => 1 end.

Definition validUse (u : Use) : Prop :=
  match u with UseFunc f => isFunc f | UseMethod _ _ m => isMethod m end.
End Log.

Section LogFacts.
Context `{LL : LogLibsLaws}.

(** The root logger skips two frames. *)
Definition rootSkips (s : LogState) : Prop := ∀ l, root s = Some l → callerSkip (x l) = 2.

Lemma storeRoot_skips cfg s r s' :
  storeRoot cfg s = (r, s') → rootSkips s → rootSkips s' ∧ entries s' = entries s ∧ (r = Ok tt ∨ r = Panic).
Proof.
  unfold storeRoot, NewLogger. destruct (ParseLevel _) as [lv|]; cbn; [|intros [= <- <-]; auto].
  destruct (Build _) as [l| | |] eqn:E; cbn; intros [= <- <-] Hs; auto.
  split; [|auto]. intros l' [= <-]. cbn. by rewrite callerSkip_Add, (callerSkip_Build _ _ E).
Qed.

Lemma getDefaultLog_skips s r s' :
  getDefaultLog s = (r, s') → rootSkips s →
  rootSkips s' ∧ entries s' = entries s ∧ (r = Panic ∨ ∃ l, r = Ok l ∧ callerSkip (x l) = 2).
Proof.
  unfold getDefaultLog, get, mbind, M_bind. intros E Hs.
  destruct (root s) as [l|] eqn:Hl; [injection E as <- <-; pose proof (Hs l Hl); eauto 6|].
  destruct (storeRoot _ s) as [r1 s1] eqn:E1. apply storeRoot_skips in E1 as (Hs1 & He & Ho); [|done].
  destruct Ho as [->| ->]; [|injection E as <- <-; auto].
  destruct (root s1) as [l|] eqn:Hl1; injection E as <- <-; [pose proof (Hs1 l Hl1)|]; eauto 6.
Qed.

Lemma derived_skips l more : callerSkip (x (foldl Logger_WithFields l more)) = callerSkip (x l).
Proof. revert l. induction more as [|kv more IH]; intros l; [done|]. cbn [foldl]. rewrite IH. apply callerSkip_With. Qed.

Lemma emit_entries l c s : snd (emit l c s) = mk_LogState (root s) (entries s ++ [(x l, c)]).
Proof. done. Qed.
Lemma emitFatal_entries l c s : snd (emitFatal l c s) = mk_LogState (root s) (entries s ++ [(x l, c)]).
Proof. done. Qed.

(** Every use adds one entry, with a logger that skips exactly the frames of this package,
    or panics because no root logger can be built; the root logger keeps skipping two. *)
Lemma use_names_caller u s r s' :
  rootSkips s → validUse u → use u s = (r, s') →
  rootSkips s' ∧
  ((r = Panic ∧ entries s' = entries s) ∨
   ∃ l c, entries s' = entries s ++ [(l, c)] ∧ callerSkip l = frames u).
Proof.
  intros Hs Hu E. destruct u as [f|fields more m]; cbn [use validUse frames] in *.
  - assert (∃ k c, f = (l ← getDefaultLog; k l) ∧ (k = (λ l, emit l c) ∨ k = (λ l, emitFatal l c)))
      as (k & c & -> & Hk).
    { destruct Hu; eexists _, _; (split; [reflexivity|]); (left; reflexivity) || (right; reflexivity). }
    unfold mbind, M_bind in E. destruct (getDefaultLog s) as [r1 s1] eqn:E1.
    destruct (getDefaultLog_skips _ _ _ E1 Hs) as (Hs1 & He & [->|(l & -> & Hl)]);
      [injection E as <- <-; by auto|].
    assert (s' = mk_LogState (root s1) (entries s1 ++ [(x l, c)])) as ->.
    { destruct Hk as [->| ->]; by injection E as _ <-. }
    split; [done|]. right. exists (x l), c. by rewrite He.
  - unfold WithFields in E. unfold mbind, M_bind in E. destruct (getDefaultLog s) as [r1 s1] eqn:E1.
    destruct (getDefaultLog_skips _ _ _ E1 Hs) as (Hs1 & He & [->|(l & -> & Hl)]);
      [injection E as <- <-; by auto|].
    cbn beta iota delta [mret M_ret] in E. set (l' := foldl _ _ more) in E.
    assert (callerSkip (x l') = 1) as Hl'.
    { unfold l'. rewrite derived_skips. cbn. rewrite callerSkip_Add, callerSkip_With, Hl. done. }
    destruct Hu as [c|c]; injection E as _ <-; (split; [done|]); right; exists (x l'), c; by rewrite He.
Qed.

(** [Error], [Fatal], [Errorf] and [Fatalf] hand zap one argument more than they got when
    one of them is an error. *)
Lemma appendStackTraceMaybeArgs_length args :
  length (appendStackTraceMaybeArgs args) =
  (length args + if firstError args is Some _ then 1 else 0)%nat.
Proof. unfold appendStackTraceMaybeArgs. destruct (firstError args); [by rewrite length_app|simpl; lia]. Qed.
End LogFacts.
